(* ===== verification/_CoqProject ===== *)
-Q . S2P
Prelude.v
Sha256.v
Tenant.v
Bitmask.v
Evaluate.v
Merkle.v
SessionMap.v
AuditReplay.v
Quarantine.v
Monitor.v
Json.v
GoTime.v
EventJson.v
Persistence.v
Axis.v
AxisWorker.v
Gateway.v
Inference.v
Orchestrator.v
Rpc.v
Publication.v
Ops.v
VectorStore.v
DriftPool.v
DriftEffect.v
Staging.v
ReportJson.v
FixtureJson.v
StagingRun.v
