(* ===== verification/Prelude.v ===== *)
(** * Veraxis Memory Admissibility Management: a verification library

    The program decides, turn by turn, which memories an agent may be given,
    strips the others from its context, and leaves signed evidence of what it
    did.  This library models its Go packages (under [src/pkg], and the reference
    programs of [src/cmd] and [src/benchmarks]) as executable definitions, one
    file per component, and proves what each promises.

    ** The files, in dependency order

    - [Prelude]: bytes, byte arrays, integers at their width, errors and results,
      time, the contracts of [sort.Slice] and of ranging over a map, automation.
    - [Sha256]: the hash, executable, and the notion of a collision among given
      messages.
    - [Tenant], [Bitmask] ([pkg/tenant], [pkg/bitmask], [pkg/policy]): the
      constant-time comparison is equality; masks, flags and policy snapshots.
    - [Evaluate] ([pkg/evaluate]): the hot path refines a list of rules in order
      of priority; tighter masks admit less.
    - [Merkle] ([pkg/merkle]): the root of a turn binds its leaves, and does not
      depend on their order when the memory ids are distinct.
    - [SessionMap], [AuditReplay] ([pkg/sessionmap], [pkg/audit]): what the signature
      covers, replay, and the lineage record of a consequence.
    - [Quarantine] ([pkg/quarantine/quarantine.go]): a snapshot compiled from the
      event ledger refines one state machine per memory; its hash is
      deterministic and binds it.
    - [Monitor] (same file, [RuntimeMonitor]): the shared state; publication
      without interference, and as interleaved atomic steps ([sys_step]).
    - [Json], [GoTime], [EventJson]: what the program uses of [encoding/json],
      [unicode/utf8] and [time], down to the bytes: the text of an event, compact
      or indented, the scanner and the decoder of any text.
    - [Persistence] ([pkg/quarantine/persistence.go]): the write-ahead log over
      system calls that fail or fall short; replay, recovery, tampering.
    - [Axis], [AxisWorker] ([pkg/axis]): drift in IEEE 754 arithmetic, and the
      worker pool with its bounded queue ([worker_step]).
    - [Gateway], [Inference] ([pkg/gateway]): sanitizing a context window, the
      provider adapters, and a complete turn.
    - [Orchestrator] ([pkg/orchestrator]): a handoff to another agent, and
      concurrent handoffs over the slots channel ([handoff_step]).
    - [Rpc] ([pkg/rpc]): the two handlers of the server.
    - [Publication]: the composition of ledger and monitor under concurrent
      writers, as the handlers of [Rpc] and the workers of [AxisWorker] use them
      ([pub_step]).
    - [Ops] ([pkg/ops]): readiness and boot checks.
    - [VectorStore] ([pkg/integrations/vectorstore]): the retrieval hook.
    - [DriftPool]: the worker pool of [AxisWorker] action by action
      ([pool_step]), so that jobs, clients and the monitor's actions interleave.
    - [DriftEffect]: the pool composed with the hook before it, whose loop over the
      records of a query interleaves with the workers ([query_run]), and the log,
      the monitors and the gateway behind it.
    - [Staging]: the drift fixtures, the drill vectors and the provider of the
      staging verification, the control harness and the client loop, run on the
      definitions above.
    - [FixtureJson] ([benchmarks/axis_fixtures]): the fixture generator and its
      file to the bytes, floats as shortest decimals.
    - [ReportJson], [StagingRun] ([cmd/staging-verify]): the report file to its
      bytes, and the whole run of the staging verification over a record of what
      it reads of the world ([staging_env]).

    The calls go as in the program: the gateway asks the monitor and the hot
    path, and its leaves go through the Merkle tree into a Session MAP, which the
    turn and the handoff return and the audit replays; the RPC server and the
    drift workers write events to the durable ledger and then to the monitor;
    recovery rebuilds the monitor from the ledger.

    ** How the code is represented

    A function of the program is a definition of the same name.  A method that
    changes its receiver takes it and returns it.  Several results with an error
    are a [result], or a pair when the code returns values beside an error.  What
    a call reads of the world is an argument: the clock, random bytes, the
    context's error, the fate of each system call, the provider's answer.  State
    shared between goroutines is read through a function of the moment, as in
    [Gateway.ClientWrapper], where each binding sees its own monitor, or is
    changed by a step relation; the relations are [Monitor.sys_step],
    [Publication.pub_step], [AxisWorker.worker_step],
    [DriftPool.pool_step], [DriftEffect.query_run] and [Orchestrator.handoff_step].  Integers are in
    [Z], wrapped by [u8] ... [u64] where the code can wrap; time is in
    nanoseconds; float values are [spec_float].

    ** Interfaces

    Four classes state what the program relies on in code it only calls:
    [SliceSort] and [MapRange] (unspecified order), [Ed25519] (a signature
    verifies under the key's other half) and [EventCodec] (decoding undoes
    encoding).  Theorems are proved for every instance.  [EventJson.json_codec]
    shows that [encoding/json] keeps the last contract.  Examples and witnesses use
    small instances: [SmallGo], [AuditReplay.keyed_hash_scheme]
    and, where a log is evaluated, [Persistence.compact_codec].

    ** What the theorems show

    - Enforcement: exactly the admissible memories are injected, and nothing
      a turn or a handoff does depends on the content of a refused one
      ([leaf_injected_iff], [refused_content_has_no_influence]); the hot path and
      the snapshot refine their specifications.
    - Evidence: roots, hashes, attestation bytes and digests bind what they
      cover, up to a SHA-256 collision among messages actually hashed; what is
      generated verifies.
    - Durability: append, replay and recovery agree whatever the system calls
      do, and a log that cannot be read to its end gives no events
      ([replayFrom_accepts_iff]); for events the codec decodes back a success is
      durable and in force; events survive JSON when their strings are valid UTF-8,
      and only then; whatever a log holds, what is replayed from it is typed ([replayed_events_typed]).
    - Concurrency: invariants of the step relations by rule induction; the log is
      never behind the monitor as long as no append is torn, and a crash inside an
      append loses nothing that was in force or is noticed ([monitor_never_ahead_of_log]); writers and workers
      terminate by a measure, and shutdown drains the queue
      ([publications_terminate], [pool_shuts_down]); the counters of the pool are
      right whatever the interleaving ([pool_accounts]).
    - The whole way of a drifted memory: from the retrieval hook over the pool and
      the log to every restarted gateway, as long as no append is torn and the
      codec decodes the events back ([drifted_retrieval_is_stripped],
      [drift_survives_restart]), and to the running one if a single worker writes
      ([single_worker_enforces_at_once]).
    - The reference programs: harness, client loop and staging verification end
      in success in every world that does its part ([staging_run_accepts]); the
      generated fixture file reads back as the fixtures
      ([fixtures_main_reads_back]).
    - Weaknesses: theorems whose comment begins with "Known weakness", or that
      exhibit an ambiguity, state behaviour of the code that its purpose or its
      documentation does not intend.

    ** Bounds and fuel

    [Merkle.reduce_levels] gets the number of leaves as fuel, and
    [reduce_levels_exits] shows that it reaches the exit of the loop.
    [Persistence.replay_loop] gets the length of the log plus one; a record takes
    at least 39 bytes, so [replay_total] shows that replay always answers, and
    [replay_loop_fuel] that more fuel changes nothing.  [Json.parse] gets twice the
    length of the text, enough by [parse_fuel_enough].  [Sha256.run_blocks] gets
    the number of words of the message, of which each step takes 16.
    [FixtureJson.shortest] tries 17 lengths; that some length is enough is checked
    for every float of the fixtures ([fixtures_json_total]).  The
    measures of termination are [Publication.work], [AxisWorker.pool_work] and
    [DriftPool.pool_rank].  The race of the staging run is a schedule that ends with
    two moves of main's handoff, after which it has returned
    ([StagingRun.overflow_returns]).

    ** Not modelled

    Console output; the mains that only print; the SDKs, the protobuf
    schema and the deployment files.  The text of the errors of [time.Parse].  In
    [AxisWorker.worker_step] a job is one step; [DriftPool] refines it.  [DriftPool]
    has the workers as the only writers of the log and the monitor, [Publication]
    any writers of both.  A time is an instant without its zone: [EventJson.Marshal_event]
    and the report write it in UTC, as the callers make it, except that the first
    event of the staging run is made with [time.Unix], which has the zone of the
    process; the instant read back is the same.  The text that [json.Marshal] wraps
    around the error of a year out of range.  [FileLedger.ReplayGenesis] reads
    from its open file; the faults of seeking and reading are those of
    [Persistence.replayFrom_file].  The counters of the retrieval hook are those of
    one query at a time; other queries are clients of the pool. *)
From stdpp Require Export base gmap vector list strings sorting.
From Stdlib Require Export ZArith Lia.
From Stdlib Require Export Strings.Byte.

#[global] Open Scope string_scope.
#[global] Open Scope list_scope.
#[global] Open Scope Z_scope.

#[global] Arguments Z.testbit : simpl never.
#[global] Arguments Z.land : simpl never.
#[global] Arguments Z.lor : simpl never.
#[global] Arguments Z.shiftl : simpl never.
#[global] Arguments Z.pow : simpl never.
#[global] Arguments Z.modulo : simpl never.

(** ** Bytes, byte slices and byte arrays *)

Abbreviation byte := Byte.byte.
Abbreviation bytes := (list Byte.byte).
(** Go's [[n]byte]. *)
Abbreviation array n := (vec Byte.byte n%nat).

#[global] Instance byte_eq_decision : EqDecision Byte.byte := Byte.byte_eq_dec.
#[global] Program Instance byte_countable : Countable Byte.byte :=
  inj_countable Byte.to_N Byte.of_N _.
Next Obligation. intros b. apply Byte.of_to_N. Qed.

Definition byte_to_Z (b : byte) : Z := Z.of_N (Byte.to_N b).

(** [byte(z)] of an integer: the low eight bits. *)
Definition byte_of_Z (z : Z) : byte :=
  match Byte.of_N (Z.to_N (z mod 256)) with
  | Some b => b
  | None => x00
  end.

(** The zero value [[n]byte{}]. *)
Definition zero_array (n : nat) : array n := vreplicate n x00.

(** [copy(dst[:], src)] into a zeroed [[n]byte]: extra source bytes are left
    out and missing ones stay zero. *)
Fixpoint copy_into (n : nat) (src : bytes) : array n :=
  match n with
  | O => [#]
  | S n' =>
      match src with
      | [] => x00 ::: copy_into n' []
      | b :: src' => b ::: copy_into n' src'
      end
  end.

Lemma vec_to_list_copy_into n src :
  length src = n -> vec_to_list (copy_into n src) = src.
Proof.
  revert src. induction n as [|n IH]; intros [|b src]; simpl; try done.
  intros [= Hlen]. by rewrite IH.
Qed.

Lemma copy_into_vec n (v : array n) : copy_into n (vec_to_list v) = v.
Proof. apply vec_to_list_inj2, vec_to_list_copy_into, length_vec_to_list. Qed.

(** Arrays as map keys, by an encoding that computes. *)
#[global] Program Instance array_countable n : Countable (array n) :=
  inj_countable vec_to_list (fun l => Some (copy_into n l)) _.
Next Obligation. intros n v. simpl. by rewrite copy_into_vec. Qed.

(** [binary.BigEndian.PutUint{16,32,64}]: [n] bytes, most significant first. *)
Fixpoint be_bytes (n : nat) (z : Z) : bytes :=
  match n with
  | O => []
  | S n' => byte_of_Z (Z.shiftr z (8 * Z.of_nat n')) :: be_bytes n' z
  end.

(** [binary.BigEndian.Uint{16,32,64}]. *)
Fixpoint be_value (bs : bytes) : Z :=
  match bs with
  | [] => 0
  | b :: bs' => byte_to_Z b * 256 ^ Z.of_nat (length bs') + be_value bs'
  end.

(** [[]byte(s)] of a Go string; a Go string is a sequence of bytes. *)
Fixpoint bytes_of (s : string) : bytes :=
  match s with
  | EmptyString => []
  | String c s' => Ascii.byte_of_ascii c :: bytes_of s'
  end.

(** [bytes.Compare(a, b) < 0] and [string(a) < string(b)]. *)
Fixpoint bytes_ltb (a b : bytes) : bool :=
  match a, b with
  | [], [] => false
  | [], _ :: _ => true
  | _ :: _, [] => false
  | x :: a', y :: b' =>
      if byte_to_Z x <? byte_to_Z y then true
      else if byte_to_Z y <? byte_to_Z x then false
      else bytes_ltb a' b'
  end.

(** [hex.EncodeToString]. *)
Definition hex_digit (n : Z) : Ascii.ascii :=
  Ascii.ascii_of_N (Z.to_N (if n <? 10 then 48 + n else 87 + n)).

Fixpoint hex_EncodeToString (bs : bytes) : string :=
  match bs with
  | [] => ""
  | b :: bs' =>
      String (hex_digit (byte_to_Z b / 16))
        (String (hex_digit (byte_to_Z b mod 16)) (hex_EncodeToString bs'))
  end.

(** ** Machine integers *)

Definition u8 (z : Z) : Z := z mod 2 ^ 8.
Definition u16 (z : Z) : Z := z mod 2 ^ 16.
Definition u32 (z : Z) : Z := z mod 2 ^ 32.
Definition u64 (z : Z) : Z := z mod 2 ^ 64.
Definition max_int64 : Z := 2 ^ 63 - 1.
Definition min_int64 : Z := - 2 ^ 63.
(** [int64(z)]. *)
Definition i64 (z : Z) : Z := (z + 2 ^ 63) mod 2 ^ 64 - 2 ^ 63.

(** ** Errors and results *)

(** The dynamic types an [error] value can have in this program. *)
Inductive error_type :=
| ErrorString                 (* errors.New *)
| WrapError                   (* fmt.Errorf with %w *)
| RPCError (code : Z).        (* *rpc.Error *)

(** An [error] value: the text its [Error()] method returns, and its type. *)
Record error := mkError { error_text : string; error_dyn : error_type }.

Definition errors_New (text : string) : error := mkError text ErrorString.

(** [(T, error)] of a function that returns the zero [T] with a non-nil error. *)
Inductive result (A : Type) :=
| Ok (a : A)
| Err (e : error).
Arguments Ok {A} _.
Arguments Err {A} _.

#[global] Instance error_type_eq_dec : EqDecision error_type.
Proof. solve_decision. Defined.
#[global] Instance error_eq_dec : EqDecision error.
Proof. solve_decision. Defined.
#[global] Instance result_eq_dec `{EqDecision A} : EqDecision (result A).
Proof. solve_decision. Defined.

Definition result_bind {A B} (r : result A) (k : A -> result B) : result B :=
  match r with
  | Ok a => k a
  | Err e => Err e
  end.

Definition is_ok {A} (r : result A) : bool :=
  match r with Ok _ => true | Err _ => false end.

Declare Scope go_scope.
Delimit Scope go_scope with go.
#[global] Open Scope go_scope.
Notation "'let!' x := r 'in' k" := (result_bind r (fun x => k))
  (at level 10, x pattern, r at level 100, k at level 200) : go_scope.

(** ** Time

    A [time.Time] is the instant it denotes, in nanoseconds since the Unix
    epoch; a [time.Duration] is a 64-bit count of nanoseconds. *)

Definition second : Z := 10 ^ 9.
Definition hour : Z := 3600 * second.
(** The zero [time.Time]: January 1, year 1, 00:00:00 UTC. *)
Definition zero_time : Z := - 62135596800 * second.
Definition is_zero_time (t : Z) : bool := t =? zero_time.
Definition time_unix (t : Z) : Z := t / second.
(** [t.UnixNano()] is undefined out of the int64 range; the implementation
    wraps. *)
Definition time_unix_nano (t : Z) : Z := i64 t.
(** [t.Sub(u)] saturates. *)
Definition time_sub (t u : Z) : Z := Z.max min_int64 (Z.min max_int64 (t - u)).

(** ** Slices *)

(** [sort.Slice(s, less)]: the package documents a permutation of [s] sorted by
    [less], and no stability.  Clients are proved against this interface. *)
Record strict_weak_order {A} (less : A -> A -> bool) : Prop := {
  swo_irrefl : forall x, less x x = false;
  swo_trans : forall x y z, less x y = true -> less y z = true -> less x z = true;
  swo_incomp : forall x y z, less x y = false -> less y z = false -> less x z = false
}.

Class SliceSort := {
  sort_Slice : forall {A : Type}, (A -> A -> bool) -> list A -> list A;
  sort_Slice_perm : forall A (less : A -> A -> bool) l, sort_Slice less l ≡ₚ l;
  sort_Slice_sorted : forall A (less : A -> A -> bool) l,
    strict_weak_order less ->
    StronglySorted (fun x y => less y x = false) (sort_Slice less l)
}.

(** [for k, v := range m] over a Go map visits every entry once, in an order
    the language leaves unspecified. *)
Class MapRange := {
  map_range : forall {K V : Type} `{Countable K}, gmap K V -> list (K * V);
  map_range_perm : forall (K V : Type) `{Countable K} (m : gmap K V),
    map_range m ≡ₚ map_to_list m
}.

(** The insertion sort [sort.Slice] runs on slices of at most 12 elements. *)
Section insertion_sort.
Context {A : Type} (less : A -> A -> bool).

Fixpoint insert_sorted (x : A) (l : list A) : list A :=
  match l with
  | [] => [x]
  | y :: l' => if less x y then x :: y :: l' else y :: insert_sorted x l'
  end.

Definition insertion_sort (l : list A) : list A :=
  foldl (fun acc x => insert_sorted x acc) [] l.
End insertion_sort.

(** ** Automation *)

Create HintDb mam.
Create HintDb mam_bytes.
#[global] Create Rewrite HintDb mam.

(** Case analysis on the tests of a handler, innermost scrutinee first. *)
Ltac split_ifs :=
  repeat match goal with
  | |- context [if ?b then _ else _] =>
      match b with context [if _ then _ else _] => fail 1 | _ => destruct b eqn:? end
  end.

Ltac split_ifs_in H :=
  repeat match type of H with
  | context [if ?b then _ else _] =>
      match b with context [if _ then _ else _] => fail 1 | _ => destruct b eqn:? end
  end.

(** A closed range [a <= b < c]. *)
Ltac z_range := split; [apply Z.leb_le|apply Z.ltb_lt]; vm_compute; reflexivity.

(** Membership in concatenations of explicit lists. *)
Ltac in_list :=
  repeat first [rewrite elem_of_app | rewrite elem_of_cons | rewrite list_elem_of_singleton];
  intuition auto.

(** A closed decidable goal, by evaluation. *)
Ltac by_decide := refine (bool_decide_unpack _ _); vm_compute; exact I.

(** Read the boolean hypotheses of a branch as propositions. *)
Ltac bool_facts :=
  repeat match goal with
  | H : _ && _ = true |- _ => apply andb_true_iff in H as [? ?]
  | H : _ || _ = false |- _ => apply orb_false_iff in H as [? ?]
  | H : negb _ = true |- _ => apply negb_true_iff in H
  | H : negb _ = false |- _ => apply negb_false_iff in H
  | H : bool_decide _ = true |- _ => apply bool_decide_eq_true in H
  | H : bool_decide _ = false |- _ => apply bool_decide_eq_false in H
  | H : (_ =? _)%Z = true |- _ => apply Z.eqb_eq in H
  | H : (_ =? _)%Z = false |- _ => apply Z.eqb_neq in H
  | H : (_ <? _)%Z = true |- _ => apply Z.ltb_lt in H
  | H : (_ <? _)%Z = false |- _ => apply Z.ltb_ge in H
  | H : (_ <=? _)%Z = true |- _ => apply Z.leb_le in H
  | H : (_ <=? _)%Z = false |- _ => apply Z.leb_gt in H
  end.

(** ** Lemmas on bytes *)

Lemma byte_to_Z_range b : 0 <= byte_to_Z b < 256.
Proof.
  unfold byte_to_Z. pose proof (Byte.to_N_bounded b) as Hb.
  split; [apply N2Z.is_nonneg|]. change 256 with (Z.of_N 256). lia.
Qed.

Lemma byte_of_to_Z b : byte_of_Z (byte_to_Z b) = b.
Proof.
  unfold byte_of_Z. rewrite Z.mod_small by apply byte_to_Z_range.
  unfold byte_to_Z. by rewrite N2Z.id, Byte.of_to_N.
Qed.

Lemma byte_to_of_Z z : byte_to_Z (byte_of_Z z) = z mod 256.
Proof.
  pose proof (Z.mod_pos_bound z 256 ltac:(lia)) as Hz.
  unfold byte_of_Z, byte_to_Z. destruct (Byte.of_N (Z.to_N (z mod 256))) eqn:E.
  - apply Byte.to_of_N in E. rewrite E. by rewrite Z2N.id by lia.
  - apply Byte.of_N_None_iff in E. lia.
Qed.

#[global] Instance byte_to_Z_inj : Inj (=) (=) byte_to_Z.
Proof. intros a b E. by rewrite <-(byte_of_to_Z a), E, byte_of_to_Z. Qed.

Lemma length_be_bytes n z : length (be_bytes n z) = n.
Proof. induction n; simpl; congruence. Qed.

Lemma be_value_be_bytes n z : be_value (be_bytes n z) = z mod 256 ^ Z.of_nat n.
Proof.
  induction n as [|n IH]; [by rewrite Z.mod_1_r|].
  cbn [be_bytes be_value]. rewrite IH, byte_to_of_Z, length_be_bytes.
  rewrite Z.shiftr_div_pow2 by lia.
  replace (2 ^ (8 * Z.of_nat n)) with (256 ^ Z.of_nat n)
    by (rewrite Z.pow_mul_r by lia; reflexivity).
  rewrite Nat2Z.inj_succ, Z.pow_succ_r, Z.mul_comm by lia.
  rewrite (Z.mul_comm 256), Z.rem_mul_r by lia. lia.
Qed.

Lemma be_value_small n z :
  0 <= z < 256 ^ Z.of_nat n -> be_value (be_bytes n z) = z.
Proof. intros Hz. rewrite be_value_be_bytes. by apply Z.mod_small. Qed.

Lemma be_bytes_inj n z z' :
  0 <= z < 256 ^ Z.of_nat n -> 0 <= z' < 256 ^ Z.of_nat n ->
  be_bytes n z = be_bytes n z' -> z = z'.
Proof. intros Hz Hz' E. by rewrite <-(be_value_small n z), E, be_value_small. Qed.

Lemma be_value_range bs : 0 <= be_value bs < 256 ^ Z.of_nat (length bs).
Proof.
  induction bs as [|b bs IH]; cbn [be_value length]; [lia|].
  rewrite Nat2Z.inj_succ, Z.pow_succ_r by lia.
  pose proof (byte_to_Z_range b). nia.
Qed.

Lemma be_value_inj bs bs' :
  length bs = length bs' -> be_value bs = be_value bs' -> bs = bs'.
Proof.
  revert bs'. induction bs as [|b bs IH]; intros [|b' bs']; try done.
  cbn [length be_value]. intros [= Hlen] E.
  pose proof (be_value_range bs) as Hr. pose proof (be_value_range bs') as Hr'.
  rewrite <-Hlen in Hr', E.
  assert (byte_to_Z b = byte_to_Z b') as Hb by nia.
  apply byte_to_Z_inj in Hb as ->. f_equal. apply IH; [done|lia].
Qed.

Lemma be_bytes_be_value n bs : length bs = n -> be_bytes n (be_value bs) = bs.
Proof.
  intros <-. apply be_value_inj; [apply length_be_bytes|].
  apply be_value_small, be_value_range.
Qed.

#[global] Instance bytes_of_inj : Inj (=) (=) bytes_of.
Proof.
  intros s. induction s as [|c s IH]; intros [|c' s']; simpl; try done.
  intros [= Hc Hs]. f_equal; [|by apply IH].
  by rewrite <-(Ascii.ascii_of_byte_of_ascii c), Hc, Ascii.ascii_of_byte_of_ascii.
Qed.

Lemma bytes_of_app s s' : bytes_of (s +:+ s') = bytes_of s ++ bytes_of s'.
Proof. induction s as [|c s IH]; [done|]. simpl. f_equal. apply IH. Qed.

Lemma length_bytes_of s : length (bytes_of s) = String.length s.
Proof. induction s; simpl; congruence. Qed.

#[global] Arguments be_bytes : simpl never.
#[global] Arguments copy_into : simpl never.

(** Split the leading field off an equation between two concatenations whose
    first parts have the same length. *)
Ltac split_field E :=
  match type of E with
  | ?x ++ _ = ?y ++ _ =>
      let E' := fresh "Efield" in
      apply (app_inj_1 x y) in E as [E' E];
      [try apply vec_to_list_inj2 in E'; try apply bytes_of_inj in E'
      |rewrite ?length_vec_to_list, ?length_be_bytes, ?length_bytes_of; done || congruence]
  end.

(** ** Wrapping counters *)

Lemma u64_add_l a b : u64 (u64 a + b) = u64 (a + b).
Proof. unfold u64. by rewrite Zplus_mod_idemp_l. Qed.

Lemma u64_plus a b c : u64 a = u64 b -> u64 (a + c) = u64 (b + c).
Proof. intros E. by rewrite <-(u64_add_l a), E, u64_add_l. Qed.

(** Move a wrapped counter out of a sum. *)
Lemma u64_pull x y z : u64 (u64 x + y + z) = u64 (x + y + z).
Proof. by rewrite <-!Z.add_assoc, u64_add_l. Qed.

(** ** Replacing one element of a list *)

Lemma sum_list_insert (l : list nat) i x y :
  l !! i = Some x -> (sum_list (<[i := y]> l) + x = sum_list l + y)%nat.
Proof.
  revert i. induction l as [|z l IH]; intros [|i] Hi; try done.
  - injection Hi as ->. change (<[0%nat := y]> (x :: l)) with (y :: l). simpl. lia.
  - change (<[S i := y]> (z :: l)) with (z :: <[i := y]> l). specialize (IH i Hi). simpl. lia.
Qed.

(** What a list holds altogether, when one element is replaced. *)
Lemma concat_fmap_insert {A B} (f : A -> list B) (l : list A) i x :
  l !! i = Some x -> exists rest,
    concat (f <$> l) ≡ₚ f x ++ rest /\ forall y, concat (f <$> <[i := y]> l) ≡ₚ f y ++ rest.
Proof.
  intros Hi. pose proof (lookup_lt_Some _ _ _ Hi) as Hlt.
  exists (concat (f <$> take i l) ++ concat (f <$> drop (S i) l)).
  assert (forall y, concat (f <$> take i l ++ y :: drop (S i) l) ≡ₚ
    f y ++ (concat (f <$> take i l) ++ concat (f <$> drop (S i) l))) as Hy.
  { intros y. rewrite fmap_app, concat_app. cbn [fmap list_fmap concat]. apply Permutation_app_swap_app. }
  split; [by rewrite <-Hy, take_drop_middle|].
  intros y. rewrite insert_take_drop by done. apply Hy.
Qed.

(** ** [bytes_ltb] is a strict total order *)

Lemma bytes_ltb_irrefl a : bytes_ltb a a = false.
Proof. induction a as [|x a IH]; [done|]. simpl. by rewrite Z.ltb_irrefl. Qed.

Lemma bytes_ltb_trans a b c :
  bytes_ltb a b = true -> bytes_ltb b c = true -> bytes_ltb a c = true.
Proof.
  revert b c. induction a as [|x a IH]; intros [|y b] [|z c]; simpl; try done.
  intros Hab Hbc. split_ifs_in Hab; split_ifs_in Hbc; split_ifs; bool_facts;
    try done; try lia. by apply (IH b).
Qed.

Lemma bytes_ltb_antisym a b :
  bytes_ltb a b = false -> bytes_ltb b a = false -> a = b.
Proof.
  revert b. induction a as [|x a IH]; intros [|y b]; simpl; try done.
  intros Hab Hba. split_ifs_in Hab; split_ifs_in Hba; bool_facts; try done.
  f_equal; [apply byte_to_Z_inj; lia|by apply IH].
Qed.

Lemma bytes_ltb_swo {A} (key : A -> bytes) :
  strict_weak_order (fun x y => bytes_ltb (key x) (key y)).
Proof.
  split.
  - intros x. apply bytes_ltb_irrefl.
  - intros x y z. apply bytes_ltb_trans.
  - intros x y z Hxy Hyz. destruct (bytes_ltb (key x) (key z)) eqn:Hxz; [|done].
    destruct (bytes_ltb (key y) (key x)) eqn:Hyx.
    + rewrite <-Hyz. symmetry. by apply bytes_ltb_trans with (key x).
    + rewrite (bytes_ltb_antisym _ _ Hxy Hyx) in Hxz. congruence.
Qed.

(** Two sorts by a key that identifies the elements give the same list. *)
Lemma sorted_by_key_unique {A} (key : A -> bytes) (l1 l2 : list A) :
  let le := fun x y => bytes_ltb (key y) (key x) = false in
  (forall x y, x ∈ l1 -> y ∈ l1 -> key x = key y -> x = y) ->
  StronglySorted le l1 -> StronglySorted le l2 -> l1 ≡ₚ l2 -> l1 = l2.
Proof.
  intros le Hkey H1 H2 Hp. apply (StronglySorted_unique_strong le); [|done..].
  intros x y Hx Hy Hxy Hyx. apply Hkey; [done|by rewrite Hp|].
  by apply bytes_ltb_antisym.
Qed.

(** ** [insertion_sort] meets the contract of [sort.Slice] *)

Section insertion_sort_facts.
Context {A : Type} (less : A -> A -> bool).

Lemma insert_sorted_perm x l : insert_sorted less x l ≡ₚ x :: l.
Proof.
  induction l as [|y l IH]; [done|]. simpl. destruct (less x y); [done|].
  by rewrite IH, Permutation_swap.
Qed.

Lemma foldl_insert_perm acc l :
  foldl (fun acc x => insert_sorted less x acc) acc l ≡ₚ l ++ acc.
Proof.
  revert acc. induction l as [|x l IH]; intros acc; [done|]. simpl.
  by rewrite IH, insert_sorted_perm, Permutation_middle.
Qed.

Lemma insertion_sort_perm l : insertion_sort less l ≡ₚ l.
Proof. unfold insertion_sort. by rewrite foldl_insert_perm, app_nil_r. Qed.

Context (Hswo : strict_weak_order less).

Lemma insert_sorted_sorted x l :
  StronglySorted (fun x y => less y x = false) l ->
  StronglySorted (fun x y => less y x = false) (insert_sorted less x l).
Proof.
  induction 1 as [|y l Hl IH Hy]; simpl; [by repeat constructor|].
  destruct (less x y) eqn:Hxy.
  - constructor; [by constructor|]. constructor.
    + destruct (less y x) eqn:Hyx; [|done].
      rewrite <-(swo_irrefl _ Hswo x). symmetry. by apply (swo_trans _ Hswo) with y.
    + eapply Forall_impl; [exact Hy|]. intros z Hz. simpl in Hz.
      destruct (less z x) eqn:Hzx; [|done].
      rewrite <-Hz. symmetry. by apply (swo_trans _ Hswo) with x.
  - constructor; [done|]. rewrite insert_sorted_perm. by constructor.
Qed.

Lemma insertion_sort_sorted l :
  StronglySorted (fun x y => less y x = false) (insertion_sort less l).
Proof.
  unfold insertion_sort.
  assert (forall acc, StronglySorted (fun x y => less y x = false) acc ->
    StronglySorted (fun x y => less y x = false)
      (foldl (fun acc x => insert_sorted less x acc) acc l)) as Hgen.
  { induction l as [|x l IH]; [done|]. intros acc Hacc. simpl.
    by apply IH, insert_sorted_sorted. }
  apply Hgen. constructor.
Qed.
End insertion_sort_facts.

(** The instances the executable examples run with.  They are not in scope by
    default, so a theorem never picks them by accident. *)
Module SmallGo.
#[export] Instance small_slice_sort : SliceSort := {
  sort_Slice := @insertion_sort;
  sort_Slice_perm := @insertion_sort_perm;
  sort_Slice_sorted A less l H := insertion_sort_sorted less H l
}.

#[export] Instance trie_map_range : MapRange := {
  map_range K V _ _ m := map_to_list m;
  map_range_perm K V _ _ m := reflexivity _
}.
End SmallGo.
