(* ===== verification/Sha256.v ===== *)
(** * SHA-256

    The hash function of Go's [crypto/sha256], which [pkg/merkle],
    [pkg/quarantine], [pkg/gateway] and [pkg/audit] call: FIPS 180-4 over byte
    slices, executable, checked on the standard's own test messages.  Streaming
    [h.Write] calls hash the concatenation of what they write. *)
From S2P Require Import Prelude.

(** ** 32-bit words *)

Definition mask32 : Z := 4294967295.
Definition trunc32 (z : Z) : Z := Z.land z mask32.
Definition rotate_right (n x : Z) : Z :=
  Z.lor (Z.shiftr x n) (trunc32 (Z.shiftl x (32 - n))).
Definition choose (x y z : Z) : Z := Z.lxor (Z.land x y) (Z.land (Z.lxor x mask32) z).
Definition majority (x y z : Z) : Z :=
  Z.lxor (Z.lxor (Z.land x y) (Z.land x z)) (Z.land y z).
Definition big_sigma0 (x : Z) : Z :=
  Z.lxor (Z.lxor (rotate_right 2 x) (rotate_right 13 x)) (rotate_right 22 x).
Definition big_sigma1 (x : Z) : Z :=
  Z.lxor (Z.lxor (rotate_right 6 x) (rotate_right 11 x)) (rotate_right 25 x).
Definition small_sigma0 (x : Z) : Z :=
  Z.lxor (Z.lxor (rotate_right 7 x) (rotate_right 18 x)) (Z.shiftr x 3).
Definition small_sigma1 (x : Z) : Z :=
  Z.lxor (Z.lxor (rotate_right 17 x) (rotate_right 19 x)) (Z.shiftr x 10).

Definition round_constants : list Z :=
  [1116352408; 1899447441; 3049323471; 3921009573; 961987163; 1508970993; 2453635748; 2870763221;
   3624381080; 310598401; 607225278; 1426881987; 1925078388; 2162078206; 2614888103; 3248222580;
   3835390401; 4022224774; 264347078; 604807628; 770255983; 1249150122; 1555081692; 1996064986;
   2554220882; 2821834349; 2952996808; 3210313671; 3336571891; 3584528711; 113926993; 338241895;
   666307205; 773529912; 1294757372; 1396182291; 1695183700; 1986661051; 2177026350; 2456956037;
   2730485921; 2820302411; 3259730800; 3345764771; 3516065817; 3600352804; 4094571909; 275423344;
   430227734; 506948616; 659060556; 883997877; 958139571; 1322822218; 1537002063; 1747873779;
   1955562222; 2024104815; 2227730452; 2361852424; 2428436474; 2756734187; 3204031479; 3329325298].

(** ** Compression *)

Record hash_state := HashState {
  ha : Z; hb : Z; hc : Z; hd : Z; he : Z; hf : Z; hg : Z; hh : Z }.

Definition initial_state : hash_state :=
  HashState 1779033703 3144134277 1013904242 2773480762
            1359893119 2600822924 528734635 1541459225.

Definition one_round (k w : Z) (s : hash_state) : hash_state :=
  let t1 := trunc32 (hh s + big_sigma1 (he s) + choose (he s) (hf s) (hg s) + k + w) in
  let t2 := big_sigma0 (ha s) + majority (ha s) (hb s) (hc s) in
  HashState (trunc32 (t1 + t2)) (ha s) (hb s) (hc s)
            (trunc32 (hd s + t1)) (he s) (hf s) (hg s).

(** The message schedule, as a window of its last 16 words. *)
Definition next_word (ws : list Z) : Z :=
  trunc32 (small_sigma1 (nth 14 ws 0) + nth 9 ws 0 + small_sigma0 (nth 1 ws 0) + nth 0 ws 0).

Fixpoint run_rounds (ks ws : list Z) (s : hash_state) : hash_state :=
  match ks with
  | [] => s
  | k :: ks' => run_rounds ks' (tail ws ++ [next_word ws]) (one_round k (nth 0 ws 0) s)
  end.

Definition compress (s : hash_state) (ws : list Z) : hash_state :=
  let r := run_rounds round_constants ws s in
  HashState (trunc32 (ha s + ha r)) (trunc32 (hb s + hb r))
            (trunc32 (hc s + hc r)) (trunc32 (hd s + hd r))
            (trunc32 (he s + he r)) (trunc32 (hf s + hf r))
            (trunc32 (hg s + hg r)) (trunc32 (hh s + hh r)).

(** ** Padding and the digest *)

(** The padded length is a multiple of 64: [55 - n] is taken modulo 64. *)
Definition padded (msg : bytes) : bytes :=
  let n := Z.of_nat (length msg) in
  msg ++ x80 :: replicate (Z.to_nat ((55 - n) mod 64)) x00 ++ be_bytes 8 (8 * n).

Fixpoint words (bs : bytes) : list Z :=
  match bs with
  | b0 :: b1 :: b2 :: b3 :: rest => be_value [b0; b1; b2; b3] :: words rest
  | _ => []
  end.

(** One block per 16 words; the number of words is more than enough fuel. *)
Fixpoint run_blocks (fuel : nat) (ws : list Z) (s : hash_state) : hash_state :=
  match fuel, ws with
  | S fuel', _ :: _ => run_blocks fuel' (drop 16 ws) (compress s (take 16 ws))
  | _, _ => s
  end.

Definition digest (s : hash_state) : bytes :=
  be_bytes 4 (ha s) ++ be_bytes 4 (hb s) ++ be_bytes 4 (hc s) ++ be_bytes 4 (hd s) ++
  be_bytes 4 (he s) ++ be_bytes 4 (hf s) ++ be_bytes 4 (hg s) ++ be_bytes 4 (hh s).

(** [sha256.Sum256], and [h.Sum(nil)] after writing [msg] in any pieces. *)
Definition Sum256 (msg : bytes) : array 32 :=
  let ws := words (padded msg) in
  copy_into 32 (digest (run_blocks (length ws) ws initial_state)).

Arguments Sum256 : simpl never.
#[global] Opaque Sum256.

Example Sum256_empty : hex_EncodeToString (Sum256 []) =
  "e3b0c44298fc1c149afbf4c8996fb92427ae41e4649b934ca495991b7852b855".
Proof. vm_compute. reflexivity. Qed.

Example Sum256_one_block : hex_EncodeToString (Sum256 (bytes_of "abc")) =
  "ba7816bf8f01cfea414140de5dae2223b00361a396177a9cb410ff61f20015ad".
Proof. vm_compute. reflexivity. Qed.

Example Sum256_two_blocks :
  hex_EncodeToString
    (Sum256 (bytes_of "abcdbcdecdefdefgefghfghighijhijkijkljklmklmnlmnomnopnopq")) =
  "248d6a61d20638b8e5c026930c3e6039a33ce45964ff2167f6ecedd419db06c1".
Proof. vm_compute. reflexivity. Qed.

(** ** Collisions

    No hash into 32 bytes is injective, so the tamper-evidence theorems end in
    "or these two messages, both hashed by this run, collide": what they give an
    attacker is a SHA-256 collision it can exhibit. *)

Definition collision_among (msgs : list bytes) : Prop :=
  exists x y, x ∈ msgs /\ y ∈ msgs /\ x <> y /\ Sum256 x = Sum256 y.

Lemma collision_among_subseteq msgs msgs' :
  msgs ⊆ msgs' -> collision_among msgs -> collision_among msgs'.
Proof. intros Hsub (x & y & Hx & Hy & Hne & E). exists x, y. auto. Qed.

(** Equal digests of two hashed messages: the messages are equal or collide. *)
Lemma Sum256_cases msgs x y :
  x ∈ msgs -> y ∈ msgs -> Sum256 x = Sum256 y -> x = y \/ collision_among msgs.
Proof.
  intros Hx Hy E. destruct (decide (x = y)) as [|Hne]; [by left|].
  right. by exists x, y.
Qed.

#[export] Hint Resolve collision_among_subseteq : mam_bytes.
