(* ===== verification/Tenant.v ===== *)
(** * Tenant and domain equality ([pkg/tenant])

    The boundary check of the hot path: constant-time comparison of 32-byte
    hashes, through [crypto/subtle]. *)
From S2P Require Import Prelude.

(** [type IDHash [32]byte] *)
Definition IDHash : Type := array 32.

(** [subtle.ConstantTimeByteEq]: [uint32(x^y) - 1] borrows into bit 31 exactly
    when the bytes agree. *)
Definition ConstantTimeByteEq (x y : Z) : Z :=
  Z.shiftr (u32 (Z.lxor x y - 1)) 31.

(** The loop [v |= x[i] ^ y[i]]. *)
Fixpoint xor_accumulate (v : Z) (x y : bytes) : Z :=
  match x, y with
  | a :: x', b :: y' => xor_accumulate (Z.lor v (Z.lxor (byte_to_Z a) (byte_to_Z b))) x' y'
  | _, _ => v
  end.

Definition ConstantTimeCompare (x y : bytes) : Z :=
  if negb (length x =? length y)%nat then 0
  else ConstantTimeByteEq (xor_accumulate 0 x y) 0.

Definition ValidateTenant (memoryTenant runtimeTenant : IDHash) : bool :=
  ConstantTimeCompare memoryTenant runtimeTenant =? 1.

Definition ValidateDomain (memoryDomain runtimeDomain : IDHash) : bool :=
  ConstantTimeCompare memoryDomain runtimeDomain =? 1.

(** ** Correctness *)

Lemma xor_bytes_range a b : 0 <= Z.lxor (byte_to_Z a) (byte_to_Z b) < 256.
Proof.
  pose proof (byte_to_Z_range a). pose proof (byte_to_Z_range b).
  assert (0 <= Z.lxor (byte_to_Z a) (byte_to_Z b)) by (apply Z.lxor_nonneg; lia).
  split; [done|].
  assert (Z.shiftr (Z.lxor (byte_to_Z a) (byte_to_Z b)) 8 = 0) as E.
  { rewrite Z.shiftr_lxor, !Z.shiftr_div_pow2 by lia.
    by rewrite !Z.div_small by lia. }
  rewrite Z.shiftr_div_pow2 in E by lia. apply Z.div_small_iff in E; lia.
Qed.

Lemma lor_byte_range v w : 0 <= v < 256 -> 0 <= w < 256 -> 0 <= Z.lor v w < 256.
Proof.
  intros Hv Hw. assert (0 <= Z.lor v w) by (apply Z.lor_nonneg; lia).
  split; [done|].
  assert (Z.shiftr (Z.lor v w) 8 = 0) as E.
  { rewrite Z.shiftr_lor, !Z.shiftr_div_pow2 by lia. by rewrite !Z.div_small by lia. }
  rewrite Z.shiftr_div_pow2 in E by lia. apply Z.div_small_iff in E; lia.
Qed.

Lemma xor_accumulate_range v x y :
  0 <= v < 256 -> 0 <= xor_accumulate v x y < 256.
Proof.
  revert v y. induction x as [|a x IH]; intros v [|b y] Hv; simpl; try done.
  apply IH. apply lor_byte_range; [done|apply xor_bytes_range].
Qed.

Lemma xor_accumulate_zero v x y :
  length x = length y -> xor_accumulate v x y = 0 <-> v = 0 /\ x = y.
Proof.
  revert v y. induction x as [|a x IH]; intros v [|b y]; simpl; try done.
  { intros _. split; [by intros ->|by intros [? _]]. }
  intros [= Hlen]. rewrite (IH _ _ Hlen), Z.lor_eq_0_iff, Z.lxor_eq_0_iff.
  split; [intros [[-> ->%byte_to_Z_inj] ->]; done|by intros [-> [= -> ->]]].
Qed.

Lemma ConstantTimeByteEq_zero v :
  0 <= v < 256 -> ConstantTimeByteEq v 0 = if v =? 0 then 1 else 0.
Proof.
  intros Hv. unfold ConstantTimeByteEq, u32. rewrite Z.lxor_0_r.
  destruct (Z.eqb_spec v 0) as [->|Hne]; [done|].
  rewrite Z.mod_small by lia. rewrite Z.shiftr_div_pow2 by lia.
  apply Z.div_small. lia.
Qed.

(** [subtle.ConstantTimeCompare] decides equality. *)
Lemma ConstantTimeCompare_eq x y :
  ConstantTimeCompare x y = if bool_decide (x = y) then 1 else 0.
Proof.
  unfold ConstantTimeCompare. destruct (Nat.eqb_spec (length x) (length y)) as [Hlen|Hlen]; simpl.
  - rewrite ConstantTimeByteEq_zero by (apply xor_accumulate_range; lia).
    destruct (Z.eqb_spec (xor_accumulate 0 x y) 0) as [E|E].
    + apply xor_accumulate_zero in E as [_ ->]; [|done]. by rewrite bool_decide_true.
    + rewrite bool_decide_false; [done|]. intros ->. apply E.
      by apply xor_accumulate_zero.
  - rewrite bool_decide_false; [done|]. by intros ->.
Qed.

Lemma ValidateTenant_spec (m r : IDHash) : ValidateTenant m r = bool_decide (m = r).
Proof.
  unfold ValidateTenant. rewrite ConstantTimeCompare_eq.
  case_bool_decide as E; case_bool_decide as E'; try done.
  - exfalso. by apply E', vec_to_list_inj2.
  - exfalso. apply E. by rewrite E'.
Qed.

Lemma ValidateDomain_spec (m r : IDHash) : ValidateDomain m r = bool_decide (m = r).
Proof. exact (ValidateTenant_spec m r). Qed.

#[export] Hint Rewrite ValidateTenant_spec ValidateDomain_spec : mam.
