(* ===== verification/Bitmask.v ===== *)
(** * Memory flags, evaluation masks and policy snapshots
    ([pkg/bitmask], [pkg/policy])

    [MemoryFlags] and [RuntimeFlags] are both [uint64], so the conversion
    between them keeps every bit. *)
From S2P Require Import Prelude.

Definition FlagLifecycleActive : Z := Z.shiftl 1 0.
Definition FlagLifecycleExpired : Z := Z.shiftl 1 1.
Definition FlagLifecycleDeletionReq : Z := Z.shiftl 1 2.
Definition FlagLifecycleRevoked : Z := Z.shiftl 1 3.

Definition FlagSafetyQuarantined : Z := Z.shiftl 1 4.
Definition FlagSafetyPoisoningSuspected : Z := Z.shiftl 1 5.

Definition ClassUseToneAdjustment : Z := Z.shiftl 1 8.
Definition ClassUseContextOnly : Z := Z.shiftl 1 9.
Definition ClassUseDecisionSupport : Z := Z.shiftl 1 10.
Definition ClassUseAutomatedAction : Z := Z.shiftl 1 11.

Definition BlockUseAutomatedDenial : Z := Z.shiftl 1 16.
Definition BlockUseCreditEvaluation : Z := Z.shiftl 1 17.
Definition BlockUseClinicalTriage : Z := Z.shiftl 1 18.

Definition Tier0Transient : Z := Z.shiftl 1 24.
Definition Tier1Preference : Z := Z.shiftl 1 25.
Definition Tier2Operational : Z := Z.shiftl 1 26.
Definition Tier3HighConsequence : Z := Z.shiftl 1 27.

(** [bitmask.RuntimeFlags(f)] of a [MemoryFlags]. *)
Definition RuntimeFlags (f : Z) : Z := u64 f.

Record EvaluationMask := mkMask {
  RequiredLifecycle : Z;
  ProhibitedSafety : Z;
  AllowedUseClasses : Z;
  ProhibitedUseBlocks : Z;
  SensitivityLimit : Z
}.

(** [policy.Snapshot] *)
Record Snapshot := mkSnapshot {
  SnapID : string;
  SnapHash : array 32;
  SnapMask : EvaluationMask;
  Immutable : bool
}.

Definition ValidateSnapshot (s : Snapshot) : bool :=
  Immutable s && negb (bool_decide (SnapID s = "")).

(** ** Sets of bits *)

(** [flags & mask != 0] *)
Definition any_set (flags mask : Z) : bool := negb (Z.land flags mask =? 0).

Lemma nonzero_has_bit a : a <> 0 -> exists i, Z.testbit a i = true.
Proof.
  intros Hne. destruct (Z_lt_le_dec a 0) as [Hneg|Hpos].
  - (* every high bit of a negative number is set *)
    set (b := Z.lnot a). assert (0 <= b) as Hb by (unfold b, Z.lnot; lia).
    exists (Z.log2 b + 1). pose proof (Z.log2_nonneg b) as Hl.
    rewrite <-(Z.lnot_involutive a). fold b. rewrite Z.lnot_spec by lia.
    by rewrite Z.bits_above_log2 by lia.
  - exists (Z.log2 a). apply Z.bit_log2. lia.
Qed.

Lemma any_set_spec flags mask :
  any_set flags mask = true <-> exists i, Z.testbit flags i = true /\ Z.testbit mask i = true.
Proof.
  unfold any_set. rewrite negb_true_iff, Z.eqb_neq. split.
  - intros [i Hi]%nonzero_has_bit. exists i.
    rewrite Z.land_spec in Hi. by apply andb_true_iff.
  - intros (i & Hf & Hm) E.
    assert (Z.testbit (Z.land flags mask) i = true) as Hi by (by rewrite Z.land_spec, Hf, Hm).
    by rewrite E, Z.testbit_0_l in Hi.
Qed.

Lemma any_set_false flags mask :
  any_set flags mask = false <-> forall i, Z.testbit flags i = true -> Z.testbit mask i = false.
Proof.
  rewrite <-not_true_iff_false, any_set_spec. split.
  - intros Hn i Hf. apply not_true_iff_false. intros Hm. apply Hn. by exists i.
  - intros Hall (i & Hf & Hm). rewrite (Hall i Hf) in Hm. done.
Qed.

Lemma RuntimeFlags_id f : 0 <= f < 2 ^ 64 -> RuntimeFlags f = f.
Proof. intros Hf. by apply Z.mod_small. Qed.

(** A flag that is a single bit. *)
Lemma any_set_bit flags k :
  0 <= k -> any_set flags (Z.shiftl 1 k) = Z.testbit flags k.
Proof.
  intros Hk. apply Bool.eq_true_iff_eq. rewrite any_set_spec. split.
  - intros (i & Hf & Hm). rewrite Z.shiftl_1_l, Z.pow2_bits_eqb in Hm by done.
    apply Z.eqb_eq in Hm as ->. done.
  - intros Hf. exists k. split; [done|].
    rewrite Z.shiftl_1_l, Z.pow2_bits_eqb by done. apply Z.eqb_refl.
Qed.

#[export] Hint Rewrite any_set_bit using lia : mam.
