(* ===== verification/Evaluate.v ===== *)
(** * The evaluation spine ([pkg/evaluate])

    [EvaluateMemoryHotPath] decides whether a memory may influence the current
    execution.  The abstract contract is a list of rules in priority order
    ([verdict]), and the code refines it. *)
From S2P Require Import Prelude Tenant Bitmask.

(** [type Decision uint8] *)
Abbreviation Decision := Z (only parsing).
Definition DecisionUse : Z := 0.
Definition DecisionQualify : Z := 1.
Definition DecisionRefresh : Z := 2.
Definition DecisionEscalate : Z := 3.
Definition DecisionRefuse : Z := 4.
Definition DecisionIgnore : Z := 5.
Definition DecisionQuarantine : Z := 6.
Definition DecisionDeleteRequested : Z := 7.
Definition DecisionHardRefuse : Z := 8.

Definition ReasonUse : string := "USE".
Definition ReasonTenantMismatch : string := "TENANT_MISMATCH".
Definition ReasonDomainMismatch : string := "DOMAIN_MISMATCH".
Definition ReasonDeletionRequested : string := "DELETION_REQUESTED".
Definition ReasonLifecycleInvalid : string := "LIFECYCLE_INVALID".
Definition ReasonMemoryExpired : string := "MEMORY_EXPIRED".
Definition ReasonMemoryRevoked : string := "MEMORY_REVOKED".
Definition ReasonSafetyIsolationTriggered : string := "SAFETY_ISOLATION_TRIGGERED".
Definition ReasonProhibitedUseEnforced : string := "PROHIBITED_USE_ENFORCED".
Definition ReasonNoExplicitUsePermitted : string := "NO_EXPLICIT_USE_PERMITTED".
Definition ReasonMemoryProfileMissing : string := "MEMORY_PROFILE_MISSING".

Definition InvalidLifecycleFlags : Z :=
  Z.lor (Z.lor FlagLifecycleExpired FlagLifecycleDeletionReq) FlagLifecycleRevoked.

Definition EvaluateMemoryHotPath
    (runtimeTenant memTenant runtimeDomain memDomain : IDHash)
    (memFlags : Z) (mask : EvaluationMask) : Z * string :=
  if negb (ValidateTenant memTenant runtimeTenant) then
    (DecisionHardRefuse, ReasonTenantMismatch)
  else if negb (ValidateDomain memDomain runtimeDomain) then
    (DecisionRefuse, ReasonDomainMismatch)
  else
  let mBytes := RuntimeFlags memFlags in
  if any_set mBytes (RuntimeFlags InvalidLifecycleFlags) then
    if any_set mBytes (RuntimeFlags FlagLifecycleDeletionReq) then
      (DecisionDeleteRequested, ReasonDeletionRequested)
    else if any_set mBytes (RuntimeFlags FlagLifecycleExpired) then
      (DecisionRefresh, ReasonMemoryExpired)
    else if any_set mBytes (RuntimeFlags FlagLifecycleRevoked) then
      (DecisionRefuse, ReasonMemoryRevoked)
    else (DecisionRefuse, ReasonLifecycleInvalid)
  else if any_set mBytes (ProhibitedSafety mask) then
    (DecisionQuarantine, ReasonSafetyIsolationTriggered)
  else if any_set mBytes (ProhibitedUseBlocks mask) then
    (DecisionRefuse, ReasonProhibitedUseEnforced)
  else if negb (any_set mBytes (AllowedUseClasses mask)) then
    (DecisionIgnore, ReasonNoExplicitUsePermitted)
  else (DecisionUse, ReasonUse).

(** ** The contract: rules in priority order *)

(** What the evaluation looks at, as facts about a memory and a runtime. *)
Record facts := mkFacts {
  same_tenant : bool;
  same_domain : bool;
  deletion_requested : bool;
  expired : bool;
  revoked : bool;
  unsafe : bool;
  use_blocked : bool;
  use_allowed : bool
}.

(** The core evaluation sequence of the architecture: the first rule whose
    condition holds gives the verdict. *)
Definition rules (f : facts) : list (bool * (Z * string)) :=
  [ (negb (same_tenant f), (DecisionHardRefuse, ReasonTenantMismatch));
    (negb (same_domain f), (DecisionRefuse, ReasonDomainMismatch));
    (deletion_requested f, (DecisionDeleteRequested, ReasonDeletionRequested));
    (expired f, (DecisionRefresh, ReasonMemoryExpired));
    (revoked f, (DecisionRefuse, ReasonMemoryRevoked));
    (unsafe f, (DecisionQuarantine, ReasonSafetyIsolationTriggered));
    (use_blocked f, (DecisionRefuse, ReasonProhibitedUseEnforced));
    (negb (use_allowed f), (DecisionIgnore, ReasonNoExplicitUsePermitted)) ].

Definition verdict (f : facts) : Z * string :=
  match list_find (fun r => r.1 = true) (rules f) with
  | Some (_, r) => r.2
  | None => (DecisionUse, ReasonUse)
  end.

(** The facts a call of the hot path is about, bit by bit. *)
Definition facts_of (rt mt rd md : IDHash) (flags : Z) (mask : EvaluationMask) : facts := {|
  same_tenant := bool_decide (mt = rt);
  same_domain := bool_decide (md = rd);
  deletion_requested := Z.testbit flags 2;
  expired := Z.testbit flags 1;
  revoked := Z.testbit flags 3;
  unsafe := any_set flags (ProhibitedSafety mask);
  use_blocked := any_set flags (ProhibitedUseBlocks mask);
  use_allowed := any_set flags (AllowedUseClasses mask)
|}.

Lemma any_set_lor flags m1 m2 :
  any_set flags (Z.lor m1 m2) = any_set flags m1 || any_set flags m2.
Proof.
  apply Bool.eq_true_iff_eq. rewrite orb_true_iff, !any_set_spec. split.
  - intros (i & Hf & Hm). rewrite Z.lor_spec, orb_true_iff in Hm.
    destruct Hm; [left|right]; by exists i.
  - intros [(i & Hf & Hm)|(i & Hf & Hm)]; exists i;
      rewrite Z.lor_spec, orb_true_iff; auto.
Qed.

Lemma invalid_lifecycle_bits flags :
  any_set flags (RuntimeFlags InvalidLifecycleFlags)
  = Z.testbit flags 1 || Z.testbit flags 2 || Z.testbit flags 3.
Proof.
  rewrite RuntimeFlags_id by z_range.
  unfold InvalidLifecycleFlags. rewrite !any_set_lor.
  unfold FlagLifecycleExpired, FlagLifecycleDeletionReq, FlagLifecycleRevoked.
  by autorewrite with mam.
Qed.

Lemma lifecycle_bit flags k :
  0 <= k < 64 -> any_set flags (RuntimeFlags (Z.shiftl 1 k)) = Z.testbit flags k.
Proof.
  intros Hk. rewrite RuntimeFlags_id; [apply any_set_bit; lia|].
  rewrite Z.shiftl_1_l. split; [lia|]. apply Z.pow_lt_mono_r; lia.
Qed.

Lemma any_set_u64 flags mask :
  0 <= mask < 2 ^ 64 -> any_set (RuntimeFlags flags) mask = any_set flags mask.
Proof.
  intros Hm. apply Bool.eq_true_iff_eq. rewrite !any_set_spec.
  unfold RuntimeFlags, u64. split; intros (i & Hf & Hi); exists i; split; auto.
  - destruct (Z.lt_ge_cases i 64); [by rewrite Z.mod_pow2_bits_low in Hf|].
    by rewrite Z.mod_pow2_bits_high in Hf by lia.
  - destruct (Z.lt_ge_cases i 64); [by rewrite Z.mod_pow2_bits_low|].
    rewrite <-(Z.mod_small mask (2 ^ 64)) in Hi by done.
    by rewrite Z.mod_pow2_bits_high in Hi by lia.
Qed.

(** A well-formed mask: every field is a [uint64]. *)
Definition mask_wf (mask : EvaluationMask) : Prop :=
  0 <= RequiredLifecycle mask < 2 ^ 64 /\ 0 <= ProhibitedSafety mask < 2 ^ 64 /\
  0 <= AllowedUseClasses mask < 2 ^ 64 /\ 0 <= ProhibitedUseBlocks mask < 2 ^ 64 /\
  0 <= SensitivityLimit mask < 2 ^ 64.

(** A verdict as nested tests, for case analysis. *)
Lemma verdict_unfold f :
  verdict f =
    if negb (same_tenant f) then (DecisionHardRefuse, ReasonTenantMismatch)
    else if negb (same_domain f) then (DecisionRefuse, ReasonDomainMismatch)
    else if deletion_requested f then (DecisionDeleteRequested, ReasonDeletionRequested)
    else if expired f then (DecisionRefresh, ReasonMemoryExpired)
    else if revoked f then (DecisionRefuse, ReasonMemoryRevoked)
    else if unsafe f then (DecisionQuarantine, ReasonSafetyIsolationTriggered)
    else if use_blocked f then (DecisionRefuse, ReasonProhibitedUseEnforced)
    else if negb (use_allowed f) then (DecisionIgnore, ReasonNoExplicitUsePermitted)
    else (DecisionUse, ReasonUse).
Proof. destruct f as [[] [] [] [] [] [] [] []]; reflexivity. Qed.

Lemma hot_path_verdict rt mt rd md flags mask :
  0 <= flags < 2 ^ 64 ->
  EvaluateMemoryHotPath rt mt rd md flags mask = verdict (facts_of rt mt rd md flags mask).
Proof.
  intros Hf. rewrite verdict_unfold. unfold EvaluateMemoryHotPath, facts_of.
  rewrite (RuntimeFlags_id flags), invalid_lifecycle_bits by done.
  unfold FlagLifecycleExpired, FlagLifecycleDeletionReq, FlagLifecycleRevoked.
  rewrite !lifecycle_bit, ValidateTenant_spec, ValidateDomain_spec by lia. simpl.
  repeat case_bool_decide; simpl; try done;
    destruct (Z.testbit flags 1), (Z.testbit flags 2), (Z.testbit flags 3); reflexivity.
Qed.

(** C3. [EvaluateMemoryHotPath] is the rigid evaluation sequence of the
    architecture: on every input it returns the verdict of the first rule that
    applies, in the order tenant, domain, deletion, expiry, revocation, safety,
    prohibited use, allowed use; memory is used only when no rule applies. *)
Theorem EvaluateMemoryHotPath_verdict rt mt rd md flags mask :
  0 <= flags < 2 ^ 64 ->
  EvaluateMemoryHotPath rt mt rd md flags mask = verdict (facts_of rt mt rd md flags mask).
Proof. apply hot_path_verdict. Qed.

Definition ex_mask : EvaluationMask := mkMask 0 16 768 65536 0.

Lemma EvaluateMemoryHotPath_verdict_witness :
  let a := zero_array 32 in
  EvaluateMemoryHotPath a a a a 529 ex_mask = (DecisionQuarantine, ReasonSafetyIsolationTriggered)
  /\ EvaluateMemoryHotPath a a a a 529 ex_mask = verdict (facts_of a a a a 529 ex_mask).
Proof.
  split; [vm_compute; reflexivity|].
  apply EvaluateMemoryHotPath_verdict. z_range.
Defined.

Lemma hot_path_use_iff rt mt rd md flags mask :
  0 <= flags < 2 ^ 64 ->
  (EvaluateMemoryHotPath rt mt rd md flags mask).1 = DecisionUse <->
  mt = rt /\ md = rd /\
  Z.testbit flags 1 = false /\ Z.testbit flags 2 = false /\ Z.testbit flags 3 = false /\
  (forall i, Z.testbit flags i = true -> Z.testbit (ProhibitedSafety mask) i = false) /\
  (forall i, Z.testbit flags i = true -> Z.testbit (ProhibitedUseBlocks mask) i = false) /\
  (exists i, Z.testbit flags i = true /\ Z.testbit (AllowedUseClasses mask) i = true).
Proof.
  intros Hf. rewrite hot_path_verdict, verdict_unfold by done.
  rewrite <-!any_set_false, <-any_set_spec. unfold facts_of; simpl.
  repeat case_bool_decide; simpl; try (split; [discriminate|by intros (? & ? & _)]).
  destruct (Z.testbit flags 2), (Z.testbit flags 1), (Z.testbit flags 3),
    (any_set flags (ProhibitedSafety mask)), (any_set flags (ProhibitedUseBlocks mask)),
    (any_set flags (AllowedUseClasses mask)); simpl;
    (split; [discriminate || done|by intros (?&?&?&?&?&?&?&?)]).
Qed.

(** A memory is admitted for use exactly when the tenants and domains are
    equal, none of the three invalid lifecycle bits is set, no bit is prohibited
    by the safety or the use mask, and some bit is an explicitly allowed use
    class. *)
Theorem admitted_iff rt mt rd md flags mask :
  0 <= flags < 2 ^ 64 ->
  EvaluateMemoryHotPath rt mt rd md flags mask = (DecisionUse, ReasonUse) <->
  mt = rt /\ md = rd /\
  Z.testbit flags 1 = false /\ Z.testbit flags 2 = false /\ Z.testbit flags 3 = false /\
  (forall i, Z.testbit flags i = true -> Z.testbit (ProhibitedSafety mask) i = false) /\
  (forall i, Z.testbit flags i = true -> Z.testbit (ProhibitedUseBlocks mask) i = false) /\
  (exists i, Z.testbit flags i = true /\ Z.testbit (AllowedUseClasses mask) i = true).
Proof.
  intros Hf. rewrite <-hot_path_use_iff by done. split; [by intros ->|].
  rewrite hot_path_verdict, verdict_unfold by done. split_ifs; simpl; done.
Qed.

Lemma admitted_iff_witness :
  let a := zero_array 32 in
  EvaluateMemoryHotPath a a a a 513 ex_mask = (DecisionUse, ReasonUse) /\
  exists i, Z.testbit 513 i = true /\ Z.testbit (AllowedUseClasses ex_mask) i = true.
Proof.
  intros a.
  assert (EvaluateMemoryHotPath a a a a 513 ex_mask = (DecisionUse, ReasonUse)) as E
    by (vm_compute; reflexivity).
  split; [exact E|].
  apply (admitted_iff a a a a 513 ex_mask); [z_range|exact E].
Defined.

(** ** Policy masks *)

(** Every bit of [m] is a bit of [m']. *)
Definition bits_subset (m m' : Z) : Prop :=
  forall i, Z.testbit m i = true -> Z.testbit m' i = true.

(** [mask'] is at least as strict as [mask]. *)
Definition tighter (mask mask' : EvaluationMask) : Prop :=
  bits_subset (ProhibitedSafety mask) (ProhibitedSafety mask') /\
  bits_subset (ProhibitedUseBlocks mask) (ProhibitedUseBlocks mask') /\
  bits_subset (AllowedUseClasses mask') (AllowedUseClasses mask).

#[global] Instance bits_subset_preorder : PreOrder bits_subset.
Proof. split; [intros m i; done|intros a b c Hab Hbc i Hi; by apply Hbc, Hab]. Qed.

#[global] Instance tighter_preorder : PreOrder tighter.
Proof.
  split; [intros m; by repeat split|].
  intros a b c (?&?&?) (?&?&?). unfold tighter. repeat split; by etrans.
Qed.

(** Tightening a policy never admits more: if a memory is used under a mask
    that prohibits more safety and use bits and allows fewer use classes, it is
    used under the looser mask too. *)
Theorem tighter_mask_admits_less rt mt rd md flags mask mask' :
  0 <= flags < 2 ^ 64 -> tighter mask mask' ->
  (EvaluateMemoryHotPath rt mt rd md flags mask').1 = DecisionUse ->
  (EvaluateMemoryHotPath rt mt rd md flags mask).1 = DecisionUse.
Proof.
  intros Hf (Hs & Hu & Ha). rewrite !hot_path_use_iff by done.
  intros (?&?&?&?&?& Hsafe & Huse & (i & Hi & Hai)). repeat split; try done.
  - intros j Hj. apply not_true_iff_false. intros Hjm. apply Hs in Hjm.
    rewrite Hsafe in Hjm by done. done.
  - intros j Hj. apply not_true_iff_false. intros Hjm. apply Hu in Hjm.
    rewrite Huse in Hjm by done. done.
  - exists i. auto.
Qed.

Lemma tighter_mask_admits_less_witness :
  let a := zero_array 32 in
  (EvaluateMemoryHotPath a a a a 513 ex_mask).1 = DecisionUse.
Proof.
  intros a. apply (tighter_mask_admits_less a a a a 513 ex_mask (mkMask 0 16 512 65536 0)).
  - z_range.
  - repeat split; try (intros i Hi; exact Hi).
    intros i Hi. cbn in Hi |- *. change 768 with (Z.lor 512 256).
    by rewrite Z.lor_spec, Hi.
  - vm_compute. reflexivity.
Defined.

(** The mask's [RequiredLifecycle] and [SensitivityLimit] are never
    consulted: changing them changes no verdict, and a memory that lacks the
    active lifecycle bit is used under a mask that requires it. *)
Theorem required_lifecycle_not_enforced :
  (forall rt mt rd md flags mask rl sl,
    EvaluateMemoryHotPath rt mt rd md flags
      (mkMask rl (ProhibitedSafety mask) (AllowedUseClasses mask)
              (ProhibitedUseBlocks mask) sl)
    = EvaluateMemoryHotPath rt mt rd md flags mask) /\
  (forall t d : IDHash,
    EvaluateMemoryHotPath t t d d ClassUseContextOnly
      (mkMask FlagLifecycleActive 0 ClassUseContextOnly 0 0) = (DecisionUse, ReasonUse)).
Proof.
  split; [reflexivity|]. intros t d.
  rewrite hot_path_verdict by z_range. rewrite verdict_unfold.
  unfold facts_of; cbn. by rewrite !bool_decide_true.
Qed.
