(* ===== verification/Merkle.v ===== *)
(** * The decision tree of a turn ([pkg/merkle])

    [BuildTurnTree] sorts the leaf records of a turn by memory ID, hashes each
    and folds the hashes pairwise into one root.  The root is shown to be the
    hash of an explicit binary tree over the sorted leaves, from which binding
    (equal roots, equal records, or a SHA-256 collision among the messages
    hashed) and order independence follow. *)
From S2P Require Import Prelude Sha256.

Record LeafRecord := mkLeaf {
  MemoryID : array 16;
  MemoryHash : array 32;
  DecisionCode : Z;             (* uint8 *)
  Injected : bool;
  PolicyHash : array 32;
  ReasonCodeHash : array 32
}.

#[global] Instance LeafRecord_eq_dec : EqDecision LeafRecord.
Proof. solve_decision. Defined.

(** The bytes [LeafRecord.Hash] writes to the hash. *)
Definition leaf_message (l : LeafRecord) : bytes :=
  MemoryID l ++ MemoryHash l ++ [byte_of_Z (DecisionCode l)] ++
  (if Injected l then [x01] else [x00]) ++ PolicyHash l ++ ReasonCodeHash l.

Definition Hash (l : LeafRecord) : array 32 := Sum256 (leaf_message l).

(** The body of the loop: hash neighbours, promote an odd last hash unchanged. *)
Fixpoint next_level (hashes : list (array 32)) : list (array 32) :=
  match hashes with
  | h1 :: h2 :: rest => Sum256 (vec_to_list h1 ++ vec_to_list h2) :: next_level rest
  | odd => odd
  end.

(** [for len(hashes) > 1 { ... }].  [reduce_levels_exits] shows the fuel
    [BuildTurnTree] gives reaches the loop's exit. *)
Fixpoint reduce_levels (fuel : nat) (hashes : list (array 32)) : list (array 32) :=
  match fuel with
  | O => hashes
  | S fuel' =>
      if (1 <? length hashes)%nat then reduce_levels fuel' (next_level hashes) else hashes
  end.

(** The comparison handed to [sort.Slice]. *)
Definition leaf_less (a b : LeafRecord) : bool := bytes_ltb (MemoryID a) (MemoryID b).

Definition BuildTurnTree `{SliceSort} (leaves : list LeafRecord) : array 32 :=
  if (length leaves =? 0)%nat then zero_array 32
  else
  let ordered := sort_Slice leaf_less leaves in
  let hashes := Hash <$> ordered in
  match reduce_levels (length hashes) hashes with
  | h :: _ => h
  | [] => zero_array 32          (* hashes[0] of an empty slice: not reached *)
  end.

(** ** The loop ends with exactly one hash *)

Section Halving.
(** Facts about any pairwise folding, shared by hashes and trees. *)
Context {A : Type} (join : A -> A -> A).

Fixpoint fold_pairs (l : list A) : list A :=
  match l with
  | x :: y :: rest => join x y :: fold_pairs rest
  | odd => odd
  end.

Fixpoint fold_levels (fuel : nat) (l : list A) : list A :=
  match fuel with
  | O => l
  | S fuel' => if (1 <? length l)%nat then fold_levels fuel' (fold_pairs l) else l
  end.

(** Induction two elements at a time. *)
Lemma pairs_ind (P : list A -> Prop) :
  P [] -> (forall x, P [x]) ->
  (forall x y l, P l -> P (x :: y :: l)) -> forall l, P l.
Proof.
  intros H0 H1 H2. fix IH 1. intros [|x [|y l]]; [exact H0|exact (H1 x)|].
  apply H2, IH.
Qed.

Lemma fold_pairs_length l : (length (fold_pairs l) = (length l + 1) / 2)%nat.
Proof.
  induction l as [| |x y l IH] using pairs_ind; [done|done|].
  cbn [fold_pairs length]. rewrite IH.
  replace (S (S (length l)) + 1)%nat with (length l + 1 + 1 * 2)%nat by lia.
  rewrite Nat.div_add by lia. lia.
Qed.

Lemma fold_pairs_shrinks l :
  (1 < length l)%nat -> fold_pairs l <> [] /\ (length (fold_pairs l) < length l)%nat.
Proof.
  intros Hlt. pose proof (fold_pairs_length l) as Hfp.
  pose proof (Nat.div_mod_eq (length l + 1) 2) as Hd.
  pose proof (Nat.mod_upper_bound (length l + 1) 2 ltac:(lia)) as Hm.
  split; [intros E; rewrite E in Hfp; cbn [length] in Hfp|]; lia.
Qed.

Lemma fold_levels_fuel fuel fuel' l :
  (length l <= fuel)%nat -> (length l <= fuel')%nat ->
  fold_levels fuel l = fold_levels fuel' l.
Proof.
  revert fuel' l. induction fuel as [|fuel IH]; intros [|fuel'] l H H'; [done|..];
    [destruct l; [done|simpl in *; lia]..|].
  cbn [fold_levels]. destruct (Nat.ltb_spec 1 (length l)) as [Hlt|]; [|done].
  apply fold_pairs_shrinks in Hlt as [_ ?]. apply IH; lia.
Qed.

Lemma fold_levels_exits fuel l :
  l <> [] -> (length l <= fuel)%nat -> exists x, fold_levels fuel l = [x].
Proof.
  revert l. induction fuel as [|fuel IH]; intros l Hne Hlen.
  { destruct l; [done|simpl in Hlen; lia]. }
  cbn [fold_levels]. destruct (Nat.ltb_spec 1 (length l)) as [Hlt|Hge].
  - apply fold_pairs_shrinks in Hlt as [??]. apply IH; [done|lia].
  - destruct l as [|x [|]]; simpl in *; [done|by exists x|lia].
Qed.
End Halving.

Definition join_hashes (a b : array 32) : array 32 := Sum256 (vec_to_list a ++ vec_to_list b).

Lemma next_level_fold hashes : next_level hashes = fold_pairs join_hashes hashes.
Proof.
  induction hashes as [| |x y l IH] using pairs_ind; [done|done|].
  cbn [next_level fold_pairs]. by rewrite IH.
Qed.

Lemma reduce_levels_fold fuel hashes :
  reduce_levels fuel hashes = fold_levels join_hashes fuel hashes.
Proof.
  revert hashes. induction fuel as [|fuel IH]; intros hashes; [done|].
  cbn [reduce_levels fold_levels]. by rewrite IH, next_level_fold.
Qed.

(** The level loop of [BuildTurnTree] terminates with exactly one hash: any
    fuel of at least the number of leaves reaches the loop's exit, so
    [hashes[0]] is never out of range and the result does not depend on the
    fuel. *)
Theorem reduce_levels_exits fuel hashes :
  hashes <> [] -> (length hashes <= fuel)%nat ->
  exists h, reduce_levels fuel hashes = [h] /\
            reduce_levels (length hashes) hashes = [h].
Proof.
  intros Hne Hlen. rewrite !reduce_levels_fold.
  destruct (fold_levels_exits join_hashes fuel hashes Hne Hlen) as [h Hh].
  exists h. split; [done|]. rewrite <-Hh. by apply fold_levels_fuel.
Qed.

Lemma reduce_levels_exits_witness :
  exists h, reduce_levels 7 (replicate 5 (zero_array 32)) = [h].
Proof.
  destruct (reduce_levels_exits 7 (replicate 5 (zero_array 32))) as (h & Hh & _);
    [discriminate|simpl; lia|by exists h].
Defined.

(** ** The tree behind the root *)

Inductive tree :=
| TLeaf (msg : bytes)
| TNode (l r : tree).

Fixpoint tree_hash (t : tree) : array 32 :=
  match t with
  | TLeaf msg => Sum256 msg
  | TNode l r => join_hashes (tree_hash l) (tree_hash r)
  end.

(** The leaf messages, left to right. *)
Fixpoint frontier (t : tree) : list bytes :=
  match t with
  | TLeaf msg => [msg]
  | TNode l r => frontier l ++ frontier r
  end.

(** Every message the computation of [tree_hash] hashes. *)
Fixpoint hashed (t : tree) : list bytes :=
  match t with
  | TLeaf msg => [msg]
  | TNode l r =>
      (vec_to_list (tree_hash l) ++ vec_to_list (tree_hash r)) :: hashed l ++ hashed r
  end.

(** The tree [BuildTurnTree] computes the hash of; [None] for no leaves. *)
Definition tree_of (msgs : list bytes) : option tree :=
  head (fold_levels TNode (length msgs) (TLeaf <$> msgs)).

Lemma fold_pairs_map {A B} (f : A -> B) (ja : A -> A -> A) (jb : B -> B -> B) l :
  (forall x y, f (ja x y) = jb (f x) (f y)) ->
  f <$> fold_pairs ja l = fold_pairs jb (f <$> l).
Proof.
  intros Hf. induction l as [| |x y l IH] using pairs_ind; [done|done|].
  cbn. rewrite Hf. f_equal. apply IH.
Qed.

Lemma fold_levels_map {A B} (f : A -> B) (ja : A -> A -> A) (jb : B -> B -> B) fuel l :
  (forall x y, f (ja x y) = jb (f x) (f y)) ->
  f <$> fold_levels ja fuel l = fold_levels jb fuel (f <$> l).
Proof.
  intros Hf. revert l. induction fuel as [|fuel IH]; intros l; [done|].
  cbn [fold_levels]. rewrite length_fmap. destruct (1 <? length l)%nat; [|done].
  rewrite IH. by rewrite (fold_pairs_map f ja jb).
Qed.

(** Pairing and promotion keep the leaves in order. *)
Lemma fold_pairs_frontier l :
  concat (frontier <$> fold_pairs TNode l) = concat (frontier <$> l).
Proof.
  induction l as [| |x y l IH] using pairs_ind; [done|done|].
  cbn. cbn in IH. by rewrite IH, app_assoc.
Qed.

Lemma fold_levels_frontier fuel l :
  concat (frontier <$> fold_levels TNode fuel l) = concat (frontier <$> l).
Proof.
  revert l. induction fuel as [|fuel IH]; intros l; [done|].
  cbn [fold_levels]. destruct (1 <? length l)%nat; [|done].
  by rewrite IH, fold_pairs_frontier.
Qed.

Lemma tree_of_frontier msgs :
  msgs <> [] -> exists t, tree_of msgs = Some t /\ frontier t = msgs.
Proof.
  intros Hne. unfold tree_of.
  destruct (fold_levels_exits TNode (length msgs) (TLeaf <$> msgs)) as [t Ht].
  { by destruct msgs. }
  { by rewrite length_fmap. }
  exists t. rewrite Ht. split; [done|].
  pose proof (fold_levels_frontier (length msgs) (TLeaf <$> msgs)) as Hf.
  rewrite Ht in Hf. cbn in Hf. rewrite app_nil_r in Hf. rewrite Hf.
  clear. induction msgs as [|m msgs IH]; [done|]. cbn. cbn in IH. by rewrite IH.
Qed.

Lemma tree_of_hash msgs t :
  tree_of msgs = Some t ->
  head (reduce_levels (length msgs) (Sum256 <$> msgs)) = Some (tree_hash t).
Proof.
  unfold tree_of. intros Ht. rewrite reduce_levels_fold.
  pose proof (fold_levels_map tree_hash TNode join_hashes (length msgs) (TLeaf <$> msgs)
    (fun _ _ => eq_refl)) as E.
  rewrite <-list_fmap_compose in E.
  change (tree_hash ∘ TLeaf) with Sum256 in E. rewrite <-E.
  destruct (fold_levels TNode _ _); [done|]. cbn in *. by injection Ht as ->.
Qed.

Lemma tree_of_singleton msgs m : msgs <> [] -> tree_of msgs = Some (TLeaf m) -> msgs = [m].
Proof.
  intros Hne Ht. destruct (tree_of_frontier msgs Hne) as (t & Ht' & <-).
  rewrite Ht in Ht'. by injection Ht' as <-.
Qed.

(** ** Binding *)

Lemma join_hashes_inj (a b c d : array 32) :
  vec_to_list a ++ vec_to_list b = vec_to_list c ++ vec_to_list d -> a = c /\ b = d.
Proof.
  intros [H1 H2]%app_inj_1; [|by rewrite !length_vec_to_list].
  by split; apply vec_to_list_inj2.
Qed.

(** Two trees with the same hash are the same tree, unless two of the messages
    hashed collide.  Leaf messages are longer than the 64 bytes of an inner
    node, so a leaf cannot pass for a node. *)
Lemma tree_hash_binding t1 t2 :
  Forall (fun m => length m <> 64%nat) (frontier t1) ->
  Forall (fun m => length m <> 64%nat) (frontier t2) ->
  tree_hash t1 = tree_hash t2 ->
  t1 = t2 \/ collision_among (hashed t1 ++ hashed t2).
Proof.
  revert t2. induction t1 as [m1|l1 IHl r1 IHr]; intros [m2|l2 r2] H1 H2 E;
    cbn [tree_hash frontier hashed] in *.
  - destruct (Sum256_cases ([m1] ++ [m2]) m1 m2) as [->|Hc];
      [in_list|in_list|exact E|by left|by right].
  - right. exists m1, (vec_to_list (tree_hash l2) ++ vec_to_list (tree_hash r2)).
    split; [in_list|]. split; [in_list|]. split; [|exact E].
    intros ->. rewrite Forall_singleton in H1. by rewrite length_app, !length_vec_to_list in H1.
  - right. exists (vec_to_list (tree_hash l1) ++ vec_to_list (tree_hash r1)), m2.
    split; [in_list|]. split; [in_list|]. split; [|exact E].
    intros <-. rewrite Forall_singleton in H2. by rewrite length_app, !length_vec_to_list in H2.
  - apply Forall_app in H1 as [H1l H1r]. apply Forall_app in H2 as [H2l H2r].
    eapply (Sum256_cases (hashed (TNode l1 r1) ++ hashed (TNode l2 r2))) in E
      as [[El Er]%join_hashes_inj|Hc]; [| |cbn [hashed]; in_list..].
    + destruct (IHl _ H1l H2l El) as [->|Hc];
        [|right; eapply collision_among_subseteq; [|exact Hc]; intros m; in_list].
      destruct (IHr _ H1r H2r Er) as [->|Hc]; [by left|].
      right. eapply collision_among_subseteq; [|exact Hc]. intros m; in_list.
    + by right.
Qed.

(** A leaf record whose decision code is a [uint8]. *)
Definition leaf_wf (l : LeafRecord) : Prop := 0 <= DecisionCode l < 256.

Lemma leaf_message_length l : length (leaf_message l) = 114%nat.
Proof.
  unfold leaf_message. rewrite !length_app, !length_vec_to_list.
  by destruct (Injected l).
Qed.

(** Every field is at a fixed offset of the message. *)
Lemma leaf_message_inj l1 l2 :
  leaf_wf l1 -> leaf_wf l2 -> leaf_message l1 = leaf_message l2 -> l1 = l2.
Proof.
  destruct l1 as [id1 mh1 dc1 in1 ph1 rh1], l2 as [id2 mh2 dc2 in2 ph2 rh2].
  unfold leaf_wf, leaf_message; cbn. intros Hd1 Hd2 E.
  apply app_inj_1 in E as [->%vec_to_list_inj2 E]; [|by rewrite !length_vec_to_list].
  apply app_inj_1 in E as [->%vec_to_list_inj2 E]; [|by rewrite !length_vec_to_list].
  injection E as Ed E.
  apply (f_equal byte_to_Z) in Ed. rewrite !byte_to_of_Z, !Z.mod_small in Ed by done.
  apply app_inj_1 in E as [Ein E]; [|by destruct in1, in2].
  apply app_inj_1 in E as [->%vec_to_list_inj2 ->%vec_to_list_inj2];
    [|by rewrite !length_vec_to_list].
  by destruct in1, in2; subst.
Qed.

Section BuildTurnTree_facts.
Context `{SliceSort}.

(** The messages a run of [BuildTurnTree] hashes. *)
Definition turn_messages (leaves : list LeafRecord) : list bytes :=
  match tree_of (leaf_message <$> sort_Slice leaf_less leaves) with
  | Some t => hashed t
  | None => []
  end.

Lemma sorted_leaves_nonempty leaves : leaves <> [] -> sort_Slice leaf_less leaves <> [].
Proof.
  intros Hne E. pose proof (sort_Slice_perm _ leaf_less leaves) as Hp.
  rewrite E in Hp. by apply Permutation_nil in Hp.
Qed.

(** [BuildTurnTree] computes the hash of the tree over the sorted leaves. *)
Lemma BuildTurnTree_tree leaves :
  leaves <> [] -> exists t,
    tree_of (leaf_message <$> sort_Slice leaf_less leaves) = Some t /\
    frontier t = leaf_message <$> sort_Slice leaf_less leaves /\
    BuildTurnTree leaves = tree_hash t.
Proof.
  intros Hne. pose proof (sorted_leaves_nonempty leaves Hne) as Hs.
  destruct (tree_of_frontier (leaf_message <$> sort_Slice leaf_less leaves)) as (t & Ht & Hf).
  { by destruct (sort_Slice leaf_less leaves). }
  exists t. split; [done|]. split; [done|].
  apply tree_of_hash in Ht. unfold BuildTurnTree.
  destruct leaves as [|l0 leaves']; [done|]. cbn [length Nat.eqb].
  rewrite length_fmap, <-list_fmap_compose in Ht. rewrite length_fmap.
  change (Sum256 ∘ leaf_message) with Hash in Ht.
  destruct (reduce_levels _ _); [done|]. cbn in Ht. by injection Ht as ->.
Qed.

Lemma frontier_lengths leaves t :
  frontier t = leaf_message <$> leaves ->
  Forall (fun m => length m <> 64%nat) (frontier t).
Proof.
  intros ->. apply Forall_forall. intros m (l & -> & _)%list_elem_of_fmap.
  by rewrite leaf_message_length.
Qed.

Lemma leaf_messages_inj ls1 ls2 :
  Forall leaf_wf ls1 -> Forall leaf_wf ls2 ->
  leaf_message <$> ls1 = leaf_message <$> ls2 -> ls1 = ls2.
Proof.
  intros H1. revert ls2. induction H1 as [|l1 ls1 Hl1 H1 IH]; intros [|l2 ls2] H2 E; try done.
  apply Forall_cons in H2 as [Hl2 H2]. cbn in E. injection E as Em E.
  f_equal; [by apply leaf_message_inj|by apply IH].
Qed.

(** Equal roots of two nonempty turns: the same records in the same canonical
    order, or a collision among the messages the two runs hashed. *)
Lemma BuildTurnTree_binding_sorted ls1 ls2 :
  ls1 <> [] -> ls2 <> [] -> Forall leaf_wf ls1 -> Forall leaf_wf ls2 ->
  BuildTurnTree ls1 = BuildTurnTree ls2 ->
  sort_Slice leaf_less ls1 = sort_Slice leaf_less ls2
  \/ collision_among (turn_messages ls1 ++ turn_messages ls2).
Proof.
  intros Hne1 Hne2 Hw1 Hw2 E.
  destruct (BuildTurnTree_tree ls1 Hne1) as (t1 & Ht1 & Hf1 & R1).
  destruct (BuildTurnTree_tree ls2 Hne2) as (t2 & Ht2 & Hf2 & R2).
  unfold turn_messages. rewrite Ht1, Ht2. rewrite R1, R2 in E.
  apply tree_hash_binding in E as [->|Hc]; [|by right|by eapply frontier_lengths..].
  left. rewrite Hf1 in Hf2. apply leaf_messages_inj; [..|done];
    by rewrite sort_Slice_perm.
Qed.

(** C7. The Merkle root binds the decisions of a turn: if two nonempty turns
    have the same root, they record the same leaves (up to order), or the run
    exhibits a SHA-256 collision among the messages it hashed.  This covers
    turns of different sizes: a leaf cannot stand for an inner node. *)
Theorem BuildTurnTree_binding ls1 ls2 :
  ls1 <> [] -> ls2 <> [] -> Forall leaf_wf ls1 -> Forall leaf_wf ls2 ->
  BuildTurnTree ls1 = BuildTurnTree ls2 ->
  ls1 ≡ₚ ls2 \/ collision_among (turn_messages ls1 ++ turn_messages ls2).
Proof.
  intros Hne1 Hne2 Hw1 Hw2 E.
  destruct (BuildTurnTree_binding_sorted ls1 ls2) as [Es|Hc]; auto.
  left. rewrite <-(sort_Slice_perm _ leaf_less ls1), Es. apply sort_Slice_perm.
Qed.
End BuildTurnTree_facts.

(** The order in which a caller lists records with distinct memory IDs, and the
    sorting algorithm, do not matter. *)
Lemma sorted_leaves_unique (S1 S2 : SliceSort) ls1 ls2 :
  NoDup (MemoryID <$> ls1) -> ls1 ≡ₚ ls2 ->
  @sort_Slice S1 _ leaf_less ls1 = @sort_Slice S2 _ leaf_less ls2.
Proof.
  intros Hnd Hp.
  apply (sorted_by_key_unique (fun l => vec_to_list (MemoryID l))).
  - intros x y. rewrite !(@sort_Slice_perm S1). intros Hx Hy E%vec_to_list_inj2.
    apply list_elem_of_lookup in Hx as [i Hi]. apply list_elem_of_lookup in Hy as [j Hj].
    assert (i = j) as ->; [|congruence].
    eapply NoDup_lookup; [exact Hnd|..]; rewrite list_lookup_fmap, ?Hi, ?Hj; cbn;
      [reflexivity|by rewrite E].
  - apply (@sort_Slice_sorted S1), bytes_ltb_swo.
  - apply (@sort_Slice_sorted S2), bytes_ltb_swo.
  - by rewrite (@sort_Slice_perm S1), (@sort_Slice_perm S2).
Qed.

(** C32. [BuildTurnTree] is deterministic when the memory IDs of a turn are
    distinct: permuting the records, or changing the (unstable) sorting
    algorithm behind [sort.Slice], leaves the root unchanged. *)
Theorem BuildTurnTree_order_independent (S1 S2 : SliceSort) ls1 ls2 :
  NoDup (MemoryID <$> ls1) -> ls1 ≡ₚ ls2 ->
  @BuildTurnTree S1 ls1 = @BuildTurnTree S2 ls2.
Proof.
  intros Hnd Hp. unfold BuildTurnTree.
  by rewrite (sorted_leaves_unique S1 S2 ls1 ls2 Hnd Hp), (Permutation_length Hp).
Qed.

(** ** Examples *)

Section examples.
#[local] Existing Instance SmallGo.small_slice_sort.

Definition ex_leaf (id code : byte) (injected : bool) : LeafRecord :=
  mkLeaf (copy_into 16 [id]) (copy_into 32 [id]) (byte_to_Z code) injected
         (zero_array 32) (zero_array 32).
Definition ex_a : LeafRecord := ex_leaf x01 x00 true.
Definition ex_b : LeafRecord := ex_leaf x02 x06 false.
Definition ex_c : LeafRecord := ex_leaf x03 x04 false.

Lemma BuildTurnTree_binding_witness :
  [ex_b; ex_a; ex_c] ≡ₚ [ex_c; ex_b; ex_a]
  \/ collision_among (turn_messages [ex_b; ex_a; ex_c] ++ turn_messages [ex_c; ex_b; ex_a]).
Proof.
  apply BuildTurnTree_binding.
  - discriminate.
  - discriminate.
  - repeat constructor; vm_compute; congruence.
  - repeat constructor; vm_compute; congruence.
  - vm_compute. reflexivity.
Defined.

Lemma BuildTurnTree_order_independent_witness :
  BuildTurnTree [ex_b; ex_a; ex_c] = BuildTurnTree [ex_c; ex_b; ex_a].
Proof.
  apply BuildTurnTree_order_independent.
  - by_decide.
  - by_decide.
Defined.

(** When one memory ID occurs twice in a turn, the root does depend on
    the order of the records: with the insertion sort [sort.Slice] runs on
    short slices, two orders of the same two records have different roots. *)
Theorem BuildTurnTree_duplicate_ids_order_dependent :
  let l1 := ex_leaf x01 x00 true in
  let l2 := ex_leaf x01 x06 false in
  [l1; l2] ≡ₚ [l2; l1] /\ BuildTurnTree [l1; l2] <> BuildTurnTree [l2; l1].
Proof.
  split; [apply Permutation_swap|].
  by_decide.
Qed.
End examples.
