(* ===== verification/SessionMap.v ===== *)
(** * Session MAP evidence ([pkg/sessionmap])

    A Session MAP is the signed record of one turn: identities, snapshot hashes
    and the Merkle root of the decisions.  [AttestationBytes] is what the
    signature covers.  Signatures are used through the interface [Ed25519]. *)
From S2P Require Import Prelude Sha256 Merkle.

(** ** The signature scheme

    What the program relies on of [crypto/ed25519]: key and signature sizes, and
    that a signature made with a generated key verifies under the public key,
    which is the second half of the private key. *)
Class Ed25519 := {
  NewKeyFromSeed : array 32 -> bytes;
  Sign : bytes -> bytes -> array 64;
  Verify : bytes -> bytes -> array 64 -> bool;
  NewKeyFromSeed_size : forall seed, length (NewKeyFromSeed seed) = 64%nat;
  Verify_Sign : forall seed msg,
    Verify (drop 32 (NewKeyFromSeed seed)) msg (Sign (NewKeyFromSeed seed) msg) = true
}.

Definition PrivateKeySize : nat := 64.
Definition PublicKeySize : nat := 32.

Record SessionMAP := mkSessionMAP {
  Version : string;
  SessionMAPID : array 16;
  SessionID : string;
  AgentID : string;
  ActorID : string;
  TenantHash : array 32;
  TaskID : string;
  RuntimeContextHash : array 32;
  PolicySnapshotHash : array 32;
  RuntimeSnapshotHash : array 32;
  RuntimeSnapshotVersion : Z;     (* uint64 *)
  MerkleRoot : array 32;
  Signature : array 64;
  SigningKeyID : string;
  CreatedAt : Z;                  (* time.Time *)
  ExpiresAt : Z;                  (* time.Time *)
  LeafRecords : list LeafRecord
}.

Definition AttestationBytes (s : SessionMAP) : bytes :=
  bytes_of (Version s) ++ SessionMAPID s ++ bytes_of (SessionID s) ++
  bytes_of (AgentID s) ++ bytes_of (ActorID s) ++ TenantHash s ++
  bytes_of (TaskID s) ++ RuntimeContextHash s ++ PolicySnapshotHash s ++
  RuntimeSnapshotHash s ++ be_bytes 8 (RuntimeSnapshotVersion s) ++ MerkleRoot s ++
  bytes_of (SigningKeyID s) ++
  be_bytes 8 (u64 (time_unix_nano (CreatedAt s))) ++
  be_bytes 8 (u64 (time_unix_nano (ExpiresAt s))).

Definition with_signature (s : SessionMAP) (sig : array 64) : SessionMAP :=
  mkSessionMAP (Version s) (SessionMAPID s) (SessionID s) (AgentID s) (ActorID s)
    (TenantHash s) (TaskID s) (RuntimeContextHash s) (PolicySnapshotHash s)
    (RuntimeSnapshotHash s) (RuntimeSnapshotVersion s) (MerkleRoot s) sig
    (SigningKeyID s) (CreatedAt s) (ExpiresAt s) (LeafRecords s).

Definition GenerateSessionMAPWithRuntimeSnapshot `{SliceSort, Ed25519}
    (sessionMapID : array 16) (sessionID agentID actorID taskID : string)
    (tenantHash runtimeContextHash policySnapshotHash runtimeSnapshotHash : array 32)
    (runtimeSnapshotVersion : Z) (leaves : list LeafRecord)
    (privKey : bytes) (keyID : string) (ttl now : Z) : result SessionMAP :=
  if (length leaves =? 0)%nat then
    Err (errors_New "INVALID_SESSION_MAP: zero leaf records")
  else if negb (length privKey =? PrivateKeySize)%nat then
    Err (errors_New "INVALID_SIGNING_KEY: Ed25519 private key required")
  else if ttl <=? 0 then
    Err (errors_New "INVALID_TTL: ttl must be positive")
  else
  let root := BuildTurnTree leaves in
  let smap := {|
    Version := "0.1";
    SessionMAPID := sessionMapID;
    SessionID := sessionID;
    AgentID := agentID;
    ActorID := actorID;
    TenantHash := tenantHash;
    TaskID := taskID;
    RuntimeContextHash := runtimeContextHash;
    PolicySnapshotHash := policySnapshotHash;
    RuntimeSnapshotHash := runtimeSnapshotHash;
    RuntimeSnapshotVersion := runtimeSnapshotVersion;
    MerkleRoot := root;
    Signature := zero_array 64;
    SigningKeyID := keyID;
    CreatedAt := now;
    ExpiresAt := now + ttl;
    LeafRecords := leaves |} in
  Ok (with_signature smap (Sign privKey (AttestationBytes smap))).

Definition GenerateSessionMAP `{SliceSort, Ed25519}
    (sessionMapID : array 16) (sessionID agentID actorID taskID : string)
    (tenantHash runtimeContextHash policySnapshotHash : array 32)
    (leaves : list LeafRecord) (privKey : bytes) (keyID : string) (ttl now : Z)
    : result SessionMAP :=
  GenerateSessionMAPWithRuntimeSnapshot sessionMapID sessionID agentID actorID taskID
    tenantHash runtimeContextHash policySnapshotHash (zero_array 32) 0
    leaves privKey keyID ttl now.

(** ** What the signature covers *)

(** The signature is not part of the bytes it signs. *)
Lemma AttestationBytes_with_signature s sig :
  AttestationBytes (with_signature s sig) = AttestationBytes s.
Proof. reflexivity. Qed.

(** The fields of a Session MAP that the signature is meant to bind. *)
Record attested := mkAttested {
  at_version : string; at_map_id : array 16; at_session : string; at_agent : string;
  at_actor : string; at_tenant : array 32; at_task : string; at_context : array 32;
  at_policy : array 32; at_snapshot : array 32; at_snapshot_version : Z;
  at_root : array 32; at_key : string; at_created : Z; at_expires : Z }.

Definition attested_of (s : SessionMAP) : attested :=
  mkAttested (Version s) (SessionMAPID s) (SessionID s) (AgentID s) (ActorID s)
    (TenantHash s) (TaskID s) (RuntimeContextHash s) (PolicySnapshotHash s)
    (RuntimeSnapshotHash s) (RuntimeSnapshotVersion s) (MerkleRoot s)
    (SigningKeyID s) (CreatedAt s) (ExpiresAt s).

(** The widths of the Go types: a [uint64] version, instants with an int64
    nanosecond count. *)
Definition map_wf (s : SessionMAP) : Prop :=
  0 <= RuntimeSnapshotVersion s < 2 ^ 64 /\
  min_int64 <= CreatedAt s <= max_int64 /\ min_int64 <= ExpiresAt s <= max_int64.

(** The lengths of the variable-width fields, the last one excepted. *)
Definition string_shape (s : SessionMAP) : list nat :=
  String.length <$> [Version s; SessionID s; AgentID s; ActorID s; TaskID s].

Lemma i64_id z : min_int64 <= z <= max_int64 -> i64 z = z.
Proof. unfold i64, min_int64, max_int64. intros. rewrite Z.mod_small; lia. Qed.

Lemma u64_signed_inj a b :
  min_int64 <= a <= max_int64 -> min_int64 <= b <= max_int64 -> u64 a = u64 b -> a = b.
Proof.
  unfold u64, min_int64, max_int64. intros Ha Hb E.
  pose proof (Z.div_mod a (2 ^ 64) ltac:(lia)). pose proof (Z.div_mod b (2 ^ 64) ltac:(lia)).
  pose proof (Z.mod_pos_bound a (2 ^ 64) ltac:(lia)).
  pose proof (Z.mod_pos_bound b (2 ^ 64) ltac:(lia)). nia.
Qed.

Lemma time_bytes_inj a b :
  min_int64 <= a <= max_int64 -> min_int64 <= b <= max_int64 ->
  be_bytes 8 (u64 (time_unix_nano a)) = be_bytes 8 (u64 (time_unix_nano b)) -> a = b.
Proof.
  unfold time_unix_nano. intros Ha Hb. rewrite !i64_id by done. intros E.
  apply u64_signed_inj; [done..|]. eapply be_bytes_inj; [..|exact E];
    apply Z.mod_pos_bound; lia.
Qed.

(** The signed bytes determine every attested field once the lengths of the
    strings are known. *)
Lemma AttestationBytes_inj s1 s2 :
  map_wf s1 -> map_wf s2 -> string_shape s1 = string_shape s2 ->
  AttestationBytes s1 = AttestationBytes s2 -> attested_of s1 = attested_of s2.
Proof.
  destruct s1, s2. unfold map_wf, string_shape, AttestationBytes, attested_of; cbn.
  intros (Hv1 & Hc1 & He1) (Hv2 & Hc2 & He2) [= L1 L2 L3 L4 L5] E.
  assert (length (bytes_of SigningKeyID0) = length (bytes_of SigningKeyID1)) as L6.
  { apply (f_equal length) in E. rewrite !length_app in E.
    rewrite !length_vec_to_list, !length_be_bytes, !length_bytes_of in E.
    rewrite !length_bytes_of. lia. }
  rewrite !length_bytes_of in L6.
  repeat split_field E.
  apply be_bytes_inj in Efield9; [|done..].
  apply time_bytes_inj in Efield12; [|done..]. apply time_bytes_inj in E; [|done..].
  by subst.
Qed.


Definition ex_map (session agent : string) : SessionMAP :=
  mkSessionMAP "0.1" (zero_array 16) session agent "actor" (zero_array 32) "task"
    (zero_array 32) (zero_array 32) (zero_array 32) 7 (zero_array 32) (zero_array 64)
    "key" 1000 2000 [].


(** Replace the session and agent identities of a Session MAP. *)
Definition with_session_agent (s : SessionMAP) (session agent : string) : SessionMAP :=
  mkSessionMAP (Version s) (SessionMAPID s) session agent (ActorID s)
    (TenantHash s) (TaskID s) (RuntimeContextHash s) (PolicySnapshotHash s)
    (RuntimeSnapshotHash s) (RuntimeSnapshotVersion s) (MerkleRoot s) (Signature s)
    (SigningKeyID s) (CreatedAt s) (ExpiresAt s) (LeafRecords s).

(** The strings are written without length prefixes, so the signature does
    not bind the boundary between session and agent: for every Session MAP and
    every three strings, moving the middle one from the end of the session ID to
    the start of the agent ID keeps the signed bytes, and any verifier accepts
    one exactly when it accepts the other. *)
Theorem AttestationBytes_boundary_ambiguity `{Ed25519} s a b c pub :
  let s1 := with_session_agent s (a +:+ b) c in
  let s2 := with_session_agent s a (b +:+ c) in
  AttestationBytes s1 = AttestationBytes s2 /\
  Verify pub (AttestationBytes s1) (Signature s1)
    = Verify pub (AttestationBytes s2) (Signature s2).
Proof.
  intros s1 s2.
  assert (AttestationBytes s1 = AttestationBytes s2) as E; [|by rewrite E].
  unfold AttestationBytes; cbn. rewrite !bytes_of_app, <-!app_assoc. reflexivity.
Qed.

Section generate_facts.
Context `{SliceSort, Ed25519}.

Lemma generate_ok mapID session agent actor task tenant rctx policy rhash rver leaves key keyID ttl now :
  leaves <> [] -> length key = PrivateKeySize -> 0 < ttl ->
  exists s,
    GenerateSessionMAPWithRuntimeSnapshot mapID session agent actor task tenant rctx policy
      rhash rver leaves key keyID ttl now = Ok s /\
    attested_of s = mkAttested "0.1" mapID session agent actor tenant task rctx policy rhash
                      rver (BuildTurnTree leaves) keyID now (now + ttl) /\
    LeafRecords s = leaves /\ Signature s = Sign key (AttestationBytes s).
Proof.
  intros Hne Hk Ht. unfold GenerateSessionMAPWithRuntimeSnapshot.
  destruct leaves as [|l leaves]; [done|]. cbn [length Nat.eqb].
  rewrite Hk. cbn [negb]. destruct (Z.leb_spec ttl 0); [lia|].
  eexists. split; [reflexivity|]. by rewrite AttestationBytes_with_signature.
Qed.

Lemma GenerateSessionMAP_cases mapID session agent actor task tenant rctx policy rhash rver
    leaves key keyID ttl now :
  match GenerateSessionMAPWithRuntimeSnapshot mapID session agent actor task tenant rctx policy
          rhash rver leaves key keyID ttl now with
  | Err e =>
      (leaves = [] /\ error_text e = "INVALID_SESSION_MAP: zero leaf records") \/
      (leaves <> [] /\ length key <> PrivateKeySize /\
       error_text e = "INVALID_SIGNING_KEY: Ed25519 private key required") \/
      (leaves <> [] /\ length key = PrivateKeySize /\ ttl <= 0 /\
       error_text e = "INVALID_TTL: ttl must be positive")
  | Ok s =>
      leaves <> [] /\ length key = PrivateKeySize /\ CreatedAt s < ExpiresAt s /\
      attested_of s = mkAttested "0.1" mapID session agent actor tenant task rctx policy rhash
                        rver (BuildTurnTree leaves) keyID now (now + ttl) /\
      LeafRecords s = leaves /\ Signature s = Sign key (AttestationBytes s)
  end.
Proof.
  destruct leaves as [|l leaves]; [by left|].
  destruct (decide (length key = PrivateKeySize)) as [Hk|Hk].
  2: { unfold GenerateSessionMAPWithRuntimeSnapshot. simpl.
       rewrite (proj2 (Nat.eqb_neq _ _) Hk). right; left. done. }
  destruct (Z.leb_spec ttl 0) as [Ht|Ht].
  - unfold GenerateSessionMAPWithRuntimeSnapshot. simpl.
    rewrite Hk, (proj2 (Z.leb_le _ _) Ht). simpl. right; right. done.
  - destruct (generate_ok mapID session agent actor task tenant rctx policy rhash rver
      (l :: leaves) key keyID ttl now) as (s & -> & Ha & ?); [done..|].
    destruct_and!. split_and!; try done.
    apply (f_equal (fun a => (at_created a, at_expires a))) in Ha. cbn in Ha.
    injection Ha as -> ->. lia.
Qed.

(** [GenerateSessionMAPWithRuntimeSnapshot] rejects no leaves, a key of the
    wrong size and a nonpositive lifetime, in this order, with the three
    documented errors, and otherwise returns a Session MAP that carries its
    arguments, the Merkle root of the leaves, the leaves themselves, an expiry
    after its creation and a signature over its attestation bytes. *)
Theorem GenerateSessionMAP_total mapID session agent actor task tenant rctx policy rhash rver
    leaves key keyID ttl now :
  match GenerateSessionMAPWithRuntimeSnapshot mapID session agent actor task tenant rctx policy
          rhash rver leaves key keyID ttl now with
  | Err e =>
      (leaves = [] /\ error_text e = "INVALID_SESSION_MAP: zero leaf records") \/
      (leaves <> [] /\ length key <> PrivateKeySize /\
       error_text e = "INVALID_SIGNING_KEY: Ed25519 private key required") \/
      (leaves <> [] /\ length key = PrivateKeySize /\ ttl <= 0 /\
       error_text e = "INVALID_TTL: ttl must be positive")
  | Ok s =>
      leaves <> [] /\ length key = PrivateKeySize /\ CreatedAt s < ExpiresAt s /\
      attested_of s = mkAttested "0.1" mapID session agent actor tenant task rctx policy rhash
                        rver (BuildTurnTree leaves) keyID now (now + ttl) /\
      LeafRecords s = leaves /\ Signature s = Sign key (AttestationBytes s)
  end.
Proof. apply GenerateSessionMAP_cases. Qed.
(** With a generated key, a leaf and a positive lifetime are enough. *)
Lemma generate_succeeds mapID session agent actor task tenant rctx policy rhash rver leaves seed keyID
    ttl now :
  leaves <> [] -> 0 < ttl ->
  exists smap,
    GenerateSessionMAPWithRuntimeSnapshot mapID session agent actor task tenant rctx policy
      rhash rver leaves (NewKeyFromSeed seed) keyID ttl now = Ok smap /\
    LeafRecords smap = leaves /\ RuntimeSnapshotHash smap = rhash /\
    RuntimeSnapshotVersion smap = rver.
Proof.
  intros Hne Httl. unfold GenerateSessionMAPWithRuntimeSnapshot.
  rewrite NewKeyFromSeed_size, (proj2 (Z.leb_gt ttl 0)) by done.
  destruct leaves as [|l leaves]; [done|]. cbn [length Nat.eqb PrivateKeySize negb].
  by eexists.
Qed.
End generate_facts.
