(* ===== verification/AuditReplay.v ===== *)
(** * Audit: replay of Session MAPs and consequence lineage ([pkg/audit])

    [VerifySessionMAP] rebuilds the Merkle root and checks the signature; the
    policy- and runtime-aware variants first ask whether the snapshot hashes are
    known.  A Machine Consequence Record seals the evidence to downstream EEP and
    AEP identifiers with a lineage digest. *)
From S2P Require Import Prelude Sha256 Merkle SessionMap.

(** A nil-able [PolicySnapshotVerifier] and [RuntimeSnapshotVerifier]. *)
Definition PolicySnapshotVerifier : Type := array 32 -> bool.
Definition RuntimeSnapshotVerifier : Type := array 32 -> Z -> bool.

Record VerificationResult := mkVerification {
  SignatureValid : bool;
  MerkleRootValid : bool;
  ReplayMatch : bool
}.

Definition no_result : VerificationResult := mkVerification false false false.

Definition VerifySessionMAP `{SliceSort, Ed25519} (pubKey : bytes) (smap : SessionMAP)
    : result VerificationResult :=
  if (length (LeafRecords smap) =? 0)%nat then
    Err (errors_New "INVALID_AUDIT_FRAME: zero leaf records submitted")
  else if negb (length pubKey =? PublicKeySize)%nat then
    Err (errors_New "INVALID_PUBLIC_KEY: Ed25519 public key required")
  else
  let reconstructedRoot := BuildTurnTree (LeafRecords smap) in
  if bool_decide (reconstructedRoot <> MerkleRoot smap) then Ok no_result
  else
  let sig := Verify pubKey (AttestationBytes smap) (Signature smap) in
  Ok (mkVerification sig true (true && sig)).

Definition VerifySessionMAPWithPolicy `{SliceSort, Ed25519} (pubKey : bytes)
    (smap : SessionMAP) (verifier : option PolicySnapshotVerifier)
    : result VerificationResult :=
  match verifier with
  | None => Err (errors_New "INVALID_VERIFIER: snapshot verifier required")
  | Some known =>
      if negb (known (PolicySnapshotHash smap)) then Ok no_result
      else VerifySessionMAP pubKey smap
  end.

Definition VerifySessionMAPWithPolicyAndRuntime `{SliceSort, Ed25519} (pubKey : bytes)
    (smap : SessionMAP) (policyVerifier : option PolicySnapshotVerifier)
    (runtimeVerifier : option RuntimeSnapshotVerifier) : result VerificationResult :=
  match policyVerifier with
  | None => Err (errors_New "INVALID_POLICY_VERIFIER: snapshot verifier required")
  | Some knownPolicy =>
      match runtimeVerifier with
      | None =>
          Err (errors_New "INVALID_RUNTIME_VERIFIER: runtime snapshot verifier required")
      | Some knownRuntime =>
          if negb (knownPolicy (PolicySnapshotHash smap)) then Ok no_result
          else if negb (knownRuntime (RuntimeSnapshotHash smap) (RuntimeSnapshotVersion smap))
          then Ok no_result
          else VerifySessionMAP pubKey smap
      end
  end.

(** ** Lineage *)

Record MachineConsequenceRecord := mkMCR {
  MCRID : array 16;
  MCR_SessionMAPID : array 16;
  MCR_MerkleRoot : array 32;
  MCR_PolicySnapshotHash : array 32;
  MCR_RuntimeSnapshotHash : array 32;
  MCR_RuntimeSnapshotVersion : Z;
  EEPID : string;
  AEPID : string;
  LineageDigest : array 32;
  LinkedAtUnix : Z                (* int64 *)
}.

(** What [ComputeLineageDigest] writes to the hash. *)
Definition lineage_message (mcrID sessionMapID : array 16)
    (merkleRoot policySnapshotHash runtimeSnapshotHash : array 32)
    (runtimeSnapshotVersion : Z) (eepID aepID : string) (linkedAtUnix : Z) : bytes :=
  mcrID ++ sessionMapID ++ merkleRoot ++ policySnapshotHash ++ runtimeSnapshotHash ++
  be_bytes 8 runtimeSnapshotVersion ++
  bytes_of eepID ++ [x00] ++ bytes_of aepID ++ [x00] ++
  be_bytes 8 (u64 linkedAtUnix).

Definition ComputeLineageDigest (mcrID sessionMapID : array 16)
    (merkleRoot policySnapshotHash runtimeSnapshotHash : array 32)
    (runtimeSnapshotVersion : Z) (eepID aepID : string) (linkedAtUnix : Z) : array 32 :=
  Sum256 (lineage_message mcrID sessionMapID merkleRoot policySnapshotHash
            runtimeSnapshotHash runtimeSnapshotVersion eepID aepID linkedAtUnix).

Definition CompileLineageRecord (mcrID : array 16) (smap : SessionMAP)
    (eepID aepID : string) (linkedAtUnix : Z) : result MachineConsequenceRecord :=
  if bool_decide (eepID = "") || bool_decide (aepID = "") then
    Err (errors_New "LINEAGE_MALFORMED: EEP and AEP trackers are required to close the consequence loop")
  else
  let lineageDigest :=
    ComputeLineageDigest mcrID (SessionMAPID smap) (MerkleRoot smap)
      (PolicySnapshotHash smap) (RuntimeSnapshotHash smap) (RuntimeSnapshotVersion smap)
      eepID aepID linkedAtUnix in
  Ok (mkMCR mcrID (SessionMAPID smap) (MerkleRoot smap) (PolicySnapshotHash smap)
        (RuntimeSnapshotHash smap) (RuntimeSnapshotVersion smap) eepID aepID
        lineageDigest linkedAtUnix).

Definition VerifyLineageRecord (mcr : MachineConsequenceRecord) (smap : SessionMAP) : bool :=
  if bool_decide (MCR_SessionMAPID mcr <> SessionMAPID smap)
     || bool_decide (MCR_MerkleRoot mcr <> MerkleRoot smap)
     || bool_decide (MCR_PolicySnapshotHash mcr <> PolicySnapshotHash smap)
     || bool_decide (MCR_RuntimeSnapshotHash mcr <> RuntimeSnapshotHash smap)
     || bool_decide (MCR_RuntimeSnapshotVersion mcr <> RuntimeSnapshotVersion smap)
  then false
  else
  match CompileLineageRecord (MCRID mcr) smap (EEPID mcr) (AEPID mcr) (LinkedAtUnix mcr) with
  | Err _ => false
  | Ok recalculated => bool_decide (LineageDigest mcr = LineageDigest recalculated)
  end.

(** ** Session MAP replay *)

Section replay_facts.
Context `{SliceSort, Ed25519}.

Lemma VerifySessionMAP_match pub smap :
  LeafRecords smap <> [] -> length pub = PublicKeySize ->
  VerifySessionMAP pub smap =
    Ok (if bool_decide (BuildTurnTree (LeafRecords smap) = MerkleRoot smap)
        then let sig := Verify pub (AttestationBytes smap) (Signature smap) in
             mkVerification sig true sig
        else no_result).
Proof.
  intros Hne Hp. unfold VerifySessionMAP.
  rewrite (proj2 (Nat.eqb_neq _ _)) by (by destruct (LeafRecords smap)).
  rewrite Hp. cbn [negb]. by repeat case_bool_decide.
Qed.

Lemma ReplayMatch_iff pub smap res :
  VerifySessionMAP pub smap = Ok res ->
  ReplayMatch res = true <->
  (LeafRecords smap <> [] /\ length pub = PublicKeySize /\
   BuildTurnTree (LeafRecords smap) = MerkleRoot smap /\
   Verify pub (AttestationBytes smap) (Signature smap) = true) /\
  res = mkVerification true true true.
Proof.
  intros Hv. destruct (decide (LeafRecords smap = [])) as [E|Hne].
  { unfold VerifySessionMAP in Hv. by rewrite E in Hv. }
  destruct (decide (length pub = PublicKeySize)) as [Hp|Hp].
  2: { unfold VerifySessionMAP in Hv. destruct (LeafRecords smap); [done|].
       cbn [length Nat.eqb] in Hv. by rewrite (proj2 (Nat.eqb_neq _ _) Hp) in Hv. }
  rewrite VerifySessionMAP_match in Hv by done. injection Hv as <-.
  case_bool_decide as Hr; cbn; [|split; [done|by intros [_ [=]]]].
  destruct (Verify _ _ _); cbn; split; done || by intros [_ [=]].
Qed.

Lemma replay_inversion pub smap :
  VerifySessionMAP pub smap = Ok (mkVerification true true true) ->
  LeafRecords smap <> [] /\ length pub = PublicKeySize /\
  BuildTurnTree (LeafRecords smap) = MerkleRoot smap /\
  Verify pub (AttestationBytes smap) (Signature smap) = true.
Proof. intros Hv. by apply (ReplayMatch_iff _ _ _ Hv). Qed.

(** [ReplayMatch] is reported exactly when the frame is well-formed, the
    Merkle root of the carried leaves is the signed root and the signature
    verifies; it is then reported together with both partial results. *)
Theorem VerifySessionMAP_ReplayMatch_iff pub smap res :
  VerifySessionMAP pub smap = Ok res ->
  ReplayMatch res = true <->
  (LeafRecords smap <> [] /\ length pub = PublicKeySize /\
   BuildTurnTree (LeafRecords smap) = MerkleRoot smap /\
   Verify pub (AttestationBytes smap) (Signature smap) = true) /\
  res = mkVerification true true true.
Proof. apply ReplayMatch_iff. Qed.

(** The policy- and runtime-aware verification in terms of the plain one. *)
Lemma VerifyWithPolicyAndRuntime_unfold pub smap knownP knownR :
  VerifySessionMAPWithPolicyAndRuntime pub smap (Some knownP) (Some knownR) =
    if knownP (PolicySnapshotHash smap) &&
       knownR (RuntimeSnapshotHash smap) (RuntimeSnapshotVersion smap)
    then VerifySessionMAP pub smap else Ok no_result.
Proof. cbn. by destruct (knownP _), (knownR _ _). Qed.

(** A generated map replays under the signer's public key. *)
Lemma generated_replays seed mapID session agent actor task tenant rctx policy
    rhash rver leaves keyID ttl now smap :
  GenerateSessionMAPWithRuntimeSnapshot mapID session agent actor task tenant rctx policy
    rhash rver leaves (NewKeyFromSeed seed) keyID ttl now = Ok smap ->
  VerifySessionMAP (drop 32 (NewKeyFromSeed seed)) smap = Ok (mkVerification true true true).
Proof.
  intros Hg.
  pose proof (GenerateSessionMAP_cases mapID session agent actor task tenant rctx policy rhash
    rver leaves (NewKeyFromSeed seed) keyID ttl now) as Hc.
  rewrite Hg in Hc. destruct Hc as (Hne & _ & _ & Ha & Hl & Hs).
  rewrite VerifySessionMAP_match.
  - rewrite Hl, (f_equal at_root Ha : MerkleRoot smap = _), bool_decide_true by done.
    by rewrite Hs, Verify_Sign.
  - by rewrite Hl.
  - by rewrite length_drop, NewKeyFromSeed_size.
Qed.

Lemma generated_replays_with_policy seed mapID session agent actor task tenant rctx policy
    rhash rver leaves keyID ttl now smap known :
  GenerateSessionMAPWithRuntimeSnapshot mapID session agent actor task tenant rctx policy
    rhash rver leaves (NewKeyFromSeed seed) keyID ttl now = Ok smap ->
  known policy = true ->
  VerifySessionMAPWithPolicy (drop 32 (NewKeyFromSeed seed)) smap (Some known)
  = Ok (mkVerification true true true).
Proof.
  intros Hg Hk.
  pose proof (GenerateSessionMAP_cases mapID session agent actor task tenant rctx policy rhash
    rver leaves (NewKeyFromSeed seed) keyID ttl now) as Hc.
  rewrite Hg in Hc. destruct Hc as (_ & _ & _ & Ha & _ & _). cbn.
  rewrite (f_equal at_policy Ha : PolicySnapshotHash smap = _). cbn [at_policy].
  rewrite Hk. exact (generated_replays _ _ _ _ _ _ _ _ _ _ _ _ _ _ _ _ Hg).
Qed.

(** C24. Audit completeness: a Session MAP generated with a key pair replays
    under the pair's public key, with and without policy and runtime checks, for
    every verifier that knows the policy and runtime snapshots it names. *)
Theorem generated_session_map_verifies seed mapID session agent actor task tenant rctx policy
    rhash rver leaves keyID ttl now smap knownP knownR :
  GenerateSessionMAPWithRuntimeSnapshot mapID session agent actor task tenant rctx policy
    rhash rver leaves (NewKeyFromSeed seed) keyID ttl now = Ok smap ->
  knownP policy = true -> knownR rhash rver = true ->
  let pub := drop 32 (NewKeyFromSeed seed) in
  let verified := Ok (mkVerification true true true) in
  VerifySessionMAP pub smap = verified /\
  VerifySessionMAPWithPolicy pub smap (Some knownP) = verified /\
  VerifySessionMAPWithPolicyAndRuntime pub smap (Some knownP) (Some knownR) = verified.
Proof.
  intros Hg HP HR pub verified.
  pose proof (GenerateSessionMAP_cases mapID session agent actor task tenant rctx policy rhash
    rver leaves (NewKeyFromSeed seed) keyID ttl now) as Hc.
  rewrite Hg in Hc. destruct Hc as (_ & _ & _ & Ha & _ & _).
  assert (VerifySessionMAP pub smap = verified) as Hv by exact (generated_replays _ _ _ _ _ _ _ _ _ _ _ _ _ _ _ _ Hg).
  rewrite VerifyWithPolicyAndRuntime_unfold. cbn.
  rewrite (f_equal at_policy Ha : PolicySnapshotHash smap = _).
  rewrite (f_equal at_snapshot Ha : RuntimeSnapshotHash smap = _).
  rewrite (f_equal at_snapshot_version Ha : RuntimeSnapshotVersion smap = _).
  cbn [at_policy at_snapshot at_snapshot_version]. by rewrite HP, HR.
Qed.

(** Audit soundness: two Session MAPs that replay and carry the same root
    record the same decisions up to order, or the audit exhibits a SHA-256
    collision: a recorded decision cannot be changed under a replaying root. *)
Theorem replayed_leaves_binding pub1 pub2 s1 s2 :
  VerifySessionMAP pub1 s1 = Ok (mkVerification true true true) ->
  VerifySessionMAP pub2 s2 = Ok (mkVerification true true true) ->
  Forall leaf_wf (LeafRecords s1) -> Forall leaf_wf (LeafRecords s2) ->
  MerkleRoot s1 = MerkleRoot s2 ->
  LeafRecords s1 ≡ₚ LeafRecords s2 \/
  collision_among (turn_messages (LeafRecords s1) ++ turn_messages (LeafRecords s2)).
Proof.
  intros H1 H2 Hw1 Hw2 E.
  apply replay_inversion in H1 as (Hne1 & _ & Hr1 & _).
  apply replay_inversion in H2 as (Hne2 & _ & Hr2 & _).
  destruct (BuildTurnTree_binding_sorted (LeafRecords s1) (LeafRecords s2)) as [Es|]; auto.
  { by rewrite Hr1, Hr2. }
  left. rewrite <-(sort_Slice_perm _ leaf_less (LeafRecords s1)), Es. apply sort_Slice_perm.
Qed.
End replay_facts.

(** ** Lineage records *)

Lemma CompileLineageRecord_ok mcrID smap eep aep linked :
  eep <> "" -> aep <> "" ->
  CompileLineageRecord mcrID smap eep aep linked =
    Ok (mkMCR mcrID (SessionMAPID smap) (MerkleRoot smap) (PolicySnapshotHash smap)
          (RuntimeSnapshotHash smap) (RuntimeSnapshotVersion smap) eep aep
          (ComputeLineageDigest mcrID (SessionMAPID smap) (MerkleRoot smap)
            (PolicySnapshotHash smap) (RuntimeSnapshotHash smap) (RuntimeSnapshotVersion smap)
            eep aep linked) linked).
Proof. intros. unfold CompileLineageRecord. by rewrite !bool_decide_false. Qed.

(** The lineage fields a record must share with a Session MAP. *)
Definition lineage_of_map (s : SessionMAP) :=
  (SessionMAPID s, MerkleRoot s, PolicySnapshotHash s, RuntimeSnapshotHash s,
   RuntimeSnapshotVersion s).
Definition lineage_of_mcr (m : MachineConsequenceRecord) :=
  (MCR_SessionMAPID m, MCR_MerkleRoot m, MCR_PolicySnapshotHash m, MCR_RuntimeSnapshotHash m,
   MCR_RuntimeSnapshotVersion m).

Lemma VerifyLineageRecord_iff m s :
  VerifyLineageRecord m s = true <->
  lineage_of_mcr m = lineage_of_map s /\ EEPID m <> "" /\ AEPID m <> "" /\
  LineageDigest m =
    ComputeLineageDigest (MCRID m) (SessionMAPID s) (MerkleRoot s) (PolicySnapshotHash s)
      (RuntimeSnapshotHash s) (RuntimeSnapshotVersion s) (EEPID m) (AEPID m) (LinkedAtUnix m).
Proof.
  unfold VerifyLineageRecord, lineage_of_mcr, lineage_of_map, CompileLineageRecord.
  split.
  - intros Hv. split_ifs_in Hv; try done. bool_facts.
    repeat match goal with H : ~ (_ <> _) |- _ => apply dec_stable in H end.
    split; [congruence|done].
  - intros ([= -> -> -> -> ->] & He & Ha & ->).
    rewrite !(bool_decide_false (_ <> _)) by (intros Hn; by apply Hn). cbn.
    rewrite !bool_decide_false by done. by apply bool_decide_true.
Qed.

(** A compiled record verifies against exactly the maps with its lineage fields. *)
Lemma compiled_lineage_verifies mcrID smap eep aep linked mcr :
  CompileLineageRecord mcrID smap eep aep linked = Ok mcr ->
  VerifyLineageRecord mcr smap = true /\
  forall smap', VerifyLineageRecord mcr smap' = true <-> lineage_of_map smap = lineage_of_map smap'.
Proof.
  intros Hc.
  assert (eep <> "" /\ aep <> "") as [He Ha].
  { unfold CompileLineageRecord in Hc. repeat case_bool_decide; done. }
  rewrite CompileLineageRecord_ok in Hc by done. injection Hc as <-.
  assert (forall s, lineage_of_map smap = lineage_of_map s <->
    VerifyLineageRecord (mkMCR mcrID (SessionMAPID smap) (MerkleRoot smap) (PolicySnapshotHash smap)
          (RuntimeSnapshotHash smap) (RuntimeSnapshotVersion smap) eep aep
          (ComputeLineageDigest mcrID (SessionMAPID smap) (MerkleRoot smap)
            (PolicySnapshotHash smap) (RuntimeSnapshotHash smap) (RuntimeSnapshotVersion smap)
            eep aep linked) linked) s = true) as Hiff.
  { intros s. rewrite VerifyLineageRecord_iff. unfold lineage_of_mcr, lineage_of_map; cbn.
    split; [intros [= -> -> -> -> ->]; done|by intros [-> _]]. }
  split; [by apply Hiff|]. intros s. by rewrite Hiff.
Qed.

(** Lineage round trip: a record compiled from a Session MAP verifies
    against it, and against another Session MAP only if the two agree on the map
    ID, the Merkle root, the policy and runtime snapshots and the version. *)
Theorem lineage_roundtrip mcrID smap eep aep linked mcr :
  CompileLineageRecord mcrID smap eep aep linked = Ok mcr ->
  VerifyLineageRecord mcr smap = true /\
  forall smap', VerifyLineageRecord mcr smap' = true <-> lineage_of_map smap = lineage_of_map smap'.
Proof. apply compiled_lineage_verifies. Qed.

Definition nul_free (s : string) : Prop := x00 ∉ bytes_of s.

Lemma nul_terminated_inj s1 s2 r1 r2 :
  nul_free s1 -> nul_free s2 ->
  bytes_of s1 ++ x00 :: r1 = bytes_of s2 ++ x00 :: r2 -> s1 = s2 /\ r1 = r2.
Proof.
  unfold nul_free. revert s2. induction s1 as [|c1 s1 IH]; intros [|c2 s2] H1 H2 E;
    simpl in H1, H2, E; rewrite ?not_elem_of_cons in H1; rewrite ?not_elem_of_cons in H2;
    [by injection E as ->|injection E as E1 E2; destruct_and?; congruence..|].
  injection E as E1 E2.
  destruct (IH s2) as [-> ->]; try tauto. split; [|done]. f_equal.
  by rewrite <-(Ascii.ascii_of_byte_of_ascii c1), E1, Ascii.ascii_of_byte_of_ascii.
Qed.

(** The widths of the fields of a record. *)
Definition mcr_wf (m : MachineConsequenceRecord) : Prop :=
  0 <= MCR_RuntimeSnapshotVersion m < 2 ^ 64 /\
  min_int64 <= LinkedAtUnix m <= max_int64 /\ nul_free (EEPID m) /\ nul_free (AEPID m).

Definition mcr_message (m : MachineConsequenceRecord) : bytes :=
  lineage_message (MCRID m) (MCR_SessionMAPID m) (MCR_MerkleRoot m) (MCR_PolicySnapshotHash m)
    (MCR_RuntimeSnapshotHash m) (MCR_RuntimeSnapshotVersion m) (EEPID m) (AEPID m)
    (LinkedAtUnix m).

Lemma mcr_message_inj m1 m2 :
  mcr_wf m1 -> mcr_wf m2 -> LineageDigest m1 = LineageDigest m2 ->
  mcr_message m1 = mcr_message m2 -> m1 = m2.
Proof.
  destruct m1, m2. unfold mcr_wf, mcr_message, lineage_message; cbn.
  intros (Hv1 & Hl1 & Ne1 & Na1) (Hv2 & Hl2 & Ne2 & Na2) -> E.
  do 6 split_field E.
  apply nul_terminated_inj in E as [-> E]; [|done..].
  apply nul_terminated_inj in E as [-> E]; [|done..].
  apply be_bytes_inj in Efield4; [|done..].
  apply be_bytes_inj in E; [|apply Z.mod_pos_bound; lia..].
  apply u64_signed_inj in E; [|done..]. by subst.
Qed.

(** C26. The lineage digest seals a consequence: two records that verify (each
    against its own Session MAP) under the same digest are the same record, or
    their two digest messages are a SHA-256 collision.  EEP and AEP identifiers
    must not contain NUL. *)
Theorem lineage_digest_binding m1 m2 s1 s2 :
  VerifyLineageRecord m1 s1 = true -> VerifyLineageRecord m2 s2 = true ->
  mcr_wf m1 -> mcr_wf m2 -> LineageDigest m1 = LineageDigest m2 ->
  m1 = m2 \/ collision_among [mcr_message m1; mcr_message m2].
Proof.
  intros (E1 & _ & _ & D1)%VerifyLineageRecord_iff (E2 & _ & _ & D2)%VerifyLineageRecord_iff
    Hw1 Hw2 E.
  assert (forall m s, lineage_of_mcr m = lineage_of_map s ->
    mcr_message m = lineage_message (MCRID m) (SessionMAPID s) (MerkleRoot s)
      (PolicySnapshotHash s) (RuntimeSnapshotHash s) (RuntimeSnapshotVersion s)
      (EEPID m) (AEPID m) (LinkedAtUnix m)) as Hmsg.
  { intros m s. unfold lineage_of_mcr, lineage_of_map, mcr_message.
    by intros [= -> -> -> -> ->]. }
  unfold ComputeLineageDigest in D1, D2.
  rewrite <-(Hmsg _ _ E1) in D1. rewrite <-(Hmsg _ _ E2) in D2.
  destruct (Sum256_cases [mcr_message m1; mcr_message m2] (mcr_message m1) (mcr_message m2))
    as [Em|]; [in_list|in_list|congruence| |by right].
  left. by apply mcr_message_inj.
Qed.

(** The NUL separators do not delimit identifiers that contain NUL: moving
    a NUL-separated piece from the end of the EEP identifier to the start of the
    AEP identifier keeps the lineage digest. *)
Theorem lineage_nul_ambiguity mcrID mapID root policy rhash rver a b c linked :
  let nul := String (Ascii.ascii_of_byte x00) EmptyString in
  ComputeLineageDigest mcrID mapID root policy rhash rver (a +:+ nul +:+ b) c linked =
  ComputeLineageDigest mcrID mapID root policy rhash rver a (b +:+ nul +:+ c) linked.
Proof.
  unfold ComputeLineageDigest, lineage_message. f_equal.
  rewrite !bytes_of_app. simpl. by rewrite <-!app_assoc.
Qed.

(** ** Examples *)

Section examples.
#[local] Existing Instance SmallGo.small_slice_sort.

(** A signature scheme with the right shape: the "signature" is a keyed hash of
    the message under the public key. *)
#[local] Program Instance keyed_hash_scheme : Ed25519 := {
  NewKeyFromSeed seed := vec_to_list seed ++ vec_to_list (Sum256 seed);
  Sign key msg := copy_into 64 (Sum256 (drop 32 key ++ msg));
  Verify pub msg sig := bool_decide (sig = copy_into 64 (Sum256 (pub ++ msg)))
}.
Next Obligation.
  intros seed. cbv beta. rewrite length_app, !length_vec_to_list. reflexivity.
Qed.
Next Obligation. intros seed msg. simpl. by apply bool_decide_true. Qed.

Definition ex_key : bytes := NewKeyFromSeed (zero_array 32).
Definition ex_leaves : list LeafRecord := [ex_b; ex_a].

Definition ex_generate : result SessionMAP :=
  GenerateSessionMAPWithRuntimeSnapshot (zero_array 16) "session" "agent" "actor" "task"
    (zero_array 32) (zero_array 32) (vreplicate 32 x09) (vreplicate 32 x08) 3
    ex_leaves ex_key "key" hour 1000.

Definition ex_smap : SessionMAP :=
  match ex_generate with Ok s => s | Err _ => ex_map "" "" end.

Lemma generated_session_map_verifies_witness :
  VerifySessionMAP (drop 32 ex_key) ex_smap = Ok (mkVerification true true true).
Proof.
  refine (proj1 (generated_session_map_verifies (zero_array 32) (zero_array 16) "session" "agent" "actor"
    "task" (zero_array 32) (zero_array 32) (vreplicate 32 x09) (vreplicate 32 x08) 3
    ex_leaves "key" hour 1000 ex_smap (fun h => bool_decide (h = vreplicate 32 x09))
    (fun _ v => v =? 3) _ _ _)).
  - vm_compute. reflexivity.
  - vm_compute. reflexivity.
  - reflexivity.
Defined.

Lemma VerifySessionMAP_ReplayMatch_iff_witness :
  BuildTurnTree (LeafRecords ex_smap) = MerkleRoot ex_smap.
Proof.
  refine (proj1 (proj2 (proj2 (proj1 (proj1
    (VerifySessionMAP_ReplayMatch_iff (drop 32 ex_key) ex_smap (mkVerification true true true) _)
    _))))).
  - vm_compute. reflexivity.
  - reflexivity.
Defined.

Lemma replayed_leaves_binding_witness :
  LeafRecords ex_smap ≡ₚ LeafRecords ex_smap \/
  collision_among (turn_messages (LeafRecords ex_smap) ++ turn_messages (LeafRecords ex_smap)).
Proof.
  apply (replayed_leaves_binding (drop 32 ex_key) (drop 32 ex_key)).
  - vm_compute. reflexivity.
  - vm_compute. reflexivity.
  - repeat constructor; vm_compute; congruence.
  - repeat constructor; vm_compute; congruence.
  - reflexivity.
Defined.

Definition ex_mcr : MachineConsequenceRecord :=
  match CompileLineageRecord (zero_array 16) ex_smap "eep" "aep" 1700000000 with
  | Ok m => m
  | Err _ => mkMCR (zero_array 16) (zero_array 16) (zero_array 32) (zero_array 32)
               (zero_array 32) 0 "" "" (zero_array 32) 0
  end.

Lemma lineage_roundtrip_witness : VerifyLineageRecord ex_mcr ex_smap = true.
Proof.
  refine (proj1 (lineage_roundtrip (zero_array 16) ex_smap "eep" "aep" 1700000000 ex_mcr _)).
  vm_compute. reflexivity.
Defined.

Lemma lineage_digest_binding_witness :
  ex_mcr = ex_mcr \/ collision_among [mcr_message ex_mcr; mcr_message ex_mcr].
Proof.
  apply (lineage_digest_binding ex_mcr ex_mcr ex_smap ex_smap).
  - vm_compute. reflexivity.
  - vm_compute. reflexivity.
  - unfold mcr_wf. split; [z_range|]. split; [split; vm_compute; congruence|].
    split; by_decide.
  - unfold mcr_wf. split; [z_range|]. split; [split; vm_compute; congruence|].
    split; by_decide.
  - reflexivity.
Defined.
End examples.
