(* ===== verification/Quarantine.v ===== *)
(** * Revocation events and runtime snapshots ([pkg/quarantine/quarantine.go])

    [CompileSnapshot] folds the revocation ledger into three maps, and a lookup
    reads them in a fixed precedence.  The abstract contract is a four-state
    machine per memory ([dyn_state]); the snapshot hash is shown to depend on
    the snapshot's contents only and to bind them. *)
From S2P Require Import Prelude Sha256 Bitmask Evaluate.

(** ** Data *)

(** [type State uint8] *)
Definition StateClear : Z := 0.
Definition StateQuarantined : Z := 1.
Definition StateDeletionRequested : Z := 2.
Definition StateRevoked : Z := 3.
Definition StatePoisoningSuspected : Z := 4.

Definition BlocksInjection (s : Z) : bool :=
  (s =? StateQuarantined) || (s =? StateDeletionRequested) || (s =? StateRevoked)
  || (s =? StatePoisoningSuspected).

(** [type EventType uint8] *)
Definition EventQuarantineMemory : Z := 0.
Definition EventDeleteRequested : Z := 1.
Definition EventRevokeMemory : Z := 2.
Definition EventClearQuarantine : Z := 3.
Definition EventPoisoningSuspected : Z := 4.
Definition EventPromptInjectionDetected : Z := 5.
Definition EventCrossSessionLeak : Z := 6.
Definition EventCrossAgentLeak : Z := 7.

(** [type QuarantineReason uint8] *)
Definition ReasonPoisoningSuspected : Z := 0.
Definition ReasonPromptInjectionDetected : Z := 1.
Definition ReasonCrossSessionLeak : Z := 2.
Definition ReasonRetroactiveRevocation : Z := 3.

Record RevocationEvent := mkEvent {
  EventID : array 16;
  EvMemoryID : array 16;
  EventType : Z;                 (* uint8 *)
  Reason : Z;                    (* uint8 *)
  OperatorID : string;
  Source : string;
  EvCreatedAt : Z;               (* time.Time *)
  EvPolicyHash : array 32;
  PreviousState : string;
  NewState : string;
  EvSignature : array 64;
  EvSigningKeyID : string
}.

Record QuarantineState := mkQuarantineState { QsEventID : array 16; QsReasonCode : string }.
Record TombstoneState := mkTombstoneState { TsEventID : array 16 }.
Record RevocationState := mkRevocationState { RsEventID : array 16 }.

#[global] Instance RevocationEvent_eq_dec : EqDecision RevocationEvent.
Proof. solve_decision. Defined.
#[global] Instance QuarantineState_eq_dec : EqDecision QuarantineState.
Proof. solve_decision. Defined.
#[global] Instance TombstoneState_eq_dec : EqDecision TombstoneState.
Proof. solve_decision. Defined.
#[global] Instance RevocationState_eq_dec : EqDecision RevocationState.
Proof. solve_decision. Defined.

Record RuntimeSnapshot := mkSnap {
  SnapVersion : Z;               (* uint64 *)
  SnapshotHash : array 32;
  CreatedAtUnix : Z;
  HighestEventID : array 16;
  EventCount : Z;                (* uint64 *)
  Quarantined : gmap (array 16) QuarantineState;
  Tombstoned : gmap (array 16) TombstoneState;
  Revoked : gmap (array 16) RevocationState
}.

Record RuntimeDecision := mkRuntimeDecision {
  RdDecision : Z;
  RdReason : string;
  StateRef : array 16
}.

#[global] Instance RuntimeDecision_eq_dec : EqDecision RuntimeDecision.
Proof. solve_decision. Defined.

(** ** Reason codes *)

Definition reasonCode (event : RevocationEvent) : string :=
  let t := EventType event in
  if t =? EventPoisoningSuspected then "MEMORY_POISONING_SUSPECTED"
  else if t =? EventPromptInjectionDetected then "PROMPT_INJECTION_DETECTED"
  else if t =? EventCrossSessionLeak then "CROSS_SESSION_LEAK"
  else if t =? EventCrossAgentLeak then "CROSS_AGENT_LEAK"
  else if t =? EventQuarantineMemory then
    let r := Reason event in
    if r =? ReasonPromptInjectionDetected then "PROMPT_INJECTION_DETECTED"
    else if r =? ReasonCrossSessionLeak then "CROSS_SESSION_LEAK"
    else if r =? ReasonRetroactiveRevocation then "RETROACTIVE_REVOCATION"
    else "MEMORY_POISONING_SUSPECTED"
  else "MEMORY_QUARANTINED".

(** ** The snapshot hash *)

Definition pair_less {V} (p q : array 16 * V) : bool := bytes_ltb p.1 q.1.

Definition tag (s : string) : bytes := bytes_of s.

Definition writeQuarantineSet `{SliceSort, MapRange}
    (set : gmap (array 16) QuarantineState) : bytes :=
  concat ((fun p => tag "Q" ++ vec_to_list p.1 ++ vec_to_list (QsEventID p.2)
                    ++ bytes_of (QsReasonCode p.2))
          <$> sort_Slice pair_less (map_range set)).

Definition writeTombstoneSet `{SliceSort, MapRange}
    (set : gmap (array 16) TombstoneState) : bytes :=
  concat ((fun p => tag "T" ++ vec_to_list p.1 ++ vec_to_list (TsEventID p.2))
          <$> sort_Slice pair_less (map_range set)).

Definition writeRevocationSet `{SliceSort, MapRange}
    (set : gmap (array 16) RevocationState) : bytes :=
  concat ((fun p => tag "R" ++ vec_to_list p.1 ++ vec_to_list (RsEventID p.2))
          <$> sort_Slice pair_less (map_range set)).

(** What [ComputeSnapshotHash] writes to the hash. *)
Definition snapshot_message `{SliceSort, MapRange} (snap : RuntimeSnapshot) : bytes :=
  be_bytes 8 (SnapVersion snap) ++ be_bytes 8 (EventCount snap) ++ HighestEventID snap ++
  writeQuarantineSet (Quarantined snap) ++ writeTombstoneSet (Tombstoned snap) ++
  writeRevocationSet (Revoked snap).

Definition ComputeSnapshotHash `{SliceSort, MapRange} (snap : RuntimeSnapshot) : array 32 :=
  Sum256 (snapshot_message snap).

Definition with_hash (snap : RuntimeSnapshot) (h : array 32) : RuntimeSnapshot :=
  mkSnap (SnapVersion snap) h (CreatedAtUnix snap) (HighestEventID snap) (EventCount snap)
    (Quarantined snap) (Tombstoned snap) (Revoked snap).

Definition NewEmptySnapshot `{SliceSort, MapRange} (version createdAt : Z) : RuntimeSnapshot :=
  let snap := mkSnap version (zero_array 32) (time_unix createdAt) (zero_array 16) 0 ∅ ∅ ∅ in
  with_hash snap (ComputeSnapshotHash snap).

(** ** Compilation *)

Definition is_quarantine_type (t : Z) : bool :=
  (t =? EventQuarantineMemory) || (t =? EventPoisoningSuspected)
  || (t =? EventPromptInjectionDetected) || (t =? EventCrossSessionLeak)
  || (t =? EventCrossAgentLeak).

(** The body of the loop over the events. *)
Definition apply_event (snap : RuntimeSnapshot) (event : RevocationEvent) : RuntimeSnapshot :=
  let set q t r :=
    mkSnap (SnapVersion snap) (SnapshotHash snap) (CreatedAtUnix snap) (EventID event)
      (EventCount snap) q t r in
  let id := EvMemoryID event in
  let ty := EventType event in
  if ty =? EventDeleteRequested then
    set (delete id (Quarantined snap))
        (<[id := mkTombstoneState (EventID event)]> (Tombstoned snap))
        (delete id (Revoked snap))
  else if is_quarantine_type ty then
    set (<[id := mkQuarantineState (EventID event) (reasonCode event)]> (Quarantined snap))
        (Tombstoned snap)
        (delete id (Revoked snap))
  else if ty =? EventRevokeMemory then
    set (delete id (Quarantined snap)) (Tombstoned snap)
        (<[id := mkRevocationState (EventID event)]> (Revoked snap))
  else if ty =? EventClearQuarantine then
    set (delete id (Quarantined snap)) (Tombstoned snap) (Revoked snap)
  else set (Quarantined snap) (Tombstoned snap) (Revoked snap).

Definition CompileSnapshot `{SliceSort, MapRange}
    (events : list RevocationEvent) (version createdAt : Z) : RuntimeSnapshot :=
  let snap := mkSnap version (zero_array 32) (time_unix createdAt) (zero_array 16)
                (u64 (Z.of_nat (length events))) ∅ ∅ ∅ in
  let snap := foldl apply_event snap events in
  with_hash snap (ComputeSnapshotHash snap).

(** ** Lookup *)

(** [m.LookupWithSnapshot(snap, id)], with a nil-able [snap]. *)
Definition LookupWithSnapshot (snap : option RuntimeSnapshot) (id : array 16)
    : RuntimeDecision :=
  match snap with
  | None => mkRuntimeDecision DecisionUse "RUNTIME_STATE_UNINITIALIZED" (zero_array 16)
  | Some snap =>
      match Tombstoned snap !! id with
      | Some state => mkRuntimeDecision DecisionDeleteRequested "DELETION_REQUESTED" (TsEventID state)
      | None =>
          match Quarantined snap !! id with
          | Some state => mkRuntimeDecision DecisionQuarantine (QsReasonCode state) (QsEventID state)
          | None =>
              match Revoked snap !! id with
              | Some state => mkRuntimeDecision DecisionRefuse "MEMORY_REVOKED" (RsEventID state)
              | None => mkRuntimeDecision DecisionUse "RUNTIME_STATE_CLEAR" (zero_array 16)
              end
          end
      end
  end.

(** ** The contract: one state machine per memory *)

Inductive dyn_state :=
| DClear
| DQuarantined (event : array 16) (reason : string)
| DRevoked (event : array 16)
| DDeleted (event : array 16).

(** One event about the memory.  Deletion absorbs; quarantine forgets a
    revocation; clearing undoes a quarantine only. *)
Definition dyn_step (s : dyn_state) (event : RevocationEvent) : dyn_state :=
  let ty := EventType event in
  if ty =? EventDeleteRequested then DDeleted (EventID event)
  else match s with
  | DDeleted e => DDeleted e
  | _ =>
      if is_quarantine_type ty then DQuarantined (EventID event) (reasonCode event)
      else if ty =? EventRevokeMemory then DRevoked (EventID event)
      else if ty =? EventClearQuarantine then
        match s with DQuarantined _ _ => DClear | _ => s end
      else s
  end.

Definition dyn_run (events : list RevocationEvent) : dyn_state := foldl dyn_step DClear events.

Definition decision_of (s : dyn_state) : RuntimeDecision :=
  match s with
  | DClear => mkRuntimeDecision DecisionUse "RUNTIME_STATE_CLEAR" (zero_array 16)
  | DQuarantined e r => mkRuntimeDecision DecisionQuarantine r e
  | DRevoked e => mkRuntimeDecision DecisionRefuse "MEMORY_REVOKED" e
  | DDeleted e => mkRuntimeDecision DecisionDeleteRequested "DELETION_REQUESTED" e
  end.

(** The events of a ledger about one memory. *)
Definition about (id : array 16) (events : list RevocationEvent) : list RevocationEvent :=
  filter (fun e => EvMemoryID e = id) events.

(** What a snapshot records of one memory, as a state of the machine. *)
Definition abstract_state (snap : RuntimeSnapshot) (id : array 16) : dyn_state :=
  match Tombstoned snap !! id with
  | Some s => DDeleted (TsEventID s)
  | None =>
      match Quarantined snap !! id with
      | Some s => DQuarantined (QsEventID s) (QsReasonCode s)
      | None => match Revoked snap !! id with
                | Some s => DRevoked (RsEventID s)
                | None => DClear
                end
      end
  end.

Lemma Lookup_abstract snap id :
  LookupWithSnapshot (Some snap) id = decision_of (abstract_state snap id).
Proof.
  unfold abstract_state. simpl.
  destruct (Tombstoned snap !! id), (Quarantined snap !! id), (Revoked snap !! id); done.
Qed.

(** No memory is both quarantined and revoked. *)
Definition exclusive (snap : RuntimeSnapshot) : Prop :=
  forall id, Quarantined snap !! id = None \/ Revoked snap !! id = None.

Lemma apply_event_exclusive snap event : exclusive snap -> exclusive (apply_event snap event).
Proof.
  intros Hx id. specialize (Hx id). unfold apply_event. split_ifs; simpl; [..|done];
    destruct (decide (EvMemoryID event = id)) as [->|Hne];
    rewrite ?lookup_delete_eq, ?lookup_delete_ne, ?lookup_insert_eq, ?lookup_insert_ne by done;
    tauto.
Qed.

(** Case analysis on the type of an event, with the tests of the switch decided. *)
Lemma apply_event_other snap event id :
  EvMemoryID event <> id -> abstract_state (apply_event snap event) id = abstract_state snap id.
Proof.
  intros Hne. unfold apply_event, abstract_state. split_ifs; simpl;
    rewrite ?lookup_delete_ne, ?lookup_insert_ne by done; done.
Qed.

Lemma apply_event_same snap event :
  exclusive snap ->
  abstract_state (apply_event snap event) (EvMemoryID event)
  = dyn_step (abstract_state snap (EvMemoryID event)) event.
Proof.
  intros Hx. specialize (Hx (EvMemoryID event)).
  unfold apply_event, abstract_state, dyn_step.
  destruct (EventType event =? EventDeleteRequested); simpl.
  { by rewrite lookup_insert_eq. }
  destruct (is_quarantine_type (EventType event)); simpl.
  { rewrite lookup_insert_eq. destruct (Tombstoned snap !! _), (Quarantined snap !! _),
      (Revoked snap !! _); done. }
  destruct (EventType event =? EventRevokeMemory); simpl.
  { rewrite lookup_delete_eq, lookup_insert_eq.
    destruct (Tombstoned snap !! _), (Quarantined snap !! _), (Revoked snap !! _); done. }
  destruct (EventType event =? EventClearQuarantine); simpl; rewrite ?lookup_delete_eq;
    destruct (Tombstoned snap !! _), (Quarantined snap !! _), (Revoked snap !! _);
    destruct Hx; done.
Qed.

Lemma foldl_apply_event_abstract snap events id :
  exclusive snap ->
  abstract_state (foldl apply_event snap events) id
  = foldl dyn_step (abstract_state snap id) (about id events).
Proof.
  revert snap. induction events as [|e events IH]; intros snap Hx; [done|].
  simpl. rewrite IH by (by apply apply_event_exclusive).
  unfold about. rewrite filter_cons. case_decide as Hid.
  - subst id. simpl. by rewrite apply_event_same.
  - by rewrite apply_event_other.
Qed.

Lemma foldl_apply_event_exclusive snap events :
  exclusive snap -> exclusive (foldl apply_event snap events).
Proof. revert snap. induction events; simpl; auto using apply_event_exclusive. Qed.

Section compile_facts.
Context `{SliceSort, MapRange}.

Lemma CompileSnapshot_abstract events version createdAt id :
  abstract_state (CompileSnapshot events version createdAt) id = dyn_run (about id events).
Proof.
  unfold CompileSnapshot, dyn_run.
  transitivity (abstract_state (foldl apply_event
    (mkSnap version (zero_array 32) (time_unix createdAt) (zero_array 16)
       (u64 (Z.of_nat (length events))) ∅ ∅ ∅) events) id); [done|].
  rewrite foldl_apply_event_abstract; [done|]. intros ?. by left.
Qed.

Lemma lookup_compiled events version createdAt id :
  LookupWithSnapshot (Some (CompileSnapshot events version createdAt)) id
  = decision_of (dyn_run (about id events)).
Proof. by rewrite Lookup_abstract, CompileSnapshot_abstract. Qed.

(** C5. Compiling the ledger and looking a memory up refines the per-memory
    state machine: the decision is that of the machine run over the events about
    this memory, in ledger order, whatever else the ledger holds. *)
Theorem CompileSnapshot_refines events version createdAt id :
  LookupWithSnapshot (Some (CompileSnapshot events version createdAt)) id
  = decision_of (dyn_run (about id events)).
Proof. apply lookup_compiled. Qed.

Lemma about_app id l1 l2 : about id (l1 ++ l2) = about id l1 ++ about id l2.
Proof. apply filter_app. Qed.

Lemma dyn_step_delete s del :
  EventType del = EventDeleteRequested -> dyn_step s del = DDeleted (EventID del).
Proof. intros Hdel. unfold dyn_step. by rewrite Hdel. Qed.

Lemma dyn_deleted_absorbs e events :
  exists e', foldl dyn_step (DDeleted e) events = DDeleted e'.
Proof.
  revert e. induction events as [|ev events IH]; intros e; [by exists e|].
  simpl. unfold dyn_step at 2. destruct (EventType ev =? EventDeleteRequested); apply IH.
Qed.

(** A deletion request is permanent: once the ledger holds one for a
    memory, every later snapshot decides DELETE_REQUESTED for it, whatever
    events come before or after, clearing included. *)
Theorem deletion_is_permanent before del after version createdAt :
  EventType del = EventDeleteRequested ->
  let d := LookupWithSnapshot
             (Some (CompileSnapshot (before ++ del :: after) version createdAt))
             (EvMemoryID del) in
  RdDecision d = DecisionDeleteRequested /\ RdReason d = "DELETION_REQUESTED".
Proof.
  intros Hdel d.
  destruct (dyn_deleted_absorbs (EventID del) (about (EvMemoryID del) after)) as [e' E].
  assert (d = decision_of (DDeleted e')) as ->; [|done].
  unfold d. rewrite lookup_compiled, about_app. f_equal.
  unfold about at 2. rewrite filter_cons, decide_True by done.
  unfold dyn_run. rewrite foldl_app. simpl. by rewrite (dyn_step_delete _ del Hdel).
Qed.

(** The decision after a final event about the memory. *)
Lemma lookup_snoc events e version createdAt :
  LookupWithSnapshot (Some (CompileSnapshot (events ++ [e]) version createdAt)) (EvMemoryID e)
  = decision_of (dyn_step (dyn_run (about (EvMemoryID e) events)) e).
Proof.
  rewrite lookup_compiled, about_app. unfold about at 2.
  rewrite filter_cons, decide_True by done. unfold dyn_run. by rewrite foldl_app.
Qed.

(** The machine is not in its absorbing state unless a deletion was requested. *)
Lemma dyn_run_not_deleted events e :
  Forall (fun ev => EventType ev <> EventDeleteRequested) events -> dyn_run events <> DDeleted e.
Proof.
  unfold dyn_run. assert (forall s, (forall e, s <> DDeleted e) ->
    Forall (fun ev => EventType ev <> EventDeleteRequested) events ->
    foldl dyn_step s events <> DDeleted e) as Hgen; [|by apply Hgen].
  induction events as [|ev events IH]; intros s Hs Hf; [done|].
  apply Forall_cons in Hf as [Hev Hf]. simpl. apply IH; [|done].
  intros e'. unfold dyn_step. rewrite (proj2 (Z.eqb_neq _ _) Hev).
  destruct s; split_ifs; done.
Qed.

Lemma about_Forall (P : RevocationEvent -> Prop) id events :
  (forall e, e ∈ events -> EvMemoryID e = id -> P e) -> Forall P (about id events).
Proof.
  intros HP. apply Forall_forall. intros e [Hid He]%list_elem_of_filter. by apply HP.
Qed.

(** A deletion is decided exactly when one was requested, in whatever order. *)
Lemma deletion_decided_iff id events :
  RdDecision (decision_of (dyn_run (about id events))) = DecisionDeleteRequested <->
  Exists (fun e => EvMemoryID e = id /\ EventType e = EventDeleteRequested) events.
Proof.
  split.
  - intros Hd. apply dec_stable. rewrite Exists_exists. intros Hno.
    assert (forall e, dyn_run (about id events) <> DDeleted e) as Hn.
    { intros e. apply dyn_run_not_deleted, about_Forall. intros ev Hin Hid Hty.
      apply Hno. by exists ev. }
    destruct (dyn_run (about id events)) eqn:E; try discriminate Hd. by apply (Hn event).
  - intros (del & Hin & Hid & Hty)%Exists_exists.
    apply list_elem_of_split in Hin as (l1 & l2 & ->).
    rewrite about_app. unfold about at 2. rewrite filter_cons, decide_True by done.
    unfold dyn_run. rewrite foldl_app. cbn [foldl]. rewrite (dyn_step_delete _ del Hty).
    by destruct (dyn_deleted_absorbs (EventID del) (filter (fun e => EvMemoryID e = id) l2)) as [e' ->].
Qed.

(** Quarantine holds whatever came before but a deletion; clearing undoes it. *)
Lemma dyn_quarantine s e :
  is_quarantine_type (EventType e) = true -> (forall d, s <> DDeleted d) ->
  dyn_step s e = DQuarantined (EventID e) (reasonCode e).
Proof.
  intros Hq Hs. unfold dyn_step. rewrite Hq.
  destruct (Z.eqb_spec (EventType e) EventDeleteRequested) as [Hd|_]; [by rewrite Hd in Hq|].
  destruct s; try done. by destruct (Hs event).
Qed.

Lemma dyn_clear e id reason :
  EventType e = EventClearQuarantine ->
  dyn_step DClear e = DClear /\ dyn_step (DQuarantined id reason) e = DClear.
Proof. intros Hc. unfold dyn_step. by rewrite Hc. Qed.

(** Every event type that blocks a memory. *)
Definition blocking_type (t : Z) : bool :=
  (t =? EventDeleteRequested) || is_quarantine_type t || (t =? EventRevokeMemory).

Lemma blocking_step s e :
  blocking_type (EventType e) = true -> RdDecision (decision_of (dyn_step s e)) <> DecisionUse.
Proof.
  unfold blocking_type, dyn_step. intros Hb.
  destruct (EventType e =? EventDeleteRequested); [done|].
  destruct s; destruct (is_quarantine_type (EventType e)); try done;
    destruct (EventType e =? EventRevokeMemory); done.
Qed.

(** Whatever came before, events that all block leave a memory blocked that one of
    them is about. *)
Lemma blocked_by_suffix l1 l2 e :
  Forall (fun ev => blocking_type (EventType ev) = true) l2 -> e ∈ l2 ->
  RdDecision (decision_of (dyn_run (about (EvMemoryID e) (l1 ++ l2)))) <> DecisionUse.
Proof.
  intros Hb Hin. rewrite about_app.
  assert (e ∈ about (EvMemoryID e) l2) as Ha by (by apply list_elem_of_filter).
  destruct (about (EvMemoryID e) l2) as [|x l _] eqn:E using rev_ind; [by apply elem_of_nil in Ha|].
  unfold dyn_run. rewrite app_assoc, foldl_app. cbn [foldl]. apply blocking_step.
  assert (x ∈ about (EvMemoryID e) l2) as [_ Hx]%list_elem_of_filter
    by (rewrite E; apply elem_of_app; right; by apply list_elem_of_singleton).
  by apply (proj1 (Forall_forall _ _) Hb).
Qed.

(** A fresh blocking event takes effect immediately: after a ledger whose
    last event quarantines, revokes or deletes a memory, the compiled snapshot
    never decides USE for it. *)
Theorem blocking_event_blocks events e version createdAt :
  blocking_type (EventType e) = true ->
  RdDecision (LookupWithSnapshot
    (Some (CompileSnapshot (events ++ [e]) version createdAt)) (EvMemoryID e)) <> DecisionUse.
Proof.
  intros Hb. rewrite lookup_snoc. by apply blocking_step.
Qed.

(** Quarantine erases revocation: after any ledger without a deletion
    request for the memory, a revocation followed by a quarantine and a clear
    leaves the memory admissible, with no trace of the revocation. *)
Theorem revocation_lost_by_quarantine_and_clear events rv q c version createdAt :
  EventType rv = EventRevokeMemory -> is_quarantine_type (EventType q) = true ->
  EventType c = EventClearQuarantine ->
  EvMemoryID q = EvMemoryID rv -> EvMemoryID c = EvMemoryID rv ->
  (forall e, e ∈ events -> EvMemoryID e = EvMemoryID rv -> EventType e <> EventDeleteRequested) ->
  LookupWithSnapshot (Some (CompileSnapshot (events ++ [rv; q; c]) version createdAt))
    (EvMemoryID rv)
  = mkRuntimeDecision DecisionUse "RUNTIME_STATE_CLEAR" (zero_array 16).
Proof.
  intros Hrv Hq Hc Eq Ec Hnd. rewrite lookup_compiled, about_app.
  unfold about at 2. rewrite !filter_cons, !decide_True by done. rewrite filter_nil.
  unfold dyn_run. rewrite foldl_app.
  pose proof (fun e => dyn_run_not_deleted _ e (about_Forall _ _ _ Hnd)) as Hn.
  change (foldl dyn_step DClear (about (EvMemoryID rv) events)) with (dyn_run (about (EvMemoryID rv) events)).
  set (s := dyn_run _) in *. cbn [foldl].
  rewrite (dyn_quarantine (dyn_step s rv) q Hq); [by rewrite (proj2 (dyn_clear c _ _ Hc))|].
  intros d. unfold dyn_step. rewrite Hrv. by destruct s.
Qed.
End compile_facts.

(** ** The snapshot hash is deterministic *)

Lemma sorted_pairs_unique (S1 S2 : SliceSort) (M1 M2 : MapRange) {V} (m : gmap (array 16) V) :
  @sort_Slice S1 _ pair_less (@map_range M1 _ _ _ _ m)
  = @sort_Slice S2 _ pair_less (@map_range M2 _ _ _ _ m).
Proof.
  apply (sorted_by_key_unique (fun p => vec_to_list p.1)).
  - intros [i x] [j y]. rewrite !sort_Slice_perm, !map_range_perm, !elem_of_map_to_list.
    cbn. intros Hi Hj ->%vec_to_list_inj2. congruence.
  - apply (@sort_Slice_sorted S1), bytes_ltb_swo.
  - apply (@sort_Slice_sorted S2), bytes_ltb_swo.
  - by rewrite (@sort_Slice_perm S1), (@sort_Slice_perm S2), (@map_range_perm M1),
      (@map_range_perm M2).
Qed.

Lemma snapshot_message_instances (S1 S2 : SliceSort) (M1 M2 : MapRange) snap :
  @snapshot_message S1 M1 snap = @snapshot_message S2 M2 snap.
Proof.
  unfold snapshot_message, writeQuarantineSet, writeTombstoneSet, writeRevocationSet.
  by rewrite (sorted_pairs_unique S1 S2 M1 M2 (Quarantined snap)),
    (sorted_pairs_unique S1 S2 M1 M2 (Tombstoned snap)),
    (sorted_pairs_unique S1 S2 M1 M2 (Revoked snap)).
Qed.

(** C33. The snapshot hash is deterministic although Go randomises map
    iteration: it is the same for every iteration order of the three maps and
    every sorting algorithm behind [sort.Slice]. *)
Theorem ComputeSnapshotHash_deterministic (S1 S2 : SliceSort) (M1 M2 : MapRange) snap :
  @ComputeSnapshotHash S1 M1 snap = @ComputeSnapshotHash S2 M2 snap.
Proof. unfold ComputeSnapshotHash. by rewrite (snapshot_message_instances S1 S2 M1 M2). Qed.

(** ** The snapshot hash binds the snapshot *)

Definition reason_codes : list string :=
  ["MEMORY_POISONING_SUSPECTED"; "PROMPT_INJECTION_DETECTED"; "CROSS_SESSION_LEAK";
   "CROSS_AGENT_LEAK"; "RETROACTIVE_REVOCATION"; "MEMORY_QUARANTINED"].

Lemma reasonCode_in e : reasonCode e ∈ reason_codes.
Proof. unfold reasonCode, reason_codes. split_ifs; repeat constructor. Qed.

(** No reason code is a prefix of another, so a reason code written without a
    length delimits itself. *)
Lemma reason_codes_prefix_free :
  Forall (fun r1 => Forall (fun r2 =>
    bool_decide (bytes_of r1 `prefix_of` bytes_of r2) = bool_decide (r1 = r2))
    reason_codes) reason_codes.
Proof. repeat constructor; vm_compute; reflexivity. Qed.

Lemma reason_prefix_eq r1 r2 :
  r1 ∈ reason_codes -> r2 ∈ reason_codes -> bytes_of r1 `prefix_of` bytes_of r2 -> r1 = r2.
Proof.
  intros H1 H2 Hp. pose proof reason_codes_prefix_free as Hpf.
  rewrite Forall_forall in Hpf. specialize (Hpf _ H1). rewrite Forall_forall in Hpf.
  specialize (Hpf _ H2). simpl in Hpf. rewrite bool_decide_true in Hpf by done.
  by apply eq_sym, bool_decide_eq_true in Hpf.
Qed.

Lemma reason_decodes r1 r2 x y :
  r1 ∈ reason_codes -> r2 ∈ reason_codes -> bytes_of r1 ++ x = bytes_of r2 ++ y ->
  r1 = r2 /\ x = y.
Proof.
  intros H1 H2 E. assert (r1 = r2) as ->.
  { destruct (prefix_weak_total (bytes_of r1) (bytes_of r2) (bytes_of r2 ++ y)) as [Hp|Hp].
    - rewrite <-E. by apply prefix_app_r.
    - by apply prefix_app_r.
    - by apply reason_prefix_eq.
    - symmetry. by apply reason_prefix_eq. }
  split; [done|]. by apply app_inv_head in E.
Qed.

Section decode.
(** Sequences of self-delimiting entries that all start with one tag byte. *)
Context {X : Type} (c : byte) (g : X -> bytes) (P : X -> Prop).

Lemma entries_decode l1 l2 ra rb :
  (forall x y ra rb, P x -> P y -> g x ++ ra = g y ++ rb -> x = y /\ ra = rb) ->
  Forall P l1 -> Forall P l2 -> head ra <> Some c -> head rb <> Some c ->
  concat ((fun x => c :: g x) <$> l1) ++ ra = concat ((fun x => c :: g x) <$> l2) ++ rb ->
  l1 = l2 /\ ra = rb.
Proof.
  intros g_decodes H1. revert l2.
  induction H1 as [|x l1 Hx H1 IH]; intros [|y l2] H2 Ha Hb E;
    simpl in E; [done|by subst|by subst|].
  apply Forall_cons in H2 as [Hy H2]. injection E as E. rewrite <-!app_assoc in E.
  apply g_decodes in E as [-> E]; [|done..].
  by destruct (IH l2) as [-> ->].
Qed.
End decode.

Definition reasons_ok (snap : RuntimeSnapshot) : Prop :=
  map_Forall (fun _ s => QsReasonCode s ∈ reason_codes) (Quarantined snap).

Lemma apply_event_reasons snap e : reasons_ok snap -> reasons_ok (apply_event snap e).
Proof.
  unfold reasons_ok, apply_event. intros Hr. split_ifs; simpl; try done;
    try (by apply map_Forall_delete).
  apply map_Forall_insert_2; [apply reasonCode_in|done].
Qed.

Lemma foldl_apply_event_reasons snap events :
  reasons_ok snap -> reasons_ok (foldl apply_event snap events).
Proof. revert snap. induction events; simpl; auto using apply_event_reasons. Qed.

Lemma foldl_apply_event_fixed snap events :
  let s := foldl apply_event snap events in
  SnapVersion s = SnapVersion snap /\ EventCount s = EventCount snap /\
  CreatedAtUnix s = CreatedAtUnix snap.
Proof.
  revert snap. induction events as [|e events IH]; intros snap; [done|]. simpl.
  destruct (IH (apply_event snap e)) as (-> & -> & ->).
  unfold apply_event. by split_ifs.
Qed.

Section hash_binding.
Context `{SliceSort, MapRange}.

Lemma pairs_Forall {V} (P : V -> Prop) (m : gmap (array 16) V) :
  map_Forall (fun _ s => P s) m ->
  Forall (fun p => P p.2) (sort_Slice pair_less (map_range m)).
Proof.
  intros Hm. rewrite sort_Slice_perm, map_range_perm. apply Forall_forall.
  intros [i x] Hx%elem_of_map_to_list. by apply (Hm i).
Qed.

Lemma sorted_pairs_inj {V} (m1 m2 : gmap (array 16) V) :
  sort_Slice pair_less (map_range m1) = sort_Slice pair_less (map_range m2) -> m1 = m2.
Proof.
  intros E. apply map_to_list_inj.
  etrans; [symmetry; apply map_range_perm|]. etrans; [|apply map_range_perm].
  etrans; [symmetry; apply (sort_Slice_perm _ pair_less)|]. rewrite E. apply sort_Slice_perm.
Qed.

(** The contents the hash is meant to cover. *)
Definition snapshot_contents (s : RuntimeSnapshot) :=
  (SnapVersion s, EventCount s, HighestEventID s, Quarantined s, Tombstoned s, Revoked s).

Lemma head_tagged {X} (c : byte) (g : X -> bytes) (l : list X) rest (d : byte) :
  c <> d -> head rest <> Some d ->
  head (concat ((fun x => c :: g x) <$> l) ++ rest) <> Some d.
Proof. intros Hc Hr. destruct l; simpl; congruence. Qed.

Lemma ids_decode (x1 y1 x2 y2 : array 16) ra rb :
  (vec_to_list x1 ++ vec_to_list y1) ++ ra = (vec_to_list x2 ++ vec_to_list y2) ++ rb ->
  x1 = x2 /\ y1 = y2 /\ ra = rb.
Proof. rewrite <-!app_assoc. intros E. split_field E. split_field E. done. Qed.

Lemma write_head {X} (c d : byte) (g : X -> bytes) (l : list X) :
  c <> d -> head (concat ((fun x => c :: g x) <$> l)) <> Some d.
Proof. intros Hc. destruct l; simpl; congruence. Qed.

Lemma quarantine_set_decode m1 m2 ra rb :
  map_Forall (fun _ s => QsReasonCode s ∈ reason_codes) m1 ->
  map_Forall (fun _ s => QsReasonCode s ∈ reason_codes) m2 ->
  head ra <> Some "Q"%byte -> head rb <> Some "Q"%byte ->
  writeQuarantineSet m1 ++ ra = writeQuarantineSet m2 ++ rb -> m1 = m2 /\ ra = rb.
Proof.
  intros H1 H2 Ha Hb E.
  destruct (entries_decode "Q"%byte
    (fun p : array 16 * QuarantineState => vec_to_list p.1 ++ vec_to_list (QsEventID p.2)
       ++ bytes_of (QsReasonCode p.2)) (fun p => QsReasonCode p.2 ∈ reason_codes)
    (sort_Slice pair_less (map_range m1)) (sort_Slice pair_less (map_range m2)) ra rb)
    as [Es Er]; [|by apply (pairs_Forall (fun s => QsReasonCode s ∈ reason_codes))
                 |by apply (pairs_Forall (fun s => QsReasonCode s ∈ reason_codes))
                 |done|done|exact E|].
  - intros [i [x rx]] [j [y ry]] sa sb Hx Hy Ex. cbn in *.
    rewrite <-!app_assoc in Ex. do 2 split_field Ex.
    apply reason_decodes in Ex as [-> ->]; [by subst|done..].
  - split; [by apply sorted_pairs_inj|done].
Qed.

Lemma tombstone_set_decode m1 m2 ra rb :
  head ra <> Some "T"%byte -> head rb <> Some "T"%byte ->
  writeTombstoneSet m1 ++ ra = writeTombstoneSet m2 ++ rb -> m1 = m2 /\ ra = rb.
Proof.
  intros Ha Hb E.
  destruct (entries_decode "T"%byte
    (fun p : array 16 * TombstoneState => vec_to_list p.1 ++ vec_to_list (TsEventID p.2))
    (fun _ => True)
    (sort_Slice pair_less (map_range m1)) (sort_Slice pair_less (map_range m2)) ra rb)
    as [Es Er]; [|by apply Forall_true|by apply Forall_true|done|done|exact E|].
  - intros [i [x]] [j [y]] sa sb _ _ Ex. cbn in Ex. by apply ids_decode in Ex as (-> & -> & ->).
  - split; [by apply sorted_pairs_inj|done].
Qed.

Lemma revocation_set_decode m1 m2 :
  writeRevocationSet m1 = writeRevocationSet m2 -> m1 = m2.
Proof.
  intros E.
  destruct (entries_decode "R"%byte
    (fun p : array 16 * RevocationState => vec_to_list p.1 ++ vec_to_list (RsEventID p.2))
    (fun _ => True)
    (sort_Slice pair_less (map_range m1)) (sort_Slice pair_less (map_range m2)) [] [])
    as [Es _]; [|by apply Forall_true|by apply Forall_true|done|done|by rewrite !app_nil_r|].
  - intros [i [x]] [j [y]] sa sb _ _ Ex. cbn in Ex. by apply ids_decode in Ex as (-> & -> & ->).
  - by apply sorted_pairs_inj.
Qed.

Lemma snapshot_message_inj s1 s2 :
  0 <= SnapVersion s1 < 2 ^ 64 -> 0 <= SnapVersion s2 < 2 ^ 64 ->
  0 <= EventCount s1 < 2 ^ 64 -> 0 <= EventCount s2 < 2 ^ 64 ->
  reasons_ok s1 -> reasons_ok s2 -> snapshot_message s1 = snapshot_message s2 ->
  snapshot_contents s1 = snapshot_contents s2.
Proof.
  destruct s1 as [v1 h1 c1 top1 n1 q1 t1 r1], s2 as [v2 h2 c2 top2 n2 q2 t2 r2].
  unfold reasons_ok, snapshot_message, snapshot_contents; cbn.
  intros Hv1 Hv2 Hn1 Hn2 Hr1 Hr2 E. do 3 split_field E.
  apply be_bytes_inj in Efield as ->; [|done..]. apply be_bytes_inj in Efield0 as ->; [|done..].
  apply quarantine_set_decode in E as [-> E]; [|done|done|by apply head_tagged, write_head..].
  apply tombstone_set_decode in E as [-> ->%revocation_set_decode]; [|by apply write_head..].
  by subst.
Qed.

Lemma apply_event_contents s1 s2 e :
  snapshot_contents s1 = snapshot_contents s2 ->
  snapshot_contents (apply_event s1 e) = snapshot_contents (apply_event s2 e).
Proof.
  destruct s1, s2. unfold snapshot_contents, apply_event. cbn. intros [= -> -> -> -> -> ->].
  by split_ifs.
Qed.

Lemma foldl_apply_event_contents s1 s2 events :
  snapshot_contents s1 = snapshot_contents s2 ->
  snapshot_contents (foldl apply_event s1 events) = snapshot_contents (foldl apply_event s2 events).
Proof.
  revert s1 s2. induction events as [|e events IH]; intros s1 s2 E; [done|].
  by apply IH, apply_event_contents.
Qed.

Lemma snapshot_message_contents s1 s2 :
  snapshot_contents s1 = snapshot_contents s2 -> snapshot_message s1 = snapshot_message s2.
Proof.
  destruct s1, s2. unfold snapshot_contents, snapshot_message. cbn -[be_bytes].
  by intros [= -> -> -> -> -> ->].
Qed.

(** The time of a compilation does not enter the hash. *)
Lemma CompileSnapshot_hash_time events version t1 t2 :
  SnapshotHash (CompileSnapshot events version t1) = SnapshotHash (CompileSnapshot events version t2).
Proof.
  unfold CompileSnapshot, ComputeSnapshotHash. cbn [with_hash SnapshotHash].
  apply (f_equal Sum256), snapshot_message_contents, foldl_apply_event_contents. reflexivity.
Qed.

Lemma CompileSnapshot_contents_ok events version createdAt :
  let s := CompileSnapshot events version createdAt in
  SnapVersion s = version /\ EventCount s = u64 (Z.of_nat (length events)) /\
  CreatedAtUnix s = time_unix createdAt /\ reasons_ok s /\
  SnapshotHash s = Sum256 (snapshot_message s).
Proof.
  unfold CompileSnapshot. set (s0 := mkSnap _ _ _ _ _ _ _ _).
  destruct (foldl_apply_event_fixed s0 events) as (Hv & Hn & Hc).
  repeat split; try done. apply (foldl_apply_event_reasons s0). apply map_Forall_empty.
Qed.

(** C20. The snapshot hash binds the runtime state: two compiled snapshots with
    the same hash have the same version, event count, last event and the same
    quarantine, tombstone and revocation maps, or the two messages hashed are a
    SHA-256 collision.  The reason codes, written without a length, are shown to
    delimit themselves. *)
Theorem SnapshotHash_binding ev1 ev2 v1 v2 t1 t2 :
  0 <= v1 < 2 ^ 64 -> 0 <= v2 < 2 ^ 64 ->
  let s1 := CompileSnapshot ev1 v1 t1 in
  let s2 := CompileSnapshot ev2 v2 t2 in
  SnapshotHash s1 = SnapshotHash s2 ->
  snapshot_contents s1 = snapshot_contents s2 \/
  collision_among [snapshot_message s1; snapshot_message s2].
Proof.
  intros Hv1 Hv2 s1 s2 E.
  destruct (CompileSnapshot_contents_ok ev1 v1 t1) as (Ev1 & En1 & _ & Hr1 & Hh1).
  destruct (CompileSnapshot_contents_ok ev2 v2 t2) as (Ev2 & En2 & _ & Hr2 & Hh2).
  fold s1 in Ev1, En1, Hr1, Hh1. fold s2 in Ev2, En2, Hr2, Hh2.
  rewrite Hh1, Hh2 in E.
  apply (Sum256_cases [snapshot_message s1; snapshot_message s2]) in E as [E|]; [|by right|in_list..].
  left. apply snapshot_message_inj; rewrite ?Ev1, ?Ev2, ?En1, ?En2; try done;
    apply Z.mod_pos_bound; lia.
Qed.
End hash_binding.

(** ** Examples *)

Definition ex_event (eid id : byte) (type reason : Z) : RevocationEvent :=
  mkEvent (copy_into 16 [eid]) (copy_into 16 [id]) type reason "operator" "source"
    1700000000000000000 (zero_array 32) "" "quarantined" (zero_array 64) "".

Definition mem (id : byte) : array 16 := copy_into 16 [id].

Section examples.
#[local] Existing Instance SmallGo.small_slice_sort.
#[local] Existing Instance SmallGo.trie_map_range.

Lemma deletion_is_permanent_witness :
  let del := ex_event x02 x11 EventDeleteRequested 0 in
  RdDecision (LookupWithSnapshot (Some (CompileSnapshot
    ([ex_event x01 x11 EventQuarantineMemory 0] ++ del ::
     [ex_event x03 x11 EventClearQuarantine 0]) 2 0)) (EvMemoryID del)) = DecisionDeleteRequested.
Proof.
  intros del.
  refine (proj1 (deletion_is_permanent [ex_event x01 x11 EventQuarantineMemory 0] del
    [ex_event x03 x11 EventClearQuarantine 0] 2 0 _)). reflexivity.
Defined.

Lemma blocking_event_blocks_witness :
  let e := ex_event x02 x11 EventCrossAgentLeak 0 in
  RdDecision (LookupWithSnapshot (Some (CompileSnapshot
    ([ex_event x01 x11 EventClearQuarantine 0] ++ [e]) 2 0)) (EvMemoryID e)) <> DecisionUse.
Proof.
  intros e. apply (blocking_event_blocks [ex_event x01 x11 EventClearQuarantine 0] e 2 0).
  reflexivity.
Defined.

Lemma revocation_lost_by_quarantine_and_clear_witness :
  let rv := ex_event x01 x11 EventRevokeMemory 0 in
  RdDecision (LookupWithSnapshot (Some (CompileSnapshot
    ([] ++ [rv; ex_event x02 x11 EventQuarantineMemory 0; ex_event x03 x11 EventClearQuarantine 0])
    3 0)) (EvMemoryID rv)) = DecisionUse.
Proof.
  intros rv.
  rewrite (revocation_lost_by_quarantine_and_clear [] rv
    (ex_event x02 x11 EventQuarantineMemory 0) (ex_event x03 x11 EventClearQuarantine 0) 3 0);
    try reflexivity.
  intros e He. by apply not_elem_of_nil in He.
Defined.

Lemma SnapshotHash_binding_witness :
  let evs := [ex_event x01 x11 EventQuarantineMemory 2; ex_event x02 x22 EventRevokeMemory 0] in
  snapshot_contents (CompileSnapshot evs 5 0) = snapshot_contents (CompileSnapshot evs 5 77) \/
  collision_among [snapshot_message (CompileSnapshot evs 5 0);
                   snapshot_message (CompileSnapshot evs 5 77)].
Proof.
  intros evs. apply (SnapshotHash_binding evs evs 5 5 0 77).
  - z_range.
  - z_range.
  - vm_compute. reflexivity.
Defined.
End examples.
