(* ===== verification/Monitor.v ===== *)
(** * The runtime monitor ([quarantine.RuntimeMonitor])

    The monitor owns an atomic pointer to the active snapshot and a ledger under
    a mutex.  [CompileAndSwap] reads the ledger, reads the active version,
    compiles, and stores: four atomic steps, not one.  Sequential calls keep the
    active snapshot equal to the compiled ledger; interleaved calls are modelled
    as a step relation over the goroutines' program counters. *)
From S2P Require Import Prelude Sha256 Evaluate Quarantine.

(** ** Operations *)

(** A nil snapshot is the zero [atomic.Value]. *)
Record RuntimeMonitor := mkMonitor {
  active : option RuntimeSnapshot;
  ledger : list RevocationEvent
}.

Definition SwapActiveSnapshot (m : RuntimeMonitor) (newSnap : option RuntimeSnapshot)
    : RuntimeMonitor :=
  match newSnap with
  | None => m
  | Some s => mkMonitor (Some s) (ledger m)
  end.

Definition NewRuntimeMonitor `{SliceSort, MapRange} (now : Z) : RuntimeMonitor :=
  SwapActiveSnapshot (mkMonitor None []) (Some (NewEmptySnapshot 0 now)).

(** [m.Lookup(id)] repeats the body of [LookupWithSnapshot] on the active snapshot. *)
Definition Lookup (m : RuntimeMonitor) (id : array 16) : RuntimeDecision :=
  match active m with
  | None => mkRuntimeDecision DecisionUse "RUNTIME_STATE_UNINITIALIZED" (zero_array 16)
  | Some snap =>
      match Tombstoned snap !! id with
      | Some state => mkRuntimeDecision DecisionDeleteRequested "DELETION_REQUESTED" (TsEventID state)
      | None =>
          match Quarantined snap !! id with
          | Some state => mkRuntimeDecision DecisionQuarantine (QsReasonCode state) (QsEventID state)
          | None =>
              match Revoked snap !! id with
              | Some state => mkRuntimeDecision DecisionRefuse "MEMORY_REVOKED" (RsEventID state)
              | None => mkRuntimeDecision DecisionUse "RUNTIME_STATE_CLEAR" (zero_array 16)
              end
          end
      end
  end.

Definition GetActiveSnapshot `{SliceSort, MapRange} (m : RuntimeMonitor) (now : Z)
    : RuntimeSnapshot :=
  match active m with
  | None => NewEmptySnapshot 0 now
  | Some s => s
  end.

Definition ActiveSnapshotInfo (m : RuntimeMonitor) : array 32 * Z :=
  match active m with
  | None => (zero_array 32, 0)
  | Some snap => (SnapshotHash snap, SnapVersion snap)
  end.

Definition AppendEvent (m : RuntimeMonitor) (event : RevocationEvent) : RuntimeMonitor :=
  mkMonitor (active m) (ledger m ++ [event]).

Definition Ledger (m : RuntimeMonitor) : list RevocationEvent := ledger m.

(** The version the next snapshot gets: [uint64] addition wraps. *)
Definition next_version (val : option RuntimeSnapshot) : Z :=
  match val with
  | None => 1
  | Some s => u64 (SnapVersion s + 1)
  end.

(** [m.CompileAndSwap(createdAt)] without interference. *)
Definition CompileAndSwap `{SliceSort, MapRange} (m : RuntimeMonitor) (createdAt : Z)
    : RuntimeMonitor * RuntimeSnapshot :=
  let events := Ledger m in
  let version := next_version (active m) in
  let snap := CompileSnapshot events version createdAt in
  (SwapActiveSnapshot m (Some snap), snap).

(** The two calls every writer makes: append, then compile and swap. *)
Definition publish `{SliceSort, MapRange} (m : RuntimeMonitor) (event : RevocationEvent)
    (createdAt : Z) : RuntimeMonitor * RuntimeSnapshot :=
  CompileAndSwap (AppendEvent m event) createdAt.

Lemma Lookup_active m id : Lookup m id = LookupWithSnapshot (active m) id.
Proof. by destruct m as [[s|] l]. Qed.

(** ** Sequential publication *)

Section sequential.
Context `{SliceSort, MapRange}.

Lemma publish_lookup_all m event t id :
  Lookup (publish m event t).1 id = decision_of (dyn_run (about id (Ledger (publish m event t).1))).
Proof. rewrite Lookup_active. apply lookup_compiled. Qed.

(** A published event is in force at once. *)
Lemma publish_lookup m event t :
  Lookup (publish m event t).1 (EvMemoryID event)
  = decision_of (dyn_step (dyn_run (about (EvMemoryID event) (ledger m))) event).
Proof. rewrite Lookup_active. apply lookup_snoc. Qed.

Definition active_version (m : RuntimeMonitor) : Z :=
  match active m with Some s => SnapVersion s | None => 0 end.

(** Each publication takes the next version. *)
Lemma publish_version m event t :
  SnapVersion (publish m event t).2 = u64 (active_version m + 1).
Proof.
  etrans; [exact (proj1 (CompileSnapshot_contents_ok _ _ _))|].
  unfold next_version, active_version. by destruct m as [[s|] l].
Qed.

(** The monitor's state after publishing events one call at a time. *)
Definition publish_all (m : RuntimeMonitor) (events : list (RevocationEvent * Z))
    : RuntimeMonitor :=
  foldl (fun m p => (publish m p.1 p.2).1) m events.

Lemma publish_all_ledger m events : ledger (publish_all m events) = ledger m ++ events.*1.
Proof.
  revert m. induction events as [|[e t] events IH]; intros m; simpl.
  - by rewrite app_nil_r.
  - rewrite IH. simpl. by rewrite <-app_assoc.
Qed.

Lemma publish_all_snoc m events e t :
  active (publish_all m (events ++ [(e, t)])) =
    Some (CompileSnapshot (ledger m ++ (events ++ [(e, t)]).*1)
            (u64 (active_version (publish_all m events) + 1)) t).
Proof.
  unfold publish_all at 1. rewrite foldl_app. fold (publish_all m events).
  cbn. unfold Ledger. cbn. rewrite publish_all_ledger, fmap_app, <-app_assoc.
  do 2 f_equal. unfold next_version, active_version.
  by destruct (active (publish_all m events)).
Qed.

Lemma publish_all_version m events :
  events <> [] ->
  active_version (publish_all m events) = u64 (active_version m + Z.of_nat (length events)).
Proof.
  induction events as [|[e t] events IH] using rev_ind; [done|]. intros _.
  unfold active_version at 1. rewrite publish_all_snoc, (proj1 (CompileSnapshot_contents_ok _ _ _)).
  rewrite length_app. destruct events as [|p events]; [done|].
  rewrite IH by done. unfold u64. rewrite Zplus_mod_idemp_l. f_equal. cbn [length]. lia.
Qed.

Lemma publish_all_active m events :
  events <> [] ->
  exists t, active (publish_all m events) =
    Some (CompileSnapshot (ledger m ++ events.*1)
            (u64 (active_version m + Z.of_nat (length events))) t).
Proof.
  intros Hne. rewrite <-publish_all_version by done.
  destruct events as [|[e t] events _] using rev_ind; [done|]. exists t.
  unfold active_version. rewrite publish_all_snoc at 2.
  rewrite (proj1 (CompileSnapshot_contents_ok _ _ _)). apply publish_all_snoc.
Qed.

(** Sequential publication is exact: after any sequence of append and
    compile-and-swap calls that do not overlap, the active snapshot is the
    compilation of the whole ledger, its version has advanced by one per call
    (modulo 2^64), and every lookup answers as the per-memory state machine
    does on all events published so far. *)
Theorem sequential_publication_exact m events id :
  events <> [] ->
  let m' := publish_all m events in
  (exists t, active m' =
     Some (CompileSnapshot (ledger m')
       (u64 (active_version m + Z.of_nat (length events))) t)) /\
  ledger m' = ledger m ++ events.*1 /\
  Lookup m' id = decision_of (dyn_run (about id (ledger m ++ events.*1))).
Proof.
  intros Hne m'. destruct (publish_all_active m events Hne) as (t & Ha).
  split; [exists t|split].
  - unfold m'. by rewrite Ha, publish_all_ledger.
  - apply publish_all_ledger.
  - unfold m'. by rewrite Lookup_active, Ha, lookup_compiled.
Qed.
End sequential.

(** ** Interleaved publication *)

(** Where a goroutine that publishes an event is: before its append, and then
    before each atomic action of [CompileAndSwap]. *)
Inductive pc :=
| AtAppend (event : RevocationEvent)
| AtReadLedger
| AtLoadVersion (events : list RevocationEvent)
| AtStore (events : list RevocationEvent) (version : Z)
| AtDone.

Record system := mkSystem { monitor : RuntimeMonitor; threads : list pc }.

Section interleaved.
Context `{SliceSort, MapRange}.

(** One atomic action of one goroutine, at wall-clock time [t]. *)
Definition advance (m : RuntimeMonitor) (p : pc) (t : Z) : RuntimeMonitor * pc :=
  match p with
  | AtAppend e => (AppendEvent m e, AtReadLedger)
  | AtReadLedger => (m, AtLoadVersion (Ledger m))
  | AtLoadVersion events => (m, AtStore events (next_version (active m)))
  | AtStore events v => (SwapActiveSnapshot m (Some (CompileSnapshot events v t)), AtDone)
  | AtDone => (m, AtDone)
  end.

Inductive sys_step : system -> system -> Prop :=
| step_thread m ps i p t :
    ps !! i = Some p -> p <> AtDone ->
    sys_step (mkSystem m ps)
             (mkSystem (advance m p t).1 (<[i := (advance m p t).2]> ps)).

(** An executable schedule: which goroutine moves, and when. *)
Definition run_schedule (s : system) (sched : list (nat * Z)) : system :=
  foldl (fun s it =>
    match threads s !! it.1 with
    | Some p => mkSystem (advance (monitor s) p it.2).1
                  (<[it.1 := (advance (monitor s) p it.2).2]> (threads s))
    | None => s
    end) s sched.

Lemma run_schedule_steps s sched : rtc sys_step s (run_schedule s sched).
Proof.
  revert s. induction sched as [|[i t] sched IH]; intros s; [done|]. simpl.
  etrans; [|apply IH]. destruct (threads s !! i) as [p|] eqn:Hp; [|done].
  destruct s as [m ps]; simpl in *. destruct p as [e| |evs|evs v|].
  1-4: apply rtc_once; by apply (step_thread m ps i _ t).
  simpl. by rewrite list_insert_id.
Qed.

(** Every snapshot a goroutine holds, and the active one, is compiled from a
    prefix of the ledger. *)
Definition local_ok (l : list RevocationEvent) (p : pc) : Prop :=
  match p with
  | AtLoadVersion events | AtStore events _ => events `prefix_of` l
  | _ => True
  end.

Definition sys_inv (s : system) : Prop :=
  Forall (local_ok (ledger (monitor s))) (threads s) /\
  exists events v t, active (monitor s) = Some (CompileSnapshot events v t) /\
                     events `prefix_of` ledger (monitor s).

Lemma local_ok_mono l l' p : l `prefix_of` l' -> local_ok l p -> local_ok l' p.
Proof. destruct p; simpl; intros; try done; by etrans. Qed.

Lemma advance_ledger m p t : ledger m `prefix_of` ledger (advance m p t).1.
Proof. destruct p; simpl; try done. by apply prefix_app_r. Qed.

Lemma sys_step_inv s s' : sys_step s s' -> sys_inv s -> sys_inv s'.
Proof.
  intros Hstep [Hl (evs & v & t & Ha & Hp)]. destruct Hstep as [m ps i p t' Hi Hnd]. simpl in *.
  pose proof (advance_ledger m p t') as Hadv.
  pose proof (proj1 (Forall_lookup _ _) Hl i p Hi) as Hpi. split; simpl.
  - apply Forall_insert.
    + eapply Forall_impl; [exact Hl|]. intros q. by apply local_ok_mono.
    + destruct p; simpl in *; done.
  - destruct p as [e| |l|l w|]; simpl in *; try done.
    + exists evs, v, t. split; [done|]. by etrans.
    + by exists evs, v, t.
    + by exists evs, v, t.
    + by exists l, w, t'.
Qed.

Lemma sys_steps_inv s s' : rtc sys_step s s' -> sys_inv s -> sys_inv s'.
Proof. induction 1; eauto using sys_step_inv. Qed.

Definition initial (m : RuntimeMonitor) (events : list RevocationEvent) : system :=
  mkSystem m (AtAppend <$> events).

(** Under any interleaving of publishers, the active snapshot is always the
    compilation of a prefix of the ledger: a reader never sees an event that was
    not appended, nor one out of order. *)
Theorem interleaved_snapshot_is_prefix events0 v0 t0 events s :
  rtc sys_step
    (initial (mkMonitor (Some (CompileSnapshot events0 v0 t0)) events0) events) s ->
  exists evs v t,
    active (monitor s) = Some (CompileSnapshot evs v t) /\ evs `prefix_of` ledger (monitor s).
Proof.
  intros Hs. apply sys_steps_inv in Hs as [_ Hex]; [exact Hex|].
  split; [|by exists events0, v0, t0].
  apply Forall_forall. intros p (e & -> & _)%list_elem_of_fmap. done.
Qed.

(** The schedule of the race: the first goroutine stops between reading the
    ledger and storing; the second publishes completely; the first stores. *)
Definition race : list (nat * Z) :=
  [(0%nat, 1); (0%nat, 2); (0%nat, 3); (1%nat, 4); (1%nat, 5); (1%nat, 6); (1%nat, 7)].

(** Concurrent publication can lose an event: for every starting snapshot
    and any two events, there is an interleaving after which both publishers
    have returned and both events are in the ledger, yet the active snapshot is
    compiled without the second event, so lookups answer as if it had not been
    published.  The lost snapshot had been active before, under the same
    version, so the version does not reveal the loss. *)
Theorem concurrent_publication_loses_event events0 v0 t0 e1 e2 :
  let start :=
    initial (mkMonitor (Some (CompileSnapshot events0 v0 t0)) events0) [e1; e2] in
  exists mid fin,
    rtc sys_step start mid /\ rtc sys_step mid fin /\
    threads fin = [AtDone; AtDone] /\
    ledger (monitor fin) = events0 ++ [e1; e2] /\
    active (monitor mid) = Some (CompileSnapshot (events0 ++ [e1; e2]) (u64 (v0 + 1)) 7) /\
    active (monitor fin) = Some (CompileSnapshot (events0 ++ [e1]) (u64 (v0 + 1)) 8) /\
    forall id, Lookup (monitor fin) id = decision_of (dyn_run (about id (events0 ++ [e1]))).
Proof.
  intros start. exists (run_schedule start race), (run_schedule (run_schedule start race) [(0%nat, 8)]).
  assert (next_version (Some (CompileSnapshot events0 v0 t0)) = u64 (v0 + 1)) as Hv.
  { unfold next_version. by rewrite (proj1 (CompileSnapshot_contents_ok _ _ _)). }
  assert (active (monitor (run_schedule (run_schedule start race) [(0%nat, 8)]))
    = Some (CompileSnapshot (events0 ++ [e1]) (u64 (v0 + 1)) 8)) as Ha.
  { cbn -[CompileSnapshot next_version]. unfold Ledger. cbn -[CompileSnapshot next_version].
    by rewrite Hv. }
  repeat split.
  - apply run_schedule_steps.
  - apply run_schedule_steps.
  - cbn -[CompileSnapshot]. by rewrite <-app_assoc.
  - cbn -[CompileSnapshot next_version]. unfold Ledger. cbn -[CompileSnapshot next_version].
    by rewrite Hv, <-app_assoc.
  - exact Ha.
  - intros id. by rewrite Lookup_active, Ha, lookup_compiled.
Qed.
End interleaved.

(** ** Examples *)

Section examples.
#[local] Existing Instance SmallGo.small_slice_sort.
#[local] Existing Instance SmallGo.trie_map_range.

Lemma sequential_publication_exact_witness :
  let m := NewRuntimeMonitor 0 in
  let evs := [(ex_event x01 x11 EventQuarantineMemory 0, 5);
              (ex_event x02 x22 EventRevokeMemory 0, 6)] in
  Lookup (publish_all m evs) (mem x11)
  = decision_of (dyn_run (about (mem x11) (ledger m ++ evs.*1))).
Proof.
  intros m evs.
  refine (proj2 (proj2 (sequential_publication_exact m evs (mem x11) _))). discriminate.
Defined.

Lemma interleaved_snapshot_is_prefix_witness :
  let s := run_schedule
    (initial (mkMonitor (Some (CompileSnapshot [] 0 0)) [])
       [ex_event x01 x11 EventQuarantineMemory 0; ex_event x02 x22 EventRevokeMemory 0])
    (race ++ [(0%nat, 8)]) in
  exists evs v t,
    active (monitor s) = Some (CompileSnapshot evs v t) /\ evs `prefix_of` ledger (monitor s).
Proof.
  intros s.
  apply (interleaved_snapshot_is_prefix [] 0 0
    [ex_event x01 x11 EventQuarantineMemory 0; ex_event x02 x22 EventRevokeMemory 0]).
  apply run_schedule_steps.
Defined.
End examples.
