(* ===== verification/Json.v ===== *)
(** * JSON text ([encoding/json], [unicode/utf8])

    What the program uses of the standard library below the level of Go types:
    UTF-8, the escaping and unquoting of strings, which may be any sequence of
    bytes, the text of a value, compact or indented, and the scanner.  Of a syntax
    error only the fact is modelled, not its position.  The scanner is shown to
    read back what the encoder writes ([parse_print_with], [parse_print]), unquoting to undo escaping
    up to stray bytes ([unquote_escape]), and the parser's fuel to be enough on
    every input ([parse_fuel_enough]). *)
From S2P Require Import Prelude.

(** ** UTF-8 *)

Definition RuneError : Z := 65533.

Definition byte_in (lo hi : Z) (b : byte) : bool := (lo <=? byte_to_Z b) && (byte_to_Z b <=? hi).

(** [utf8.DecodeRune]: the first rune and its width; [(RuneError, 1)] when the
    encoding is invalid, [(RuneError, 0)] when there is none. *)
Definition DecodeRune (p : bytes) : Z * nat :=
  match p with
  | [] => (RuneError, 0%nat)
  | b0 :: p1 =>
      let z0 := byte_to_Z b0 in
      if z0 <? 128 then (z0, 1%nat)
      else if byte_in 194 223 b0 then
        match p1 with
        | b1 :: _ =>
            if byte_in 128 191 b1 then ((z0 - 192) * 64 + (byte_to_Z b1 - 128), 2%nat)
            else (RuneError, 1%nat)
        | _ => (RuneError, 1%nat)
        end
      else if byte_in 224 239 b0 then
        match p1 with
        | b1 :: b2 :: _ =>
            if byte_in (if z0 =? 224 then 160 else 128) (if z0 =? 237 then 159 else 191) b1 &&
               byte_in 128 191 b2
            then ((z0 - 224) * 4096 + (byte_to_Z b1 - 128) * 64 + (byte_to_Z b2 - 128), 3%nat)
            else (RuneError, 1%nat)
        | _ => (RuneError, 1%nat)
        end
      else if byte_in 240 244 b0 then
        match p1 with
        | b1 :: b2 :: b3 :: _ =>
            if byte_in (if z0 =? 240 then 144 else 128) (if z0 =? 244 then 143 else 191) b1 &&
               byte_in 128 191 b2 && byte_in 128 191 b3
            then ((z0 - 240) * 262144 + (byte_to_Z b1 - 128) * 4096 +
                  (byte_to_Z b2 - 128) * 64 + (byte_to_Z b3 - 128), 4%nat)
            else (RuneError, 1%nat)
        | _ => (RuneError, 1%nat)
        end
      else (RuneError, 1%nat)
  end.

(** [utf8.ValidRune]. *)
Definition ValidRune (r : Z) : bool :=
  (0 <=? r) && (r <? 55296) || (57343 <? r) && (r <=? 1114111).

(** [utf8.AppendRune]: a rune that is not valid is written as [RuneError]. *)
Definition EncodeRune (rune : Z) : bytes :=
  let r := if ValidRune rune then rune else RuneError in
  if r <? 128 then [byte_of_Z r]
  else if r <? 2048 then [byte_of_Z (192 + r / 64); byte_of_Z (128 + r mod 64)]
  else if r <? 65536 then
    [byte_of_Z (224 + r / 4096); byte_of_Z (128 + r / 64 mod 64); byte_of_Z (128 + r mod 64)]
  else
    [byte_of_Z (240 + r / 262144); byte_of_Z (128 + r / 4096 mod 64);
     byte_of_Z (128 + r / 64 mod 64); byte_of_Z (128 + r mod 64)].

Lemma byte_to_of_small z : 0 <= z < 256 -> byte_to_Z (byte_of_Z z) = z.
Proof. intros Hz. by rewrite byte_to_of_Z, Z.mod_small. Qed.

Lemma byte_in_spec lo hi b : reflect (lo <= byte_to_Z b <= hi) (byte_in lo hi b).
Proof. unfold byte_in. apply iff_reflect. rewrite andb_true_iff, !Z.leb_le. lia. Qed.

Lemma byte_in_of_Z lo hi z : 0 <= z < 256 -> byte_in lo hi (byte_of_Z z) = (lo <=? z) && (z <=? hi).
Proof. intros Hz. unfold byte_in. by rewrite byte_to_of_small. Qed.

Lemma ValidRune_spec r : ValidRune r = true <-> 0 <= r < 55296 \/ 57343 < r <= 1114111.
Proof.
  unfold ValidRune. rewrite orb_true_iff, !andb_true_iff, !Z.leb_le, !Z.ltb_lt. lia.
Qed.

(** Decide the conditionals of the goal by arithmetic, the innermost first. *)
Ltac decide_if c :=
  lazymatch c with
  | context [if ?d then _ else _] => decide_if d
  | _ => first [replace c with true by lia | replace c with false by lia | destruct c eqn:?]
  end.
Ltac decide_ifs :=
  repeat (match goal with |- context [if ?c then _ else _] => decide_if c end; cbv iota).

(** Decoding an encoded rune gives it back, whatever follows. *)
Lemma DecodeRune_EncodeRune r t :
  ValidRune r = true -> DecodeRune (EncodeRune r ++ t) = (r, length (EncodeRune r)).
Proof.
  intros Hv. unfold EncodeRune. rewrite Hv. apply ValidRune_spec in Hv.
  destruct (Z.ltb_spec r 128); [|destruct (Z.ltb_spec r 2048); [|destruct (Z.ltb_spec r 65536)]];
    cbn [app DecodeRune length]; unfold byte_in;
    rewrite !byte_to_of_small by (Z.to_euclidean_division_equations; lia);
    Z.to_euclidean_division_equations; decide_ifs; f_equal; lia.
Qed.

Lemma byte_of_Z_eq z b : z = byte_to_Z b -> byte_of_Z z = b.
Proof. intros ->. apply byte_of_to_Z. Qed.

(** The decoded runes of each width are valid, and encode to what was read. *)
Lemma DecodeRune_encodes p :
  p <> [] ->
  DecodeRune p = (RuneError, 1%nat) \/
  exists r t, ValidRune r = true /\ p = EncodeRune r ++ t.
Proof.
  destruct p as [|b0 p]; [done|intros _]. unfold DecodeRune.
  pose proof (byte_to_Z_range b0).
  repeat match goal with
  | |- context [if ?c then _ else _] =>
      lazymatch c with context [if _ then _ else _] => fail | _ => destruct c eqn:? end
  | |- context [match ?p with [] => _ | _ => _ end] => destruct p
  end; try (by left); right; unfold byte_in in *;
  match goal with
  | |- context [b0 :: ?b1 :: ?b2 :: ?b3 :: ?t] =>
      exists ((byte_to_Z b0 - 240) * 262144 + (byte_to_Z b1 - 128) * 4096 +
              (byte_to_Z b2 - 128) * 64 + (byte_to_Z b3 - 128)), t
  | |- context [b0 :: ?b1 :: ?b2 :: ?t] =>
      exists ((byte_to_Z b0 - 224) * 4096 + (byte_to_Z b1 - 128) * 64 + (byte_to_Z b2 - 128)), t
  | |- context [b0 :: ?b1 :: ?t] => exists ((byte_to_Z b0 - 192) * 64 + (byte_to_Z b1 - 128)), t
  | |- context [b0 :: ?t] => exists (byte_to_Z b0), t
  end.
  all: (split; [apply ValidRune_spec; lia|]).
  all: unfold EncodeRune; rewrite (proj2 (ValidRune_spec _)) by lia.
  all: decide_ifs; try lia; cbn [app].
  all: repeat (apply (f_equal2 cons);
    [symmetry; apply byte_of_Z_eq; Z.to_euclidean_division_equations; lia|]).
  all: done.
Qed.

Lemma DecodeRune_cases p :
  p <> [] ->
  DecodeRune p = (RuneError, 1%nat) \/
  exists r t, ValidRune r = true /\ p = EncodeRune r ++ t /\
              DecodeRune p = (r, length (EncodeRune r)).
Proof.
  intros [Hbad|(r & t & Hv & ->)]%DecodeRune_encodes; [by left|].
  right. exists r, t. by rewrite DecodeRune_EncodeRune.
Qed.

Lemma EncodeRune_length r : (1 <= length (EncodeRune r) <= 4)%nat.
Proof. unfold EncodeRune. repeat case_match; simpl; lia. Qed.

(** What [for _, r := range s] yields; [None] is the [RuneError] of a byte that
    starts no rune. *)
Fixpoint range_loop (fuel : nat) (s : bytes) : list (option Z) :=
  match fuel, s with
  | S fuel', _ :: _ =>
      let (r, size) := DecodeRune s in
      (if (r =? RuneError) && (size =? 1)%nat then None else Some r) ::
      range_loop fuel' (drop size s)
  | _, _ => []
  end.

Definition range_string (s : bytes) : list (option Z) := range_loop (length s) s.

(** [utf8.Valid]. *)
Definition utf8_Valid (s : bytes) : bool := forallb (fun r => bool_decide (is_Some r)) (range_string s).

Definition rune_bytes (r : option Z) : bytes := EncodeRune (default RuneError r).

(** The string with every byte that starts no rune replaced by U+FFFD. *)
Definition ToValidUTF8 (s : bytes) : bytes := concat (map rune_bytes (range_string s)).

(** Induction on a string, rune by rune. *)
Lemma utf8_ind (P : bytes -> Prop) :
  P [] ->
  (forall b s, DecodeRune (b :: s) = (RuneError, 1%nat) -> P s -> P (b :: s)) ->
  (forall r s, ValidRune r = true -> P s -> P (EncodeRune r ++ s)) ->
  forall s, P s.
Proof.
  intros Hnil Hbad Hgood s. remember (length s) as n eqn:Hn.
  revert s Hn. induction (lt_wf n) as [n _ IH]. intros s ->.
  destruct s as [|b s]; [done|].
  destruct (DecodeRune_cases (b :: s)) as [E|(r & t & Hv & E & _)]; [done| |].
  - apply Hbad; [done|]. apply (IH (length s)); [simpl; lia|done].
  - rewrite E. apply Hgood; [done|]. pose proof (EncodeRune_length r).
    apply (IH (length t)); [rewrite E, length_app; lia|done].
Qed.

Lemma range_bad_loop n b s :
  DecodeRune (b :: s) = (RuneError, 1%nat) -> range_loop (S n) (b :: s) = None :: range_loop n s.
Proof. intros E. cbn [range_loop]. by rewrite E. Qed.

Lemma range_good_loop n r s :
  ValidRune r = true ->
  range_loop (S n) (EncodeRune r ++ s) = Some r :: range_loop n s.
Proof.
  intros Hv. pose proof (DecodeRune_EncodeRune r s Hv) as E. pose proof (EncodeRune_length r).
  destruct (EncodeRune r) as [|b bs] eqn:Eb; [simpl in *; lia|].
  cbn [range_loop app]. cbn [app] in E. rewrite E.
  replace ((r =? RuneError) && (length (b :: bs) =? 1)%nat) with false.
  - f_equal. change (b :: bs ++ s) with ((b :: bs) ++ s). by rewrite drop_app_length.
  - destruct (Z.eqb_spec r RuneError) as [->|]; [|done]. vm_compute in Eb. by injection Eb as <- <-.
Qed.

(** Fuel above the length changes nothing. *)
Lemma range_loop_fuel s : forall n, (length s <= n)%nat -> range_loop n s = range_string s.
Proof.
  unfold range_string. remember (length s) as k eqn:Hk. assert (length s <= k)%nat as Hs by lia.
  clear Hk. revert k Hs. induction s as [|b s E IH|r s Hv IH] using utf8_ind.
  - by intros [|k] _ [|n] _.
  - intros [|k] Hk [|n] Hn; simpl in *; try lia.
    change (range_loop (S n) (b :: s) = range_loop (S k) (b :: s)).
    rewrite !range_bad_loop by done. f_equal. apply IH; lia.
  - intros k Hk n Hn. pose proof (EncodeRune_length r). rewrite length_app in Hk.
    destruct k as [|k], n as [|n]; try lia.
    rewrite !range_good_loop by done. f_equal. apply IH; lia.
Qed.

Lemma range_bad b s : DecodeRune (b :: s) = (RuneError, 1%nat) -> range_string (b :: s) = None :: range_string s.
Proof. intros E. unfold range_string. cbn [length]. by rewrite range_bad_loop. Qed.

Lemma range_good r s : ValidRune r = true -> range_string (EncodeRune r ++ s) = Some r :: range_string s.
Proof.
  intros Hv. unfold range_string at 1. pose proof (EncodeRune_length r).
  destruct (length (EncodeRune r ++ s)) as [|n] eqn:E; rewrite length_app in E; [lia|].
  rewrite range_good_loop by done. f_equal. apply range_loop_fuel. lia.
Qed.

Lemma range_nil : range_string [] = [].
Proof. done. Qed.

Lemma ToValidUTF8_valid s : utf8_Valid s = true -> ToValidUTF8 s = s.
Proof.
  unfold utf8_Valid, ToValidUTF8. induction s as [|b s E IH|r s Hv IH] using utf8_ind; [done| |].
  - by rewrite range_bad.
  - rewrite range_good by done. cbn. intros H. by rewrite IH.
Qed.

Lemma utf8_Valid_ToValidUTF8 s : utf8_Valid (ToValidUTF8 s) = true.
Proof.
  unfold utf8_Valid, ToValidUTF8.
  induction s as [|b s E IH|r s Hv IH] using utf8_ind; [done| |].
  - rewrite range_bad by done. cbn [map concat]. unfold rune_bytes at 1. cbn [from_option].
    by rewrite range_good.
  - rewrite range_good by done. cbn [map concat]. unfold rune_bytes at 1. cbn [from_option id].
    by rewrite range_good.
Qed.

(** Exactly the valid strings are left as they are. *)
Lemma ToValidUTF8_id_iff s : ToValidUTF8 s = s <-> utf8_Valid s = true.
Proof.
  split; [|apply ToValidUTF8_valid]. intros E. rewrite <-E. apply utf8_Valid_ToValidUTF8.
Qed.

(** ** Strings *)

Definition hex_byte (n : Z) : byte := Ascii.byte_of_ascii (hex_digit n).

(** [appendString] of [encoding/json] with HTML escaping, rune by rune. *)
Definition escape_ascii (b : byte) : bytes :=
  let z := byte_to_Z b in
  if Byte.eqb b x22 || Byte.eqb b x5c then [x5c; b]
  else if z =? 8 then bytes_of "\b"
  else if z =? 12 then bytes_of "\f"
  else if z =? 10 then bytes_of "\n"
  else if z =? 13 then bytes_of "\r"
  else if z =? 9 then bytes_of "\t"
  else if (z <? 32) || (z =? 60) || (z =? 62) || (z =? 38) then
    bytes_of "\u00" ++ [hex_byte (z / 16); hex_byte (z mod 16)]
  else [b].

Definition escape_rune (r : option Z) : bytes :=
  match r with
  | None => bytes_of "\ufffd"
  | Some r =>
      if r <? 128 then escape_ascii (byte_of_Z r)
      else if (r =? 8232) || (r =? 8233) then bytes_of "\u202" ++ [hex_byte (r mod 16)]
      else EncodeRune r
  end.

Definition escape (s : bytes) : bytes := concat (map escape_rune (range_string s)).

Definition hex_value (b : byte) : option Z :=
  let z := byte_to_Z b in
  if (48 <=? z) && (z <=? 57) then Some (z - 48)
  else if (97 <=? z) && (z <=? 102) then Some (z - 87)
  else if (65 <=? z) && (z <=? 70) then Some (z - 55)
  else None.

(** [getu4], after the [\u]. *)
Definition getu4 (s : bytes) : option Z :=
  match s with
  | a :: b :: c :: d :: _ =>
      match hex_value a, hex_value b, hex_value c, hex_value d with
      | Some a, Some b, Some c, Some d => Some (a * 4096 + b * 256 + c * 16 + d)
      | _, _, _, _ => None
      end
  | _ => None
  end.

(** [utf16.IsSurrogate] and [utf16.DecodeRune]. *)
Definition IsSurrogate (r : Z) : bool := (55296 <=? r) && (r <? 57344).
Definition utf16_DecodeRune (r1 r2 : Z) : Z :=
  if (55296 <=? r1) && (r1 <? 56320) && (56320 <=? r2) && (r2 <? 57344)
  then (r1 - 55296) * 1024 + (r2 - 56320) + 65536
  else RuneError.

Definition has_unicode_escape (s : bytes) : bool :=
  match s with b :: c :: _ => Byte.eqb b x5c && Byte.eqb c x75 | _ => false end.

(** What a one-letter escape stands for. *)
Definition escape_letter (c : byte) : option byte :=
  if Byte.eqb c x22 || Byte.eqb c x5c || Byte.eqb c x2f || Byte.eqb c x27 then Some c
  else if Byte.eqb c x62 then Some x08
  else if Byte.eqb c x66 then Some x0c
  else if Byte.eqb c x6e then Some x0a
  else if Byte.eqb c x72 then Some x0d
  else if Byte.eqb c x74 then Some x09
  else None.

(** One turn of the loop of [unquote]: the bytes it writes, and what is left. *)
Definition unquote_step (s : bytes) : option (bytes * bytes) :=
  match s with
  | [] => None
  | b :: s1 =>
      if Byte.eqb b x5c then
        match s1 with
        | [] => None
        | c :: s2 =>
            if Byte.eqb c x75 then
              match getu4 s2 with
              | None => None
              | Some rr =>
                  let s3 := drop 4 s2 in
                  if IsSurrogate rr then
                    let dec := if has_unicode_escape s3
                               then utf16_DecodeRune rr (default (-1) (getu4 (drop 2 s3)))
                               else RuneError in
                    if dec =? RuneError then Some (EncodeRune RuneError, s3)
                    else Some (EncodeRune dec, drop 6 s3)
                  else Some (EncodeRune rr, s3)
              end
            else match escape_letter c with
                 | Some x => Some ([x], s2)
                 | None => None
                 end
        end
      else if Byte.eqb b x22 || (byte_to_Z b <? 32) then None
      else let (r, size) := DecodeRune s in Some (EncodeRune r, drop size s)
  end.

(** The loop; every turn takes a byte. *)
Fixpoint unquote_loop (fuel : nat) (s : bytes) : option bytes :=
  match s, fuel with
  | [], _ => Some []
  | _, O => None
  | _, S fuel' =>
      match unquote_step s with
      | None => None
      | Some (out, s') =>
          match unquote_loop fuel' s' with
          | None => None
          | Some outs => Some (out ++ outs)
          end
      end
  end.

Definition unquote (s : bytes) : option bytes := unquote_loop (length s) s.

(** The scanner inside a string literal: the text up to the closing quote, which
    is checked but not unquoted, and what follows. *)
Definition scanned (text : bytes) (o : option (bytes * bytes)) : option (bytes * bytes) :=
  match o with Some (raw, rest) => Some (text ++ raw, rest) | None => None end.

Definition is_hex (b : byte) : bool := bool_decide (is_Some (hex_value b)).

Fixpoint scan_string (s : bytes) : option (bytes * bytes) :=
  match s with
  | [] => None
  | b :: s1 =>
      if Byte.eqb b x22 then Some ([], s1)
      else if Byte.eqb b x5c then
        match s1 with
        | [] => None
        | c :: s2 =>
            if Byte.eqb c x75 then
              match s2 with
              | h1 :: h2 :: h3 :: h4 :: s3 =>
                  if is_hex h1 && is_hex h2 && is_hex h3 && is_hex h4
                  then scanned [b; c; h1; h2; h3; h4] (scan_string s3) else None
              | _ => None
              end
            else if negb (Byte.eqb c x27) && bool_decide (is_Some (escape_letter c))
            then scanned [b; c] (scan_string s2)
            else None
        end
      else if byte_to_Z b <? 32 then None
      else scanned [b] (scan_string s1)
  end.

(** *** Unquoting undoes escaping *)

Lemma unquote_step_ascii b t :
  byte_to_Z b < 128 -> unquote_step (escape_ascii b ++ t) = Some ([b], t).
Proof. destruct b; intros Hb; try reflexivity; exfalso; vm_compute in Hb; discriminate. Qed.

Lemma scan_string_ascii b t :
  byte_to_Z b < 128 -> scan_string (escape_ascii b ++ t) = scanned (escape_ascii b) (scan_string t).
Proof. destruct b; intros Hb; try reflexivity; exfalso; vm_compute in Hb; discriminate. Qed.

Lemma EncodeRune_ascii r : 0 <= r < 128 -> EncodeRune r = [byte_of_Z r].
Proof.
  intros Hr. unfold EncodeRune. rewrite (proj2 (ValidRune_spec r)) by lia. by decide_ifs.
Qed.

Lemma EncodeRune_high r :
  128 <= r -> ValidRune r = true -> Forall (fun b => 128 <= byte_to_Z b) (EncodeRune r).
Proof.
  intros Hr Hv. unfold EncodeRune. rewrite Hv. apply ValidRune_spec in Hv.
  destruct (Z.ltb_spec r 128); [lia|].
  destruct (r <? 2048) eqn:?; [|destruct (r <? 65536) eqn:?];
    repeat constructor; rewrite byte_to_of_small; Z.to_euclidean_division_equations; lia.
Qed.

Lemma high_byte_plain b :
  128 <= byte_to_Z b -> Byte.eqb b x5c = false /\ Byte.eqb b x22 = false /\ (byte_to_Z b <? 32) = false.
Proof. destruct b; intros Hb; try done; exfalso; vm_compute in Hb; by apply Hb. Qed.

Lemma scan_string_high bs t :
  Forall (fun b => 128 <= byte_to_Z b) bs -> scan_string (bs ++ t) = scanned bs (scan_string t).
Proof.
  induction 1 as [|b bs Hb _ IH]; cbn [app].
  - by destruct (scan_string t) as [[? ?]|].
  - destruct (high_byte_plain b Hb) as (E1 & E2 & E3). cbn [scan_string]. rewrite E1, E2, E3, IH.
    by destruct (scan_string t) as [[? ?]|].
Qed.

(** The runes of a string are valid. *)
Definition rune_ok (r : option Z) : Prop := match r with Some r => ValidRune r = true | None => True end.

Lemma range_string_ok s : Forall rune_ok (range_string s).
Proof.
  induction s as [|b s E IH|r s Hv IH] using utf8_ind; [constructor| |].
  - rewrite range_bad by done. by constructor.
  - rewrite range_good by done. by constructor.
Qed.

Lemma unquote_step_escape r t :
  rune_ok r -> unquote_step (escape_rune r ++ t) = Some (rune_bytes r, t).
Proof.
  destruct r as [r|]; [|by intros _]. cbn [rune_ok]. intros Hv.
  unfold escape_rune, rune_bytes. cbn [from_option id].
  pose proof Hv as Hr. apply ValidRune_spec in Hr.
  destruct (Z.ltb_spec r 128) as [Hlt|Hge].
  - rewrite EncodeRune_ascii by lia. apply unquote_step_ascii. rewrite byte_to_of_small; lia.
  - destruct (Z.eqb_spec r 8232) as [->|H1]; [reflexivity|].
    destruct (Z.eqb_spec r 8233) as [->|H2]; [reflexivity|]. cbn [orb].
    pose proof (DecodeRune_EncodeRune r t Hv) as Ed. pose proof (EncodeRune_high r Hge Hv) as Hh.
    pose proof (EncodeRune_length r) as Hlen.
    remember (EncodeRune r) as bs eqn:Eb. destruct bs as [|b bs]; [simpl in Hlen; lia|].
    apply Forall_cons in Hh as [Hb _]. destruct (high_byte_plain b Hb) as (E1 & E2 & E3).
    cbn [app unquote_step]. cbn [app] in Ed. rewrite E1, E2, E3, Ed, <-Eb. cbn [orb].
    by rewrite app_comm_cons, drop_app_length.
Qed.

Lemma scan_string_escape r t :
  rune_ok r -> scan_string (escape_rune r ++ t) = scanned (escape_rune r) (scan_string t).
Proof.
  destruct r as [r|]; [|by intros _]. cbn [rune_ok]. intros Hv.
  unfold escape_rune. pose proof Hv as Hr. apply ValidRune_spec in Hr.
  destruct (Z.ltb_spec r 128) as [Hlt|Hge].
  - apply scan_string_ascii. rewrite byte_to_of_small; lia.
  - destruct (Z.eqb_spec r 8232) as [->|H1]; [reflexivity|].
    destruct (Z.eqb_spec r 8233) as [->|H2]; [reflexivity|]. cbn [orb].
    by apply scan_string_high, EncodeRune_high.
Qed.

Lemma escape_rune_nonempty r : escape_rune r <> [].
Proof.
  destruct r as [r|]; [|done]. unfold escape_rune, escape_ascii.
  pose proof (EncodeRune_length r) as Hl. repeat case_match; try done.
  intros E. rewrite E in Hl. simpl in Hl. lia.
Qed.

Lemma unquote_loop_runes rs : forall fuel,
  Forall rune_ok rs -> (length (concat (map escape_rune rs)) <= fuel)%nat ->
  unquote_loop fuel (concat (map escape_rune rs)) = Some (concat (map rune_bytes rs)).
Proof.
  induction rs as [|r rs IH]; intros fuel Hok Hf; [by destruct fuel|].
  apply Forall_cons in Hok as [Hr Hrs]. cbn [map concat] in *.
  pose proof (unquote_step_escape r (concat (map escape_rune rs)) Hr) as E.
  pose proof (escape_rune_nonempty r) as Hne. rewrite length_app in Hf.
  destruct (escape_rune r) as [|b bs]; [done|]. cbn [length] in Hf.
  destruct fuel as [|fuel]; [lia|]. cbn [app unquote_loop]. cbn [app] in E.
  rewrite E, IH by (done || lia). done.
Qed.

(** Escaping then unquoting a string replaces its stray bytes and nothing else. *)
Lemma unquote_escape s : unquote (escape s) = Some (ToValidUTF8 s).
Proof. unfold unquote. by apply unquote_loop_runes, (reflexivity _); apply range_string_ok. Qed.

(** The scanner stops at the closing quote of an escaped string. *)
Lemma scan_escape s rest : scan_string (escape s ++ x22 :: rest) = Some (escape s, rest).
Proof.
  unfold escape. induction (range_string_ok s) as [|r rs Hr _ IH]; [done|].
  cbn [map concat]. rewrite <-app_assoc, scan_string_escape, IH by done. done.
Qed.

(** *** Unquoting gives valid UTF-8 *)

Lemma EncodeRune_valid r : exists r', ValidRune r' = true /\ EncodeRune r = EncodeRune r'.
Proof.
  destruct (ValidRune r) eqn:Hv; [by exists r|]. exists RuneError. split; [done|].
  unfold EncodeRune. by rewrite Hv.
Qed.

Lemma unquote_step_rune s out rest :
  unquote_step s = Some (out, rest) -> exists r, ValidRune r = true /\ out = EncodeRune r.
Proof.
  assert (forall r (s' out' rest' : bytes), Some (EncodeRune r, s') = Some (out', rest') ->
    exists r', ValidRune r' = true /\ out' = EncodeRune r') as Hr.
  { intros r s' out' rest' [= <- _]. destruct (EncodeRune_valid r) as (r' & Hv & ->). by exists r'. }
  unfold unquote_step. destruct s as [|b s1]; [done|].
  destruct (Byte.eqb b x5c); [|destruct (_ || _); [done|destruct (DecodeRune _); apply Hr]].
  destruct s1 as [|c s2]; [done|]. destruct (Byte.eqb c x75).
  - destruct (getu4 s2) as [rr|]; [|done]. cbv zeta. destruct (IsSurrogate rr); [|apply Hr].
    destruct (_ =? RuneError); apply Hr.
  - destruct (escape_letter c) as [x|] eqn:El; [|done]. intros [= <- _].
    exists (byte_to_Z x). revert El. destruct c; intros [= <-]; split; reflexivity.
Qed.

Lemma unquote_utf8 s out : unquote s = Some out -> utf8_Valid out = true.
Proof.
  unfold unquote. generalize (length s) as fuel. intros fuel. revert s out.
  induction fuel as [|fuel IH]; intros [|b s] out; cbn [unquote_loop]; try done; try (intros [= <-]; done).
  destruct (unquote_step (b :: s)) as [[o s']|] eqn:Es; [|done].
  destruct (unquote_loop fuel s') as [outs|] eqn:El; [|done]. intros [= <-].
  destruct (unquote_step_rune _ _ _ Es) as (r & Hv & ->).
  unfold utf8_Valid. rewrite range_good by done. cbn. exact (IH s' outs El).
Qed.

(** ** Values *)

(** A JSON value as the decoder sees it: string literals and keys still quoted,
    number literals as text. *)
#[warnings="-register-all"]
Inductive JValue :=
| JNull
| JBool (b : bool)
| JNumber (literal : bytes)
| JString (raw : bytes)
| JArray (elems : list JValue)
| JObject (members : list (bytes * JValue)).

Definition quoted (raw : bytes) : bytes := x22 :: raw ++ [x22].

(** Comma-separated. *)
Fixpoint commas (ts : list bytes) : bytes :=
  match ts with
  | [] => []
  | [t] => t
  | t :: ts' => t ++ x2c :: commas ts'
  end.

(** The compact form the encoder writes. *)
Fixpoint print (v : JValue) : bytes :=
  match v with
  | JNull => bytes_of "null"
  | JBool b => bytes_of (if b then "true" else "false")
  | JNumber literal => literal
  | JString raw => quoted raw
  | JArray vs => x5b :: commas (map print vs) ++ [x5d]
  | JObject ms => x7b :: commas (map (fun m => quoted m.1 ++ x3a :: print m.2) ms) ++ [x7d]
  end.

(** The spaces of an encoder that indents: what goes before an element at nesting
    [k] and before the bracket that closes it, and what goes after a colon. *)
Record Layout := mkLayout { before : nat -> bytes; after_colon : bytes }.

Definition compact : Layout := mkLayout (fun _ => []) [].

(** [SetIndent("", indent)]. *)
Definition indented (indent : bytes) : Layout :=
  mkLayout (fun k => x0a :: concat (replicate k indent)) [x20].

(** The text at nesting [k]; empty arrays and objects stay closed. *)
Fixpoint print_with (L : Layout) (k : nat) (v : JValue) : bytes :=
  match v with
  | JArray ((_ :: _) as vs) =>
      x5b :: commas (map (fun v => before L (S k) ++ print_with L (S k) v) vs) ++ before L k ++ [x5d]
  | JObject ((_ :: _) as ms) =>
      x7b :: commas (map (fun m => before L (S k) ++ quoted m.1 ++ x3a :: after_colon L ++
                                   print_with L (S k) m.2) ms) ++ before L k ++ [x7d]
  | _ => print v
  end.

(** ** The scanner *)

Definition is_space (b : byte) : bool :=
  Byte.eqb b x20 || Byte.eqb b x09 || Byte.eqb b x0d || Byte.eqb b x0a.

Fixpoint skip_space (s : bytes) : bytes :=
  match s with
  | b :: s' => if is_space b then skip_space s' else s
  | [] => []
  end.

Definition is_digit (b : byte) : bool := byte_in 48 57 b.

Fixpoint digits (s : bytes) : bytes * bytes :=
  match s with
  | b :: s' => if is_digit b then let (ds, rest) := digits s' in (b :: ds, rest) else ([], s)
  | [] => ([], [])
  end.

(** [([.][0-9]+)?] and [([eE][+-]?[0-9]+)?]. *)
Definition fraction (s : bytes) : option (bytes * bytes) :=
  match s with
  | b :: s' =>
      if Byte.eqb b x2e then
        let (ds, rest) := digits s' in if bool_decide (ds = []) then None else Some (b :: ds, rest)
      else Some ([], s)
  | [] => Some ([], [])
  end.

Definition exponent (s : bytes) : option (bytes * bytes) :=
  match s with
  | e :: s1 =>
      if Byte.eqb e x65 || Byte.eqb e x45 then
        let (sign, s2) := match s1 with
          | b :: s2 => if Byte.eqb b x2b || Byte.eqb b x2d then ([b], s2) else ([], s1)
          | [] => ([], []) end in
        let (ds, rest) := digits s2 in
        if bool_decide (ds = []) then None else Some (e :: sign ++ ds, rest)
      else Some ([], s)
  | [] => Some ([], [])
  end.

(** [0|[1-9][0-9]*]. *)
Definition integer (s : bytes) : option (bytes * bytes) :=
  match s with
  | b :: s' =>
      if Byte.eqb b x30 then Some ([b], s')
      else if is_digit b then Some (digits s) else None
  | [] => None
  end.

Definition scan_number (s : bytes) : option (bytes * bytes) :=
  let (sign, s1) := match s with
    | b :: s1 => if Byte.eqb b x2d then ([b], s1) else ([], s)
    | [] => ([], []) end in
  match integer s1 with
  | None => None
  | Some (int, s2) =>
      match fraction s2 with
      | None => None
      | Some (frac, s3) =>
          match exponent s3 with
          | None => None
          | Some (exp, rest) => Some (sign ++ int ++ frac ++ exp, rest)
          end
      end
  end.

Definition strip_prefix (p s : bytes) : option bytes :=
  if bool_decide (take (length p) s = p) then Some (drop (length p) s) else None.

Definition maxNestingDepth : Z := 10000.

(** A value at nesting [depth], the elements of an array and the members of an
    object up to the closing bracket.  Every call takes a byte, so fuel above
    the length is enough ([parse_print] for what the encoder writes). *)
Fixpoint parse_value (fuel : nat) (depth : Z) (s : bytes) : option (JValue * bytes) :=
  match fuel, skip_space s with
  | O, _ | _, [] => None
  | S fuel', b :: s1 =>
      if Byte.eqb b x22 then
        match scan_string s1 with Some (raw, rest) => Some (JString raw, rest) | None => None end
      else if Byte.eqb b x5b then
        if maxNestingDepth <=? depth then None else
        match skip_space s1 with
        | c :: s2 =>
            if Byte.eqb c x5d then Some (JArray [], s2) else
            match parse_elems fuel' (depth + 1) s1 with
            | Some (vs, rest) => Some (JArray vs, rest)
            | None => None
            end
        | [] => None
        end
      else if Byte.eqb b x7b then
        if maxNestingDepth <=? depth then None else
        match skip_space s1 with
        | c :: s2 =>
            if Byte.eqb c x7d then Some (JObject [], s2) else
            match parse_members fuel' (depth + 1) s1 with
            | Some (ms, rest) => Some (JObject ms, rest)
            | None => None
            end
        | [] => None
        end
      else if Byte.eqb b x6e then
        match strip_prefix (bytes_of "null") (b :: s1) with Some rest => Some (JNull, rest) | None => None end
      else if Byte.eqb b x74 then
        match strip_prefix (bytes_of "true") (b :: s1) with Some rest => Some (JBool true, rest) | None => None end
      else if Byte.eqb b x66 then
        match strip_prefix (bytes_of "false") (b :: s1) with Some rest => Some (JBool false, rest) | None => None end
      else
        match scan_number (b :: s1) with Some (lit, rest) => Some (JNumber lit, rest) | None => None end
  end
with parse_elems (fuel : nat) (depth : Z) (s : bytes) : option (list JValue * bytes) :=
  match fuel with
  | O => None
  | S fuel' =>
      match parse_value fuel' depth s with
      | None => None
      | Some (v, s1) =>
          match skip_space s1 with
          | [] => None
          | b :: s2 =>
              if Byte.eqb b x5d then Some ([v], s2)
              else if Byte.eqb b x2c then
                match parse_elems fuel' depth s2 with
                | Some (vs, rest) => Some (v :: vs, rest)
                | None => None
                end
              else None
          end
      end
  end
with parse_members (fuel : nat) (depth : Z) (s : bytes) : option (list (bytes * JValue) * bytes) :=
  match fuel, skip_space s with
  | O, _ | _, [] => None
  | S fuel', b :: s1 =>
      if negb (Byte.eqb b x22) then None else
      match scan_string s1 with
      | None => None
      | Some (key, s2) =>
          match skip_space s2 with
          | [] => None
          | c :: s3 =>
              if negb (Byte.eqb c x3a) then None else
              match parse_value fuel' depth s3 with
              | None => None
              | Some (v, s4) =>
                  match skip_space s4 with
                  | [] => None
                  | d :: s5 =>
                      if Byte.eqb d x7d then Some ([(key, v)], s5)
                      else if Byte.eqb d x2c then
                        match parse_members fuel' depth s5 with
                        | Some (ms, rest) => Some ((key, v) :: ms, rest)
                        | None => None
                        end
                      else None
                  end
              end
          end
      end
  end.

(** A whole document: a value between spaces ([checkValid] and the decoder). *)
Definition parse (s : bytes) : option JValue :=
  match parse_value (2 + 2 * length s) 0 s with
  | Some (v, rest) => if bool_decide (skip_space rest = []) then Some v else None
  | None => None
  end.

(** *** Parsing undoes printing *)

(** The text of a string literal, which the scanner reads up to its quote. *)
Definition string_literal (raw : bytes) : Prop :=
  forall rest, scan_string (raw ++ x22 :: rest) = Some (raw, rest).

(** The text of an unsigned integer without leading zeros. *)
Definition decimal_literal (lit : bytes) : Prop :=
  lit = [x30] \/
  exists b ds, lit = b :: ds /\ is_digit b = true /\ Byte.eqb b x30 = false /\ Forall (fun d => is_digit d = true) ds.

(** Where a number ends. *)
Definition number_stop (rest : bytes) : Prop :=
  match rest with
  | [] => True
  | b :: _ => is_digit b = false /\ Byte.eqb b x2e = false /\ Byte.eqb b x65 = false /\ Byte.eqb b x45 = false
  end.

(** The text of a number, which the scanner reads up to its end. *)
Definition number_literal (lit : bytes) : Prop :=
  (exists b t, lit = b :: t /\ (is_digit b = true \/ b = x2d)) /\
  forall rest, number_stop rest -> scan_number (lit ++ rest) = Some (lit, rest).

(** What the encoder writes at depth [d], for the types the program encodes. *)
#[warnings="-register-all"]
Inductive printable : Z -> JValue -> Prop :=
| printable_null d : printable d JNull
| printable_bool d b : printable d (JBool b)
| printable_number d lit : number_literal lit -> printable d (JNumber lit)
| printable_string d raw : string_literal raw -> printable d (JString raw)
| printable_array d vs :
    d < maxNestingDepth -> Forall (printable (d + 1)) vs -> printable d (JArray vs)
| printable_object d ms :
    d < maxNestingDepth ->
    Forall (fun m => string_literal m.1 /\ printable (d + 1) m.2) ms -> printable d (JObject ms).

Lemma digits_app ds rest :
  Forall (fun d => is_digit d = true) ds -> number_stop rest -> digits (ds ++ rest) = (ds, rest).
Proof.
  intros Hd Hs. induction Hd as [|d ds Hd _ IH]; cbn [app digits]; [|by rewrite Hd, IH].
  destruct rest as [|b rest]; [done|]. destruct Hs as [E _]. cbn [digits]. by rewrite E.
Qed.

Lemma fraction_stop rest : number_stop rest -> fraction rest = Some ([], rest).
Proof. destruct rest; [done|]. intros (_ & E & _). unfold fraction. by rewrite E. Qed.

Lemma exponent_stop rest : number_stop rest -> exponent rest = Some ([], rest).
Proof. destruct rest; [done|]. intros (_ & _ & E & E'). unfold exponent. by rewrite E, E'. Qed.

Lemma digit_not_minus b : is_digit b = true -> Byte.eqb b x2d = false.
Proof. by destruct b. Qed.

Lemma scan_number_decimal lit rest :
  decimal_literal lit -> number_stop rest -> scan_number (lit ++ rest) = Some (lit, rest).
Proof.
  intros Hl Hs. unfold scan_number. destruct Hl as [->|(b & ds & -> & Hb & Hz & Hd)].
  - cbn. by rewrite fraction_stop, exponent_stop.
  - cbn [app]. rewrite digit_not_minus by done. unfold integer. rewrite Hz, Hb.
    rewrite app_comm_cons, digits_app by (done || by constructor).
    rewrite fraction_stop, exponent_stop by done. by rewrite !app_nil_r.
Qed.

Lemma skip_space_plain b t : is_space b = false -> skip_space (b :: t) = b :: t.
Proof. intros E. cbn [skip_space]. by rewrite E. Qed.

(** What tells the values apart: their first byte. *)
Definition value_head (b : byte) : Prop :=
  is_space b = false /\ Byte.eqb b x5d = false.

Lemma print_head d v : printable d v -> exists b t, print v = b :: t /\ value_head b.
Proof.
  unfold value_head.
  destruct 1 as [| d b | d lit [(b & t & -> & Hb) _] | | | ]; try (by do 2 eexists).
  - destruct b; by do 2 eexists.
  - exists b, t. split; [done|]. destruct Hb as [Hb| ->]; [|done].
    destruct b; (vm_compute in Hb; discriminate Hb) || done.
Qed.

(** A digit or a minus starts a number and nothing else. *)
Lemma number_dispatch b :
  is_digit b = true \/ b = x2d ->
  is_space b = false /\ Byte.eqb b x22 = false /\ Byte.eqb b x5b = false /\ Byte.eqb b x7b = false /\
  Byte.eqb b x6e = false /\ Byte.eqb b x74 = false /\ Byte.eqb b x66 = false.
Proof. intros [Hb| ->]; [|done]. destruct b; (vm_compute in Hb; discriminate Hb) || done. Qed.

Lemma decimal_number lit : decimal_literal lit -> number_literal lit.
Proof.
  intros Hl. split; [|intros rest; by apply scan_number_decimal].
  destruct Hl as [->|(b & ds & -> & Hb & _)]; [by exists x30, []; split; [|left]|].
  exists b, ds. auto.
Qed.

Lemma strip_prefix_app p t : strip_prefix p (p ++ t) = Some t.
Proof.
  unfold strip_prefix. by rewrite take_app_length, drop_app_length, bool_decide_eq_true_2.
Qed.

(** Evaluate the comparisons of known bytes. *)
Ltac eval_bytes :=
  repeat match goal with
  | |- context [Byte.eqb ?a ?b] =>
      let r := eval vm_compute in (Byte.eqb a b) in
      lazymatch r with true => idtac | false => idtac end; change (Byte.eqb a b) with r
  end; cbv iota; cbn [negb orb andb].

Lemma commas_cons t t' ts : commas (t :: t' :: ts) = t ++ x2c :: commas (t' :: ts).
Proof. done. Qed.

Definition spaces (ws : bytes) : Prop := Forall (fun b => is_space b = true) ws.

Lemma skip_spaces ws t : spaces ws -> skip_space (ws ++ t) = skip_space t.
Proof. induction 1 as [|b ws Hb _ IH]; [done|]. cbn [app skip_space]. by rewrite Hb. Qed.

Lemma skip_spaces_to ws b t : spaces ws -> is_space b = false -> skip_space (ws ++ b :: t) = b :: t.
Proof. intros Hw Hb. by rewrite skip_spaces, skip_space_plain. Qed.

Lemma parse_value_spaces fuel d ws t : spaces ws -> parse_value fuel d (ws ++ t) = parse_value fuel d t.
Proof. intros Hw. destruct fuel; [done|]. cbn [parse_value]. by rewrite skip_spaces. Qed.

Lemma number_stop_spaces ws b t :
  spaces ws -> number_stop (b :: t) -> number_stop (ws ++ b :: t).
Proof. intros Hw Hb. destruct Hw as [|w ws Hw _]; [exact Hb|]. by destruct w. Qed.

Section layout.
Context (L : Layout).
Hypothesis before_spaces : forall k, spaces (before L k).
Hypothesis colon_spaces : spaces (after_colon L).

Definition elem_text (k : nat) (v : JValue) : bytes := before L k ++ print_with L k v.
Definition member_text (k : nat) (m : bytes * JValue) : bytes :=
  before L k ++ quoted m.1 ++ x3a :: after_colon L ++ print_with L k m.2.

Lemma member_text_app k key v t :
  member_text k (key, v) ++ t
  = before L k ++ x22 :: key ++ x22 :: x3a :: after_colon L ++ print_with L k v ++ t.
Proof. unfold member_text, quoted. repeat first [rewrite <-app_assoc | progress cbn [app fst snd]]. done. Qed.

Lemma print_with_head k d v : printable d v -> exists b t, print_with L k v = b :: t /\ value_head b.
Proof.
  intros Hv. destruct (print_head d v Hv) as (b & t & E & Hb).
  destruct v as [| | | |[|v vs]|[|m ms]]; cbn [print_with]; try (exists b, t; by split);
    by do 2 eexists.
Qed.

Section step.
Context (fuel : nat).
Hypothesis value_IH : forall k d v rest,
  printable d v -> number_stop rest -> (2 * length (print_with L k v) < fuel)%nat ->
  parse_value fuel d (print_with L k v ++ rest) = Some (v, rest).
Hypothesis elems_IH : forall k ws d vs rest,
  vs <> [] -> Forall (printable d) vs -> spaces ws ->
  (2 * length (commas (map (elem_text k) vs)) + 1 < fuel)%nat ->
  parse_elems fuel d (commas (map (elem_text k) vs) ++ ws ++ x5d :: rest) = Some (vs, rest).
Hypothesis members_IH : forall k ws d ms rest,
  ms <> [] -> Forall (fun m => string_literal m.1 /\ printable d m.2) ms -> spaces ws ->
  (2 * length (commas (map (member_text k) ms)) + 1 < fuel)%nat ->
  parse_members fuel d (commas (map (member_text k) ms) ++ ws ++ x7d :: rest) = Some (ms, rest).

Lemma parse_elems_step k ws d vs rest :
  vs <> [] -> Forall (printable d) vs -> spaces ws ->
  (2 * length (commas (map (elem_text k) vs)) + 1 < S fuel)%nat ->
  parse_elems (S fuel) d (commas (map (elem_text k) vs) ++ ws ++ x5d :: rest) = Some (vs, rest).
Proof.
  intros Hne Hvs Hw Hf. destruct vs as [|v [|v' vs]]; [done| |]; apply Forall_cons in Hvs as [Hv Hvs].
  - cbn [map commas] in *. unfold elem_text in *. rewrite length_app in Hf. cbn [parse_elems].
    rewrite <-app_assoc, parse_value_spaces by done.
    rewrite value_IH by (try (by apply number_stop_spaces); done || lia).
    rewrite skip_spaces_to by done. by eval_bytes.
  - cbn [map] in *. rewrite commas_cons in *. rewrite length_app in Hf. cbn [length] in Hf.
    unfold elem_text at 1 in Hf. rewrite length_app in Hf.
    unfold elem_text at 1. rewrite <-!app_assoc. cbn [app parse_elems].
    rewrite parse_value_spaces by done. rewrite value_IH by (done || lia).
    rewrite skip_space_plain by done. eval_bytes.
    change (elem_text k v' :: map (elem_text k) vs) with (map (elem_text k) (v' :: vs)) in *.
    by rewrite elems_IH by (done || lia).
Qed.

Lemma parse_members_step k ws d ms rest :
  ms <> [] -> Forall (fun m => string_literal m.1 /\ printable d m.2) ms -> spaces ws ->
  (2 * length (commas (map (member_text k) ms)) + 1 < S fuel)%nat ->
  parse_members (S fuel) d (commas (map (member_text k) ms) ++ ws ++ x7d :: rest) = Some (ms, rest).
Proof.
  intros Hne Hms Hw Hf. destruct ms as [|[key v] ms]; [done|]. apply Forall_cons in Hms as [[Hk Hv] Hms].
  cbn [fst snd] in Hk, Hv.
  assert (exists tail, commas (map (member_text k) ((key, v) :: ms)) = member_text k (key, v) ++ tail /\
    match ms with [] => tail = [] | _ => tail = x2c :: commas (map (member_text k) ms) end) as (tail & E & Ht).
  { destruct ms; [exists []; by rewrite app_nil_r|]. by eexists. }
  rewrite E in *. clear E. rewrite member_text_app in Hf. rewrite <-app_assoc, member_text_app.
  rewrite length_app in Hf. cbn [length] in Hf. rewrite length_app in Hf. cbn [length] in Hf.
  rewrite !length_app in Hf. cbn [parse_members]. rewrite skip_spaces_to by done. eval_bytes.
  rewrite Hk, skip_space_plain by done. eval_bytes. rewrite parse_value_spaces by done.
  destruct ms as [|m' ms]; subst tail; cbn [app].
  - rewrite value_IH by (try (by apply number_stop_spaces); done || lia).
    rewrite skip_spaces_to by done. by eval_bytes.
  - rewrite value_IH by (done || lia). rewrite skip_space_plain by done. eval_bytes.
    cbn [length] in Hf. by rewrite members_IH by (done || lia).
Qed.

Lemma parse_value_step k d v rest :
  printable d v -> number_stop rest -> (2 * length (print_with L k v) < S fuel)%nat ->
  parse_value (S fuel) d (print_with L k v ++ rest) = Some (v, rest).
Proof.
  intros Hv Hs Hf.
  destruct Hv as [| d b | d lit Hl | d raw Hr | d vs Hd Hvs | d ms Hd Hms].
  - done.
  - by destruct b.
  - cbn [print_with print]. destruct Hl as [(b & t & -> & Hb) Hscan]. pose proof (Hscan rest Hs) as En.
    destruct (number_dispatch b Hb) as (E0 & E1 & E2 & E3 & E4 & E5 & E6).
    cbn [app parse_value]. rewrite skip_space_plain, E1, E2, E3, E4, E5, E6 by done.
    cbn [app] in En. by rewrite En.
  - cbn [print_with print]. unfold quoted. cbn [app parse_value]. rewrite skip_space_plain by done. eval_bytes.
    rewrite <-app_assoc. cbn [app]. by rewrite Hr.
  - destruct vs as [|v vs]; cbn [print_with].
    { cbn [print map commas app parse_value]. rewrite skip_space_plain by done. eval_bytes.
      by rewrite (proj2 (Z.leb_gt _ _)). }
    change (map _ (v :: vs)) with (map (elem_text (S k)) (v :: vs)) in *.
    cbn [print_with length] in Hf. rewrite length_app in Hf.
    change (map _ (v :: vs)) with (map (elem_text (S k)) (v :: vs)) in Hf.
    cbn [app parse_value]. rewrite skip_space_plain by done. eval_bytes.
    rewrite (proj2 (Z.leb_gt _ _)), <-!app_assoc by done. cbn [app].
    rewrite length_app in Hf. cbn [length] in Hf. rewrite elems_IH by (done || lia).
    assert (exists b t, commas (map (elem_text (S k)) (v :: vs)) = before L (S k) ++ b :: t /\ value_head b)
      as (b & t & -> & Hb & Hb').
    { apply Forall_cons in Hvs as [(b & t & E & Hb)%(print_with_head (S k)) _]. cbn [map].
      destruct vs; cbn [map]; rewrite ?commas_cons; unfold elem_text at 1; rewrite E; [by do 2 eexists|].
      rewrite <-app_assoc. by do 2 eexists. }
    rewrite <-app_assoc. cbn [app]. by rewrite skip_spaces_to, Hb'.
  - destruct ms as [|[key v] ms]; cbn [print_with].
    { cbn [print map commas app parse_value]. rewrite skip_space_plain by done. eval_bytes.
      by rewrite (proj2 (Z.leb_gt _ _)). }
    cbn [print_with length] in Hf. rewrite length_app in Hf.
    change (map _ ((key, v) :: ms)) with (map (member_text (S k)) ((key, v) :: ms)) in *.
    cbn [app parse_value]. rewrite skip_space_plain by done. eval_bytes.
    rewrite (proj2 (Z.leb_gt _ _)), <-!app_assoc by done. cbn [app].
    rewrite length_app in Hf. cbn [length] in Hf. rewrite members_IH by (done || lia).
    assert (exists t, commas (map (member_text (S k)) ((key, v) :: ms)) = before L (S k) ++ x22 :: t) as (t & ->).
    { cbn [map]. destruct ms; cbn [map]; rewrite ?commas_cons; [|rewrite member_text_app]; by eexists. }
    rewrite <-app_assoc. cbn [app]. rewrite skip_spaces_to by done. by eval_bytes.
Qed.
End step.

Lemma parse_print_fuel fuel :
  (forall k d v rest, printable d v -> number_stop rest -> (2 * length (print_with L k v) < fuel)%nat ->
     parse_value fuel d (print_with L k v ++ rest) = Some (v, rest)) /\
  (forall k ws d vs rest, vs <> [] -> Forall (printable d) vs -> spaces ws ->
     (2 * length (commas (map (elem_text k) vs)) + 1 < fuel)%nat ->
     parse_elems fuel d (commas (map (elem_text k) vs) ++ ws ++ x5d :: rest) = Some (vs, rest)) /\
  (forall k ws d ms rest, ms <> [] -> Forall (fun m => string_literal m.1 /\ printable d m.2) ms ->
     spaces ws -> (2 * length (commas (map (member_text k) ms)) + 1 < fuel)%nat ->
     parse_members fuel d (commas (map (member_text k) ms) ++ ws ++ x7d :: rest) = Some (ms, rest)).
Proof.
  induction fuel as [|fuel (IHv & IHe & IHm)]; [split_and!; intros; lia|].
  split_and!; intros.
  - by apply parse_value_step.
  - by apply parse_elems_step.
  - by apply parse_members_step.
Qed.

(** Parsing what an encoder writes gives the value back, whatever its spaces. *)
Lemma parse_print_with v ws : printable 0 v -> spaces ws -> parse (print_with L 0 v ++ ws) = Some v.
Proof.
  intros Hv Hw. unfold parse. rewrite (proj1 (parse_print_fuel _)).
  - rewrite <-(app_nil_r ws), skip_spaces by done. done.
  - done.
  - destruct Hw as [|w ws Hw _]; [done|]. by destruct w.
  - rewrite length_app. lia.
Qed.
End layout.

Lemma print_compact : forall (k : nat) (v : JValue), print_with compact k v = print v.
Proof.
  fix print_compact 2. intros k v. destruct v as [| | | |[|v vs]|[|[key v] ms]]; try reflexivity.
  - assert (forall vs, map (fun v => before compact (S k) ++ print_with compact (S k) v) vs = map print vs)
      as Hall by (induction vs0 as [|w ws IH]; [reflexivity|cbn [map]; rewrite IH; f_equal; apply print_compact]).
    cbn [print_with]. by rewrite Hall.
  - assert (forall ms, map (fun m => before compact (S k) ++ quoted m.1 ++ x3a :: after_colon compact ++
        print_with compact (S k) m.2) ms = map (fun m => quoted m.1 ++ x3a :: print m.2) ms)
      as Hall by (induction ms0 as [|[key' w] ws IH]; [reflexivity|cbn [map fst snd]; rewrite IH, <-(print_compact (S k) w); reflexivity]).
    cbn [print_with]. by rewrite Hall.
Qed.

(** Parsing what the encoder writes gives the value back. *)
Theorem parse_print v : printable 0 v -> parse (print v) = Some v.
Proof.
  intros Hv. rewrite <-(print_compact 0), <-(app_nil_r (print_with _ _ _)).
  by apply parse_print_with; [constructor|constructor| |constructor].
Qed.

Lemma escape_literal s : string_literal (escape s).
Proof. intros rest. apply scan_escape. Qed.

(** *** The fuel of the parser is enough on every input *)

Lemma skip_space_le s : (length (skip_space s) <= length s)%nat.
Proof. induction s as [|b s IH]; [done|]. cbn [skip_space]. case_match; simpl in *; lia. Qed.

Lemma scan_string_shrinks s raw rest :
  scan_string s = Some (raw, rest) -> (length rest < length s)%nat.
Proof.
  revert raw. remember (length s) as n eqn:Hn. revert s Hn.
  induction (lt_wf n) as [n _ IH]. intros s -> raw.
  assert (forall p s', (length s' < length s)%nat ->
    scanned p (scan_string s') = Some (raw, rest) -> (length rest < length s)%nat) as Hstep.
  { intros p s' Hlt. destruct (scan_string s') as [[raw' rest']|] eqn:E; [|done].
    intros [= <- <-]. pose proof (IH _ Hlt s' eq_refl _ E). lia. }
  destruct s as [|b s]; [done|]. cbn [scan_string].
  repeat (case_match; try discriminate); try (apply Hstep; simpl; lia).
  intros [= <- <-]. simpl. lia.
Qed.

Lemma digits_le s : (length (digits s).2 <= length s)%nat.
Proof.
  induction s as [|b s IH]; [done|]. cbn [digits]. case_match; [|done].
  destruct (digits s). simpl in *. lia.
Qed.

Lemma digits_shrink s ds rest : digits s = (ds, rest) -> (length rest <= length s)%nat.
Proof. intros E. pose proof (digits_le s). by rewrite E in *. Qed.

Lemma integer_shrinks s int rest : integer s = Some (int, rest) -> (length rest < length s)%nat.
Proof.
  destruct s as [|b s]; [done|]. unfold integer. destruct (Byte.eqb b x30).
  - intros [= <- <-]. simpl. lia.
  - cbn [digits]. destruct (is_digit b); [|done].
    destruct (digits s) as [ds s'] eqn:E. intros [= <- <-]. apply digits_shrink in E. simpl. lia.
Qed.

Lemma fraction_le s frac rest : fraction s = Some (frac, rest) -> (length rest <= length s)%nat.
Proof.
  destruct s as [|b s]; cbn [fraction]; [by intros [= <- <-]|].
  destruct (Byte.eqb b x2e); [|by intros [= <- <-]].
  destruct (digits s) as [ds s'] eqn:E. apply digits_shrink in E.
  case_bool_decide; [done|]. intros [= <- <-]. simpl. lia.
Qed.

Lemma exponent_le s exp rest : exponent s = Some (exp, rest) -> (length rest <= length s)%nat.
Proof.
  destruct s as [|e s]; cbn [exponent]; [by intros [= <- <-]|].
  destruct (Byte.eqb e x65 || Byte.eqb e x45); [|by intros [= <- <-]].
  assert (forall sign s2, (length s2 <= length s)%nat ->
    (let (ds, rest0) := digits s2 in
     if bool_decide (ds = []) then None else Some (e :: sign ++ ds, rest0)) = Some (exp, rest) ->
    (length rest <= length (e :: s))%nat) as Hd.
  { intros sign s2 Hle. destruct (digits s2) as [ds s'] eqn:E. apply digits_shrink in E.
    case_bool_decide; [done|]. intros [= <- <-]. simpl. lia. }
  destruct s as [|b s]; [by apply (Hd [] [])|].
  destruct (Byte.eqb b x2b || Byte.eqb b x2d); eapply Hd; simpl; lia.
Qed.

Lemma scan_number_shrinks s lit rest :
  scan_number s = Some (lit, rest) -> (length rest < length s)%nat.
Proof.
  unfold scan_number.
  assert (forall sign s1, (length s1 <= length s)%nat ->
    match integer s1 with
    | None => None
    | Some (int, s2) => match fraction s2 with
        | None => None
        | Some (frac, s3) => match exponent s3 with
            | None => None
            | Some (exp, rest0) => Some (sign ++ int ++ frac ++ exp, rest0) end end
    end = Some (lit, rest) -> (length rest < length s)%nat) as Hn.
  { intros sign s1 Hle. destruct (integer s1) as [[int s2]|] eqn:Ei; [|done].
    destruct (fraction s2) as [[frac s3]|] eqn:Ef; [|done].
    destruct (exponent s3) as [[exp rest']|] eqn:Ee; [|done]. intros [= <- <-].
    apply integer_shrinks in Ei. apply fraction_le in Ef. apply exponent_le in Ee. lia. }
  destruct s as [|b s]; [by apply (Hn [] [])|].
  destruct (Byte.eqb b x2d); apply Hn; simpl; lia.
Qed.

Lemma strip_prefix_shrinks p s rest :
  strip_prefix p s = Some rest -> p <> [] -> (length rest < length s)%nat.
Proof.
  unfold strip_prefix. case_bool_decide as E; [|done]. intros [= <-] Hp.
  rewrite length_drop. assert (s <> []) as Hs by (intros ->; rewrite take_nil in E; congruence).
  destruct p, s; try done. simpl. lia.
Qed.

(** Every parser takes a byte at least. *)
Lemma parse_shrinks fuel :
  (forall d s v rest, parse_value fuel d s = Some (v, rest) -> (length rest < length s)%nat) /\
  (forall d s vs rest, parse_elems fuel d s = Some (vs, rest) -> (length rest < length s)%nat) /\
  (forall d s ms rest, parse_members fuel d s = Some (ms, rest) -> (length rest < length s)%nat).
Proof.
  induction fuel as [|fuel (IHv & IHe & IHm)]; [done|]. split_and!.
  - intros d s v rest. cbn [parse_value]. pose proof (skip_space_le s) as Hs.
    destruct (skip_space s) as [|b s1]; [done|]. pose proof (skip_space_le s1) as Hs1.
    repeat case_match; intros; simplify_eq/=;
      repeat match goal with
      | H : scan_string _ = _ |- _ => apply scan_string_shrinks in H
      | H : scan_number _ = _ |- _ => apply scan_number_shrinks in H
      | H : strip_prefix _ _ = _ |- _ => apply strip_prefix_shrinks in H; [|done]
      | H : parse_elems _ _ _ = _ |- _ => apply IHe in H
      | H : parse_members _ _ _ = _ |- _ => apply IHm in H
      end; simpl in *; lia.
  - intros d s vs rest. cbn [parse_elems].
    destruct (parse_value fuel d s) as [[v s1]|] eqn:E; [|done]. apply IHv in E.
    pose proof (skip_space_le s1) as Hs. destruct (skip_space s1) as [|b s2]; [done|].
    repeat case_match; intros; simplify_eq/=;
      repeat match goal with H : parse_elems _ _ _ = _ |- _ => apply IHe in H end; simpl in *; lia.
  - intros d s ms rest. cbn [parse_members]. pose proof (skip_space_le s) as Hs.
    destruct (skip_space s) as [|b s1]; [done|]. destruct (negb _); [done|].
    destruct (scan_string s1) as [[key s2]|] eqn:Ek; [|done]. apply scan_string_shrinks in Ek.
    pose proof (skip_space_le s2) as Hs2. destruct (skip_space s2) as [|c s3]; [done|].
    destruct (negb _); [done|].
    destruct (parse_value fuel d s3) as [[v s4]|] eqn:E; [|done]. apply IHv in E.
    pose proof (skip_space_le s4) as Hs4. destruct (skip_space s4) as [|e s5]; [done|].
    repeat case_match; intros; simplify_eq/=;
      repeat match goal with H : parse_members _ _ _ = _ |- _ => apply IHm in H end; simpl in *; lia.
Qed.

(** Fuel above twice the length changes nothing, so [None] is a syntax error. *)
Lemma parse_fuel_enough fuel :
  (forall fuel' d s, (2 * length s < fuel)%nat -> (2 * length s < fuel')%nat ->
     parse_value fuel d s = parse_value fuel' d s) /\
  (forall fuel' d s, (2 * length s + 1 < fuel)%nat -> (2 * length s + 1 < fuel')%nat ->
     parse_elems fuel d s = parse_elems fuel' d s) /\
  (forall fuel' d s, (2 * length s < fuel)%nat -> (2 * length s < fuel')%nat ->
     parse_members fuel d s = parse_members fuel' d s).
Proof.
  induction fuel as [|fuel (IHv & IHe & IHm)]; [split_and!; intros; lia|].
  split_and!; intros [|fuel'] d s Hf Hf'; try lia.
  - cbn [parse_value]. pose proof (skip_space_le s) as Hs.
    destruct (skip_space s) as [|b s1]; [done|]. simpl in Hs.
    rewrite (IHe fuel'), (IHm fuel') by lia. done.
  - cbn [parse_elems]. rewrite (IHv fuel') by lia.
    destruct (parse_value fuel' d s) as [[v s1]|] eqn:E; [|done].
    apply (parse_shrinks fuel') in E. pose proof (skip_space_le s1) as Hs.
    destruct (skip_space s1) as [|b s2]; [done|]. simpl in Hs. by rewrite (IHe fuel') by lia.
  - cbn [parse_members]. pose proof (skip_space_le s) as Hs.
    destruct (skip_space s) as [|b s1]; [done|]. simpl in Hs.
    destruct (scan_string s1) as [[key s2]|] eqn:Ek; [|done]. apply scan_string_shrinks in Ek.
    pose proof (skip_space_le s2) as Hs2. destruct (skip_space s2) as [|c s3]; [done|]. simpl in Hs2.
    rewrite (IHv fuel') by lia.
    destruct (parse_value fuel' d s3) as [[v s4]|] eqn:E; [|done]. apply (parse_shrinks fuel') in E.
    pose proof (skip_space_le s4) as Hs4. destruct (skip_space s4) as [|e s5]; [done|]. simpl in Hs4.
    by rewrite (IHm fuel') by lia.
Qed.
