(* ===== verification/GoTime.v ===== *)
(** * Times as text ([time])

    [Time.MarshalJSON] of a UTC time and the two parsers behind [Time.UnmarshalJSON].
    Days are counted from January 1 of year 1, as in package [time] up to a
    multiple of 400 years.  The calendar is shown to be inverse to the count of
    days ([date_days_date_of]) and a formatted time to be read back to the
    nanosecond ([parse_format_time]). *)
From S2P Require Import Prelude Json.

(** ** The calendar *)

Definition isLeap (year : Z) : bool :=
  (year mod 4 =? 0) && (negb (year mod 100 =? 0) || (year mod 400 =? 0)).

Definition daysBefore (m : Z) : Z :=
  nth (Z.to_nat m) [0; 31; 59; 90; 120; 151; 181; 212; 243; 273; 304; 334; 365] 0.

Definition daysIn (m year : Z) : Z :=
  if (m =? 2) && isLeap year then 29 else daysBefore m - daysBefore (m - 1).

(** The end of [absDate]: month and day from the day of the year. *)
Definition month_day (leap : bool) (yday : Z) : Z * Z :=
  if leap && (yday =? 59) then (2, 29)
  else
    let day := if leap && (59 <? yday) then yday - 1 else yday in
    let month := day / 31 in
    let end_ := daysBefore (month + 1) in
    if end_ <=? day then (month + 2, day - end_ + 1)
    else (month + 1, day - daysBefore month + 1).

(** Year and day of the year ([absDate]). *)
Definition year_yday (days : Z) : Z * Z :=
  let n400 := days / 146097 in
  let d400 := days - 146097 * n400 in
  let n100 := d400 / 36524 - d400 / 36524 / 4 in
  let d100 := d400 - 36524 * n100 in
  let n4 := d100 / 1461 in
  let d4 := d100 - 1461 * n4 in
  let n1 := d4 / 365 - d4 / 365 / 4 in
  (1 + 400 * n400 + 100 * n100 + 4 * n4 + n1, d4 - 365 * n1).

(** [daysSinceEpoch] of a year. *)
Definition year_days (year : Z) : Z :=
  let y := year - 1 in
  146097 * (y / 400) + 36524 * (y mod 400 / 100) + 1461 * (y mod 100 / 4) + 365 * (y mod 4).

(** The day of a date ([Date]). *)
Definition date_days (year month day : Z) : Z :=
  year_days year + daysBefore (month - 1) + (if isLeap year && (3 <=? month) then 1 else 0) + day - 1.

Lemma year_yday_spec days :
  let (year, yday) := year_yday days in
  year_days year + yday = days /\ 0 <= yday < 365 + (if isLeap year then 1 else 0).
Proof.
  unfold year_yday, year_days, isLeap. cbv zeta.
  set (n400 := days / 146097). set (d400 := days - 146097 * n400).
  assert (0 <= d400 < 146097) as H400 by (subst n400 d400; Z.to_euclidean_division_equations; lia).
  set (n100 := d400 / 36524 - d400 / 36524 / 4). set (d100 := d400 - 36524 * n100).
  assert (0 <= n100 <= 3 /\ 0 <= d100 /\ (d100 < 36524 \/ n100 = 3 /\ d100 = 36524)) as H100
    by (subst n100 d100; Z.to_euclidean_division_equations; lia).
  set (n4 := d100 / 1461). set (d4 := d100 - 1461 * n4).
  assert (0 <= n4 <= 24 /\ 0 <= d4 < 1461 /\ (n4 = 24 -> d4 < 1460 \/ n100 = 3)) as H4
    by (subst n4 d4; Z.to_euclidean_division_equations; lia).
  set (n1 := d4 / 365 - d4 / 365 / 4). set (yday := d4 - 365 * n1).
  assert (0 <= n1 <= 3 /\ 0 <= yday /\ (yday < 365 \/ n1 = 3 /\ yday = 365 /\ d4 = 1460)) as H1
    by (subst n1 yday; Z.to_euclidean_division_equations; lia).
  set (year := 1 + 400 * n400 + 100 * n100 + 4 * n4 + n1).
  assert (days = 146097 * n400 + 36524 * n100 + 1461 * n4 + 365 * n1 + yday) as Hd
    by (subst d400 d100 d4 yday; lia).
  assert (year - 1 = 400 * n400 + 100 * n100 + 4 * n4 + n1) as Hy by (subst year; lia).
  clearbody year yday. clear H400. clearbody d4. clearbody n1 d100. clearbody n4. clearbody n100 n400.
  split.
  - rewrite <-(Z.div_unique_pos (year - 1) 400 n400 (100 * n100 + 4 * n4 + n1)) by lia.
    rewrite <-(Z.mod_unique_pos (year - 1) 400 n400 (100 * n100 + 4 * n4 + n1)) by lia.
    rewrite <-(Z.mod_unique_pos (year - 1) 100 (4 * n400 + n100) (4 * n4 + n1)) by lia.
    rewrite <-(Z.mod_unique_pos (year - 1) 4 (100 * n400 + 25 * n100 + n4) n1) by lia.
    rewrite <-(Z.div_unique_pos (100 * n100 + 4 * n4 + n1) 100 n100 (4 * n4 + n1)) by lia.
    rewrite <-(Z.div_unique_pos (4 * n4 + n1) 4 n4 n1) by lia. lia.
  - split; [lia|]. destruct H1 as (_ & _ & [Hlt|(-> & -> & ->)]); [case_match; lia|].
    replace ((year mod 4 =? 0) && (negb (year mod 100 =? 0) || (year mod 400 =? 0))) with true;
      [lia|].
    Z.to_euclidean_division_equations. lia.
Qed.

Lemma month_day_spec (leap : bool) yday :
  0 <= yday < 365 + (if leap then 1 else 0) ->
  let (month, day) := month_day leap yday in
  daysBefore (month - 1) + (if leap && (3 <=? month) then 1 else 0) + day - 1 = yday /\
  1 <= month <= 12 /\
  1 <= day <= (if (month =? 2) && leap then 29 else daysBefore month - daysBefore (month - 1)).
Proof.
  intros Hy.
  assert (forall leap' : bool, forallb (fun n =>
    let '(month, day) := month_day leap' (Z.of_nat n) in
    (daysBefore (month - 1) + (if leap' && (3 <=? month) then 1 else 0) + day - 1 =? Z.of_nat n) &&
    (1 <=? month) && (month <=? 12) && (1 <=? day) &&
    (day <=? (if (month =? 2) && leap' then 29 else daysBefore month - daysBefore (month - 1))))
    (seq 0 (if leap' then 366 else 365)) = true) as Hall by (intros []; vm_compute; reflexivity).
  specialize (Hall leap). rewrite forallb_forall in Hall.
  assert (In (Z.to_nat yday) (seq 0 (if leap then 366 else 365))) as Hin
    by (apply in_seq; destruct leap; lia).
  specialize (Hall _ Hin). cbv beta in Hall. rewrite Z2Nat.id in Hall by lia.
  destruct (month_day leap yday) as [month day]. bool_facts. lia.
Qed.

(** The calendar round trip: the date of a day is that day, and a valid date. *)
Definition date_of (days : Z) : Z * Z * Z :=
  let (year, yday) := year_yday days in
  let (month, day) := month_day (isLeap year) yday in (year, month, day).

Lemma date_days_date_of days :
  let '(year, month, day) := date_of days in
  date_days year month day = days /\ 1 <= month <= 12 /\ 1 <= day <= daysIn month year.
Proof.
  unfold date_of. pose proof (year_yday_spec days) as Hy.
  destruct (year_yday days) as [year yday]. destruct Hy as [Hd Hy].
  pose proof (month_day_spec (isLeap year) yday Hy) as Hm.
  destruct (month_day (isLeap year) yday) as [month day]. destruct Hm as (Hm & H1 & H2).
  unfold date_days, daysIn. split; [lia|]. done.
Qed.

(** ** Digits *)

(** [appendInt] with a width, for a number that fits. *)
Fixpoint dec_pad (width : nat) (z : Z) : bytes :=
  match width with
  | O => []
  | S w => byte_of_Z (48 + z / 10 ^ Z.of_nat w mod 10) :: dec_pad w z
  end.

Definition digits_value (ds : bytes) : Z := foldl (fun x c => x * 10 + (byte_to_Z c - 48)) 0 ds.

Lemma digit_byte_in z : is_digit (byte_of_Z (48 + z mod 10)) = true.
Proof.
  pose proof (Z.mod_pos_bound z 10). unfold is_digit, byte_in.
  rewrite byte_to_of_small by lia. lia.
Qed.

Lemma dec_pad_digits w z : Forall (fun d => is_digit d = true) (dec_pad w z).
Proof. induction w; constructor; [apply digit_byte_in|done]. Qed.

Lemma length_dec_pad w z : length (dec_pad w z) = w.
Proof. induction w; simpl; lia. Qed.

Lemma digits_value_app ds ds' :
  digits_value (ds ++ ds') = digits_value ds * 10 ^ Z.of_nat (length ds') + digits_value ds'.
Proof.
  unfold digits_value. rewrite foldl_app. generalize (foldl (fun x c => x * 10 + (byte_to_Z c - 48)) 0 ds).
  induction ds' as [|d ds' IH] using rev_ind; intros a; [simpl; lia|].
  rewrite !foldl_app, IH. simpl. rewrite length_app, Nat2Z.inj_add, Z.pow_add_r by lia. simpl. lia.
Qed.

Lemma digits_value_dec_pad w z : digits_value (dec_pad w z) = z mod 10 ^ Z.of_nat w.
Proof.
  induction w as [|w IH]; [by rewrite Z.mod_1_r|]. cbn [dec_pad].
  change (byte_of_Z (48 + z / 10 ^ Z.of_nat w mod 10) :: dec_pad w z)
    with ([byte_of_Z (48 + z / 10 ^ Z.of_nat w mod 10)] ++ dec_pad w z).
  rewrite digits_value_app, IH, length_dec_pad. unfold digits_value. cbn [foldl].
  pose proof (Z.mod_pos_bound (z / 10 ^ Z.of_nat w) 10).
  rewrite byte_to_of_small by lia.
  rewrite Nat2Z.inj_succ, Z.pow_succ_r, (Z.mul_comm 10), Z.rem_mul_r by lia. lia.
Qed.

(** [parseUint] of [parseRFC3339]. *)
Definition parseUint (s : bytes) (lo hi : Z) : option Z :=
  if forallb is_digit s && (lo <=? digits_value s) && (digits_value s <=? hi)
  then Some (digits_value s) else None.

Lemma forallb_digits ds : Forall (fun d => is_digit d = true) ds -> forallb is_digit ds = true.
Proof. induction 1 as [|d ds Hd _ IH]; [done|]. cbn. by rewrite Hd. Qed.

Lemma parseUint_dec_pad w z lo hi :
  0 <= z < 10 ^ Z.of_nat w -> lo <= z <= hi -> parseUint (dec_pad w z) lo hi = Some z.
Proof.
  intros Hz Hr. unfold parseUint. rewrite digits_value_dec_pad, Z.mod_small by done.
  rewrite forallb_digits by apply dec_pad_digits.
  by rewrite (proj2 (Z.leb_le _ _)), (proj2 (Z.leb_le _ _)) by lia.
Qed.

(** Fractional seconds, with the trailing zeros left out. *)
Fixpoint trim_zeros (ds : bytes) : bytes :=
  match ds with
  | [] => []
  | d :: ds' =>
      match trim_zeros ds' with
      | [] => if Byte.eqb d x30 then [] else [d]
      | t => d :: t
      end
  end.

Lemma trim_zeros_spec ds : exists k, ds = trim_zeros ds ++ replicate k x30.
Proof.
  induction ds as [|d ds [k IH]]; [by exists 0%nat|]. cbn [trim_zeros].
  destruct (trim_zeros ds) as [|d' ds'].
  - destruct (Byte.eqb d x30) eqn:E.
    + exists (S k). apply Byte.byte_dec_bl in E as ->. cbn. by rewrite IH at 1.
    + exists k. cbn. by rewrite IH at 1.
  - exists k. cbn [app]. by rewrite IH at 1.
Qed.

Lemma digits_value_zeros k : digits_value (replicate k x30) = 0.
Proof.
  induction k as [|k IH]; [done|].
  change (replicate (S k) x30) with ([x30] ++ replicate k x30).
  rewrite digits_value_app, IH. done.
Qed.

(** [parseNanoseconds], after the point. *)
Definition parseNanoseconds (ds : bytes) : Z :=
  digits_value (take 9 ds) * 10 ^ (9 - Z.of_nat (length (take 9 ds))).

Lemma parseNanoseconds_trim n :
  0 <= n < second -> parseNanoseconds (trim_zeros (dec_pad 9 n)) = n.
Proof.
  intros Hn. destruct (trim_zeros_spec (dec_pad 9 n)) as [k E].
  pose proof (f_equal length E) as El. rewrite length_app, length_dec_pad, length_replicate in El.
  apply (f_equal digits_value) in E. rewrite digits_value_app, digits_value_zeros, length_replicate in E.
  rewrite digits_value_dec_pad, Z.mod_small in E by done.
  unfold parseNanoseconds. rewrite take_ge by lia.
  replace (9 - Z.of_nat (length (trim_zeros (dec_pad 9 n)))) with (Z.of_nat k) by lia. lia.
Qed.

(** ** RFC 3339 *)

(** Days from January 1 of year 1 to the Unix epoch. *)
Definition unix_epoch_days : Z := 719162.

Definition time_day (t : Z) : Z := t / second / 86400 + unix_epoch_days.
Definition time_year (t : Z) : Z := (date_of (time_day t)).1.1.

(** [appendFormatRFC3339] with nanoseconds, in UTC. *)
Definition format_time (t : Z) : bytes :=
  let '(year, month, day) := date_of (time_day t) in
  let secs := t / second mod 86400 in
  let frac := trim_zeros (dec_pad 9 (t mod second)) in
  dec_pad 4 year ++ x2d :: dec_pad 2 month ++ x2d :: dec_pad 2 day ++ x54 ::
  dec_pad 2 (secs / 3600) ++ x3a :: dec_pad 2 (secs mod 3600 / 60) ++ x3a :: dec_pad 2 (secs mod 60) ++
  (match frac with [] => [] | _ => x2e :: frac end) ++ [x5a].

(** [Time.MarshalJSON], without the quotes. *)
Definition time_MarshalJSON (t : Z) : result bytes :=
  if (0 <=? time_year t) && (time_year t <=? 9999) then Ok (format_time t)
  else Err (errors_New "Time.MarshalJSON: year outside of range [0,9999]").

Definition sub (i j : nat) (s : bytes) : bytes := take (j - i) (drop i s).
Definition at_is (i : nat) (c : byte) (s : bytes) : bool := bool_decide (s !! i = Some c).

(** [Z] or an offset, in seconds east of UTC. *)
Definition parse_zone (s : bytes) : option Z :=
  if bool_decide (s = [x5a]) then Some 0
  else if negb (length s =? 6)%nat then None
  else
    match parseUint (sub 1 3 s) 0 23, parseUint (sub 4 6 s) 0 59 with
    | Some hr, Some mm =>
        if (at_is 0 x2d s || at_is 0 x2b s) && at_is 3 x3a s then
          let offset := (hr * 60 + mm) * 60 in
          Some (if at_is 0 x2d s then - offset else offset)
        else None
    | _, _ => None
    end.

(** The nanoseconds, and the rest. *)
Definition parse_frac (s : bytes) : Z * bytes :=
  match s with
  | p :: d :: _ =>
      if Byte.eqb p x2e && is_digit d then
        let (ds, rest) := digits (drop 1 s) in (parseNanoseconds ds, rest)
      else (0, s)
  | _ => (0, s)
  end.

(** [parseRFC3339]. *)
Definition parseRFC3339 (s : bytes) : option Z :=
  if (length s <? 19)%nat then None else
  match parseUint (sub 0 4 s) 0 9999, parseUint (sub 5 7 s) 1 12 with
  | Some year, Some month =>
      match parseUint (sub 8 10 s) 1 (daysIn month year), parseUint (sub 11 13 s) 0 23,
            parseUint (sub 14 16 s) 0 59, parseUint (sub 17 19 s) 0 59 with
      | Some day, Some hr, Some min, Some sec =>
          if at_is 4 x2d s && at_is 7 x2d s && at_is 10 x54 s && at_is 13 x3a s && at_is 16 x3a s then
            let (nsec, zone) := parse_frac (drop 19 s) in
            match parse_zone zone with
            | None => None
            | Some offset =>
                Some (((date_days year month day - unix_epoch_days) * 86400 +
                       hr * 3600 + min * 60 + sec - offset) * second + nsec)
            end
          else None
      | _, _, _, _ => None
      end
  | _, _ => None
  end.

(** [getnum]: one digit, or two. *)
Definition getnum (fixed : bool) (s : bytes) : option (Z * bytes) :=
  match s with
  | a :: b :: rest =>
      if negb (is_digit a) then None
      else if is_digit b then Some (digits_value [a; b], rest)
      else if fixed then None else Some (digits_value [a], b :: rest)
  | [a] => if negb (is_digit a) || fixed then None else Some (digits_value [a], [])
  | [] => None
  end.

(** [skip] of one byte of the layout. *)
Definition skip (c : byte) (s : bytes) : option bytes :=
  match s with b :: rest => if Byte.eqb b c then Some rest else None | [] => None end.

(** A number in a range, after a byte of the layout. *)
Definition getnum_after (c : byte) (fixed : bool) (lo hi : Z) (s : bytes) : option (Z * bytes) :=
  match skip c s with
  | None => None
  | Some s =>
      match getnum fixed s with
      | Some (z, rest) => if (lo <=? z) && (z <=? hi) then Some (z, rest) else None
      | None => None
      end
  end.

(** The fraction after the seconds, with a point or a comma. *)
Definition Parse_frac (s : bytes) : Z * bytes :=
  match s with
  | p :: d :: _ =>
      if (Byte.eqb p x2e || Byte.eqb p x2c) && is_digit d then
        let (ds, rest) := digits (drop 1 s) in (parseNanoseconds ds, rest)
      else (0, s)
  | _ => (0, s)
  end.

(** The zone, laid out as [Z07:00]: offsets of 24 hours and 60 minutes pass. *)
Definition Parse_zone (s : bytes) : option Z :=
  if bool_decide (s = [x5a]) then Some 0
  else if negb (length s =? 6)%nat then None
  else
    match parseUint (sub 1 3 s) 0 24, parseUint (sub 4 6 s) 0 60 with
    | Some hr, Some mm =>
        if (at_is 0 x2d s || at_is 0 x2b s) && at_is 3 x3a s then
          let offset := (hr * 60 + mm) * 60 in
          Some (if at_is 0 x2d s then - offset else offset)
        else None
    | _, _ => None
    end.

(** [time.Parse(time.RFC3339, s)], laxer than [parseRFC3339]: an hour of one
    digit, a comma before the fraction.  The text of its errors is left out. *)
Definition time_Parse (s : bytes) : option Z :=
  match parseUint (sub 0 4 s) 0 9999, getnum_after x2d true 1 12 (drop 4 s) with
  | Some year, Some (month, s) =>
      match getnum_after x2d true 1 (daysIn month year) s with
      | None => None
      | Some (day, s) =>
          match getnum_after x54 false 0 23 s with
          | None => None
          | Some (hr, s) =>
              match getnum_after x3a true 0 59 s with
              | None => None
              | Some (min, s) =>
                  match getnum_after x3a true 0 59 s with
                  | None => None
                  | Some (sec, s) =>
                      let (nsec, zone) := Parse_frac s in
                      match Parse_zone zone with
                      | None => None
                      | Some offset =>
                          Some (((date_days year month day - unix_epoch_days) * 86400 +
                                 hr * 3600 + min * 60 + sec - offset) * second + nsec)
                      end
                  end
              end
          end
      end
  | _, _ => None
  end.

(** [parseStrictRFC3339]: the fast parser, then the general one. *)
Definition parseStrictRFC3339 (s : bytes) : result Z :=
  match parseRFC3339 s with
  | Some t => Ok t
  | None =>
      match time_Parse s with
      | Some t => Ok t
      | None => Err (errors_New "parsing time")
      end
  end.

Example lax_times :
  time_Parse (bytes_of "2024-02-29T7:08:09,5+24:60") = time_Parse (bytes_of "2024-02-28T06:08:09.500Z") /\
  is_Some (time_Parse (bytes_of "2024-02-28T06:08:09.500Z")) /\
  parseRFC3339 (bytes_of "2024-02-29T7:08:09Z") = None /\
  time_Parse (bytes_of "2023-02-29T07:08:09Z") = None /\ time_Parse (bytes_of "2024-02-29T07:08:09Z ") = None.
Proof. vm_compute. split_and!; eauto. Qed.

Lemma trim_zeros_digits ds :
  Forall (fun d => is_digit d = true) ds -> Forall (fun d => is_digit d = true) (trim_zeros ds).
Proof. intros H. destruct (trim_zeros_spec ds) as [k E]. rewrite E in H. by apply Forall_app in H as [? _]. Qed.

Lemma parse_frac_trim n :
  0 <= n < second ->
  let frac := trim_zeros (dec_pad 9 n) in
  parse_frac ((match frac with [] => [] | _ => x2e :: frac end) ++ [x5a]) = (n, [x5a]).
Proof.
  intros Hn frac. pose proof (parseNanoseconds_trim n Hn) as Hv.
  pose proof (trim_zeros_digits _ (dec_pad_digits 9 n)) as Hd.
  fold frac in Hv, Hd. clearbody frac. destruct frac as [|d ds].
  - cbn in Hv. by subst n.
  - pose proof Hd as Hd'. apply Forall_cons in Hd' as [Hd1 _].
    cbn [app parse_frac]. rewrite Hd1. eval_bytes. cbn [drop].
    rewrite app_comm_cons, digits_app by done. by rewrite Hv.
Qed.

Lemma parse_date_fields y m d h mi s tail :
  length y = 4%nat -> length m = 2%nat -> length d = 2%nat -> length h = 2%nat ->
  length mi = 2%nat -> length s = 2%nat ->
  let text := y ++ x2d :: m ++ x2d :: d ++ x54 :: h ++ x3a :: mi ++ x3a :: s ++ tail in
  sub 0 4 text = y /\ sub 5 7 text = m /\ sub 8 10 text = d /\ sub 11 13 text = h /\
  sub 14 16 text = mi /\ sub 17 19 text = s /\ drop 19 text = tail /\
  (at_is 4 x2d text && at_is 7 x2d text && at_is 10 x54 text && at_is 13 x3a text && at_is 16 x3a text)
  = true /\ (length text <? 19)%nat = false.
Proof.
  intros. repeat match goal with
  | H : length ?l = S _ |- _ => destruct l; [discriminate H|injection H as H]
  | H : length ?l = 0%nat |- _ => destruct l; [clear H|discriminate H]
  end. subst text. split_and!; reflexivity.
Qed.

(** A formatted time is read back exactly. *)
Lemma parse_format_time t :
  0 <= time_year t <= 9999 -> parseRFC3339 (format_time t) = Some t.
Proof.
  unfold time_year, format_time. pose proof (date_days_date_of (time_day t)) as Hd.
  destruct (date_of (time_day t)) as [[year month] day]. cbn [fst snd].
  destruct Hd as (Hday & Hm & Hdd). intros Hy. cbv zeta.
  set (secs := t / second mod 86400).
  assert (0 <= secs < 86400) as Hsecs by (apply Z.mod_pos_bound; lia).
  assert (0 <= t mod second < second) as Hn by (apply Z.mod_pos_bound; done).
  assert (day <= 31) as H31.
  { unfold daysIn in Hdd. destruct ((month =? 2) && isLeap year); [lia|].
    assert (month ∈ [1;2;3;4;5;6;7;8;9;10;11;12]) as Hin by (rewrite !elem_of_cons; lia).
    revert Hdd. clear -Hin. intros [_ Hle]. etrans; [exact Hle|].
    repeat (apply elem_of_cons in Hin as [->|Hin]; [vm_compute; discriminate|]).
    by apply elem_of_nil in Hin. }
  edestruct (parse_date_fields (dec_pad 4 year) (dec_pad 2 month) (dec_pad 2 day)
    (dec_pad 2 (secs / 3600)) (dec_pad 2 (secs mod 3600 / 60)) (dec_pad 2 (secs mod 60)))
    as (E1 & E2 & E3 & E4 & E5 & E6 & E7 & E8 & E9); [apply length_dec_pad..|].
  unfold parseRFC3339. rewrite E9, E1, E2, E3, E4, E5, E6, E7, E8.
  rewrite !parseUint_dec_pad by (simpl; Z.to_euclidean_division_equations; lia).
  rewrite parse_frac_trim by done. change (parse_zone [x5a]) with (Some 0). cbv beta iota.
  f_equal. rewrite Hday. rewrite (Z.div_mod t second) at 3 by done.
  rewrite (Z.mul_comm second). do 2 f_equal. unfold time_day, unix_epoch_days, secs.
  generalize (t / second). intros n. Z.to_euclidean_division_equations. lia.
Qed.

Lemma parseStrict_format_time t :
  0 <= time_year t <= 9999 -> parseStrictRFC3339 (format_time t) = Ok t.
Proof. intros Hy. unfold parseStrictRFC3339. by rewrite parse_format_time. Qed.
