(* ===== verification/EventJson.v ===== *)
(** * The JSON of a revocation event ([encoding/json] on [RevocationEvent])

    [json.Marshal] of an event and [json.Unmarshal] of any bytes into one: the
    members in the order of the struct's fields, byte arrays as arrays of
    numbers; field names matched exactly, then by case folding, unknown ones
    skipped; nulls ignored, short arrays padded with zeros and long ones cut; the
    first type error saved and the decoding continued, an error of
    [Time.UnmarshalJSON] returned at once.  [Unmarshal_Marshal_valid] shows that an
    event comes back with the stray bytes of its strings replaced by U+FFFD, and
    so unchanged when they are valid UTF-8. *)
From S2P Require Import Prelude Quarantine Json GoTime.

(** [string(bs)]. *)
Fixpoint string_of (bs : bytes) : string :=
  match bs with
  | [] => EmptyString
  | b :: bs' => String (Ascii.ascii_of_byte b) (string_of bs')
  end.

(** ** Encoding *)

(** The decimal digits of a [uint8]. *)
Definition dec_uint8 (z : Z) : bytes :=
  if z <? 10 then dec_pad 1 z else if z <? 100 then dec_pad 2 z else dec_pad 3 z.

Definition json_uint8 (z : Z) : JValue := JNumber (dec_uint8 z).
Definition json_array (bs : bytes) : JValue := JArray (map (fun b => json_uint8 (byte_to_Z b)) bs).
Definition json_string (s : string) : JValue := JString (escape (bytes_of s)).

(** The value [json.Marshal] writes for an event, given its time's text. *)
Definition event_json (e : RevocationEvent) (created : bytes) : JValue :=
  JObject
    [ (bytes_of "EventID", json_array (EventID e));
      (bytes_of "MemoryID", json_array (EvMemoryID e));
      (bytes_of "EventType", json_uint8 (EventType e));
      (bytes_of "Reason", json_uint8 (Reason e));
      (bytes_of "OperatorID", json_string (OperatorID e));
      (bytes_of "Source", json_string (Source e));
      (bytes_of "CreatedAt", JString created);
      (bytes_of "PolicyHash", json_array (EvPolicyHash e));
      (bytes_of "PreviousState", json_string (PreviousState e));
      (bytes_of "NewState", json_string (NewState e));
      (bytes_of "Signature", json_array (EvSignature e));
      (bytes_of "SigningKeyID", json_string (EvSigningKeyID e)) ].

Definition Marshal_event (e : RevocationEvent) : result bytes :=
  let! created := time_MarshalJSON (EvCreatedAt e) in Ok (print (event_json e created)).

(** ** Decoding *)

Inductive Field :=
| FEventID | FMemoryID | FEventType | FReason | FOperatorID | FSource | FCreatedAt
| FPolicyHash | FPreviousState | FNewState | FSignature | FSigningKeyID.

#[global] Instance Field_eq_dec : EqDecision Field.
Proof. solve_decision. Defined.

Definition fields : list (string * Field) :=
  [ ("EventID", FEventID); ("MemoryID", FMemoryID); ("EventType", FEventType); ("Reason", FReason);
    ("OperatorID", FOperatorID); ("Source", FSource); ("CreatedAt", FCreatedAt);
    ("PolicyHash", FPolicyHash); ("PreviousState", FPreviousState); ("NewState", FNewState);
    ("Signature", FSignature); ("SigningKeyID", FSigningKeyID) ].

(** [foldName], exact on the runes that fold to ASCII: letters to upper case,
    the Kelvin sign and the long s to K and S. *)
Definition fold_rune (r : Z) : Z :=
  if (97 <=? r) && (r <=? 122) then r - 32
  else if r =? 8490 then 75
  else if r =? 383 then 83
  else r.
Definition foldName (name : bytes) : bytes :=
  concat (map (fun r => EncodeRune (fold_rune (default RuneError r))) (range_string name)).

(** The field a key names: by its exact name, else by its folded name. *)
Definition find_field (key : bytes) : option Field :=
  match find (fun f => bool_decide (bytes_of f.1 = key)) fields with
  | Some f => Some f.2
  | None =>
      match find (fun f => bool_decide (foldName (bytes_of f.1) = foldName key)) fields with
      | Some f => Some f.2
      | None => None
      end
  end.

(** [UnmarshalTypeError]. *)
Definition type_error (value field type : string) : error :=
  errors_New ("json: cannot unmarshal " +:+ value +:+ " into Go struct field RevocationEvent." +:+
              field +:+ " of type " +:+ type).

Definition value_kind (v : JValue) : string :=
  match v with
  | JNull => "null" | JBool _ => "bool" | JNumber _ => "number" | JString _ => "string"
  | JArray _ => "array" | JObject _ => "object"
  end.

(** The first error saved is the one kept. *)
Definition first_error (e1 e2 : option error) : option error :=
  match e1 with Some _ => e1 | None => e2 end.

(** A value stored into a [uint8]: null leaves it as it was. *)
Definition decode_uint8 (field type : string) (old : Z) (v : JValue) : Z * option error :=
  match v with
  | JNull => (old, None)
  | JNumber lit =>
      match parseUint lit 0 255 with
      | Some z => (z, None)
      | None => (old, Some (type_error ("number " +:+ string_of lit) field type))
      end
  | _ => (old, Some (type_error (value_kind v) field type))
  end.

(** The elements of an array stored into a byte array: missing ones are zeroed,
    extra ones skipped. *)
Fixpoint decode_elems (field : string) (old : bytes) (vs : list JValue) : bytes * option error :=
  match old, vs with
  | [], _ => ([], None)
  | _ :: old', [] => let (bs, err) := decode_elems field old' [] in (x00 :: bs, err)
  | b :: old', v :: vs' =>
      let (z, err) := decode_uint8 field "uint8" (byte_to_Z b) v in
      let (bs, err') := decode_elems field old' vs' in
      (byte_of_Z z :: bs, first_error err err')
  end.

Definition decode_array {n} (field type : string) (old : array n) (v : JValue) : array n * option error :=
  match v with
  | JNull => (old, None)
  | JArray vs => let (bs, err) := decode_elems field old vs in (copy_into n bs, err)
  | _ => (old, Some (type_error (value_kind v) field type))
  end.

Definition decode_string (field : string) (old : string) (v : JValue) : string * option error :=
  match v with
  | JNull => (old, None)
  | JString raw =>
      match unquote raw with
      | Some s => (string_of s, None)
      | None => (old, Some (errors_New "JSON decoder out of sync - data changing underfoot?"))
      end
  | _ => (old, Some (type_error (value_kind v) field "string"))
  end.

Definition zero_event : RevocationEvent :=
  mkEvent (zero_array 16) (zero_array 16) 0 0 "" "" zero_time (zero_array 32) "" "" (zero_array 64) "".

(** [Time.UnmarshalJSON]. *)
Definition time_UnmarshalJSON (old : Z) (v : JValue) : result Z :=
  match v with
  | JNull => Ok old
  | JString raw => parseStrictRFC3339 raw
  | _ => Err (errors_New "Time.UnmarshalJSON: input is not a JSON string")
  end.

(** A member stored into its field. *)
Definition decode_field (f : Field) (ev : RevocationEvent) (v : JValue)
    : result (RevocationEvent * option error) :=
  let '(mkEvent id mem typ rea op src at_ pol prev new sig key) := ev in
  match f with
  | FEventID => let (x, err) := decode_array "EventID" "[16]uint8" id v in
      Ok (mkEvent x mem typ rea op src at_ pol prev new sig key, err)
  | FMemoryID => let (x, err) := decode_array "MemoryID" "[16]uint8" mem v in
      Ok (mkEvent id x typ rea op src at_ pol prev new sig key, err)
  | FEventType => let (x, err) := decode_uint8 "EventType" "quarantine.EventType" typ v in
      Ok (mkEvent id mem x rea op src at_ pol prev new sig key, err)
  | FReason => let (x, err) := decode_uint8 "Reason" "quarantine.QuarantineReason" rea v in
      Ok (mkEvent id mem typ x op src at_ pol prev new sig key, err)
  | FOperatorID => let (x, err) := decode_string "OperatorID" op v in
      Ok (mkEvent id mem typ rea x src at_ pol prev new sig key, err)
  | FSource => let (x, err) := decode_string "Source" src v in
      Ok (mkEvent id mem typ rea op x at_ pol prev new sig key, err)
  | FCreatedAt =>
      let! x := time_UnmarshalJSON at_ v in
      Ok (mkEvent id mem typ rea op src x pol prev new sig key, None)
  | FPolicyHash => let (x, err) := decode_array "PolicyHash" "[32]uint8" pol v in
      Ok (mkEvent id mem typ rea op src at_ x prev new sig key, err)
  | FPreviousState => let (x, err) := decode_string "PreviousState" prev v in
      Ok (mkEvent id mem typ rea op src at_ pol x new sig key, err)
  | FNewState => let (x, err) := decode_string "NewState" new v in
      Ok (mkEvent id mem typ rea op src at_ pol prev x sig key, err)
  | FSignature => let (x, err) := decode_array "Signature" "[64]uint8" sig v in
      Ok (mkEvent id mem typ rea op src at_ pol prev new x key, err)
  | FSigningKeyID => let (x, err) := decode_string "SigningKeyID" key v in
      Ok (mkEvent id mem typ rea op src at_ pol prev new sig x, err)
  end.

(** The field of a quoted key. *)
Definition key_field (raw : bytes) : option Field :=
  match unquote raw with Some name => find_field name | None => None end.

(** The members in order ([decodeState.object]). *)
Fixpoint decode_members (ms : list (bytes * JValue)) (ev : RevocationEvent) (saved : option error)
    : result (RevocationEvent * option error) :=
  match ms with
  | [] => Ok (ev, saved)
  | (key, v) :: ms' =>
      match key_field key with
      | None => decode_members ms' ev saved
      | Some f =>
          let! (ev', err) := decode_field f ev v in decode_members ms' ev' (first_error saved err)
      end
  end.

(** [json.Unmarshal(data, &event)] into a fresh event. *)
Definition Unmarshal_event (data : bytes) : result RevocationEvent :=
  match parse data with
  | None => Err (errors_New "invalid JSON text")
  | Some JNull => Ok zero_event
  | Some (JObject ms) =>
      let! (ev, saved) := decode_members ms zero_event None in
      match saved with Some e => Err e | None => Ok ev end
  | Some v => Err (errors_New ("json: cannot unmarshal " +:+ value_kind v +:+
                               " into Go value of type quarantine.RevocationEvent"))
  end.

(** ** Round trip *)

Lemma bytes_of_string_of bs : bytes_of (string_of bs) = bs.
Proof. induction bs as [|b bs IH]; [done|]. cbn. by rewrite IH, Ascii.byte_of_ascii_of_byte. Qed.

Lemma string_of_bytes_of s : string_of (bytes_of s) = s.
Proof. induction s as [|c s IH]; [done|]. cbn. by rewrite IH, Ascii.ascii_of_byte_of_ascii. Qed.

(** A string with its stray bytes replaced; the event with its strings so. *)
Definition valid_string (s : string) : string := string_of (ToValidUTF8 (bytes_of s)).

Definition valid_event (e : RevocationEvent) : RevocationEvent :=
  mkEvent (EventID e) (EvMemoryID e) (EventType e) (Reason e) (valid_string (OperatorID e))
    (valid_string (Source e)) (EvCreatedAt e) (EvPolicyHash e) (valid_string (PreviousState e))
    (valid_string (NewState e)) (EvSignature e) (valid_string (EvSigningKeyID e)).

Lemma dec_uint8_literal z : 0 <= z < 256 -> decimal_literal (dec_uint8 z).
Proof.
  intros Hz.
  assert (forall b, match dec_uint8 (byte_to_Z b) with
    | [] => false
    | d :: ds => bool_decide (d :: ds = [x30]) ||
                 is_digit d && negb (Byte.eqb d x30) && forallb is_digit ds end = true) as Hall
    by (intros []; vm_compute; reflexivity).
  specialize (Hall (byte_of_Z z)). rewrite byte_to_of_small in Hall by done.
  destruct (dec_uint8 z) as [|d ds]; [done|]. apply orb_true_iff in Hall as [Hl|Hl]; bool_facts.
  - by left.
  - right. exists d, ds. split_and!; try done. apply List.Forall_forall.
    by rewrite <-forallb_forall.
Qed.

Lemma parseUint_dec_uint8 z : 0 <= z < 256 -> parseUint (dec_uint8 z) 0 255 = Some z.
Proof.
  intros Hz. unfold dec_uint8.
  destruct (Z.ltb_spec z 10); [|destruct (Z.ltb_spec z 100)]; apply parseUint_dec_pad; simpl; lia.
Qed.

Lemma decode_json_uint8 field type old z :
  0 <= z < 256 -> decode_uint8 field type old (json_uint8 z) = (z, None).
Proof. intros Hz. cbn [json_uint8 decode_uint8]. by rewrite parseUint_dec_uint8. Qed.

Lemma decode_json_elems field old bs :
  length old = length bs ->
  decode_elems field old (map (fun b => json_uint8 (byte_to_Z b)) bs) = (bs, None).
Proof.
  revert old. induction bs as [|b bs IH]; intros [|o old]; try done. intros [= Hl].
  cbn [map decode_elems]. rewrite decode_json_uint8 by apply byte_to_Z_range.
  rewrite IH by done. by rewrite byte_of_to_Z.
Qed.

Lemma decode_json_array {n} field type (old v : array n) :
  decode_array field type old (json_array v) = (v, None).
Proof.
  cbn [json_array decode_array]. rewrite decode_json_elems by by rewrite !length_vec_to_list.
  by rewrite copy_into_vec.
Qed.

Lemma decode_json_string field old s :
  decode_string field old (json_string s) = (valid_string s, None).
Proof. cbn [json_string decode_string]. by rewrite unquote_escape. Qed.

(** *** The text of an event is printable *)

(** Bytes a string literal holds as they are. *)
Definition plain (b : byte) : bool := negb (Byte.eqb b x22) && negb (Byte.eqb b x5c) && (32 <=? byte_to_Z b).

Lemma plain_literal bs : Forall (fun b => plain b = true) bs -> string_literal bs.
Proof.
  unfold plain. intros Hp rest. induction Hp as [|b bs Hb _ IH]; [done|]. cbn [app scan_string].
  apply andb_true_iff in Hb as [[H1%negb_true_iff H2%negb_true_iff]%andb_true_iff H3%Z.leb_le].
  rewrite H1, H2, (proj2 (Z.ltb_ge _ _)), IH by done. done.
Qed.

Lemma digits_plain ds : Forall (fun d => is_digit d = true) ds -> Forall (fun b => plain b = true) ds.
Proof. intros Hd. eapply Forall_impl; [exact Hd|]. intros b. by destruct b. Qed.

Lemma format_time_plain t : Forall (fun b => plain b = true) (format_time t).
Proof.
  unfold format_time. destruct (date_of (time_day t)) as [[year month] day]. cbv zeta.
  repeat first
    [ apply Forall_app_2 | apply List.Forall_cons; [reflexivity|]
    | apply digits_plain, dec_pad_digits | apply List.Forall_nil ].
  pose proof (digits_plain _ (trim_zeros_digits _ (dec_pad_digits 9 (t mod second)))) as Hd.
  destruct (trim_zeros _); [constructor|]. by constructor.
Qed.

Lemma printable_array_bytes d bs : d < maxNestingDepth -> printable d (json_array bs).
Proof.
  intros Hd. constructor; [done|]. apply Forall_map, Forall_true. intros b.
  constructor. apply decimal_number, dec_uint8_literal, byte_to_Z_range.
Qed.

Lemma printable_json_string d s : printable d (json_string s).
Proof. constructor. apply escape_literal. Qed.

(** The types of the fields that are [Z] here. *)
Definition event_typed (e : RevocationEvent) : Prop := 0 <= EventType e < 256 /\ 0 <= Reason e < 256.

Lemma printable_event e t : event_typed e -> printable 0 (event_json e (format_time t)).
Proof.
  intros [Ht Hr]. constructor; [done|].
  repeat (apply List.Forall_cons; [split; [apply plain_literal; by repeat constructor|]|]);
    try apply List.Forall_nil; cbn [snd].
  all: first
    [ by apply printable_array_bytes | apply printable_json_string
    | constructor; by apply decimal_number, dec_uint8_literal | constructor; apply plain_literal, format_time_plain ].
Qed.

(** *** Decoding undoes encoding *)

Lemma key_field_name name f : In (name, f) fields -> key_field (bytes_of name) = Some f.
Proof.
  intros Hin. assert (Forall (fun p => key_field (bytes_of p.1) = Some p.2) fields) as Hall
    by by_decide.
  rewrite List.Forall_forall in Hall. exact (Hall (name, f) Hin).
Qed.

Lemma decode_event_members e :
  event_typed e -> 0 <= time_year (EvCreatedAt e) <= 9999 ->
  match event_json e (format_time (EvCreatedAt e)) with
  | JObject ms => decode_members ms zero_event None
  | _ => Err (errors_New "")
  end = Ok (valid_event e, None).
Proof.
  intros [Ht Hr] Hy. unfold event_json. cbn [decode_members].
  unfold zero_event.
  repeat (erewrite key_field_name by (repeat first [left; reflexivity | right]); cbn [decode_field result_bind time_UnmarshalJSON];
    first [rewrite decode_json_array | rewrite decode_json_uint8 by done | rewrite decode_json_string
          | rewrite parseStrict_format_time by done];
    cbn [result_bind first_error]).
  done.
Qed.

Lemma Unmarshal_Marshal_valid e payload :
  event_typed e -> Marshal_event e = Ok payload ->
  Unmarshal_event payload = Ok (valid_event e).
Proof.
  intros He. unfold Marshal_event, time_MarshalJSON.
  destruct ((0 <=? _) && _) eqn:E; [|done]. bool_facts. cbn [result_bind]. intros Hp.
  assert (payload = print (event_json e (format_time (EvCreatedAt e)))) as -> by congruence.
  unfold Unmarshal_event. rewrite parse_print by by apply printable_event.
  pose proof (decode_event_members e He ltac:(lia)) as Hd. unfold event_json in *.
  by rewrite Hd.
Qed.

(** ** Bounds *)

Lemma length_commas ts : (length (commas ts) <= length (concat ts) + length ts)%nat.
Proof.
  induction ts as [|t [|t' ts] IH]; [done|simpl; rewrite app_nil_r; lia|].
  rewrite commas_cons, length_app. cbn [concat] in *. rewrite !length_app in *. cbn [length] in *. lia.
Qed.

Lemma length_concat_le (ts : list bytes) k :
  Forall (fun t => length t <= k)%nat ts -> (length (concat ts) <= k * length ts)%nat.
Proof. induction 1; simpl; rewrite ?length_app; lia. Qed.

Lemma length_dec_uint8 z : (length (dec_uint8 z) <= 3)%nat.
Proof. unfold dec_uint8. repeat case_match; rewrite length_dec_pad; lia. Qed.

Lemma length_json_array bs : (length (print (json_array bs)) <= 4 * length bs + 2)%nat.
Proof.
  cbn [json_array print length]. rewrite length_app, map_map. cbn [length].
  set (ts := map (fun b => print (json_uint8 (byte_to_Z b))) bs).
  pose proof (length_commas ts) as Hc.
  assert (length (concat ts) <= 3 * length ts)%nat as Hl.
  { apply length_concat_le, Forall_map, Forall_true. intros b. apply length_dec_uint8. }
  subst ts. rewrite length_map in *. lia.
Qed.

Lemma length_range_string s : (length (range_string s) <= length s)%nat.
Proof.
  induction s as [|b s E IH|r s Hv IH] using utf8_ind; [done| |].
  - rewrite range_bad by done. simpl. lia.
  - rewrite range_good, length_app by done. pose proof (EncodeRune_length r). simpl. lia.
Qed.

Lemma length_escape_rune r : (length (escape_rune r) <= 6)%nat.
Proof.
  destruct r as [r|]; [|simpl; lia]. unfold escape_rune, escape_ascii.
  pose proof (EncodeRune_length r). repeat case_match; simpl; lia.
Qed.

Lemma length_json_string s : (length (print (json_string s)) <= 6 * String.length s + 2)%nat.
Proof.
  cbn [json_string print]. unfold quoted. cbn [length]. rewrite length_app. cbn [length].
  assert (length (escape (bytes_of s)) <= 6 * length (range_string (bytes_of s)))%nat as Hl.
  { unfold escape. rewrite <-(length_map escape_rune). apply length_concat_le, Forall_map, Forall_true.
    apply length_escape_rune. }
  pose proof (length_range_string (bytes_of s)). rewrite length_bytes_of in *. lia.
Qed.

Lemma length_format_time t : (length (format_time t) <= 30)%nat.
Proof.
  unfold format_time. destruct (date_of (time_day t)) as [[year month] day]. cbv zeta.
  destruct (trim_zeros_spec (dec_pad 9 (t mod second))) as [k E].
  apply (f_equal length) in E. rewrite length_app, length_dec_pad in E.
  repeat (rewrite length_app || cbn [length] || rewrite length_dec_pad).
  case_match; cbn [length] in *; lia.
Qed.

(** The bytes of an event's strings. *)
Definition string_bytes (e : RevocationEvent) : nat :=
  String.length (OperatorID e) + String.length (Source e) + String.length (PreviousState e) +
  String.length (NewState e) + String.length (EvSigningKeyID e).

Lemma length_object ms :
  (length (print (JObject ms)) <= foldr Nat.add 0%nat (map (fun m => length m.1 + length (print m.2) + 4) ms) + 2)%nat.
Proof.
  cbn [print length]. rewrite length_app. cbn [length].
  set (text := fun m : bytes * JValue => quoted m.1 ++ x3a :: print m.2).
  change (map _ ms) with (map text ms) at 1.
  assert (length (commas (map text ms)) <=
    foldr Nat.add 0%nat (map (fun m => length m.1 + length (print m.2) + 4) ms))%nat; [|lia].
  pose proof (length_commas (map text ms)) as Hc. etrans; [exact Hc|]. clear Hc.
  induction ms as [|m ms IH]; [done|]. cbn [map concat foldr]. rewrite length_app. cbn [length].
  unfold text at 1, quoted. cbn [length app]. rewrite !length_app. cbn [length].
  lia.
Qed.

Lemma length_event_json e t :
  (length (print (event_json e (format_time t))) <= 6 * string_bytes e + 1000)%nat.
Proof.
  etrans; [apply length_object|]. unfold string_bytes.
  cbn [map fst snd]. rewrite !length_bytes_of. cbn [String.length].
  pose proof (length_json_array (EventID e)). pose proof (length_json_array (EvMemoryID e)).
  pose proof (length_json_array (EvPolicyHash e)). pose proof (length_json_array (EvSignature e)).
  rewrite !length_vec_to_list in *.
  pose proof (length_json_string (OperatorID e)). pose proof (length_json_string (Source e)).
  pose proof (length_json_string (PreviousState e)). pose proof (length_json_string (NewState e)).
  pose proof (length_json_string (EvSigningKeyID e)).
  pose proof (length_dec_uint8 (EventType e)). pose proof (length_dec_uint8 (Reason e)).
  pose proof (length_format_time t).
  cbn [foldr json_uint8 print]. unfold quoted. cbn [length]. rewrite length_app. cbn [length].
  lia.
Qed.

(** ** The codec of the ledger *)

Definition utf8_event (e : RevocationEvent) : bool :=
  utf8_Valid (bytes_of (OperatorID e)) && utf8_Valid (bytes_of (Source e)) &&
  utf8_Valid (bytes_of (PreviousState e)) && utf8_Valid (bytes_of (NewState e)) &&
  utf8_Valid (bytes_of (EvSigningKeyID e)).

Lemma valid_string_id s : utf8_Valid (bytes_of s) = true -> valid_string s = s.
Proof. intros H. unfold valid_string. by rewrite ToValidUTF8_valid, string_of_bytes_of. Qed.

Lemma valid_string_id_iff s : valid_string s = s <-> utf8_Valid (bytes_of s) = true.
Proof.
  split; [|apply valid_string_id]. intros E. apply (f_equal bytes_of) in E.
  unfold valid_string in E. rewrite bytes_of_string_of in E. by apply ToValidUTF8_id_iff.
Qed.

(** Exactly the events of valid strings are transported as they are. *)
Lemma valid_event_id_iff e : valid_event e = e <-> utf8_event e = true.
Proof.
  unfold utf8_event. rewrite !andb_true_iff, <-!valid_string_id_iff. unfold valid_event.
  split.
  - intros E. split_and!; [exact (f_equal OperatorID E)|exact (f_equal Source E)
      |exact (f_equal PreviousState E)|exact (f_equal NewState E)|exact (f_equal EvSigningKeyID E)].
  - intros ((((-> & ->) & ->) & ->) & ->). by destruct e.
Qed.

(** *** What is decoded is typed

    Whatever the payload holds: numbers in the range of their Go types, strings of
    valid UTF-8. *)
Definition decoded_ok (e : RevocationEvent) : Prop := event_typed e /\ utf8_event e = true.

Lemma decode_uint8_range field type old v :
  0 <= old < 256 -> 0 <= (decode_uint8 field type old v).1 < 256.
Proof.
  intros Ho. destruct v; try exact Ho. cbn [decode_uint8]. unfold parseUint.
  destruct (forallb is_digit literal && (0 <=? digits_value literal) && (digits_value literal <=? 255)) eqn:E;
    [|exact Ho].
  apply andb_true_iff in E as [[_ Hl%Z.leb_le]%andb_true_iff Hh%Z.leb_le]. cbn [fst]. lia.
Qed.

Lemma decode_string_utf8 field old v :
  utf8_Valid (bytes_of old) = true -> utf8_Valid (bytes_of (decode_string field old v).1) = true.
Proof.
  intros Ho. destruct v; try exact Ho. cbn [decode_string].
  destruct (unquote raw) as [s|] eqn:E; [|exact Ho]. cbn [fst]. rewrite bytes_of_string_of.
  by apply unquote_utf8 in E.
Qed.

Lemma decode_field_ok f ev v ev' err :
  decoded_ok ev -> decode_field f ev v = Ok (ev', err) -> decoded_ok ev'.
Proof.
  destruct ev as [id mem typ rea op src at_ pol prev new sig key].
  unfold decoded_ok, event_typed, utf8_event. cbn [EventType Reason OperatorID Source PreviousState NewState EvSigningKeyID].
  rewrite !andb_true_iff. intros [[Ht Hr] ((((Hop & Hsrc) & Hprev) & Hnew) & Hkey)].
  pose proof (decode_uint8_range "EventType" "quarantine.EventType" typ v Ht) as Ht'.
  pose proof (decode_uint8_range "Reason" "quarantine.QuarantineReason" rea v Hr) as Hr'.
  destruct f; cbn [decode_field]; try (destruct (time_UnmarshalJSON _ _) as [x|]; [cbn [result_bind]|done]);
    match goal with
    | |- context [decode_string ?n ?old ?v] =>
        pose proof (decode_string_utf8 n old v ltac:(assumption)); destruct (decode_string n old v)
    | |- context [decode_array ?n ?t ?old ?v] => destruct (decode_array n t old v)
    | |- context [decode_uint8 ?n ?t ?old ?v] => destruct (decode_uint8 n t old v)
    | _ => idtac
    end; intros [= <- <-]; cbn [EventType Reason OperatorID Source PreviousState NewState EvSigningKeyID];
    cbn [fst] in *; split_and!; first [assumption|lia].
Qed.

Lemma decode_members_ok ms : forall ev saved ev' err,
  decoded_ok ev -> decode_members ms ev saved = Ok (ev', err) -> decoded_ok ev'.
Proof.
  induction ms as [|[key v] ms IH]; intros ev saved ev' err Hok; cbn [decode_members].
  { intros [= <- _]. exact Hok. }
  destruct (key_field key) as [f|]; [|by apply IH].
  destruct (decode_field f ev v) as [[ev1 e1]|e] eqn:Ef; [|done]. cbn [result_bind].
  apply IH. exact (decode_field_ok _ _ _ _ _ Hok Ef).
Qed.

Lemma Unmarshal_event_ok data e : Unmarshal_event data = Ok e -> decoded_ok e.
Proof.
  assert (decoded_ok zero_event) as Hz by (split; [split|]; vm_compute; auto; split; discriminate || reflexivity).
  unfold Unmarshal_event. destruct (parse data) as [[| | | | |ms]|]; try done; [by intros [= <-]|].
  destruct (decode_members ms zero_event None) as [[ev [err|]]|err] eqn:Em; try done.
  intros [= <-]. exact (decode_members_ok _ _ _ _ _ Hz Em).
Qed.

(** The events that survive: well-typed, of valid UTF-8 strings, 64 MiB in all
    at most, in a year the format can hold. *)
Definition event_ok (e : RevocationEvent) : Prop :=
  event_typed e /\ 0 <= time_year (EvCreatedAt e) <= 9999 /\ utf8_event e = true /\
  Z.of_nat (string_bytes e) <= 2 ^ 26.

Lemma Marshal_event_ok e :
  0 <= time_year (EvCreatedAt e) <= 9999 ->
  Marshal_event e = Ok (print (event_json e (format_time (EvCreatedAt e)))).
Proof.
  intros Hy. unfold Marshal_event, time_MarshalJSON.
  by rewrite (proj2 (Z.leb_le _ _)), (proj2 (Z.leb_le _ _)) by lia.
Qed.

(** What the ledger asks of its codec: an event it can encode ([json_ok]) has a
    nonempty payload of less than 4 GiB, and decoding the payload gives the event
    back. *)
Class EventCodec := {
  json_Marshal : RevocationEvent -> result bytes;
  json_Unmarshal : bytes -> result RevocationEvent;
  json_ok : RevocationEvent -> Prop;
  json_Marshal_ok : forall e, json_ok e ->
    exists payload, json_Marshal e = Ok payload /\ payload <> [] /\
                    Z.of_nat (length payload) < 2 ^ 32 /\
                    json_Unmarshal payload = Ok e
}.

(** [encoding/json] keeps the contract. *)
#[program] Definition json_codec : EventCodec := {|
  json_Marshal := Marshal_event;
  json_Unmarshal := Unmarshal_event;
  json_ok := event_ok
|}.
Next Obligation.
  intros e (Ht & Hy & Hu & Hlen). pose proof (Marshal_event_ok e Hy) as Hm.
  eexists. split; [exact Hm|]. split; [done|]. split.
  - pose proof (length_event_json e (EvCreatedAt e)). lia.
  - rewrite (Unmarshal_Marshal_valid _ _ Ht Hm). by rewrite (proj2 (valid_event_id_iff e)).
Qed.

(** ** Round trips as claims, and examples *)

(** C37. An event that is well-typed, with strings of valid UTF-8, 64 MiB in all at
    most, and of a year from 0 to 9999, is encoded to less than 4 GiB, and decoding what
    was encoded gives back the event, to the nanosecond. *)
Theorem event_roundtrip e :
  event_ok e ->
  exists payload, Marshal_event e = Ok payload /\ Z.of_nat (length payload) < 2 ^ 32 /\
                  Unmarshal_event payload = Ok e.
Proof.
  intros He. destruct (@json_Marshal_ok json_codec e He) as (p & Hm & _ & Hl & Hu).
  by exists p.
Qed.

(** A [time.Parse] that accepts nothing more. *)
Definition ex_json_event : RevocationEvent :=
  mkEvent (copy_into 16 [x01]) (copy_into 16 [x11; xff]) EventDeleteRequested 2
    (string_of [x3c; xc3; xa9; x0a]) "rpc" 1700000000123456000 (zero_array 32) "" "deleted"
    (zero_array 64) "key-1".

Lemma ex_json_event_ok : event_ok ex_json_event.
Proof. split_and!; try z_range; vm_compute; intuition discriminate. Qed.

Lemma event_roundtrip_witness :
  exists payload, Marshal_event ex_json_event = Ok payload /\ Z.of_nat (length payload) < 2 ^ 32 /\
                  Unmarshal_event payload = Ok ex_json_event.
Proof. exact (event_roundtrip ex_json_event ex_json_event_ok). Defined.

(** HTML characters and newlines are escaped, other runes are not; trailing zeros
    of the nanoseconds are left out. *)
Example ex_json_string : print (json_string (OperatorID ex_json_event))
  = x22 :: bytes_of "\u003c" ++ [xc3; xa9] ++ bytes_of "\n" ++ [x22].
Proof. vm_compute. reflexivity. Qed.

Example ex_json_time : time_MarshalJSON (EvCreatedAt ex_json_event) = Ok (bytes_of "2023-11-14T22:13:20.123456Z").
Proof. vm_compute. reflexivity. Qed.

(** Keys fold, null and unknown members are skipped, a short array is padded. *)
Definition with_quotes (s : string) : bytes :=
  map (fun b => if Byte.eqb b x27 then x22 else b) (bytes_of s).

Example ex_decode_lenient :
  Unmarshal_event (with_quotes
    " { 'eventid' : [7, 8], 'nope': {'a':[1,-2.5e3,true]}, 'Reason':null, 'SOURCE':'\u00e9\ud83d\ude00' } ")
  = Ok (mkEvent (copy_into 16 [x07; x08]) (zero_array 16) 0 0 ""
          (string_of [xc3; xa9; xf0; x9f; x98; x80]) zero_time (zero_array 32) "" "" (zero_array 64) "").
Proof. vm_compute. reflexivity. Qed.

Example ex_decode_overflow :
  Unmarshal_event (with_quotes "{'EventType':256,'Reason':'x'}")
  = Err (type_error "number 256" "EventType" "quarantine.EventType").
Proof. vm_compute. reflexivity. Qed.

Example ex_decode_offset :
  parseRFC3339 (bytes_of "2023-11-15T00:13:20.5+02:00") = Some 1700000000500000000.
Proof. vm_compute. reflexivity. Qed.
