(* ===== verification/Persistence.v ===== *)
(** * The durable ledger ([pkg/quarantine/persistence.go])

    A write-ahead log of records
    [length uint32 | magic uint16 | JSON payload | SHA-256(length+magic+payload)].
    [AppendEvent] issues four writes and a sync, each of which the operating
    system may fail or cut short; [replayFrom] parses the log from byte zero.
    The JSON encoding of an event is used through the interface
    [EventJson.EventCodec], which [EventJson.json_codec] implements. *)
From S2P Require Import Prelude Sha256 Evaluate Quarantine Json GoTime EventJson Monitor.

Definition LogMagicNumber : Z := 22093.     (* 0x564D *)
Definition ErrPersistenceCorruptionPrefix : string := "PERSISTENCE_CORRUPTION".
Definition ErrSecurityAlertPrefix : string := "SECURITY_ALERT".

(** What [recordChecksum] hashes. *)
Definition record_message (length magic : Z) (payload : bytes) : bytes :=
  be_bytes 4 length ++ be_bytes 2 magic ++ payload.

Definition recordChecksum (length magic : Z) (payload : bytes) : array 32 :=
  Sum256 (record_message length magic payload).

(** ** Writing *)

(** A [FileLedger]: the contents of its file, [None] once closed. *)
Record FileLedger := mkFileLedger { file : option bytes; path : string }.

(** The fate of one system call: it succeeds, or it fails after [n] bytes. *)
Inductive io_outcome :=
| IoOk
| IoFail (n : nat) (e : error).

(** [f.Write(data)] on a file opened with [O_APPEND]. *)
Definition os_write (o : io_outcome) (contents data : bytes) : bytes * option error :=
  match o with
  | IoOk => (contents ++ data, None)
  | IoFail n e => (contents ++ take n data, Some e)
  end.

(** Writes in sequence, stopping at the first error; [io i] is the fate of the
    [i]-th system call. *)
Fixpoint os_writes (io : nat -> io_outcome) (i : nat) (contents : bytes)
    (chunks : list bytes) : bytes * option error :=
  match chunks with
  | [] =>
      match io i with                       (* file.Sync() *)
      | IoOk => (contents, None)
      | IoFail _ e => (contents, Some e)
      end
  | chunk :: rest =>
      match os_write (io i) contents chunk with
      | (contents', None) => os_writes io (S i) contents' rest
      | (contents', Some e) => (contents', Some e)
      end
  end.

(** [NewFileLedger(path)]: opening the file fails, or gives its contents. *)
Definition NewFileLedger (opened : result bytes) (path : string) : result FileLedger :=
  let! contents := opened in Ok (mkFileLedger (Some contents) path).

(** [close_err] is what closing the file returns. *)
Definition Close (l : FileLedger) (close_err : option error) : FileLedger * option error :=
  match file l with
  | None => (l, None)
  | Some _ => (mkFileLedger None (path l), close_err)
  end.

Section ledger.
Context `{EventCodec}.

(** The pieces [AppendEvent] writes for a payload. *)
Definition record_chunks (payload : bytes) : list bytes :=
  let len := u32 (Z.of_nat (length payload)) in
  [ be_bytes 4 len; be_bytes 2 LogMagicNumber; payload;
    vec_to_list (recordChecksum len LogMagicNumber payload) ].

Definition AppendEvent (l : FileLedger) (io : nat -> io_outcome) (event : RevocationEvent)
    : FileLedger * option error :=
  match file l with
  | None => (l, Some (errors_New "PERSISTENCE_CLOSED: file ledger is closed"))
  | Some contents =>
      match json_Marshal event with
      | Err e => (l, Some e)
      | Ok payload =>
          if (length payload =? 0)%nat then
            (l, Some (errors_New "INVALID_LEDGER_EVENT: empty payload"))
          else if 4294967295 <? Z.of_nat (length payload) then
            (l, Some (errors_New "INVALID_LEDGER_EVENT: payload exceeds uint32 length"))
          else
            let (contents', err) := os_writes io 0 contents (record_chunks payload) in
            (mkFileLedger (Some contents') (path l), err)
      end
  end.

(** ** Replay *)

(** A file being read: the bytes up to its end, or up to where reading fails. *)
Record open_file := mkOpenFile {
  seek_err : option error;   (* what [Seek] returns *)
  readable : bytes;
  read_err : option error    (* what a read gives past the readable bytes; [None]: the end *)
}.

(** [io.ReadFull] (and [binary.Read]) of [n] bytes: [io.EOF] when nothing is
    left, [io.ErrUnexpectedEOF] when too little is, or the error of the read. *)
Inductive read_result :=
| ReadOk (data rest : bytes)
| ReadEOF
| ReadUnexpectedEOF
| ReadFailed (e : error).

Definition ReadFull (fault : option error) (n : nat) (bs : bytes) : read_result :=
  if (n <=? length bs)%nat then ReadOk (take n bs) (drop n bs)
  else match fault with
       | Some e => ReadFailed e
       | None => match bs with [] => ReadEOF | _ => ReadUnexpectedEOF end
       end.

Definition corruption (msg : string) : error :=
  errors_New (ErrPersistenceCorruptionPrefix +:+ msg).

(** One turn of the loop of [replayFrom]: the end of the log, an error, or a
    record and the rest of the log. *)
Inductive record_result :=
| EndOfLog
| BadRecord (e : error)
| GoodRecord (event : RevocationEvent) (rest : bytes).

Definition read_record (fault : option error) (bs : bytes) : record_result :=
  let length_error text := BadRecord (mkError (ErrPersistenceCorruptionPrefix +:+
    ": failed reading record length: " +:+ text) WrapError) in
  match ReadFull fault 4 bs with
  | ReadEOF => EndOfLog
  | ReadUnexpectedEOF => length_error "unexpected EOF"
  | ReadFailed e => length_error (error_text e)
  | ReadOk lenBytes bs1 =>
      let len := be_value lenBytes in
      if len =? 0 then BadRecord (corruption ": zero-length log packet") else
      match ReadFull fault 2 bs1 with
      | ReadOk magicBytes bs2 =>
          if negb (be_value magicBytes =? LogMagicNumber) then
            BadRecord (corruption ": invalid log packet initialization signature") else
          match ReadFull fault (Z.to_nat len) bs2 with
          | ReadOk payload bs3 =>
              match ReadFull fault 32 bs3 with
              | ReadOk checksumBytes rest =>
                  let expected := recordChecksum len LogMagicNumber payload in
                  if bool_decide (expected <> copy_into 32 checksumBytes) then
                    BadRecord (errors_New (ErrSecurityAlertPrefix +:+
                      ": cryptographic record tampering detected during log parsing"))
                  else match json_Unmarshal payload with
                       | Err e => BadRecord e
                       | Ok event => GoodRecord event rest
                       end
              | _ => BadRecord (corruption ": truncated validation signature segment")
              end
          | _ => BadRecord (corruption ": truncated or partial write encountered mid-stream")
          end
      | _ => BadRecord (corruption ": missing log packet boundary magic")
      end
  end.

(** The loop, with the log still to read.  A record takes at least 39 bytes, so
    the length of the log plus one is enough fuel ([replay_total]). *)
Fixpoint replay_loop (fault : option error) (fuel : nat) (bs : bytes) (events : list RevocationEvent)
    : option (result (list RevocationEvent)) :=
  match fuel with
  | O => None
  | S fuel' =>
      match read_record fault bs with
      | EndOfLog => Some (Ok events)
      | BadRecord e => Some (Err e)
      | GoodRecord event rest => replay_loop fault fuel' rest (events ++ [event])
      end
  end.

(** [replayFrom(f)]. *)
Definition replayFrom_file (f : open_file) : result (list RevocationEvent) :=
  match seek_err f with
  | Some e => Err e
  | None =>
      match replay_loop (read_err f) (S (length (readable f))) (readable f) [] with
      | Some r => r
      | None => Err (errors_New "unreachable")
      end
  end.

(** Of a file that can be read to its end. *)
Definition replayFrom (bs : bytes) : result (list RevocationEvent) :=
  replayFrom_file (mkOpenFile None bs None).

Definition ReplayGenesis (l : FileLedger) : result (list RevocationEvent) :=
  match file l with
  | None => Err (errors_New "PERSISTENCE_CLOSED: file ledger is closed")
  | Some contents => replayFrom contents
  end.

(** [ReplayFile(path)]: opening the file fails, or gives its contents. *)
Definition ReplayFile (opened : result bytes) : result (list RevocationEvent) :=
  result_bind opened replayFrom.

Definition RecoverMonitorFromFile `{SliceSort, MapRange} (opened : result bytes)
    (version now : Z) : result (RuntimeMonitor * RuntimeSnapshot) :=
  match ReplayFile opened with
  | Err e => Err e
  | Ok events =>
      let monitor := foldl Monitor.AppendEvent (NewRuntimeMonitor now) events in
      let snap := CompileSnapshot events version now in
      Ok (SwapActiveSnapshot monitor (Some snap), snap)
  end.

(** ** Parsing facts *)

(** The bytes of one record. *)
Definition frame (payload : bytes) : bytes := concat (record_chunks payload).

Lemma ReadFull_app n data rest : length data = n -> ReadFull None n (data ++ rest) = ReadOk data rest.
Proof.
  intros <-. unfold ReadFull. rewrite length_app, (proj2 (Nat.leb_le _ _)) by lia.
  by rewrite take_app_length, drop_app_length.
Qed.

Lemma ReadFull_ok n bs data rest :
  ReadFull None n bs = ReadOk data rest -> bs = data ++ rest /\ length data = n.
Proof.
  unfold ReadFull. destruct (Nat.leb_spec n (length bs)); [|by destruct bs].
  intros [= <- <-]. split; [by rewrite take_drop|]. rewrite length_take. lia.
Qed.

Lemma ReadFull_short n bs :
  (length bs < n)%nat -> bs <> [] -> ReadFull None n bs = ReadUnexpectedEOF.
Proof.
  intros Hlt Hne. unfold ReadFull. rewrite (proj2 (Nat.leb_gt _ _)) by done. by destruct bs.
Qed.

Definition payload_ok (payload : bytes) : Prop :=
  payload <> [] /\ Z.of_nat (length payload) < 2 ^ 32.

Lemma payload_length payload :
  payload_ok payload -> u32 (Z.of_nat (length payload)) = Z.of_nat (length payload) /\
                        0 < Z.of_nat (length payload) < 2 ^ 32.
Proof.
  intros [Hne Hlt]. unfold u32. rewrite Z.mod_small by lia.
  destruct payload; [done|]. cbn [length] in *. lia.
Qed.

Lemma frame_unfold payload :
  payload_ok payload ->
  frame payload = be_bytes 4 (Z.of_nat (length payload)) ++ be_bytes 2 LogMagicNumber ++ payload ++
                  vec_to_list (recordChecksum (Z.of_nat (length payload)) LogMagicNumber payload).
Proof.
  intros Hp. destruct (payload_length payload Hp) as [E _].
  unfold frame, record_chunks. rewrite E. cbn -[be_bytes]. by rewrite app_nil_r.
Qed.

(** A frame is read back as its payload. *)
Lemma read_record_frame payload rest :
  payload_ok payload ->
  read_record None (frame payload ++ rest) =
    match json_Unmarshal payload with
    | Err e => BadRecord e
    | Ok event => GoodRecord event rest
    end.
Proof.
  intros Hp. rewrite frame_unfold, <-!app_assoc by done.
  destruct (payload_length payload Hp) as [_ Hlen]. unfold read_record.
  rewrite ReadFull_app by apply length_be_bytes.
  rewrite be_value_small by (simpl; lia).
  rewrite (proj2 (Z.eqb_neq _ _)) by lia.
  rewrite ReadFull_app by apply length_be_bytes.
  rewrite be_value_small by z_range. rewrite Z.eqb_refl. cbn [negb].
  rewrite ReadFull_app by lia. rewrite ReadFull_app by apply length_vec_to_list.
  rewrite copy_into_vec, bool_decide_false by (intros Hn; by apply Hn).
  done.
Qed.

(** Conversely, a record that is read is the frame of its payload. *)
Lemma read_record_good bs event rest :
  read_record None bs = GoodRecord event rest ->
  exists payload, payload_ok payload /\ bs = frame payload ++ rest /\
                  json_Unmarshal payload = Ok event.
Proof.
  unfold read_record. intros E.
  destruct (ReadFull None 4 bs) as [lenB bs1| | |] eqn:E4; try done.
  apply ReadFull_ok in E4 as [-> L4].
  destruct (Z.eqb_spec (be_value lenB) 0) as [|Hnz]; [done|].
  destruct (ReadFull None 2 bs1) as [magB bs2| | |] eqn:E2; try done.
  apply ReadFull_ok in E2 as [-> L2].
  destruct (Z.eqb_spec (be_value magB) LogMagicNumber) as [Hm|]; [|done]. cbn [negb] in E.
  destruct (ReadFull None _ bs2) as [payload bs3| | |] eqn:Ep; try done.
  apply ReadFull_ok in Ep as [-> Lp].
  destruct (ReadFull None 32 bs3) as [ckB rest'| | |] eqn:Ec; try done.
  apply ReadFull_ok in Ec as [-> Lc].
  case_bool_decide as Hck; [done|].
  destruct (json_Unmarshal payload) as [ev|] eqn:Ej; [|done]. injection E as -> ->.
  pose proof (be_value_range lenB) as Hr. rewrite L4 in Hr. simpl in Hr.
  assert (Z.of_nat (length payload) = be_value lenB) as Hlen by lia.
  assert (payload_ok payload) as Hp.
  { split; [|change (2 ^ 32) with (256 ^ 4) in *; lia]. intros ->. simpl in Hlen. lia. }
  exists payload. split; [done|]. split; [|done].
  rewrite frame_unfold, Hlen, Hck, vec_to_list_copy_into by done.
  rewrite <-Hm, (be_bytes_be_value 4), (be_bytes_be_value 2) by done.
  by rewrite <-!app_assoc.
Qed.

Lemma frame_length payload :
  payload_ok payload -> length (frame payload) = (38 + length payload)%nat.
Proof.
  intros Hp. rewrite frame_unfold by done.
  rewrite !length_app, !length_be_bytes, length_vec_to_list. lia.
Qed.

Lemma read_record_good_shrinks bs event rest :
  read_record None bs = GoodRecord event rest -> (length rest < length bs)%nat.
Proof.
  intros (payload & Hp & -> & _)%read_record_good.
  rewrite length_app, frame_length by done. lia.
Qed.

Lemma read_record_end bs : read_record None bs = EndOfLog <-> bs = [].
Proof.
  split; [|by intros ->]. unfold read_record, ReadFull at 1.
  destruct (4 <=? length bs)%nat; [|by destruct bs].
  intros E. repeat case_match; done.
Qed.

(** Any fuel above the length of the log gives the same answer. *)
Lemma replay_loop_fuel fuel fuel' bs events :
  (length bs < fuel)%nat -> (length bs < fuel')%nat ->
  replay_loop None fuel bs events = replay_loop None fuel' bs events.
Proof.
  revert fuel' bs events.
  induction fuel as [|fuel IH]; intros [|fuel'] bs events Hf Hf'; try lia.
  cbn [replay_loop]. destruct (read_record None bs) as [| |ev rest] eqn:E; try done.
  apply read_record_good_shrinks in E. apply IH; lia.
Qed.

(** The loop with the fuel [replayFrom] gives it. *)
Definition replay (bs : bytes) (events : list RevocationEvent) :=
  replay_loop None (S (length bs)) bs events.

Lemma replay_unfold bs events :
  replay bs events =
    match read_record None bs with
    | EndOfLog => Some (Ok events)
    | BadRecord e => Some (Err e)
    | GoodRecord event rest => replay rest (events ++ [event])
    end.
Proof.
  unfold replay at 1. cbn [replay_loop].
  destruct (read_record None bs) as [| |ev rest] eqn:E; try done.
  apply read_record_good_shrinks in E. apply replay_loop_fuel; lia.
Qed.

Lemma replay_total bs events : exists r, replay bs events = Some r.
Proof.
  remember (length bs) as n eqn:Hn. revert bs events Hn.
  induction n as [n IH] using lt_wf_ind. intros bs events ->. rewrite replay_unfold.
  destruct (read_record None bs) as [|e|ev rest] eqn:E; [by eexists|by eexists|].
  apply read_record_good_shrinks in E. by eapply IH.
Qed.

Lemma replayFrom_iff bs r : replayFrom bs = r <-> replay bs [] = Some r.
Proof.
  unfold replayFrom, replayFrom_file, replay. cbn [seek_err read_err readable]. destruct (replay_total bs []) as [r' E]. unfold replay in E.
  rewrite E. split; congruence.
Qed.

(** The log of a sequence of payloads. *)
Definition log_of (payloads : list bytes) : bytes := concat (frame <$> payloads).

(** The payloads decode to the events, one by one. *)
Definition decodes_to (payloads : list bytes) (events : list RevocationEvent) : Prop :=
  Forall payload_ok payloads /\ Forall2 (fun p e => json_Unmarshal p = Ok e) payloads events.

(** Whole records are consumed in order, whatever follows them. *)
Lemma replay_log payloads evs tail events :
  decodes_to payloads evs ->
  replay (log_of payloads ++ tail) events = replay tail (events ++ evs).
Proof.
  intros [Hok Hd]. revert events Hok. induction Hd as [|p e ps evs Hp Hd IH]; intros events Hok.
  { by rewrite app_nil_r. }
  apply Forall_cons in Hok as [Hpo Hok]. unfold log_of. cbn [fmap list_fmap concat].
  rewrite <-app_assoc, replay_unfold, read_record_frame, Hp by done.
  fold (log_of ps). rewrite IH by done. by rewrite <-app_assoc.
Qed.

Lemma replay_sound bs events out :
  replay bs events = Some (Ok out) ->
  exists payloads evs, decodes_to payloads evs /\ bs = log_of payloads /\ out = events ++ evs.
Proof.
  remember (length bs) as n eqn:Hn. revert bs events Hn.
  induction n as [n IH] using lt_wf_ind. intros bs events -> E. rewrite replay_unfold in E.
  destruct (read_record None bs) as [|e|ev rest] eqn:Er; [|done|].
  - injection E as <-. apply read_record_end in Er as ->. exists [], [].
    split; [by split|]. by rewrite app_nil_r.
  - pose proof (read_record_good_shrinks _ _ _ Er) as Hlt.
    apply read_record_good in Er as (p & Hp & -> & Hj).
    destruct (IH _ Hlt rest (events ++ [ev]) eq_refl E) as (ps & evs & [Hok Hd] & -> & ->).
    exists (p :: ps), (ev :: evs). split; [split; by constructor|].
    split; [done|]. by rewrite <-app_assoc.
Qed.

Lemma replayFrom_log payloads evs : decodes_to payloads evs -> replayFrom (log_of payloads) = Ok evs.
Proof.
  intros Hd. apply replayFrom_iff. rewrite <-(app_nil_r (log_of payloads)), (replay_log _ evs) by done.
  by rewrite replay_unfold.
Qed.

Lemma replayFrom_sound bs evs :
  replayFrom bs = Ok evs -> exists payloads, decodes_to payloads evs /\ bs = log_of payloads.
Proof.
  rewrite replayFrom_iff. intros (ps & evs' & Hd & -> & ->)%replay_sound. by exists ps.
Qed.

(** Events are only ever returned from a file that was read to its end. *)
Lemma replay_loop_fault fault fuel bs events out :
  replay_loop fault fuel bs events = Some (Ok out) -> fault = None.
Proof.
  destruct fault as [e|]; [|done]. revert bs events. induction fuel as [|fuel IH]; intros bs events; [done|].
  cbn [replay_loop]. destruct (read_record (Some e) bs) as [|e'|event rest] eqn:E; [|done|apply IH].
  unfold read_record, ReadFull at 1 in E. destruct (4 <=? length bs)%nat; [|done].
  repeat case_match; done.
Qed.

(** A log that cannot be read, or not to its end, gives no events: replay answers
    with an error, and never with those that come before the fault. *)
Lemma unread_log_is_refused f evs :
  replayFrom_file f = Ok evs ->
  seek_err f = None /\ read_err f = None /\ replayFrom (readable f) = Ok evs.
Proof.
  destruct f as [seek bs fault]. unfold replayFrom_file. cbn [seek_err read_err readable].
  destruct seek as [e|]; [done|]. destruct (replay_loop _ _ _ _) as [r|] eqn:E; [|done]. intros ->.
  pose proof (replay_loop_fault _ _ _ _ _ E) as ->. do 2 (split; [done|]).
  unfold replayFrom, replayFrom_file. cbn [seek_err read_err readable]. by rewrite E.
Qed.

(** C8. Replay terminates with an answer on every log, and accepts exactly the
    well-formed logs: it returns events if and only if the log is a sequence of
    whole records (length, magic, payload, matching checksum) whose payloads
    decode to these events in order.  A file on which seeking or reading fails gives
    no events, not even those before the fault. *)
Theorem replayFrom_accepts_iff bs evs :
  (exists r, replay bs [] = Some r) /\
  (replayFrom bs = Ok evs <-> exists payloads, decodes_to payloads evs /\ bs = log_of payloads) /\
  forall f, replayFrom_file f = Ok evs ->
    seek_err f = None /\ read_err f = None /\ replayFrom (readable f) = Ok evs.
Proof.
  split; [apply replay_total|]. split; [|intros f; apply unread_log_is_refused].
  split; [apply replayFrom_sound|]. intros (ps & Hd & ->). by apply replayFrom_log.
Qed.

(** ** Appending *)

Lemma log_of_app ps1 ps2 : log_of (ps1 ++ ps2) = log_of ps1 ++ log_of ps2.
Proof. unfold log_of. by rewrite fmap_app, concat_app. Qed.

Lemma os_writes_outcome io i contents chunks contents' err :
  os_writes io i contents chunks = (contents', err) ->
  exists n, contents' = contents ++ take n (concat chunks) /\
            (err = None -> (length (concat chunks) <= n)%nat).
Proof.
  revert i contents. induction chunks as [|c chunks IH]; intros i contents; cbn [os_writes].
  { exists 0%nat. destruct (io i); simplify_eq/=; rewrite app_nil_r; auto. }
  destruct (io i) as [|n e]; cbn [os_write].
  - intros (n & -> & Hn)%IH. exists (length c + n)%nat. cbn [concat].
    rewrite take_app_add, <-app_assoc. split; [done|]. intros He%Hn. rewrite length_app. lia.
  - intros [= <- <-]. exists (n `min` length c)%nat. split; [|done]. f_equal. cbn [concat].
    rewrite take_app_le by lia.
    destruct (decide (n <= length c)%nat); [by rewrite Nat.min_l|].
    by rewrite Nat.min_r, !take_ge by lia.
Qed.

Definition is_corruption (e : error) : Prop :=
  exists msg, error_text e = ErrPersistenceCorruptionPrefix +:+ msg.

Lemma corruption_is msg : is_corruption (corruption msg).
Proof. by exists msg. Qed.

Lemma ReadFull_take k n (data rest : bytes) :
  length data = k -> (k <= n)%nat -> ReadFull None k (take n (data ++ rest)) = ReadOk data (take (n - k) rest).
Proof.
  intros <- Hn. rewrite take_app_ge by lia. by apply ReadFull_app.
Qed.

Lemma ReadFull_take_short k n (data rest : bytes) :
  length data = k -> (n < k)%nat ->
  ReadFull None k (take n (data ++ rest)) = ReadEOF \/ ReadFull None k (take n (data ++ rest)) = ReadUnexpectedEOF.
Proof.
  intros <- Hn. unfold ReadFull.
  rewrite (proj2 (Nat.leb_gt _ _)) by (rewrite length_take; lia).
  destruct (take n _); auto.
Qed.

(** A record cut anywhere is detected. *)
Lemma torn_record payload n :
  payload_ok payload -> (0 < n < length (frame payload))%nat ->
  exists e, read_record None (take n (frame payload)) = BadRecord e /\ is_corruption e.
Proof.
  intros Hp Hn. rewrite frame_length in Hn by done. rewrite frame_unfold by done.
  destruct (payload_length payload Hp) as [_ Hlen]. unfold read_record.
  destruct (decide (n < 4)%nat) as [H4|H4].
  { rewrite ReadFull_short.
    - eexists. split; [reflexivity|by eexists].
    - rewrite length_take. lia.
    - intros E%(f_equal length). rewrite length_take, length_app, length_be_bytes in E. simpl in E. lia. }
  rewrite ReadFull_take; [|apply length_be_bytes|lia].
  rewrite be_value_small, (proj2 (Z.eqb_neq _ _)) by (simpl; lia).
  destruct (decide (n - 4 < 2)%nat) as [H2|H2].
  { eexists. split; [|apply corruption_is].
    destruct (ReadFull_take_short 2 (n - 4) (be_bytes 2 LogMagicNumber) (payload ++
      vec_to_list (recordChecksum (Z.of_nat (length payload)) LogMagicNumber payload))
      (length_be_bytes _ _) H2) as [-> | ->]; reflexivity. }
  rewrite ReadFull_take; [|apply length_be_bytes|lia].
  rewrite be_value_small, Z.eqb_refl by z_range. cbn [negb].
  destruct (decide (n - 4 - 2 < length payload)%nat) as [Hs|Hs].
  { rewrite Nat2Z.id. eexists. split; [|apply corruption_is].
    destruct (ReadFull_take_short (length payload) (n - 4 - 2) payload
      (recordChecksum (Z.of_nat (length payload)) LogMagicNumber payload) eq_refl Hs)
      as [-> | ->]; reflexivity. }
  rewrite Nat2Z.id, ReadFull_take; [|done|lia].
  eexists. split; [|apply corruption_is].
  pose proof (ReadFull_take_short 32 (n - 4 - 2 - length payload)
    (recordChecksum (Z.of_nat (length payload)) LogMagicNumber payload) []
    (length_vec_to_list _) ltac:(lia)) as Hs2.
  rewrite app_nil_r in Hs2. destruct Hs2 as [-> | ->]; reflexivity.
Qed.

(** What a log holds after one append: all of the old log, and a prefix of the
    record that is the whole record when the append succeeded. *)
Lemma AppendEvent_outcome l io event contents payload l' err :
  file l = Some contents -> json_Marshal event = Ok payload -> payload_ok payload ->
  AppendEvent l io event = (l', err) ->
  exists n, file l' = Some (contents ++ take n (frame payload)) /\
            (err = None -> take n (frame payload) = frame payload).
Proof.
  intros Hf Hm Hp. unfold AppendEvent. rewrite Hf, Hm.
  destruct (payload_length payload Hp) as [_ Hlen].
  destruct (Nat.eqb_spec (length payload) 0) as [|_]; [lia|].
  destruct (Z.ltb_spec 4294967295 (Z.of_nat (length payload))) as [Hb|_].
  { change (2 ^ 32) with 4294967296 in Hlen. lia. }
  destruct (os_writes _ _ _ _) as [contents' err'] eqn:E. intros [= <- <-].
  destruct (os_writes_outcome _ _ _ _ _ _ E) as (n & -> & Hn).
  exists n. split; [done|]. intros Hno. apply take_ge. by apply Hn.
Qed.

Lemma AppendEvent_ok l contents event payload :
  file l = Some contents -> json_Marshal event = Ok payload -> payload_ok payload ->
  AppendEvent l (fun _ => IoOk) event
  = (mkFileLedger (Some (contents ++ frame payload)) (path l), None).
Proof.
  intros Hf Hm Hp. unfold AppendEvent. rewrite Hf, Hm.
  destruct (payload_length payload Hp) as [_ Hlen].
  destruct (Nat.eqb_spec (length payload) 0) as [|_]; [lia|].
  destruct (Z.ltb_spec 4294967295 (Z.of_nat (length payload))) as [Hb|_].
  { change (2 ^ 32) with 4294967296 in Hlen. lia. }
  unfold frame, record_chunks. cbn -[be_bytes]. by rewrite !app_assoc, app_nil_r.
Qed.

Lemma json_ok_payload event :
  json_ok event -> exists payload, json_Marshal event = Ok payload /\ payload_ok payload /\
                                   json_Unmarshal payload = Ok event.
Proof.
  intros Hj. destruct (json_Marshal_ok event Hj) as (p & Hm & Hne & Hlt & Hu).
  exists p. split; [done|]. by split.
Qed.

Lemma replay_torn payload n events :
  payload_ok payload -> (0 < n < length (frame payload))%nat ->
  exists e, replay (take n (frame payload)) events = Some (Err e) /\ is_corruption e.
Proof.
  intros Hp Hn. destruct (torn_record payload n Hp Hn) as (e & E & Hc).
  exists e. split; [|done]. by rewrite replay_unfold, E.
Qed.

Lemma replayFrom_snoc ps evs p event :
  decodes_to ps evs -> payload_ok p -> json_Unmarshal p = Ok event ->
  replayFrom (log_of ps ++ frame p) = Ok (evs ++ [event]).
Proof.
  intros [Ho Hd] Hp Hu.
  replace (frame p) with (log_of [p]) by (unfold log_of; simpl; by rewrite app_nil_r).
  rewrite <-log_of_app. apply replayFrom_log. split.
  - apply Forall_app. split; [done|]. by apply Forall_singleton.
  - apply Forall2_app; [done|]. by constructor.
Qed.

(** A successful append extends what the log replays to. *)
Lemma append_ok_replays l io event contents evs l' :
  file l = Some contents -> replayFrom contents = Ok evs -> json_ok event ->
  AppendEvent l io event = (l', None) -> ReplayGenesis l' = Ok (evs ++ [event]).
Proof.
  intros Hf (ps & Hd & ->)%replayFrom_sound Hj E.
  destruct (json_ok_payload event Hj) as (p & Hm & Hp & Hu).
  destruct (AppendEvent_outcome _ _ _ _ _ _ _ Hf Hm Hp E) as (n & Hf' & Hn).
  unfold ReplayGenesis. rewrite Hf', Hn by done. by apply replayFrom_snoc.
Qed.

(** Whatever the operating system does, an append leaves a log that replays to the old
    events, to these and the new one, or that is rejected. *)
Lemma append_replays_or_rejected l io event contents evs :
  file l = Some contents -> replayFrom contents = Ok evs -> json_ok event ->
  exists contents', file (AppendEvent l io event).1 = Some contents' /\
    (replayFrom contents' = Ok evs \/ replayFrom contents' = Ok (evs ++ [event]) \/
     exists e, replayFrom contents' = Err e /\ is_corruption e).
Proof.
  intros Hf (ps & Hd & ->)%replayFrom_sound Hj. destruct (AppendEvent l io event) as [l' err] eqn:E.
  destruct (json_ok_payload event Hj) as (p & Hm & Hp & Hu).
  destruct (AppendEvent_outcome _ _ _ _ _ _ _ Hf Hm Hp E) as (n & Hf' & _).
  exists (log_of ps ++ take n (frame p)). split; [exact Hf'|].
  destruct (decide (n = 0)%nat) as [->|Hn0].
  { left. rewrite app_nil_r. by apply replayFrom_log. }
  destruct (decide (n < length (frame p))%nat) as [Hlt|Hge]; right.
  - right. destruct (replay_torn p n evs Hp ltac:(lia)) as (e & He & Hc).
    exists e. split; [|done]. apply replayFrom_iff. by rewrite (replay_log ps evs).
  - left. rewrite take_ge by lia. by apply replayFrom_snoc.
Qed.

(** Whatever happens, an append only adds to the log; one that returns nil adds
    something. *)
Lemma AppendEvent_extends l io event contents :
  file l = Some contents ->
  exists rest, file (AppendEvent l io event).1 = Some (contents ++ rest) /\
    ((AppendEvent l io event).2 = None -> rest <> []).
Proof.
  intros Hf. unfold AppendEvent. rewrite Hf.
  assert (forall e, exists rest : bytes, file l = Some (contents ++ rest) /\ (Some e = None :> option error -> rest <> [])) as Hsame
    by (intros e; exists []; by rewrite app_nil_r).
  destruct (json_Marshal event) as [p|e]; [|apply (Hsame e)].
  destruct (Nat.eqb_spec (length p) 0) as [|Hp]; [apply Hsame|].
  destruct (4294967295 <? _); [apply Hsame|].
  destruct (os_writes _ _ _ _) as [contents' err] eqn:E.
  destruct (os_writes_outcome _ _ _ _ _ _ E) as (n & -> & Hn).
  exists (take n (concat (record_chunks p))). split; [done|]. cbn [snd]. intros Hno. rewrite take_ge by auto.
  unfold record_chunks. cbn -[be_bytes]. intros E0%(f_equal length). rewrite length_app, length_be_bytes in E0.
  simpl in E0. lia.
Qed.

(** What follows a log that replays is replayed after it, or not at all. *)
Lemma replay_extends c evs rest evs' :
  replayFrom c = Ok evs -> replayFrom (c ++ rest) = Ok evs' ->
  exists more, evs' = evs ++ more /\ (rest <> [] -> more <> []).
Proof.
  intros (ps & Hd & ->)%replayFrom_sound Hr. apply replayFrom_iff in Hr.
  rewrite (replay_log ps evs) in Hr by done. cbn [app] in Hr.
  apply replay_sound in Hr as (ps' & more & [_ Hd'] & -> & ->). exists more. split; [done|].
  intros Hne ->. apply Forall2_nil_inv_r in Hd' as ->. by destruct Hne.
Qed.

(** C4. Write-ahead append, whatever the operating system does to its writes:
    on a log that replays to [evs], and for an event the codec decodes back
    ([json_ok]; for [encoding/json]: well-typed, of a year from 0 to 9999, with
    strings of valid UTF-8 and 64 MiB in all at most), an append that returns nil leaves a
    log that replays to [evs] and the event; one that fails leaves a log that
    replays to [evs], or to [evs] and the event (only the sync failed), or
    that replay rejects as corrupt.  A cut record is never read as an event. *)
Theorem append_then_replay l io event contents evs :
  file l = Some contents -> replayFrom contents = Ok evs -> json_ok event ->
  let (l', err) := AppendEvent l io event in
  (err = None -> ReplayGenesis l' = Ok (evs ++ [event])) /\
  (ReplayGenesis l' = Ok evs \/ ReplayGenesis l' = Ok (evs ++ [event]) \/
   exists e, ReplayGenesis l' = Err e /\ is_corruption e).
Proof.
  intros Hf Hr Hj. pose proof (append_replays_or_rejected l io event contents evs Hf Hr Hj) as (c' & Hf' & Hcases).
  destruct (AppendEvent l io event) as [l' err] eqn:E.
  split; [intros ->; by apply (append_ok_replays l io event contents)|]. cbn [fst] in Hf'. unfold ReplayGenesis. rewrite Hf'. exact Hcases.
Qed.

(** ** A torn record poisons later appends *)

Lemma be_bytes_4_small z :
  0 <= z < 2 ^ 16 ->
  be_bytes 4 z = [x00; x00; byte_of_Z (z / 256); byte_of_Z z].
Proof.
  intros Hz. apply be_value_inj; [done|]. rewrite be_value_small by (cbn; lia).
  cbn [be_value length Z.of_nat]. rewrite !byte_to_of_Z.
  change (byte_to_Z x00) with 0. change (2 ^ 16) with 65536 in Hz.
  rewrite (Z.mod_small (z / 256)) by (split; [apply Z.div_pos|apply Z.div_lt_upper_bound]; lia).
  cbn -[Z.div Z.modulo Z.mul]. rewrite (Z.div_mod z 256) at 1 by lia. lia.
Qed.

(** A log whose tail is one zero byte followed by a whole record is rejected:
    the record's length is read one byte late. *)
Lemma stray_byte_rejected payload events :
  payload_ok payload -> Z.of_nat (length payload) < 2 ^ 16 ->
  exists e, replay (x00 :: frame payload) events = Some (Err e) /\ is_corruption e.
Proof.
  intros Hp Hlt. destruct (payload_length payload Hp) as [_ Hlen].
  set (z := Z.of_nat (length payload)) in *.
  rewrite frame_unfold by done. fold z. rewrite (be_bytes_4_small z) by lia.
  set (ck := vec_to_list _). rewrite replay_unfold. unfold read_record.
  change (x00 :: _) with ([x00; x00; x00; byte_of_Z (z / 256)] ++
    ([byte_of_Z z; x56] ++ (x4d :: payload ++ ck))).
  rewrite ReadFull_app by done. cbn zeta.
  destruct (be_value _ =? 0); [eexists; split; [done|apply corruption_is]|].
  rewrite ReadFull_app by done.
  assert ((be_value [byte_of_Z z; x56] =? LogMagicNumber) = false) as ->.
  { apply Z.eqb_neq. cbn [be_value length]. intros E.
    apply (f_equal (fun v => v mod 256)) in E. revert E.
    change (256 ^ Z.of_nat 1) with 256. change (256 ^ Z.of_nat 0) with 1.
    rewrite Z.add_comm, Z_mod_plus_full. vm_compute. discriminate. }
  eexists; split; [done|apply corruption_is].
Qed.

(** Known weakness: a failed append is not rolled back.  When the first
    write of an append is cut after one byte, [AppendEvent] reports the error
    and leaves that byte in the file; the next append, whose four writes and
    sync all succeed and which returns nil, goes after it, and no event of the
    log can be replayed any more. *)
Theorem acknowledged_append_unrecoverable l io e0 event event' contents evs payload payload' :
  file l = Some contents -> replayFrom contents = Ok evs ->
  io 0%nat = IoFail 1 e0 ->
  json_ok event -> json_Marshal event = Ok payload -> Z.of_nat (length payload) < 2 ^ 16 ->
  json_ok event' -> json_Marshal event' = Ok payload' -> Z.of_nat (length payload') < 2 ^ 16 ->
  let (l1, err1) := AppendEvent l io event in
  let (l2, err2) := AppendEvent l1 (fun _ => IoOk) event' in
  err1 = Some e0 /\ err2 = None /\
  exists e, ReplayGenesis l2 = Err e /\ is_corruption e.
Proof.
  intros Hf (ps & Hd & ->)%replayFrom_sound Hio Hj Hm Hs Hj' Hm' Hs'.
  destruct (json_ok_payload event Hj) as (p & Hmp & Hp & _).
  destruct (json_ok_payload event' Hj') as (p' & Hmp' & Hp' & _).
  rewrite Hm in Hmp. injection Hmp as <-. rewrite Hm' in Hmp'. injection Hmp' as <-.
  assert (AppendEvent l io event =
    (mkFileLedger (Some (log_of ps ++ [x00])) (path l), Some e0)) as ->.
  { unfold AppendEvent. rewrite Hf, Hm. destruct (payload_length payload Hp) as [E Hlen].
    destruct (Nat.eqb_spec (length payload) 0) as [|_]; [lia|].
    destruct (Z.ltb_spec 4294967295 (Z.of_nat (length payload))) as [Hb|_].
    { change (2 ^ 16) with 65536 in Hs. lia. }
    unfold record_chunks. rewrite E, be_bytes_4_small by lia.
    cbn [os_writes]. by rewrite Hio. }
  rewrite (AppendEvent_ok _ (log_of ps ++ [x00]) event' payload') by done.
  split; [done|]. split; [done|]. cbn [ReplayGenesis file].
  destruct (stray_byte_rejected payload' evs Hp' Hs') as (e & He & Hc).
  exists e. split; [|done]. apply replayFrom_iff.
  by rewrite <-app_assoc, (replay_log ps evs).
Qed.

(** ** Tampering *)

(** C29. Tampering with a stored payload is detected: overwrite, in a log that
    replays, the payload of any record by different bytes of the same length
    and leave the rest of the file alone.  Replay then stops at that record
    with a security alert, unless the two records are a SHA-256 collision. *)
Theorem payload_tampering_detected before p p' after evs :
  decodes_to before evs -> payload_ok p -> length p' = length p -> p' <> p ->
  let len := Z.of_nat (length p) in
  let tampered := be_bytes 4 len ++ be_bytes 2 LogMagicNumber ++ p' ++
                  vec_to_list (recordChecksum len LogMagicNumber p) in
  replayFrom (log_of before ++ tampered ++ after)
  = Err (errors_New (ErrSecurityAlertPrefix +:+
           ": cryptographic record tampering detected during log parsing")) \/
  collision_among [record_message len LogMagicNumber p; record_message len LogMagicNumber p'].
Proof.
  intros Hd Hp Hl Hne len tampered.
  destruct (decide (recordChecksum len LogMagicNumber p' = recordChecksum len LogMagicNumber p))
    as [E|Hck].
  - right. unfold recordChecksum in E. eapply Sum256_cases in E as [E|Hc]; [|exact Hc|in_list..].
    exfalso. apply Hne. unfold record_message in E. by simplify_list_eq.
  - left. apply replayFrom_iff. rewrite (replay_log before evs), replay_unfold by done.
    destruct (payload_length p Hp) as [_ Hlen]. fold len in Hlen.
    unfold read_record, tampered. rewrite <-!app_assoc, ReadFull_app by apply length_be_bytes.
    rewrite be_value_small, (proj2 (Z.eqb_neq _ _)) by (simpl; lia).
    rewrite ReadFull_app by apply length_be_bytes.
    rewrite be_value_small, Z.eqb_refl by z_range. cbn [negb].
    rewrite ReadFull_app by (unfold len; lia). rewrite ReadFull_app by apply length_vec_to_list.
    by rewrite copy_into_vec, bool_decide_true by (by apply Hck).
Qed.

(** ** Recovery *)

Section recovery.
Context `{SliceSort, MapRange}.

(** Recovery from a log that replays to [evs]: the ledger holds [evs], and every
    lookup answers as the machine run on them. *)
Lemma recovered bs evs version now :
  replayFrom bs = Ok evs ->
  exists m snap, RecoverMonitorFromFile (Ok bs) version now = Ok (m, snap) /\
    snap = CompileSnapshot evs version now /\ active m = Some snap /\ Ledger m = evs /\
    forall id, Lookup m id = decision_of (dyn_run (about id evs)).
Proof.
  intros Hr. unfold RecoverMonitorFromFile, ReplayFile. cbn [result_bind]. rewrite Hr.
  assert (forall l m, ledger (foldl Monitor.AppendEvent m l) = ledger m ++ l) as Hfold.
  { induction l as [|e l IH]; intros m; [by rewrite app_nil_r|].
    cbn [foldl]. rewrite IH. cbn. by rewrite <-app_assoc. }
  do 2 eexists. split_and!; [reflexivity|reflexivity|reflexivity|exact (Hfold _ _)|].
  intros id. rewrite Lookup_active. apply lookup_compiled.
Qed.

(** C28. Recovery rebuilds the live monitor: from a log that replays to the
    events a monitor has published, [RecoverMonitorFromFile] succeeds, and the
    monitor it returns has the same ledger, answers every lookup as the live
    one does, and, asked for the live version, has the same snapshot hash
    whatever the two compilation times. *)
Theorem recovery_rebuilds_monitor bs m0 published version now :
  ledger m0 = [] -> published <> [] ->
  replayFrom bs = Ok (published.*1) ->
  let live := publish_all m0 published in
  exists m snap,
    RecoverMonitorFromFile (Ok bs) version now = Ok (m, snap) /\
    active m = Some snap /\ Ledger m = Ledger live /\
    (forall id, Lookup m id = Lookup live id) /\
    (version = active_version live -> forall s, active live = Some s ->
       SnapshotHash snap = SnapshotHash s).
Proof.
  intros Hl0 Hne Hr live.
  destruct (recovered bs _ version now Hr) as (m & snap & E & Es & Ha & Hl & Hlook).
  destruct (publish_all_active m0 published Hne) as (t & Hla). rewrite Hl0 in Hla.
  exists m, snap. split; [exact E|]. split; [exact Ha|]. split; [|split].
  - unfold live, Ledger at 2. by rewrite Hl, publish_all_ledger, Hl0.
  - intros id. unfold live. by rewrite Hlook, Lookup_active, Hla, lookup_compiled.
  - unfold live. intros Hv s Hs. rewrite Hla in Hs. injection Hs as <-.
    unfold active_version in Hv. rewrite Hla in Hv.
    rewrite (proj1 (CompileSnapshot_contents_ok _ _ _)) in Hv.
    rewrite Es, <-Hv. apply CompileSnapshot_hash_time.
Qed.
End recovery.
End ledger.

(** ** The ledger with the codec of [encoding/json] *)

Section json_ledger.
#[local] Existing Instance json_codec.

Lemma json_append_replays l io event contents evs l' :
  file l = Some contents -> replayFrom contents = Ok evs -> event_typed event ->
  AppendEvent l io event = (l', None) ->
  ReplayGenesis l' = Ok (evs ++ [valid_event event]).
Proof.
  intros Hf (ps & Hd & ->)%replayFrom_sound Ht E.
  destruct (json_Marshal event) as [p|e] eqn:Hm.
  2:{ unfold AppendEvent in E. by rewrite Hf, Hm in E. }
  assert (payload_ok p) as Hp.
  { unfold AppendEvent in E. rewrite Hf, Hm in E. split; [by intros ->|].
    destruct (length p =? 0)%nat; [done|]. destruct (Z.ltb_spec 4294967295 (Z.of_nat (length p))); [done|].
    change (2 ^ 32) with 4294967296. lia. }
  destruct (AppendEvent_outcome _ _ _ _ _ _ _ Hf Hm Hp E) as (n & Hf' & Hn).
  unfold ReplayGenesis. rewrite Hf', Hn by done. apply replayFrom_snoc; [done|done|].
  exact (Unmarshal_Marshal_valid event p Ht Hm).
Qed.

(** What the ledger gives back: after an append of any event that returned nil,
    the log replays to the event with the stray bytes of its strings replaced by
    U+FFFD, which is the event exactly when its strings are valid UTF-8. *)
Theorem ledger_returns_utf8_events l io event contents evs l' :
  file l = Some contents -> replayFrom contents = Ok evs -> event_typed event ->
  AppendEvent l io event = (l', None) ->
  ReplayGenesis l' = Ok (evs ++ [valid_event event]) /\
  (ReplayGenesis l' = Ok (evs ++ [event]) <-> utf8_event event = true).
Proof.
  intros Hf Hr Ht E. rewrite (json_append_replays _ _ _ _ _ _ Hf Hr Ht E). split; [done|].
  rewrite <-valid_event_id_iff. split; [|by intros ->].
  intros E1. injection E1 as E1. apply app_inv_head in E1. congruence.
Qed.

(** C18. Replay is typed: whatever bytes the log holds, every event it replays has
    its numbers in the range of their Go types and strings of valid UTF-8, so that
    writing it again and replaying gives the same event. *)
Theorem replayed_events_typed bs evs :
  replayFrom bs = Ok evs ->
  Forall (fun e => event_typed e /\ utf8_event e = true) evs /\
  (forall l io event contents evs' l', event ∈ evs ->
     file l = Some contents -> replayFrom contents = Ok evs' ->
     AppendEvent l io event = (l', None) -> ReplayGenesis l' = Ok (evs' ++ [event])).
Proof.
  intros (ps & [_ Hd] & ->)%replayFrom_sound.
  assert (Forall decoded_ok evs) as Hok.
  { apply Forall_forall. intros e Hin. apply list_elem_of_lookup in Hin as [i Hi].
    destruct (Forall2_lookup_r _ _ _ _ _ Hd Hi) as (p & _ & Hu). exact (Unmarshal_event_ok _ _ Hu). }
  split; [exact Hok|]. intros l io event contents evs' l' Hin Hf Hr Ha.
  destruct (proj1 (Forall_forall _ _) Hok event Hin) as [Ht Hu].
  rewrite (json_append_replays l io event contents evs' l' Hf Hr Ht Ha).
  by rewrite (proj2 (valid_event_id_iff event) Hu).
Qed.

(** An event in range is acknowledged by a healthy log, whatever its strings. *)
Theorem healthy_append_acknowledged l contents event :
  file l = Some contents -> 0 <= time_year (EvCreatedAt event) <= 9999 ->
  Z.of_nat (string_bytes event) <= 2 ^ 26 ->
  exists payload, Marshal_event event = Ok payload /\
    AppendEvent l (fun _ => IoOk) event
    = (mkFileLedger (Some (contents ++ frame payload)) (path l), None).
Proof.
  intros Hf Hy Hlen. pose proof (Marshal_event_ok event Hy) as Hm.
  eexists. split; [exact Hm|]. apply AppendEvent_ok; [done|exact Hm|]. split; [done|].
  pose proof (length_event_json event (EvCreatedAt event)). lia.
Qed.
End json_ledger.

(** ** Examples

    A concrete codec for events whose identifiers, type and reason are free and
    whose other fields are those of [ex_event], up to the new state: 34 bytes. *)

Definition compact_encode (e : RevocationEvent) : bytes :=
  vec_to_list (EventID e) ++ vec_to_list (EvMemoryID e) ++
  [byte_of_Z (EventType e); byte_of_Z (Reason e)].

Definition compact_decode (newState : string) (bs : bytes) : result RevocationEvent :=
  if (length bs =? 34)%nat then
    Ok (mkEvent (copy_into 16 (take 16 bs)) (copy_into 16 (take 16 (drop 16 bs)))
          (be_value (take 1 (drop 32 bs))) (be_value (drop 33 bs)) "operator" "source"
          1700000000000000000 (zero_array 32) "" newState (zero_array 64) "")
  else Err (errors_New "unexpected end of JSON input").

Program Definition compact_codec_for (newState : string) : EventCodec := {|
  json_Marshal e := Ok (compact_encode e);
  json_Unmarshal := compact_decode newState;
  json_ok e := compact_decode newState (compact_encode e) = Ok e
|}.
Next Obligation.
  intros newState e He. exists (compact_encode e). split; [done|].
  assert (length (compact_encode e) = 34%nat) as Hl.
  { unfold compact_encode. by rewrite !length_app, !length_vec_to_list. }
  split; [|split; [rewrite Hl; lia|done]]. intros E. by rewrite E in Hl.
Qed.

Definition compact_codec : EventCodec := compact_codec_for "quarantined".

Section examples.
#[local] Existing Instance SmallGo.small_slice_sort.
#[local] Existing Instance SmallGo.trie_map_range.
#[local] Existing Instance compact_codec.

Definition ex_q : RevocationEvent := ex_event x01 x11 EventQuarantineMemory 0.
Definition ex_r : RevocationEvent := ex_event x02 x22 EventRevokeMemory 0.

Definition ex_log : bytes := log_of [compact_encode ex_q].

Example ex_log_replays : replayFrom ex_log = Ok [ex_q].
Proof. by_decide. Qed.

Lemma append_then_replay_witness :
  let (l', err) := AppendEvent (mkFileLedger (Some ex_log) "wal") (fun _ => IoOk) ex_r in
  (err = None -> ReplayGenesis l' = Ok ([ex_q] ++ [ex_r])) /\
  (ReplayGenesis l' = Ok [ex_q] \/ ReplayGenesis l' = Ok ([ex_q] ++ [ex_r]) \/
   exists e, ReplayGenesis l' = Err e /\ is_corruption e).
Proof.
  refine (append_then_replay (mkFileLedger (Some ex_log) "wal") (fun _ => IoOk) ex_r ex_log [ex_q]
    eq_refl _ _); vm_compute; reflexivity.
Defined.

Definition cut_after_one (i : nat) : io_outcome :=
  if (i =? 0)%nat then IoFail 1 (errors_New "no space left on device") else IoOk.

Lemma acknowledged_append_unrecoverable_witness :
  let (l1, err1) := AppendEvent (mkFileLedger (Some ex_log) "wal") cut_after_one ex_r in
  let (l2, err2) := AppendEvent l1 (fun _ => IoOk) ex_r in
  err1 = Some (errors_New "no space left on device") /\ err2 = None /\
  exists e, ReplayGenesis l2 = Err e /\ is_corruption e.
Proof.
  refine (acknowledged_append_unrecoverable (mkFileLedger (Some ex_log) "wal") cut_after_one
    (errors_New "no space left on device") ex_r ex_r ex_log [ex_q]
    (compact_encode ex_r) (compact_encode ex_r) eq_refl _ eq_refl _ _ _ _ _ _);
    vm_compute; reflexivity.
Defined.

Lemma payload_tampering_detected_witness :
  let p := compact_encode ex_q in
  let p' := compact_encode ex_r in
  let len := Z.of_nat (length p) in
  let tampered := be_bytes 4 len ++ be_bytes 2 LogMagicNumber ++ p' ++
                  vec_to_list (recordChecksum len LogMagicNumber p) in
  replayFrom (log_of [] ++ tampered ++ [])
  = Err (errors_New (ErrSecurityAlertPrefix +:+
           ": cryptographic record tampering detected during log parsing")) \/
  collision_among [record_message len LogMagicNumber p; record_message len LogMagicNumber p'].
Proof.
  refine (payload_tampering_detected [] (compact_encode ex_q) (compact_encode ex_r) [] [] _ _ _ _).
  - split; constructor.
  - split; [discriminate|vm_compute; reflexivity].
  - vm_compute. reflexivity.
  - apply (bool_decide_unpack _). vm_compute. exact I.
Defined.

Lemma recovery_rebuilds_monitor_witness :
  let published := [(ex_q, 5)] in
  let live := publish_all (NewRuntimeMonitor 0) published in
  exists m snap,
    RecoverMonitorFromFile (Ok ex_log) 1 9 = Ok (m, snap) /\
    active m = Some snap /\ Ledger m = Ledger live /\
    (forall id, Lookup m id = Lookup live id) /\
    (1 = active_version live -> forall s, active live = Some s ->
       SnapshotHash snap = SnapshotHash s).
Proof.
  intros published live.
  refine (recovery_rebuilds_monitor ex_log (NewRuntimeMonitor 0) published 1 9 _ _ _).
  - reflexivity.
  - discriminate.
  - apply (bool_decide_unpack _). vm_compute. exact I.
Defined.
End examples.

(** An operator of one stray byte. *)
Definition ex_stray_event : RevocationEvent :=
  mkEvent (copy_into 16 [x01]) (copy_into 16 [x11]) EventRevokeMemory 0 (string_of [xff]) "rpc"
    1700000000000000000 (zero_array 32) "" "revoked" (zero_array 64) "".

Lemma ledger_returns_utf8_events_witness :
  let _ := json_codec in
  exists l', AppendEvent (mkFileLedger (Some []) "wal") (fun _ => IoOk) ex_stray_event = (l', None) /\
    ReplayGenesis l' = Ok [valid_event ex_stray_event] /\
    (ReplayGenesis l' = Ok [ex_stray_event] <-> utf8_event ex_stray_event = true).
Proof.
  intros codec.
  destruct (healthy_append_acknowledged (mkFileLedger (Some []) "wal") [] ex_stray_event)
    as (payload & _ & Ha); [reflexivity|split; apply Z.leb_le; vm_compute; reflexivity|apply Z.leb_le; vm_compute; reflexivity|].
  eexists. split; [exact Ha|].
  exact (ledger_returns_utf8_events (mkFileLedger (Some []) "wal") (fun _ => IoOk)
    ex_stray_event [] [] _ eq_refl eq_refl ltac:(split; z_range) Ha).
Defined.

(** The log that the stray event was written to. *)
Lemma replayed_events_typed_witness :
  let _ := json_codec in
  exists bs, replayFrom bs = Ok [valid_event ex_stray_event] /\
    Forall (fun e => event_typed e /\ utf8_event e = true) [valid_event ex_stray_event].
Proof.
  intros codec.
  destruct (healthy_append_acknowledged (mkFileLedger (Some []) "wal") [] ex_stray_event)
    as (payload & _ & Ha); [reflexivity|split; apply Z.leb_le; vm_compute; reflexivity|apply Z.leb_le; vm_compute; reflexivity|].
  pose proof (json_append_replays (mkFileLedger (Some []) "wal") (fun _ => IoOk) ex_stray_event [] [] _
    eq_refl eq_refl ltac:(split; z_range) Ha) as Hr.
  exists ([] ++ frame payload). split; [exact Hr|].
  exact (proj1 (replayed_events_typed _ _ Hr)).
Defined.

Example ex_stray_changed : utf8_event ex_stray_event = false /\
  OperatorID (valid_event ex_stray_event) = string_of [xef; xbf; xbd].
Proof. split; vm_compute; reflexivity. Qed.
