(* ===== verification/Axis.v ===== *)
(** * Axis drift ([pkg/axis/integrity.go])

    [EvaluateDrift] compares a memory's structural vector with its anchor on
    five partitions by cosine similarity.  [float32] and [float64] are the
    IEEE 754 binary formats of the Standard Library's [SpecFloat], rounding and
    special values included, so the comparisons are the ones the processor
    makes. *)
From S2P Require Import Prelude.
From Stdlib Require Import Floats.SpecFloat.

(** ** Floating point *)

Abbreviation float32 := spec_float.
Abbreviation float64 := spec_float.

#[global] Instance spec_float_eq_dec : EqDecision spec_float.
Proof. solve_decision. Defined.

Definition f32_mul : float32 -> float32 -> float32 := SFmul 24 128.
Definition f64_add : float64 -> float64 -> float64 := SFadd 53 1024.
Definition f64_sub : float64 -> float64 -> float64 := SFsub 53 1024.
Definition f64_mul : float64 -> float64 -> float64 := SFmul 53 1024.
Definition f64_div : float64 -> float64 -> float64 := SFdiv 53 1024.
Definition math_Sqrt : float64 -> float64 := SFsqrt 53 1024.

(** [float64(x)] of a [float32]. *)
Definition f64_of_f32 (x : float32) : float64 :=
  match x with
  | S754_finite s m e => binary_normalize 53 1024 (cond_Zopp s (Zpos m)) e s
  | _ => x
  end.

Definition f64_zero : float64 := S754_zero false.
(** [1.0] *)
Definition f64_one : float64 := S754_finite false 4503599627370496 (-52).

(** ** Data *)

Definition DriftTypeTemporality : string := "TEMPORARY_STATE_PROMOTED_TO_STABLE_TRAIT".
Definition DriftTypeEpistemic : string := "INFERENCE_PROMOTED_TO_FACT".
Definition DriftTypeScope : string := "CONTEXT_BOUND_MEMORY_REUSED_GLOBALLY".
Definition DriftTypeTrust : string := "LOW_TRUST_SOURCE_PROMOTED".
Definition DriftTypeMandate : string := "PREFERENCE_PROMOTED_TO_MANDATE".

Definition ReasonTemporality : string := "TEMPORARITY_DRIFT_DETECTED".
Definition ReasonEpistemic : string := "EPISTEMIC_MODAL_SHIFT".
Definition ReasonScope : string := "SCOPE_EXPANSION_VIOLATION".
Definition ReasonTrust : string := "SOURCE_TRUST_COLLAPSE".
Definition ReasonMandate : string := "PREFERENCE_PROMOTED_TO_AUTHORITY".

Definition StructuralVector : Type := list float32.

Record AxisCheckResult := mkAxisCheckResult {
  AxisPreserved : bool;
  DriftScore : float64;
  DriftType : string;
  ReasonCodes : list string
}.

#[global] Instance AxisCheckResult_eq_dec : EqDecision AxisCheckResult.
Proof. solve_decision. Defined.

Record InvariantDimensions := mkDims {
  TemporalityStart : Z; TemporalityEnd : Z;
  EpistemicStart : Z; EpistemicEnd : Z;
  ScopeStart : Z; ScopeEnd : Z;
  TrustStart : Z; TrustEnd : Z;
  MandateStart : Z; MandateEnd : Z
}.

Definition DefaultDimensions : InvariantDimensions :=
  mkDims 0 23 24 47 48 71 72 95 96 127.

(** ** Cosine similarity *)

Definition vector_at (v : StructuralVector) (i : Z) : float32 :=
  nth (Z.to_nat i) v f64_zero.

(** [start], [start + 1], ... [end]. *)
Definition indices (start stop : Z) : list Z :=
  (fun k => start + Z.of_nat k) <$> seq 0 (Z.to_nat (stop - start + 1)).

(** One sum of the loop: [acc += float64(a[i] * b[i])]. *)
Definition dot_step (a b : StructuralVector) (acc : float64) (i : Z) : float64 :=
  f64_add acc (f64_of_f32 (f32_mul (vector_at a i) (vector_at b i))).

Definition dot (a b : StructuralVector) (start stop : Z) : float64 :=
  foldl (dot_step a b) f64_zero (indices start stop).

Definition err_vector_size : error :=
  errors_New "INVALID_VECTOR_SIZE: structural vectors must be exactly 128 dimensions".
Definition err_vector_bounds : error :=
  errors_New "INVALID_VECTOR_BOUNDS: dimension partition slice is out of range".

Definition CosineSimilarity (v1 v2 : StructuralVector) (start stop : Z) : result float64 :=
  if negb (length v1 =? 128)%nat || negb (length v2 =? 128)%nat then Err err_vector_size
  else if (start <? 0) || (Z.of_nat (length v1) <=? stop) || (stop <? start) then
    Err err_vector_bounds
  else
    let dotProduct := dot v1 v2 start stop in
    let normV1 := dot v1 v1 start stop in
    let normV2 := dot v2 v2 start stop in
    if SFeqb normV1 f64_zero || SFeqb normV2 f64_zero then Ok f64_zero
    else Ok (f64_div dotProduct (f64_mul (math_Sqrt normV1) (math_Sqrt normV2))).

(** ** Drift *)

(** A call of the closure [check]. *)
Record axis_check := mkAxisCheck {
  ac_start : Z; ac_end : Z; ac_driftType : string; ac_reason : string
}.

Definition axis_checks (dims : InvariantDimensions) : list axis_check :=
  [ mkAxisCheck (TemporalityStart dims) (TemporalityEnd dims) DriftTypeTemporality ReasonTemporality;
    mkAxisCheck (EpistemicStart dims) (EpistemicEnd dims) DriftTypeEpistemic ReasonEpistemic;
    mkAxisCheck (ScopeStart dims) (ScopeEnd dims) DriftTypeScope ReasonScope;
    mkAxisCheck (TrustStart dims) (TrustEnd dims) DriftTypeTrust ReasonTrust;
    mkAxisCheck (MandateStart dims) (MandateEnd dims) DriftTypeMandate ReasonMandate ].

Definition check (anchor mutated : StructuralVector) (threshold : float64)
    (res : AxisCheckResult) (c : axis_check) : AxisCheckResult :=
  match CosineSimilarity anchor mutated (ac_start c) (ac_end c) with
  | Err e =>
      mkAxisCheckResult false f64_one "INVALID_AXIS_INPUT" (ReasonCodes res ++ [error_text e])
  | Ok sim =>
      let drift := f64_sub f64_one sim in
      if SFltb threshold drift then
        let codes := ReasonCodes res ++ [ac_reason c] in
        if SFltb (DriftScore res) drift then
          mkAxisCheckResult false drift (ac_driftType c) codes
        else mkAxisCheckResult false (DriftScore res) (DriftType res) codes
      else res
  end.

Definition EvaluateDrift (anchor mutated : StructuralVector) (dims : InvariantDimensions)
    (threshold : float64) : AxisCheckResult :=
  foldl (check anchor mutated threshold) (mkAxisCheckResult true f64_zero "" []) (axis_checks dims).

(** ** The order on floats *)

Lemma SFcompare_antisym x y :
  SFcompare y x = CompOpp <$> SFcompare x y.
Proof.
  destruct x as [sx|sx| |sx mx ex], y as [sy|sy| |sy my ey]; cbn;
    try destruct sx; try destruct sy; try done; cbn;
    rewrite (Z.compare_antisym ex ey); destruct (Z.compare ex ey); cbn; try done;
    change (Pos.compare_cont Eq) with Pos.compare;
    rewrite (Pos.compare_antisym my mx); by destruct (Pos.compare my mx).
Qed.

(** The order of non-NaN floats, as a lexicographic order of integers. *)
Definition SFkey (x : spec_float) : Z * Z * Z :=
  match x with
  | S754_nan => (3, 0, 0)
  | S754_zero _ => (0, 0, 0)
  | S754_infinity true => (-2, 0, 0)
  | S754_infinity false => (2, 0, 0)
  | S754_finite true m e => (-1, - e, Zneg m)
  | S754_finite false m e => (1, e, Zpos m)
  end.

Definition key_lt (a b : Z * Z * Z) : Prop :=
  a.1.1 < b.1.1 \/ (a.1.1 = b.1.1 /\ (a.1.2 < b.1.2 \/ (a.1.2 = b.1.2 /\ a.2 < b.2))).

Lemma SFltb_key x y :
  x <> S754_nan -> y <> S754_nan -> SFltb x y = true <-> key_lt (SFkey x) (SFkey y).
Proof.
  intros Hx Hy. unfold SFltb, key_lt.
  destruct x as [sx|sx| |sx mx ex], y as [sy|sy| |sy my ey]; try done;
    try destruct sx; try destruct sy; cbn; try (split; [done|lia]); try (split; [lia|done]);
    try (change (Pos.compare_cont Eq mx my) with (Pos.compare mx my));
    destruct (Z.compare_spec ex ey); try destruct (Pos.compare_spec mx my);
    cbn; (split; [done || lia|done || lia]).
Qed.

Lemma SFltb_nan x y : SFltb x y = true -> x <> S754_nan /\ y <> S754_nan.
Proof. unfold SFltb. by destruct x as [[]|[]| |[] ? ?], y as [[]|[]| |[] ? ?]. Qed.

Lemma SFltb_trans x y z : SFltb x y = true -> SFltb y z = true -> SFltb x z = true.
Proof.
  intros H1 H2. destruct (SFltb_nan _ _ H1), (SFltb_nan _ _ H2).
  rewrite !SFltb_key in * by done. unfold key_lt in *. lia.
Qed.

Lemma SFltb_irrefl x : SFltb x x = false.
Proof.
  destruct (SFltb x x) eqn:E; [|done]. destruct (SFltb_nan _ _ E).
  rewrite SFltb_key in E by done. unfold key_lt in E. lia.
Qed.

(** ** What [EvaluateDrift] decides *)

Section evaluate_drift.
Context (anchor mutated : StructuralVector) (threshold : float64).

(** How far the vectors are apart between two dimensions. *)
Definition drift_between (start stop : Z) : result float64 :=
  let! sim := CosineSimilarity anchor mutated start stop in
  Ok (f64_sub f64_one sim).

Definition check_outcome (c : axis_check) : result float64 := drift_between (ac_start c) (ac_end c).

(** The reason code a check contributes, if it fails. *)
Definition check_trips (c : axis_check) : option string :=
  match check_outcome c with
  | Err e => Some (error_text e)
  | Ok drift => if SFltb threshold drift then Some (ac_reason c) else None
  end.

Lemma check_unfold res c :
  check anchor mutated threshold res c =
    match check_outcome c with
    | Err e => mkAxisCheckResult false f64_one "INVALID_AXIS_INPUT" (ReasonCodes res ++ [error_text e])
    | Ok drift =>
        if SFltb threshold drift then
          if SFltb (DriftScore res) drift
          then mkAxisCheckResult false drift (ac_driftType c) (ReasonCodes res ++ [ac_reason c])
          else mkAxisCheckResult false (DriftScore res) (DriftType res) (ReasonCodes res ++ [ac_reason c])
        else res
    end.
Proof. unfold check, check_outcome, drift_between. by destruct (CosineSimilarity _ _ _ _). Qed.

Lemma checks_reasons res cs :
  let out := foldl (check anchor mutated threshold) res cs in
  ReasonCodes out = ReasonCodes res ++ omap check_trips cs /\
  AxisPreserved out = AxisPreserved res && bool_decide (omap check_trips cs = []).
Proof.
  revert res. induction cs as [|c cs IH]; intros res; simpl.
  { by rewrite app_nil_r, andb_true_r. }
  destruct (IH (check anchor mutated threshold res c)) as [-> ->].
  rewrite check_unfold. change (check_trips c) with (match check_outcome c with
    | Err e => Some (error_text e)
    | Ok drift => if SFltb threshold drift then Some (ac_reason c) else None end).
  destruct (check_outcome c) as [drift|e]; [destruct (SFltb threshold drift);
    [destruct (SFltb (DriftScore res) drift)|]|]; cbn;
    rewrite <-?app_assoc; by rewrite ?andb_false_r.
Qed.

(** Checks that find nothing leave the result alone. *)
Lemma quiet_checks res cs :
  omap check_trips cs = [] -> foldl (check anchor mutated threshold) res cs = res.
Proof.
  revert res. induction cs as [|c cs IH]; intros res; [done|]. cbn. rewrite check_unfold.
  unfold check_trips at 1. destruct (check_outcome c) as [drift|e]; [|done].
  destruct (SFltb threshold drift); [done|]. apply IH.
Qed.

(** The score invariant of the loop over checks without errors. *)
Definition score_ok (seen : list axis_check) (res : AxisCheckResult) : Prop :=
  (AxisPreserved res = true /\ DriftScore res = f64_zero \/
   AxisPreserved res = false /\
   exists c, c ∈ seen /\ check_outcome c = Ok (DriftScore res) /\
             DriftType res = ac_driftType c /\ SFltb threshold (DriftScore res) = true) /\
  (forall c drift, c ∈ seen -> check_outcome c = Ok drift -> SFltb threshold drift = true ->
     AxisPreserved res = false /\ SFltb (DriftScore res) drift = false).

Lemma above_nonneg drift :
  SFleb f64_zero threshold = true -> SFltb threshold drift = true -> SFltb f64_zero drift = true.
Proof.
  intros H0 Hlt. destruct (SFltb_nan _ _ Hlt) as [Ht Hd].
  rewrite SFltb_key in * by done. unfold SFleb in H0.
  destruct threshold as [[]|[]| |[] ? ?]; try done; unfold key_lt in *; cbn in *; lia.
Qed.

Lemma check_score_ok seen res c :
  SFleb f64_zero threshold = true -> is_ok (check_outcome c) = true ->
  score_ok seen res -> score_ok (seen ++ [c]) (check anchor mutated threshold res c).
Proof.
  intros H0 Hok [Hs Hmax]. rewrite check_unfold.
  destruct (check_outcome c) as [drift|] eqn:Ec; [|done].
  destruct (SFltb threshold drift) eqn:Ht.
  - destruct (SFltb (DriftScore res) drift) eqn:Hgt; (split; [right|]); cbn.
    + split; [done|]. exists c. split; [in_list|done].
    + intros c' d' [Hc'| ->%list_elem_of_singleton]%elem_of_app E' Ht'; (split; [done|]).
      * destruct (Hmax c' d' Hc' E' Ht') as [_ Hle].
        destruct (SFltb drift d') eqn:E2; [|done].
        by rewrite (SFltb_trans _ _ _ Hgt E2) in Hle.
      * rewrite Ec in E'. injection E' as <-. apply SFltb_irrefl.
    + split; [done|]. destruct Hs as [[_ Hz]|(_ & c' & Hc' & Hrest)].
      * rewrite Hz, (above_nonneg _ H0 Ht) in Hgt. done.
      * exists c'. split; [in_list|done].
    + intros c' d' [Hc'| ->%list_elem_of_singleton]%elem_of_app E' Ht'; (split; [done|]).
      * apply (Hmax c' d' Hc' E' Ht').
      * rewrite Ec in E'. by injection E' as <-.
  - split.
    + destruct Hs as [?|(? & c' & ? & ?)]; [by left|]. right. split; [done|].
      exists c'. split; [in_list|done].
    + intros c' d' [Hc'| ->%list_elem_of_singleton]%elem_of_app E' Ht'; [by apply (Hmax c')|].
      rewrite Ec in E'. injection E' as <-. congruence.
Qed.

Lemma checks_score_ok cs seen res :
  SFleb f64_zero threshold = true -> Forall (fun c => is_ok (check_outcome c) = true) cs ->
  score_ok seen res -> score_ok (seen ++ cs) (foldl (check anchor mutated threshold) res cs).
Proof.
  intros H0. revert seen res. induction cs as [|c cs IH]; intros seen res Hok Hs.
  { by rewrite app_nil_r. }
  apply Forall_cons in Hok as [Hc Hok]. replace (seen ++ c :: cs) with ((seen ++ [c]) ++ cs)
    by by rewrite <-app_assoc.
  apply IH; [done|]. by apply check_score_ok.
Qed.

(** When every partition can be compared and the threshold is not negative,
    a failed check reports the worst drift. *)
Lemma DriftScore_is_worst dims :
  SFleb f64_zero threshold = true ->
  Forall (fun c => is_ok (check_outcome c) = true) (axis_checks dims) ->
  let res := EvaluateDrift anchor mutated dims threshold in
  AxisPreserved res = false ->
  (exists c, c ∈ axis_checks dims /\ check_outcome c = Ok (DriftScore res) /\
             DriftType res = ac_driftType c /\ SFltb threshold (DriftScore res) = true) /\
  (forall c drift, c ∈ axis_checks dims -> check_outcome c = Ok drift ->
     SFltb (DriftScore res) drift = false).
Proof.
  intros H0 Hok res Hp.
  destruct (checks_score_ok (axis_checks dims) [] (mkAxisCheckResult true f64_zero "" []) H0 Hok)
    as [Hs Hmax].
  { split; [by left|]. by intros c d ?%elem_of_nil. }
  cbn [app] in Hs, Hmax. change (foldl _ _ _) with res in Hs, Hmax.
  destruct Hs as [[Ht _]|(_ & c & Hc & Ec & Et & Ht)]; [congruence|].
  split; [by exists c|]. intros c' d' Hc' E'.
  destruct (SFltb (DriftScore res) d') eqn:E; [|done].
  destruct (Hmax c' d' Hc' E' (SFltb_trans _ _ _ Ht E)) as [_ ?]. congruence.
Qed.

(** What the five partitions are, with the drift types they stand for. *)
Inductive partition (dims : InvariantDimensions) : Z -> Z -> string -> Prop :=
| temporality : partition dims (TemporalityStart dims) (TemporalityEnd dims) "TEMPORARY_STATE_PROMOTED_TO_STABLE_TRAIT"
| epistemic : partition dims (EpistemicStart dims) (EpistemicEnd dims) "INFERENCE_PROMOTED_TO_FACT"
| scope : partition dims (ScopeStart dims) (ScopeEnd dims) "CONTEXT_BOUND_MEMORY_REUSED_GLOBALLY"
| trust : partition dims (TrustStart dims) (TrustEnd dims) "LOW_TRUST_SOURCE_PROMOTED"
| mandate : partition dims (MandateStart dims) (MandateEnd dims) "PREFERENCE_PROMOTED_TO_MANDATE".

Lemma partition_checks dims start stop driftType :
  partition dims start stop driftType <->
  exists c, c ∈ axis_checks dims /\ ac_start c = start /\ ac_end c = stop /\ ac_driftType c = driftType.
Proof.
  split.
  - intros Hp. destruct Hp; (eexists (mkAxisCheck _ _ _ _); split; [|split_and!; reflexivity]); unfold axis_checks; in_list.
  - intros (c & Hc & <- & <- & <-). unfold axis_checks in Hc. rewrite !elem_of_cons, elem_of_nil in Hc.
    by destruct Hc as [->|[->|[->|[->|[->|[]]]]]]; constructor.
Qed.

(** What a partition contributes to the reason codes. *)
Definition partition_reason (start stop : Z) (reason : string) : list string :=
  match drift_between start stop with
  | Err e => [error_text e]
  | Ok drift => if SFltb threshold drift then [reason] else []
  end.

Lemma check_reason c rest :
  omap check_trips (c :: rest) = partition_reason (ac_start c) (ac_end c) (ac_reason c) ++ omap check_trips rest.
Proof.
  cbn. unfold check_trips at 1, partition_reason, check_outcome.
  destruct (drift_between _ _) as [drift|e]; [|done]. by destruct (SFltb threshold drift).
Qed.

(** C30. [EvaluateDrift] checks each of the five partitions and reports what it finds:
    the reason codes are, in this order, those of temporality, epistemic modality,
    scope, trust and mandate, each present when the partition cannot be compared
    (then the error) or drifts beyond the threshold; the axis is preserved exactly
    when there is none, and then the score is zero and the type empty; and when all
    five can be compared and the threshold is not negative, the score and the type
    of a failed vector are those of a partition beyond the threshold, and no
    partition drifts more (in the IEEE order). *)
Theorem EvaluateDrift_reasons dims :
  let res := EvaluateDrift anchor mutated dims threshold in
  ReasonCodes res =
    partition_reason (TemporalityStart dims) (TemporalityEnd dims) "TEMPORARITY_DRIFT_DETECTED" ++
    partition_reason (EpistemicStart dims) (EpistemicEnd dims) "EPISTEMIC_MODAL_SHIFT" ++
    partition_reason (ScopeStart dims) (ScopeEnd dims) "SCOPE_EXPANSION_VIOLATION" ++
    partition_reason (TrustStart dims) (TrustEnd dims) "SOURCE_TRUST_COLLAPSE" ++
    partition_reason (MandateStart dims) (MandateEnd dims) "PREFERENCE_PROMOTED_TO_AUTHORITY" /\
  (AxisPreserved res = true <-> ReasonCodes res = []) /\
  (AxisPreserved res = true -> DriftScore res = f64_zero /\ DriftType res = "") /\
  (AxisPreserved res = false -> SFleb f64_zero threshold = true ->
   (forall start stop driftType, partition dims start stop driftType -> is_ok (drift_between start stop) = true) ->
   (exists start stop, partition dims start stop (DriftType res) /\
      drift_between start stop = Ok (DriftScore res) /\ SFltb threshold (DriftScore res) = true) /\
   (forall start stop driftType drift, partition dims start stop driftType ->
      drift_between start stop = Ok drift -> SFltb (DriftScore res) drift = false)).
Proof.
  destruct (checks_reasons (mkAxisCheckResult true f64_zero "" []) (axis_checks dims)) as [Hr Hp].
  cbn [ReasonCodes AxisPreserved app andb] in Hr, Hp.
  change (foldl _ _ _) with (EvaluateDrift anchor mutated dims threshold) in Hr, Hp. cbv zeta.
  assert (AxisPreserved (EvaluateDrift anchor mutated dims threshold) = true <->
    omap check_trips (axis_checks dims) = []) as Hiff by (by rewrite Hp, bool_decide_eq_true).
  split_and!.
  - rewrite Hr. unfold axis_checks. rewrite !check_reason. cbn. by rewrite app_nil_r.
  - by rewrite Hr.
  - intros Hq%Hiff. unfold EvaluateDrift. by rewrite quiet_checks.
  - intros Hf H0 Hok.
    destruct (DriftScore_is_worst dims H0) as [(c & Hc & Eo & Et & Ht) Hmax]; [|done|].
    + apply Forall_forall. intros c Hc. apply (Hok _ _ (ac_driftType c)), partition_checks. by exists c.
    + split.
      * exists (ac_start c), (ac_end c). split; [|done]. apply partition_checks. by exists c.
      * intros start stop ty drift (c' & Hc' & <- & <- & <-)%partition_checks E'. by eapply Hmax.
Qed.

(** Malformed vectors fail closed: when either vector does not have exactly
    128 dimensions the result is not preserved, the score is 1, the type is
    [INVALID_AXIS_INPUT] and each of the five partitions reports the size
    error, whatever the threshold and the partition bounds. *)
Theorem EvaluateDrift_wrong_size dims :
  length anchor <> 128%nat \/ length mutated <> 128%nat ->
  EvaluateDrift anchor mutated dims threshold
  = mkAxisCheckResult false f64_one "INVALID_AXIS_INPUT" (replicate 5 (error_text err_vector_size)).
Proof.
  intros Hl.
  assert (forall c, check_outcome c = Err err_vector_size) as Hc.
  { intros c. unfold check_outcome, drift_between, CosineSimilarity.
    by destruct Hl as [->%Nat.eqb_neq| ->%Nat.eqb_neq]; rewrite ?orb_true_r. }
  unfold EvaluateDrift, axis_checks. cbn [foldl]. by rewrite !check_unfold, !Hc.
Qed.
End evaluate_drift.

(** ** Symmetry *)

Lemma SFmul_comm prec emax x y : SFmul prec emax x y = SFmul prec emax y x.
Proof.
  destruct x as [sx|sx| |sx mx ex], y as [sy|sy| |sy my ey]; cbn; try done;
    rewrite ?(xorb_comm sx sy); try done.
  by rewrite (Pos.mul_comm mx my), (Z.add_comm ex ey).
Qed.

Lemma dot_comm a b start stop : dot a b start stop = dot b a start stop.
Proof.
  unfold dot. generalize f64_zero as acc. induction (indices start stop) as [|i rest IH];
    intros acc; [done|]. cbn [foldl].
  assert (dot_step a b acc i = dot_step b a acc i) as ->.
  { unfold dot_step, f32_mul. by rewrite SFmul_comm. }
  apply IH.
Qed.

Lemma CosineSimilarity_comm v1 v2 start stop :
  CosineSimilarity v1 v2 start stop = CosineSimilarity v2 v1 start stop.
Proof.
  unfold CosineSimilarity.
  rewrite (orb_comm (negb (length v1 =? 128)%nat)).
  destruct (Nat.eqb_spec (length v2) 128) as [->|]; [|done].
  destruct (Nat.eqb_spec (length v1) 128) as [->|]; [|done]. cbn [negb orb].
  rewrite (orb_comm (SFeqb (dot v1 v1 start stop) _)), (dot_comm v1 v2).
  unfold f64_mul. by rewrite (SFmul_comm _ _ (math_Sqrt (dot v1 v1 start stop))).
Qed.

(** ** Not-a-number *)

Lemma f64_add_nan_r x : f64_add x S754_nan = S754_nan.
Proof. by destruct x as [[]|[]| |[] ? ?]. Qed.

Lemma f64_add_nan_l x : f64_add S754_nan x = S754_nan.
Proof. by destruct x as [[]|[]| |[] ? ?]. Qed.

Lemma f32_mul_nan_r x : f32_mul x S754_nan = S754_nan.
Proof. by destruct x as [[]|[]| |[] ? ?]. Qed.

Lemma dot_steps_nan a b js : foldl (dot_step a b) S754_nan js = S754_nan.
Proof.
  induction js as [|i rest IH]; [done|]. cbn [foldl].
  replace (dot_step a b S754_nan i) with S754_nan; [done|].
  unfold dot_step. by rewrite f64_add_nan_l.
Qed.

Lemma dot_nan a b start stop i :
  start <= i <= stop -> vector_at b i = S754_nan -> dot a b start stop = S754_nan.
Proof.
  intros Hi Hn. unfold dot.
  assert (i ∈ indices start stop) as (l1 & l2 & ->)%list_elem_of_split.
  { unfold indices. apply list_elem_of_fmap. exists (Z.to_nat (i - start)). split; [lia|].
    apply elem_of_seq. lia. }
  rewrite foldl_app. cbn [foldl].
  replace (dot_step a b _ i) with S754_nan; [apply dot_steps_nan|].
  unfold dot_step. by rewrite Hn, f32_mul_nan_r, f64_add_nan_r.
Qed.

(** A partition that is within bounds and on which the anchor is not zero. *)
Definition comparable (anchor : StructuralVector) (c : axis_check) : Prop :=
  0 <= ac_start c <= ac_end c /\ ac_end c < 128 /\
  SFeqb (dot anchor anchor (ac_start c) (ac_end c)) f64_zero = false.

(** Known weakness: not-a-number is taken for no drift.  A transformed
    vector with a NaN in each partition is reported as preserved, with score 0
    and no reason code, against every anchor that is not zero on a partition,
    for every threshold: the similarity is NaN, and no comparison with NaN is
    true. *)
Theorem nan_vector_preserved anchor mutated dims threshold :
  length anchor = 128%nat -> length mutated = 128%nat ->
  Forall (comparable anchor) (axis_checks dims) ->
  Forall (fun c => exists i, ac_start c <= i <= ac_end c /\ vector_at mutated i = S754_nan)
    (axis_checks dims) ->
  EvaluateDrift anchor mutated dims threshold = mkAxisCheckResult true f64_zero "" [].
Proof.
  intros Ha Hm Hc Hn. unfold EvaluateDrift.
  induction (axis_checks dims) as [|c cs IH]; [done|].
  apply Forall_cons in Hc as [(Hb & Hlt & Hz) Hc]. apply Forall_cons in Hn as [(i & Hi & Hni) Hn].
  cbn [foldl]. replace (check _ _ _ _ c) with (mkAxisCheckResult true f64_zero "" []);
    [by apply IH|].
  unfold check, CosineSimilarity. rewrite Ha, Hm, !Nat.eqb_refl.
  rewrite (proj2 (Z.ltb_ge _ _)), (proj2 (Z.leb_gt _ _)), (proj2 (Z.ltb_ge _ _)) by lia.
  cbn [negb orb]. rewrite Hz, (dot_nan anchor mutated _ _ i), (dot_nan mutated mutated _ _ i) by done.
  cbn. by destruct threshold as [[]|[]| |[] ? ?].
Qed.

(** The same happens without a NaN in the input: two finite vectors pointing in
    opposite directions, of magnitude 2^64, overflow [float32] to infinities
    whose quotient is NaN. *)
Definition f32_2_64 (s : bool) : float32 := S754_finite s 8388608 41.

Lemma overflowing_opposite_vectors_preserved threshold :
  EvaluateDrift (replicate 128 (f32_2_64 false)) (replicate 128 (f32_2_64 true))
    DefaultDimensions threshold
  = mkAxisCheckResult true f64_zero "" [].
Proof.
  assert (forall c, c ∈ axis_checks DefaultDimensions ->
    CosineSimilarity (replicate 128 (f32_2_64 false)) (replicate 128 (f32_2_64 true))
      (ac_start c) (ac_end c) = Ok S754_nan) as Hn.
  { apply Forall_forall. repeat constructor; vm_compute; reflexivity. }
  unfold EvaluateDrift. revert Hn. generalize (axis_checks DefaultDimensions) as cs.
  induction cs as [|c cs IH]; intros Hn; [done|]. cbn [foldl]. unfold check at 2.
  rewrite Hn by (by left). cbn [f64_sub SFsub].
  replace (SFltb threshold _) with false by (by destruct threshold as [[]|[]| |[] ? ?]).
  apply IH. intros c' Hc'. apply Hn. by right.
Qed.

(** ** Examples *)

Definition f32_one : float32 := S754_finite false 8388608 (-23).
Definition f32_minus_one : float32 := S754_finite true 8388608 (-23).
Definition ex_anchor : StructuralVector := replicate 128 f32_one.
(** The anchor with the trust partition reversed. *)
Definition ex_trust_drift : StructuralVector :=
  replicate 72 f32_one ++ replicate 24 f32_minus_one ++ replicate 32 f32_one.
(** 0.15 *)
Definition ex_threshold : float64 := S754_finite false 5404319552844595 (-55).

Example ex_no_drift :
  AxisPreserved (EvaluateDrift ex_anchor ex_anchor DefaultDimensions ex_threshold) = true.
Proof. vm_compute. reflexivity. Qed.

Example ex_drift :
  EvaluateDrift ex_anchor ex_trust_drift DefaultDimensions ex_threshold
  = mkAxisCheckResult false (S754_finite false 4503599627370496 (-51)) DriftTypeTrust [ReasonTrust].
Proof. vm_compute. reflexivity. Qed.

(** The trust partition of [ex_trust_drift] is reported alone, with its drift. *)
Lemma EvaluateDrift_reasons_witness :
  let res := EvaluateDrift ex_anchor ex_trust_drift DefaultDimensions ex_threshold in
  ReasonCodes res = ["SOURCE_TRUST_COLLAPSE"] /\
  (exists start stop, partition DefaultDimensions start stop (DriftType res) /\
     drift_between ex_anchor ex_trust_drift start stop = Ok (DriftScore res) /\
     SFltb ex_threshold (DriftScore res) = true).
Proof.
  destruct (EvaluateDrift_reasons ex_anchor ex_trust_drift ex_threshold DefaultDimensions)
    as (Hr & _ & _ & Hw).
  split; [vm_compute; reflexivity|].
  apply Hw; [vm_compute; reflexivity|vm_compute; reflexivity|].
  intros start stop driftType Hp. destruct Hp; vm_compute; reflexivity.
Defined.

Lemma EvaluateDrift_wrong_size_witness :
  EvaluateDrift [f32_one] ex_anchor DefaultDimensions ex_threshold
  = mkAxisCheckResult false f64_one "INVALID_AXIS_INPUT" (replicate 5 (error_text err_vector_size)).
Proof. apply EvaluateDrift_wrong_size. left. discriminate. Defined.

Lemma nan_vector_preserved_witness :
  EvaluateDrift ex_anchor (replicate 128 S754_nan) DefaultDimensions ex_threshold
  = mkAxisCheckResult true f64_zero "" [].
Proof.
  refine (nan_vector_preserved ex_anchor _ DefaultDimensions ex_threshold _ _ _ _);
    [reflexivity|reflexivity|..].
  - repeat constructor; vm_compute; congruence.
  - repeat constructor; [exists 0|exists 24|exists 48|exists 72|exists 96];
      (split; [split; vm_compute; congruence|vm_compute; reflexivity]).
Defined.
