(* ===== verification/AxisWorker.v ===== *)
(** * The drift monitor ([pkg/axis/worker.go])

    A bounded queue of transformation jobs, consumed by worker goroutines that
    evaluate the drift of each, and write a quarantine event first to the
    durable ledger and then to the runtime monitor.  The counters are 64-bit
    atomics; the queue, the workers and shutdown form a step relation, in which a job
    is one step.  [DriftPool] takes the job apart. *)
From S2P Require Import Prelude Sha256 Evaluate Quarantine Monitor EventJson Persistence Axis.
From Stdlib Require Import Floats.SpecFloat.

(** ** Data *)

Record MemoryTransformationJob := mkJob {
  JobMemoryID : array 16;
  AnchorVector : StructuralVector;
  MutatedVector : StructuralVector;
  JobOperatorID : string;
  SourcePipeline : string;
  PolicySnapshot : array 32
}.

Record WorkerStats := mkWorkerStats {
  WsProcessed : Z; WsQuarantined : Z; WsDropped : Z; WsErrors : Z
}.

(** [JobQueue] is a buffered channel: its contents, its capacity, and whether it
    has been closed. *)
Record DriftMonitorCoordinator := mkCoordinator {
  CoLedger : option FileLedger;
  CoMonitor : option RuntimeMonitor;
  Dimensions : InvariantDimensions;
  Threshold : float64;
  JobQueue : list MemoryTransformationJob;
  queue_cap : Z;
  queue_closed : bool;
  counters : WorkerStats
}.

Definition NewDriftMonitorCoordinator (ledger : option FileLedger)
    (monitor : option RuntimeMonitor) (dims : InvariantDimensions) (threshold : float64)
    (queueBuffer : Z) : DriftMonitorCoordinator :=
  mkCoordinator ledger monitor dims threshold [] (if queueBuffer <=? 0 then 1 else queueBuffer)
    false (mkWorkerStats 0 0 0 0).

(** [atomic.Uint64.Add(1)] on each counter. *)
Definition add_processed (s : WorkerStats) : WorkerStats :=
  mkWorkerStats (u64 (WsProcessed s + 1)) (WsQuarantined s) (WsDropped s) (WsErrors s).
Definition add_quarantined (s : WorkerStats) : WorkerStats :=
  mkWorkerStats (WsProcessed s) (u64 (WsQuarantined s + 1)) (WsDropped s) (WsErrors s).
Definition add_dropped (s : WorkerStats) : WorkerStats :=
  mkWorkerStats (WsProcessed s) (WsQuarantined s) (u64 (WsDropped s + 1)) (WsErrors s).
Definition add_errors (s : WorkerStats) : WorkerStats :=
  mkWorkerStats (WsProcessed s) (WsQuarantined s) (WsDropped s) (u64 (WsErrors s + 1)).

Definition with_queue (c : DriftMonitorCoordinator) (q : list MemoryTransformationJob)
    (closed : bool) : DriftMonitorCoordinator :=
  mkCoordinator (CoLedger c) (CoMonitor c) (Dimensions c) (Threshold c) q (queue_cap c) closed
    (counters c).

Definition count (c : DriftMonitorCoordinator) (add : WorkerStats -> WorkerStats)
    : DriftMonitorCoordinator :=
  mkCoordinator (CoLedger c) (CoMonitor c) (Dimensions c) (Threshold c) (JobQueue c)
    (queue_cap c) (queue_closed c) (add (counters c)).

Definition with_stores (c : DriftMonitorCoordinator) (ledger : option FileLedger)
    (monitor : option RuntimeMonitor) : DriftMonitorCoordinator :=
  mkCoordinator ledger monitor (Dimensions c) (Threshold c) (JobQueue c)
    (queue_cap c) (queue_closed c) (counters c).

Definition Stats (c : DriftMonitorCoordinator) : WorkerStats := counters c.

(** ** The queue *)

(** Sending on, or closing, a closed channel panics. *)
Inductive go_outcome (A : Type) :=
| Returns (a : A)
| Panics (msg : string).
Arguments Returns {A} _.
Arguments Panics {A} _.

Definition StopAccepting (c : DriftMonitorCoordinator) : go_outcome DriftMonitorCoordinator :=
  if queue_closed c then Panics "close of closed channel"
  else Returns (with_queue c (JobQueue c) true).

Definition SubmitNonBlocking (c : DriftMonitorCoordinator) (job : MemoryTransformationJob)
    : go_outcome (DriftMonitorCoordinator * bool) :=
  if queue_closed c then Panics "send on closed channel"
  else if Z.of_nat (length (JobQueue c)) <? queue_cap c then
    Returns (with_queue c (JobQueue c ++ [job]) false, true)
  else Returns (count c add_dropped, false).

(** ** Processing a job *)

(** What a job reads of the outside world: random bytes for the event id, the
    clock twice, and the fate of the ledger's system calls. *)
Record job_env := mkJobEnv {
  rand_id : option (array 16);
  event_time : Z;
  swap_time : Z;
  ledger_io : nat -> io_outcome
}.

Definition newEventID (env : job_env) : result (array 16) :=
  match rand_id env with
  | Some id => Ok id
  | None => Err (errors_New "AXIS_EVENT_ID_FAILURE: crypto random source unavailable")
  end.

Definition MapDriftToQuarantine (driftType : string) : Z * Z :=
  if bool_decide (driftType = DriftTypeTemporality) then
    (ReasonPoisoningSuspected, EventPoisoningSuspected)
  else if bool_decide (driftType = DriftTypeEpistemic) then
    (ReasonPoisoningSuspected, EventPoisoningSuspected)
  else if bool_decide (driftType = DriftTypeScope) then
    (ReasonCrossSessionLeak, EventCrossSessionLeak)
  else if bool_decide (driftType = DriftTypeTrust) then
    (ReasonRetroactiveRevocation, EventQuarantineMemory)
  else if bool_decide (driftType = DriftTypeMandate) then
    (ReasonPromptInjectionDetected, EventPromptInjectionDetected)
  else (ReasonPoisoningSuspected, EventQuarantineMemory).

Definition eventForDrift (job : MemoryTransformationJob) (res : AxisCheckResult) (env : job_env)
    : result RevocationEvent :=
  let! eventID := newEventID env in
  let '(qReason, eType) := MapDriftToQuarantine (DriftType res) in
  Ok (mkEvent eventID (JobMemoryID job) eType qReason (JobOperatorID job) (SourcePipeline job)
        (event_time env) (PolicySnapshot job) "" "quarantined" (zero_array 64) "").

Section processing.
Context `{EventCodec, SliceSort, MapRange}.

(** [c.Ledger.AppendEvent(event)], when there is a ledger. *)
Definition append_if (ledger : option FileLedger) (io : nat -> io_outcome)
    (event : RevocationEvent) : option FileLedger * option error :=
  match ledger with
  | None => (None, None)
  | Some l => let (l', err) := Persistence.AppendEvent l io event in (Some l', err)
  end.

(** [c.Monitor.AppendEvent(event); c.Monitor.CompileAndSwap(now)], when there
    is a monitor. *)
Definition publish_if (monitor : option RuntimeMonitor) (event : RevocationEvent) (now : Z)
    : option RuntimeMonitor :=
  match monitor with
  | None => None
  | Some m => Some (CompileAndSwap (Monitor.AppendEvent m event) now).1
  end.

Definition processJob (c : DriftMonitorCoordinator) (job : MemoryTransformationJob)
    (env : job_env) : DriftMonitorCoordinator * option error :=
  let c := count c add_processed in
  let res := EvaluateDrift (AnchorVector job) (MutatedVector job) (Dimensions c) (Threshold c) in
  if AxisPreserved res then (c, None)
  else match eventForDrift job res env with
  | Err e => (count c add_errors, Some e)
  | Ok event =>
      let (ledger, err) := append_if (CoLedger c) (ledger_io env) event in
      let c := with_stores c ledger (CoMonitor c) in
      match err with
      | Some e => (count c add_errors, Some e)
      | None =>
          let c := with_stores c (CoLedger c) (publish_if (CoMonitor c) event (swap_time env)) in
          (count c add_quarantined, None)
      end
  end.

(** ** What processing guarantees *)

Lemma MapDrift_blocks driftType : is_quarantine_type (MapDriftToQuarantine driftType).2 = true.
Proof. unfold MapDriftToQuarantine. by split_ifs. Qed.

Lemma eventForDrift_facts job res env event :
  eventForDrift job res env = Ok event ->
  EvMemoryID event = JobMemoryID job /\ is_quarantine_type (EventType event) = true /\
  EvPolicyHash event = PolicySnapshot job.
Proof.
  unfold eventForDrift. destruct (newEventID env); [|done]. cbn [result_bind].
  pose proof (MapDrift_blocks (DriftType res)) as Hb.
  destruct (MapDriftToQuarantine (DriftType res)) as [q t]. by intros [= <-].
Qed.

(** Processing a job, on every branch: an axis that is preserved changes
    nothing but the processed count; otherwise the event for the drift is
    written to the durable ledger before the monitor, and when the event cannot
    be made or the ledger reports an error, the error is counted and returned
    and the runtime monitor is left as it was. *)
Theorem processJob_outcome c job env :
  let res := EvaluateDrift (AnchorVector job) (MutatedVector job) (Dimensions c) (Threshold c) in
  let (c', err) := processJob c job env in
  WsProcessed (Stats c') = u64 (WsProcessed (Stats c) + 1) /\
  match AxisPreserved res, eventForDrift job res env with
  | true, _ => c' = count c add_processed /\ err = None
  | false, Err e => c' = count (count c add_processed) add_errors /\ err = Some e
  | false, Ok event =>
      CoLedger c' = (append_if (CoLedger c) (ledger_io env) event).1 /\
      err = (append_if (CoLedger c) (ledger_io env) event).2 /\
      match err with
      | Some _ => CoMonitor c' = CoMonitor c /\
                  counters c' = add_errors (add_processed (counters c))
      | None => CoMonitor c' = publish_if (CoMonitor c) event (swap_time env) /\
                counters c' = add_quarantined (add_processed (counters c))
      end
  end.
Proof.
  intros res. unfold processJob. cbn [count CoLedger CoMonitor Dimensions Threshold].
  fold res. destruct (AxisPreserved res); [done|].
  destruct (eventForDrift job res env) as [event|e]; [|done].
  by destruct (append_if (CoLedger c) (ledger_io env) event) as [l [e|]].
Qed.

(** The branch of a detected drift that is recorded and published. *)
Lemma processJob_quarantines c job env l m event l' :
  let res := EvaluateDrift (AnchorVector job) (MutatedVector job) (Dimensions c) (Threshold c) in
  AxisPreserved res = false -> eventForDrift job res env = Ok event ->
  CoLedger c = Some l -> CoMonitor c = Some m ->
  Persistence.AppendEvent l (ledger_io env) event = (l', None) ->
  processJob c job env =
    (count (with_stores (count c add_processed) (Some l')
              (Some (publish m event (swap_time env)).1)) add_quarantined, None).
Proof.
  intros res Hp He Hl Hm Ha. unfold processJob.
  cbn [count CoLedger CoMonitor Dimensions Threshold]. fold res. rewrite Hp, He, Hl, Hm.
  cbn [append_if]. by rewrite Ha.
Qed.

(** Detected drift is blocked at once and survives a restart: when a job
    whose axis is not preserved is processed without error, the monitor no
    longer decides USE for the job's memory, and a ledger that replayed to
    [evs] now replays to [evs] and an event that quarantines this memory under
    the job's policy. *)
Theorem drift_is_quarantined_durably c job env l contents evs m c' :
  let res := EvaluateDrift (AnchorVector job) (MutatedVector job) (Dimensions c) (Threshold c) in
  AxisPreserved res = false ->
  CoLedger c = Some l -> file l = Some contents -> replayFrom contents = Ok evs ->
  CoMonitor c = Some m ->
  (forall event, eventForDrift job res env = Ok event -> json_ok event) ->
  processJob c job env = (c', None) ->
  exists l' m' event,
    CoLedger c' = Some l' /\ CoMonitor c' = Some m' /\
    RdDecision (Lookup m' (JobMemoryID job)) <> DecisionUse /\
    ReplayGenesis l' = Ok (evs ++ [event]) /\
    EvMemoryID event = JobMemoryID job /\ is_quarantine_type (EventType event) = true /\
    EvPolicyHash event = PolicySnapshot job.
Proof.
  intros res Hp Hl Hf Hr Hm Hj. unfold processJob.
  cbn [count CoLedger CoMonitor Dimensions Threshold]. fold res. rewrite Hp.
  destruct (eventForDrift job res env) as [event|e] eqn:Ee; [|done]. rewrite Hl, Hm.
  cbn [append_if]. destruct (Persistence.AppendEvent l (ledger_io env) event) as [l' [e|]] eqn:Ea;
    [done|]. intros [= <-].
  destruct (eventForDrift_facts _ _ _ _ Ee) as (Hid & Ht & Hpol).
  exists l', (publish m event (swap_time env)).1, event.
  split; [done|]. split; [done|]. split; [|split; [|done]].
  - rewrite <-Hid, publish_lookup. apply blocking_step.
    unfold blocking_type. by rewrite Ht, orb_true_r.
  - by apply (append_ok_replays l (ledger_io env) event contents); [..|apply Hj|].
Qed.

(** ** The queue and its workers *)

(** The coordinator with its goroutines: workers waiting at the [select],
    jobs being processed, workers that have returned, whether the context is
    done, and how many jobs clients have submitted. *)
Record worker_system := mkWorkers {
  co : DriftMonitorCoordinator;
  idle : nat;
  running : list MemoryTransformationJob;
  returned : nat;
  cancelled : bool;
  submitted : Z
}.

(** [NewDriftMonitorCoordinator] and [Start(ctx, workerCount)]. *)
Definition started (c : DriftMonitorCoordinator) (workerCount : Z) : worker_system :=
  mkWorkers c (if workerCount <=? 0 then 1 else Z.to_nat workerCount) [] 0 false 0.

(** [Wait] returns once every worker has. *)
Definition Wait (s : worker_system) : bool := (idle s =? 0)%nat && (length (running s) =? 0)%nat.

(** A move of a worker: a branch of its [select], or the end of its job. *)
Inductive worker_move : worker_system -> worker_system -> Prop :=
| w_receive s i job q :
    idle s = S i -> JobQueue (co s) = job :: q ->
    worker_move s (mkWorkers (with_queue (co s) q (queue_closed (co s))) i (job :: running s)
                     (returned s) (cancelled s) (submitted s))
| w_process s before job after env :
    running s = before ++ job :: after ->
    worker_move s (mkWorkers (processJob (co s) job env).1 (S (idle s)) (before ++ after)
                     (returned s) (cancelled s) (submitted s))
| w_return_closed s i :
    idle s = S i -> JobQueue (co s) = [] -> queue_closed (co s) = true ->
    worker_move s (mkWorkers (co s) i (running s) (S (returned s)) (cancelled s) (submitted s))
| w_return_cancelled s i :
    idle s = S i -> cancelled s = true ->
    worker_move s (mkWorkers (co s) i (running s) (S (returned s)) (cancelled s) (submitted s)).

(** A move, or something the clients do. *)
Inductive worker_step : worker_system -> worker_system -> Prop :=
| w_submit s job c' ok :
    SubmitNonBlocking (co s) job = Returns (c', ok) ->
    worker_step s (mkWorkers c' (idle s) (running s) (returned s) (cancelled s) (submitted s + 1))
| w_stop s c' :
    StopAccepting (co s) = Returns c' ->
    worker_step s (mkWorkers c' (idle s) (running s) (returned s) (cancelled s) (submitted s))
| w_cancel s :
    worker_step s (mkWorkers (co s) (idle s) (running s) (returned s) true (submitted s))
| w_moved s s' : worker_move s s' -> worker_step s s'.

(** Every submitted job is dropped, queued, running or processed; the queue
    stays within its capacity; without cancellation a worker only returns once
    the closed queue is empty. *)
Definition workers_inv (n : nat) (s : worker_system) : Prop :=
  u64 (submitted s) = u64 (WsProcessed (Stats (co s)) + WsDropped (Stats (co s)) +
                           Z.of_nat (length (JobQueue (co s))) + Z.of_nat (length (running s))) /\
  Z.of_nat (length (JobQueue (co s))) <= queue_cap (co s) /\
  (idle s + length (running s) + returned s = n)%nat /\
  (cancelled s = false -> returned s <> 0%nat ->
     queue_closed (co s) = true /\ JobQueue (co s) = []).

Lemma processJob_fixed c job env :
  let c' := (processJob c job env).1 in
  JobQueue c' = JobQueue c /\ queue_cap c' = queue_cap c /\ queue_closed c' = queue_closed c /\
  WsDropped (Stats c') = WsDropped (Stats c) /\
  WsProcessed (Stats c') = u64 (WsProcessed (Stats c) + 1).
Proof.
  unfold processJob. cbn [count CoLedger CoMonitor Dimensions Threshold].
  destruct (AxisPreserved _); [done|]. destruct (eventForDrift _ _ _) as [event|e]; [|done].
  by destruct (append_if _ _ _) as [l [e|]].
Qed.

Lemma worker_step_inv n s s' : worker_step s s' -> workers_inv n s -> workers_inv n s'.
Proof.
  intros Hstep (Hc & Hq & Hn & Hr). destruct Hstep as
    [s job c' ok E|s c' E|s|s0 s1 [s i job q Hi Hjq|s b job a env Hrun|s i Hi Hjq Hcl|s i Hi Hcan]].
  - unfold SubmitNonBlocking in E. destruct (queue_closed (co s)) eqn:Hclosed; [done|].
    assert (forall P : Prop, cancelled s = false -> returned s <> 0%nat -> P) as Hno
      by (intros P Hca Hre; by destruct (Hr Hca Hre)).
    destruct (Z.ltb_spec (Z.of_nat (length (JobQueue (co s)))) (queue_cap (co s))) as [Hlt|Hge];
      injection E as <- <-; refine (conj _ (conj _ (conj Hn (Hno _)))); cbn; [|rewrite length_app; cbn; lia| |done].
    + rewrite (u64_plus _ _ _ Hc), length_app. f_equal. cbn. unfold Stats. lia.
    + rewrite (u64_plus _ _ _ Hc), (Z.add_comm _ (u64 _)), <-!Z.add_assoc, u64_add_l.
      f_equal. unfold Stats. lia.
  - unfold StopAccepting in E. destruct (queue_closed (co s)); [done|]. injection E as <-.
    refine (conj Hc (conj Hq (conj Hn _))). intros Hca Hre. by destruct (Hr Hca Hre).
  - refine (conj Hc (conj Hq (conj Hn _))). done.
  - rewrite Hjq in *. cbn in Hc, Hq. refine (conj _ (conj _ (conj _ _))); cbn; [|lia|lia|].
    + rewrite Hc. f_equal. unfold Stats. lia.
    + intros Hca Hre. by destruct (Hr Hca Hre).
  - destruct (processJob_fixed (co s) job env) as (Eq & Ecap & Ecl & Ed & Ep).
    rewrite Hrun, length_app in Hc, Hn. cbn [length] in Hc, Hn.
    refine (conj _ (conj _ (conj _ _))); cbn [co running idle returned cancelled submitted];
      rewrite ?Eq, ?Ecap, ?Ecl, ?Ed, ?Ep, ?length_app; [|done|lia|done].
    rewrite Hc, <-!Z.add_assoc, u64_add_l. f_equal. lia.
  - refine (conj Hc (conj Hq (conj _ _))); cbn; [lia|done].
  - refine (conj Hc (conj Hq (conj _ _))); cbn; [lia|congruence].
Qed.

Lemma reachable_inv ledger monitor dims threshold queueBuffer workerCount s :
  rtc worker_step
    (started (NewDriftMonitorCoordinator ledger monitor dims threshold queueBuffer) workerCount) s ->
  exists n, n <> 0%nat /\ workers_inv n s.
Proof.
  intros Hs. set (s0 := started _ _) in Hs. exists (idle s0). split.
  { unfold s0, started. cbn. destruct (Z.leb_spec workerCount 0); lia. }
  assert (workers_inv (idle s0) s0) as Hinit.
  { unfold s0, workers_inv. cbn. refine (conj _ (conj _ (conj _ _))); try done; try lia.
    destruct (Z.leb_spec queueBuffer 0); lia. }
  revert Hinit. generalize (idle s0) as n. clearbody s0.
  induction Hs; eauto using worker_step_inv.
Qed.

(** No job is lost by the worker pool: in every reachable state the number
    of submitted jobs is, modulo 2^64, the number dropped, queued, being
    processed or processed, and the queue is within its capacity; and once all
    workers have returned without the context being cancelled, the queue is
    empty, so every job that was not counted as dropped was processed. *)
Theorem worker_pool_conservation ledger monitor dims threshold queueBuffer workerCount s :
  rtc worker_step
    (started (NewDriftMonitorCoordinator ledger monitor dims threshold queueBuffer) workerCount) s ->
  let st := Stats (co s) in
  u64 (submitted s) = u64 (WsProcessed st + WsDropped st +
                           Z.of_nat (length (JobQueue (co s))) + Z.of_nat (length (running s))) /\
  Z.of_nat (length (JobQueue (co s))) <= queue_cap (co s) /\
  (idle s = 0%nat -> running s = [] -> cancelled s = false ->
     JobQueue (co s) = [] /\ u64 (submitted s) = u64 (WsProcessed st + WsDropped st)).
Proof.
  intros Hs%reachable_inv st. destruct Hs as (n & Hn0 & Hc & Hq & Hn & Hr).
  split; [done|]. split; [done|]. intros Hi Hrun Hca. rewrite Hi, Hrun in Hn. cbn in Hn.
  assert (returned s <> 0%nat) as Hret by lia.
  destruct (Hr Hca Hret) as [_ Hempty]. split; [done|].
  rewrite Hc, Hempty, Hrun. unfold st. f_equal. cbn [length Z.of_nat]. lia.
Qed.
(** *** Shutdown *)

(** The moves workers can still make, at most. *)
Definition pool_work (s : worker_system) : nat :=
  3 * length (JobQueue (co s)) + 2 * length (running s) + idle s.

Lemma worker_move_work s s' : worker_move s s' -> (pool_work s' < pool_work s)%nat.
Proof.
  unfold pool_work. intros [s0 i job q Hi Hq|s0 b job a env Hrun|s0 i Hi Hq Hcl|s0 i Hi Hca];
    cbn [co idle running with_queue JobQueue]; rewrite ?Hi; try lia.
  - rewrite Hq. cbn [length]. lia.
  - destruct (processJob_fixed (co s0) job env) as (-> & _). rewrite Hrun, !length_app. cbn [length]. lia.
Qed.

Lemma worker_moves_work k s s' : nsteps worker_move k s s' -> (k + pool_work s' <= pool_work s)%nat.
Proof. induction 1 as [|k s s1 s2 Hm%worker_move_work _ IH]; lia. Qed.

Lemma worker_move_keeps s s' :
  worker_move s s' ->
  queue_closed (co s') = queue_closed (co s) /\ cancelled s' = cancelled s /\ submitted s' = submitted s.
Proof.
  intros [s0 i job q Hi Hq|s0 b job a env Hrun|s0 i Hi Hq Hcl|s0 i Hi Hca]; try done.
  cbn. by destruct (processJob_fixed (co s0) job env) as (_ & _ & -> & _).
Qed.

(** With the queue closed, some worker can move until all have returned. *)
Lemma worker_progress s :
  queue_closed (co s) = true -> Wait s = true \/ exists s', worker_move s s'.
Proof.
  intros Hcl. unfold Wait. destruct (running s) as [|job rest] eqn:Hrun.
  - destruct (idle s) as [|i] eqn:Hi; [by left|]. right.
    destruct (JobQueue (co s)) as [|job q] eqn:Hq; eexists.
    + by eapply w_return_closed.
    + by eapply w_receive.
  - right. eexists. exact (w_process s [] job rest (mkJobEnv None 0 0 (fun _ => IoOk)) Hrun).
Qed.

Lemma worker_moves_inv n s s' :
  rtc worker_move s s' -> workers_inv n s ->
  workers_inv n s' /\ queue_closed (co s') = queue_closed (co s) /\
  cancelled s' = cancelled s /\ submitted s' = submitted s.
Proof.
  induction 1 as [s|s s1 s2 Hm _ IH]; intros Hinv; [done|].
  destruct (worker_move_keeps _ _ Hm) as (<- & <- & <-). apply IH.
  by apply (worker_step_inv n s s1 (w_moved _ _ Hm)).
Qed.

(** Shutdown drains the queue: once the queue is closed, the workers make at
    most three moves a queued job, two a running one and one each, whatever the
    interleaving, and can always move until [Wait] returns; and when it does, if
    the context was not cancelled, every submitted job was processed or had
    been dropped. *)
Theorem worker_pool_shuts_down ledger monitor dims threshold queueBuffer workerCount s :
  rtc worker_step
    (started (NewDriftMonitorCoordinator ledger monitor dims threshold queueBuffer) workerCount) s ->
  queue_closed (co s) = true ->
  (forall k s', nsteps worker_move k s s' ->
     (k <= 3 * length (JobQueue (co s)) + 2 * length (running s) + idle s)%nat) /\
  (forall s', rtc worker_move s s' -> (forall s'', ~ worker_move s' s'') -> Wait s' = true) /\
  (forall s', rtc worker_move s s' -> Wait s' = true -> cancelled s = false ->
     JobQueue (co s') = [] /\
     u64 (submitted s) = u64 (WsProcessed (Stats (co s')) + WsDropped (Stats (co s')))) /\
  exists s', rtc worker_move s s' /\ Wait s' = true.
Proof.
  intros (n & Hn0 & Hinv)%reachable_inv Hcl. split_and!.
  - intros k s' Hk%worker_moves_work. unfold pool_work in Hk. lia.
  - intros s' Hs Hno. destruct (worker_moves_inv n s s' Hs Hinv) as (_ & Hcl' & _).
    destruct (worker_progress s') as [|[s'' Hm]]; [congruence|done|by destruct (Hno s'')].
  - intros s' Hs Hw Hca. destruct (worker_moves_inv n s s' Hs Hinv) as ((Hc & _ & Hn & Hr) & _ & Eca & <-).
    unfold Wait in Hw. apply andb_true_iff in Hw as [Hi%Nat.eqb_eq Hrun%Nat.eqb_eq].
    rewrite Eca in Hr. destruct (Hr Hca ltac:(lia)) as [_ Hq]. split; [exact Hq|].
    rewrite Hc, Hq, Hrun. cbn [length Z.of_nat]. f_equal. lia.
  - induction s as [s IH] using (well_founded_induction (well_founded_ltof _ pool_work)).
    destruct (worker_progress s Hcl) as [Hw|[s1 Hm]]; [by exists s|].
    destruct (IH s1 (worker_move_work _ _ Hm)) as (s' & Hs & Hw).
    + by apply (worker_step_inv n s s1 (w_moved _ _ Hm)).
    + by destruct (worker_move_keeps _ _ Hm) as (-> & _).
    + exists s'. split; [by eapply rtc_l|exact Hw].
Qed.
End processing.

(** ** Examples *)

Section examples.
#[local] Existing Instance SmallGo.small_slice_sort.
#[local] Existing Instance SmallGo.trie_map_range.
#[local] Existing Instance Persistence.compact_codec.

Definition ex_job : MemoryTransformationJob :=
  mkJob (mem x11) ex_anchor ex_trust_drift "operator" "source" (zero_array 32).
Definition ex_env : job_env :=
  mkJobEnv (Some (copy_into 16 [x07])) 1700000000000000000 3 (fun _ => IoOk).
Definition ex_coordinator : DriftMonitorCoordinator :=
  NewDriftMonitorCoordinator (Some (mkFileLedger (Some ex_log) "wal"))
    (Some (NewRuntimeMonitor 0)) DefaultDimensions ex_threshold 2.

Lemma drift_is_quarantined_durably_witness :
  exists c' l' m' event,
    processJob ex_coordinator ex_job ex_env = (c', None) /\
    CoLedger c' = Some l' /\ CoMonitor c' = Some m' /\
    RdDecision (Lookup m' (JobMemoryID ex_job)) <> DecisionUse /\
    ReplayGenesis l' = Ok ([ex_q] ++ [event]) /\
    EvMemoryID event = JobMemoryID ex_job /\ is_quarantine_type (EventType event) = true /\
    EvPolicyHash event = PolicySnapshot ex_job.
Proof.
  assert ((processJob ex_coordinator ex_job ex_env).2 = None) as Hok by (vm_compute; reflexivity).
  destruct (processJob ex_coordinator ex_job ex_env) as [c' err] eqn:E. cbn [snd] in Hok. subst err.
  exists c'.
  destruct (drift_is_quarantined_durably ex_coordinator ex_job ex_env
    (mkFileLedger (Some ex_log) "wal") ex_log [ex_q] (NewRuntimeMonitor 0) c') as (l' & m' & event & Hall).
  - vm_compute. reflexivity.
  - reflexivity.
  - reflexivity.
  - apply (bool_decide_unpack _). vm_compute. exact I.
  - reflexivity.
  - intros event Ee. vm_compute in Ee. injection Ee as <-. vm_compute. reflexivity.
  - exact E.
  - exists l', m', event. split; [reflexivity|exact Hall].
Defined.

Lemma worker_pool_conservation_witness :
  let s := mkWorkers (with_queue ex_coordinator [] false) 0 [ex_job] 0 false 1 in
  let st := Stats (co s) in
  u64 (submitted s) = u64 (WsProcessed st + WsDropped st +
                           Z.of_nat (length (JobQueue (co s))) + Z.of_nat (length (running s))) /\
  Z.of_nat (length (JobQueue (co s))) <= queue_cap (co s) /\
  (idle s = 0%nat -> running s = [] -> cancelled s = false ->
     JobQueue (co s) = [] /\ u64 (submitted s) = u64 (WsProcessed st + WsDropped st)).
Proof.
  intros s.
  refine (worker_pool_conservation (Some (mkFileLedger (Some ex_log) "wal"))
    (Some (NewRuntimeMonitor 0)) DefaultDimensions ex_threshold 2 1 s _).
  eapply rtc_l; [by eapply (w_submit _ ex_job)|].
  eapply rtc_l; [by eapply w_moved, w_receive|]. apply rtc_refl.
Defined.

(** A job is queued when the queue is closed. *)
Lemma worker_pool_shuts_down_witness :
  let s := mkWorkers (with_queue ex_coordinator [ex_job] true) 1 [] 0 false 1 in
  exists s', rtc worker_move s s' /\ Wait s' = true /\ JobQueue (co s') = [].
Proof.
  intros s.
  destruct (worker_pool_shuts_down (Some (mkFileLedger (Some ex_log) "wal"))
    (Some (NewRuntimeMonitor 0)) DefaultDimensions ex_threshold 2 1 s) as (_ & _ & Hd & s' & Hs & Hw).
  - eapply rtc_l; [by eapply (w_submit _ ex_job)|]. eapply rtc_l; [by eapply w_stop|]. apply rtc_refl.
  - reflexivity.
  - exists s'. split; [exact Hs|]. split; [exact Hw|]. exact (proj1 (Hd s' Hs Hw eq_refl)).
Defined.
End examples.
