(* ===== verification/Gateway.v ===== *)
(** * The enforcement gateway ([pkg/gateway])

    [SanitizeContextWindow] rules on every memory bound to a message of the
    context window and strips the messages whose memory is not admissible; the
    adapters turn the sanitized window into a provider's payload.  The monitor
    and the profile cache are shared with other goroutines, so the model lets
    each binding read its own state of both. *)
From S2P Require Import Prelude Sha256 Bitmask Tenant Evaluate Merkle Quarantine Monitor.

Definition TombstoneRefresh : string := "[VERAXIS: MEMORY_REFRESH_REQUIRED - CONTENT_STRIPPED]".
Definition TombstoneEscalate : string := "[VERAXIS: MEMORY_ESCALATION_REQUIRED - CONTENT_STRIPPED]".
Definition TombstoneRefuse : string := "[VERAXIS: MEMORY_ADMISSIBILITY_DENIED - CONTENT_STRIPPED]".
Definition TombstoneIgnore : string := "[VERAXIS: MEMORY_IGNORED - CONTENT_STRIPPED]".
Definition TombstoneQuarantine : string := "[VERAXIS: MEMORY_QUARANTINED - CONTENT_STRIPPED]".
Definition TombstoneDeleteRequested : string :=
  "[VERAXIS: MEMORY_DELETION_REQUESTED - CONTENT_STRIPPED]".
Definition TombstoneHardRefuse : string :=
  "[VERAXIS: HARD_REFUSE_BOUNDARY_VIOLATION - CONTENT_STRIPPED]".

Record LLMMessage := mkMessage { Role : string; Content : string }.

Record MemoryContextBinding := mkBinding {
  BMemoryID : array 16;
  BMemoryHash : array 32;
  MessageIdx : Z
}.

Record MemoryProfile := mkProfile {
  PMemoryID : array 16;
  TenantHash : IDHash;
  DomainHash : IDHash;
  Flags : Z;
  UsageConstraints : string
}.

#[global] Instance LLMMessage_eq_dec : EqDecision LLMMessage.
Proof. solve_decision. Defined.

(** [w.Profiles] and [w.RuntimeMonitor] may be nil; both are indexed by the
    binding at whose turn they are read. *)
Record ClientWrapper := mkWrapper {
  Profiles : option (nat -> array 16 -> option MemoryProfile);
  WPolicyHash : array 32;
  WRuntimeMonitor : option (nat -> RuntimeMonitor)
}.

Definition newline : string := String (Ascii.ascii_of_N 10) EmptyString.

Definition annotateConstraints (content constraints : string) : string :=
  let constraints := if bool_decide (constraints = "")
                     then "qualified memory; restricted downstream use" else constraints in
  "[VERAXIS QUALIFIED MEMORY: " +:+ constraints +:+ "]" +:+ newline +:+ content.

Definition hashReason (reason : string) : array 32 := Sum256 (bytes_of reason).

Definition leaf (w : ClientWrapper) (binding : MemoryContextBinding) (decision : Z)
    (injected : bool) (reason : string) : LeafRecord :=
  mkLeaf (BMemoryID binding) (BMemoryHash binding) (u8 decision) injected (WPolicyHash w)
    (hashReason reason).

(** [sanitized[idx].Content = content] *)
Definition set_content (idx : nat) (content : string) (msgs : list LLMMessage) : list LLMMessage :=
  alter (fun m => mkMessage (Role m) content) idx msgs.

Definition content_at (idx : nat) (msgs : list LLMMessage) : string :=
  match msgs !! idx with Some m => Content m | None => "" end.

(** The decision for a binding whose profile is known. *)
Definition binding_decision (w : ClientWrapper) (i : nat) (runtimeTenant runtimeDomain : IDHash)
    (mask : EvaluationMask) (memoryID : array 16) (profile : MemoryProfile) : Z * string :=
  let hot_path := EvaluateMemoryHotPath runtimeTenant (TenantHash profile) runtimeDomain
                    (DomainHash profile) (Flags profile) mask in
  let '(decision, reason) :=
    if negb (ValidateTenant (TenantHash profile) runtimeTenant) then
      (DecisionHardRefuse, ReasonTenantMismatch)
    else if negb (ValidateDomain (DomainHash profile) runtimeDomain) then
      (DecisionRefuse, ReasonDomainMismatch)
    else match WRuntimeMonitor w with
    | Some monitor =>
        let runtimeDecision := Lookup (monitor i) memoryID in
        if negb (RdDecision runtimeDecision =? DecisionUse)
        then (RdDecision runtimeDecision, RdReason runtimeDecision)
        else hot_path
    | None => hot_path
    end in
  if (decision =? DecisionUse) && negb (bool_decide (UsageConstraints profile = ""))
  then (DecisionQualify, "QUALIFIED_USE_ONLY")
  else (decision, reason).

(** The switch: the content of the message after the decision, whether it is
    injected, and the decision and reason that go to the leaf. *)
Definition enforce (decision : Z) (reason constraints content : string)
    : string * (Z * bool * string) :=
  if decision =? DecisionUse then (content, (decision, true, reason))
  else if decision =? DecisionQualify then
    (annotateConstraints content constraints, (decision, true, reason))
  else if decision =? DecisionRefresh then (TombstoneRefresh, (decision, false, reason))
  else if decision =? DecisionEscalate then (TombstoneEscalate, (decision, false, reason))
  else if decision =? DecisionRefuse then (TombstoneRefuse, (decision, false, reason))
  else if decision =? DecisionIgnore then (TombstoneIgnore, (decision, false, reason))
  else if decision =? DecisionQuarantine then (TombstoneQuarantine, (decision, false, reason))
  else if decision =? DecisionDeleteRequested then
    (TombstoneDeleteRequested, (decision, false, reason))
  else if decision =? DecisionHardRefuse then (TombstoneHardRefuse, (decision, false, reason))
  else (TombstoneHardRefuse, (DecisionHardRefuse, false, "UNKNOWN_DECISION_FAIL_CLOSED")).

Definition out_of_range (n : nat) (binding : MemoryContextBinding) : bool :=
  (MessageIdx binding <? 0) || (Z.of_nat n <=? MessageIdx binding).

(** The body of the loop over the bindings. *)
Definition sanitize_binding (w : ClientWrapper) (profiles : nat -> array 16 -> option MemoryProfile)
    (runtimeTenant runtimeDomain : IDHash) (mask : EvaluationMask) (i : nat)
    (binding : MemoryContextBinding) (st : list LLMMessage * list LeafRecord)
    : list LLMMessage * list LeafRecord :=
  let '(sanitized, leaves) := st in
  if out_of_range (length sanitized) binding then
    (sanitized, leaves ++ [leaf w binding DecisionHardRefuse false ReasonMemoryProfileMissing])
  else
  let idx := Z.to_nat (MessageIdx binding) in
  match profiles i (BMemoryID binding) with
  | None =>
      (set_content idx TombstoneHardRefuse sanitized,
       leaves ++ [leaf w binding DecisionHardRefuse false ReasonMemoryProfileMissing])
  | Some profile =>
      let '(decision, reason) :=
        binding_decision w i runtimeTenant runtimeDomain mask (BMemoryID binding) profile in
      let '(content, (decision, injected, reason)) :=
        enforce decision reason (UsageConstraints profile) (content_at idx sanitized) in
      (set_content idx content sanitized, leaves ++ [leaf w binding decision injected reason])
  end.

Fixpoint sanitize_bindings (w : ClientWrapper) (profiles : nat -> array 16 -> option MemoryProfile)
    (runtimeTenant runtimeDomain : IDHash) (mask : EvaluationMask) (i : nat)
    (bindings : list MemoryContextBinding) (st : list LLMMessage * list LeafRecord)
    : list LLMMessage * list LeafRecord :=
  match bindings with
  | [] => st
  | b :: rest =>
      sanitize_bindings w profiles runtimeTenant runtimeDomain mask (S i) rest
        (sanitize_binding w profiles runtimeTenant runtimeDomain mask i b st)
  end.

Definition SanitizeContextWindow (w : option ClientWrapper) (ctx_err : option error)
    (runtimeTenant runtimeDomain : IDHash) (mask : EvaluationMask)
    (messages : list LLMMessage) (bindings : list MemoryContextBinding)
    : result (list LLMMessage * list LeafRecord) :=
  match ctx_err with
  | Some err => Err err
  | None =>
      match w with
      | None => Err (errors_New "INVALID_GATEWAY: profile cache required")
      | Some w =>
          match Profiles w with
          | None => Err (errors_New "INVALID_GATEWAY: profile cache required")
          | Some profiles =>
              Ok (sanitize_bindings w profiles runtimeTenant runtimeDomain mask 0 bindings
                    (messages, []))
          end
      end
  end.

(** ** Provider adapters *)

Record OpenAIRequestPayload := mkOpenAI { OaModel : string; OaMessages : list (string * string) }.

(** [(a *OpenAIAdapter) Convert]; a message is its role and content. *)
Definition OpenAI_Convert (modelName : string) (messages : list LLMMessage)
    : OpenAIRequestPayload :=
  mkOpenAI modelName ((fun m => (Role m, Content m)) <$> messages).

Record AnthropicRequestPayload := mkAnthropic {
  AnModel : string; AnSystem : string; AnMessages : list (string * string)
}.

Fixpoint anthropic_loop (messages : list LLMMessage) (systemPrompt : string)
    (acc : list (string * string)) : result (string * list (string * string)) :=
  match messages with
  | [] => Ok (systemPrompt, acc)
  | msg :: rest =>
      if bool_decide (Role msg = "system") then
        let systemPrompt := if bool_decide (systemPrompt <> "")
          then systemPrompt +:+ newline +:+ Content msg else Content msg in
        anthropic_loop rest systemPrompt acc
      else if bool_decide (Role msg <> "user") && bool_decide (Role msg <> "assistant") then
        Err (errors_New "ANTHROPIC_PROVIDER_ERR: role must be user or assistant")
      else anthropic_loop rest systemPrompt (acc ++ [(Role msg, Content msg)])
  end.

(** [(a *AnthropicAdapter) Convert] *)
Definition Anthropic_Convert (modelName : string) (messages : list LLMMessage)
    : result AnthropicRequestPayload :=
  let! (systemPrompt, msgs) := anthropic_loop messages "" [] in
  Ok (mkAnthropic modelName systemPrompt msgs).

(** ** What the loop does, message by message *)

Section window.
Context (w : ClientWrapper) (profiles : nat -> array 16 -> option MemoryProfile)
        (rt rd : IDHash) (mask : EvaluationMask).

(** The ruling on the [i]-th binding: the profile decides alone, the messages'
    contents play no part. *)
Definition ruling (i : nat) (b : MemoryContextBinding) : Z * bool * string :=
  match profiles i (BMemoryID b) with
  | None => (DecisionHardRefuse, false, ReasonMemoryProfileMissing)
  | Some p =>
      let '(d, r) := binding_decision w i rt rd mask (BMemoryID b) p in
      (enforce d r (UsageConstraints p) "").2
  end.

Definition rewrite_content (i : nat) (b : MemoryContextBinding) (content : string) : string :=
  match profiles i (BMemoryID b) with
  | None => TombstoneHardRefuse
  | Some p =>
      let '(d, r) := binding_decision w i rt rd mask (BMemoryID b) p in
      (enforce d r (UsageConstraints p) content).1
  end.

Definition ruling_leaf (n i : nat) (b : MemoryContextBinding) : LeafRecord :=
  let '(d, injected, r) :=
    if out_of_range n b then (DecisionHardRefuse, false, ReasonMemoryProfileMissing)
    else ruling i b in
  leaf w b d injected r.

Definition rewrite_message (i : nat) (b : MemoryContextBinding) (j : nat) (m : LLMMessage)
    : LLMMessage :=
  if bool_decide (MessageIdx b = Z.of_nat j) then
    mkMessage (Role m) (rewrite_content i b (Content m))
  else m.

(** The [j]-th message after the bindings from the [i]-th on. *)
Fixpoint rewrite_all (i : nat) (bs : list MemoryContextBinding) (j : nat) (m : LLMMessage)
    : LLMMessage :=
  match bs with
  | [] => m
  | b :: bs => rewrite_all (S i) bs j (rewrite_message i b j m)
  end.

Lemma enforce_ruling d r cs content : (enforce d r cs content).2 = (enforce d r cs "").2.
Proof. unfold enforce. by split_ifs. Qed.

Lemma out_of_range_false n b :
  out_of_range n b = false <-> 0 <= MessageIdx b < Z.of_nat n.
Proof. unfold out_of_range. rewrite orb_false_iff, Z.ltb_ge, Z.leb_gt. lia. Qed.

Lemma sanitize_binding_unfold i b msgs leaves :
  sanitize_binding w profiles rt rd mask i b (msgs, leaves)
  = (imap (rewrite_message i b) msgs, leaves ++ [ruling_leaf (length msgs) i b]).
Proof.
  unfold sanitize_binding, ruling_leaf, rewrite_message, ruling, rewrite_content.
  destruct (out_of_range (length msgs) b) eqn:Hr.
  - f_equal. symmetry. apply list_eq. intros j. rewrite list_lookup_imap.
    destruct (msgs !! j) as [m|] eqn:Hj; [|done]. cbn.
    case_bool_decide as E; [|done]. apply lookup_lt_Some in Hj.
    assert (out_of_range (length msgs) b = false) as Hf by (apply out_of_range_false; lia).
    congruence.
  - apply out_of_range_false in Hr.
    assert (forall f, set_content (Z.to_nat (MessageIdx b)) (f (content_at (Z.to_nat (MessageIdx b)) msgs)) msgs
      = imap (fun j m => if bool_decide (MessageIdx b = Z.of_nat j)
                         then mkMessage (Role m) (f (Content m)) else m) msgs) as Hset.
    { intros f. apply list_eq. intros j. rewrite list_lookup_imap. unfold set_content, content_at.
      destruct (decide (j = Z.to_nat (MessageIdx b))) as [->|Hne].
      - rewrite list_lookup_alter_eq. destruct (msgs !! _); [|done]. cbn.
        by rewrite bool_decide_eq_true_2 by lia.
      - rewrite list_lookup_alter_ne by done. destruct (msgs !! j); [|done]. cbn.
        by rewrite bool_decide_eq_false_2 by lia. }
    destruct (profiles i (BMemoryID b)) as [p|].
    + destruct (binding_decision _ _ _ _ _ _ _) as [d r].
      destruct (enforce d r (UsageConstraints p) (content_at _ _)) as [c [[d' inj] r']] eqn:E.
      rewrite <-(enforce_ruling d r _ (content_at (Z.to_nat (MessageIdx b)) msgs)), E.
      cbn [snd]. f_equal.
      rewrite <-(Hset (fun c => (enforce d r (UsageConstraints p) c).1)). by rewrite E.
    + f_equal. by rewrite <-(Hset (fun _ => TombstoneHardRefuse)).
Qed.

Lemma sanitize_bindings_unfold bs i msgs leaves :
  sanitize_bindings w profiles rt rd mask i bs (msgs, leaves)
  = (imap (rewrite_all i bs) msgs, leaves ++ imap (fun k => ruling_leaf (length msgs) (i + k)) bs).
Proof.
  revert i msgs leaves. induction bs as [|b bs IH]; intros i msgs leaves; cbn [sanitize_bindings].
  - rewrite app_nil_r. f_equal. apply list_eq. intros j. rewrite list_lookup_imap.
    by destruct (msgs !! j).
  - rewrite sanitize_binding_unfold, IH, length_imap. f_equal.
    + apply list_eq. intros j. rewrite !list_lookup_imap. by destruct (msgs !! j).
    + cbn [imap]. rewrite <-app_assoc, Nat.add_0_r. cbn. do 2 f_equal.
      apply imap_ext. intros k x _. unfold compose. by rewrite Nat.add_succ_r.
Qed.

Lemma rewrite_all_role i bs j m : Role (rewrite_all i bs j m) = Role m.
Proof.
  revert i m. induction bs as [|b bs IH]; intros i m; [done|]. cbn. rewrite IH.
  unfold rewrite_message. by case_bool_decide.
Qed.

Lemma rewrite_all_unbound i bs j m :
  Forall (fun b => MessageIdx b <> Z.of_nat j) bs -> rewrite_all i bs j m = m.
Proof.
  intros Hf. revert i m. induction Hf as [|b bs Hb Hf IH]; intros i m; [done|]. cbn. rewrite IH.
  unfold rewrite_message. by rewrite bool_decide_eq_false_2.
Qed.

(** A refusal replaces the content by a constant. *)
Lemma rewrite_content_refused i b c c' :
  (ruling i b).1.2 = false -> rewrite_content i b c = rewrite_content i b c'.
Proof.
  unfold ruling, rewrite_content. destruct (profiles i (BMemoryID b)) as [p|]; [|done].
  destruct (binding_decision _ _ _ _ _ _ _) as [d r]. unfold enforce. by split_ifs.
Qed.

Lemma rewrite_all_refused i bs j m m' k b :
  bs !! k = Some b -> MessageIdx b = Z.of_nat j -> (ruling (i + k) b).1.2 = false ->
  Role m = Role m' -> rewrite_all i bs j m = rewrite_all i bs j m'.
Proof.
  revert i k m m'. induction bs as [|b' bs IH]; intros i [|k] m m' Hk Hj Hr Hrole; try done.
  - injection Hk as ->. cbn. f_equal. unfold rewrite_message.
    rewrite bool_decide_eq_true_2, Hrole by done. f_equal. rewrite Nat.add_0_r in Hr.
    by apply rewrite_content_refused.
  - cbn. apply (IH _ k); [done|done|by rewrite Nat.add_succ_comm|].
    unfold rewrite_message. by case_bool_decide.
Qed.

Lemma ruling_leaf_injected n i b :
  Injected (ruling_leaf n i b) = negb (out_of_range n b) && (ruling i b).1.2.
Proof.
  unfold ruling_leaf. destruct (out_of_range n b); [done|].
  by destruct (ruling i b) as [[d inj] r].
Qed.

Lemma lookup_ruling_leaf n bs k l :
  imap (fun k => ruling_leaf n (0 + k)) bs !! k = Some l ->
  exists b, bs !! k = Some b /\ l = ruling_leaf n k b.
Proof.
  rewrite list_lookup_imap. destruct (bs !! k) as [b|]; [|done]. intros [= <-]. by exists b.
Qed.
End window.

(** A wrapper that is set up, with its profile cache. *)
Definition ready (w : ClientWrapper) (profiles : nat -> array 16 -> option MemoryProfile) : Prop :=
  Profiles w = Some profiles.

Lemma sanitize_ok w profiles rt rd mask messages bindings :
  ready w profiles ->
  SanitizeContextWindow (Some w) None rt rd mask messages bindings
  = Ok (imap (rewrite_all w profiles rt rd mask 0 bindings) messages,
        imap (fun k => ruling_leaf w profiles rt rd mask (length messages) (0 + k)) bindings).
Proof.
  intros Hw. unfold SanitizeContextWindow. rewrite Hw. by rewrite sanitize_bindings_unfold.
Qed.

Lemma sanitize_roles w profiles rt rd mask bindings messages :
  Role <$> imap (rewrite_all w profiles rt rd mask 0 bindings) messages = Role <$> messages.
Proof.
  apply list_eq. intros j. rewrite !list_lookup_fmap, list_lookup_imap.
  destruct (messages !! j); [|done]. cbn. by rewrite rewrite_all_role.
Qed.

(** C40. What sanitizing a window does, on every branch.  With a context that is done
    it returns the context's error; without a wrapper or a profile cache, the error
    that says so.  Else it accounts for every binding and touches nothing else: it
    succeeds, keeps the number, the order and the roles of the messages, returns one
    leaf per binding, in order, carrying the binding's memory and the wrapper's
    policy, and leaves a message to which no binding points as it was. *)
Theorem sanitize_accounts wrapper ctx_err rt rd mask messages bindings :
  let out := SanitizeContextWindow wrapper ctx_err rt rd mask messages bindings in
  (forall err, ctx_err = Some err -> out = Err err) /\
  (ctx_err = None -> wrapper = None \/ (exists w, wrapper = Some w /\ Profiles w = None) ->
     out = Err (errors_New "INVALID_GATEWAY: profile cache required")) /\
  (forall w profiles, ctx_err = None -> wrapper = Some w -> ready w profiles ->
     exists sanitized leaves, out = Ok (sanitized, leaves) /\
       Role <$> sanitized = Role <$> messages /\
       Forall2 (fun b l => MemoryID l = BMemoryID b /\ MemoryHash l = BMemoryHash b /\
                           PolicyHash l = WPolicyHash w) bindings leaves /\
       forall j, Forall (fun b => MessageIdx b <> Z.of_nat j) bindings ->
         sanitized !! j = messages !! j).
Proof.
  cbv zeta. split; [by intros err ->|]. split.
  { intros -> [->|(w & -> & Hp)]; [done|]. unfold SanitizeContextWindow. by rewrite Hp. }
  intros w profiles -> -> Hw. rewrite (sanitize_ok w profiles) by done. do 2 eexists. split; [reflexivity|].
  split; [apply sanitize_roles|]. split.
  - apply Forall2_same_length_lookup_2; [by rewrite length_imap|].
    intros k b l Hb Hl. apply lookup_ruling_leaf in Hl as (b' & Hb' & ->).
    rewrite Hb in Hb'. injection Hb' as <-. unfold ruling_leaf.
    by destruct (if out_of_range _ b then _ else _) as [[d inj] r].
  - intros j Hj. rewrite list_lookup_imap. destruct (messages !! j); [|done]. cbn.
    by rewrite rewrite_all_unbound.
Qed.

(** Windows of the same roles that differ only in messages to which some refused
    binding points become the same. *)
Lemma refused_windows_agree w profiles rt rd mask messages messages' bindings :
  ready w profiles ->
  Role <$> messages = Role <$> messages' ->
  (forall j, messages !! j <> messages' !! j ->
     exists k b, bindings !! k = Some b /\ MessageIdx b = Z.of_nat j /\
       (ruling w profiles rt rd mask k b).1.2 = false) ->
  SanitizeContextWindow (Some w) None rt rd mask messages bindings
  = SanitizeContextWindow (Some w) None rt rd mask messages' bindings.
Proof.
  intros Hw Hroles Hdiff. rewrite !(sanitize_ok w profiles) by done.
  assert (length messages = length messages') as Hlen
    by (by rewrite <-(length_fmap Role messages), Hroles, length_fmap).
  rewrite <-Hlen. do 2 f_equal. apply list_eq. intros j. rewrite !list_lookup_imap.
  destruct (decide (messages !! j = messages' !! j)) as [->|Hne]; [done|].
  destruct (Hdiff j Hne) as (k & b & Hb & Hj & Hr).
  apply (f_equal (fun l => l !! j)) in Hroles. rewrite !list_lookup_fmap in Hroles.
  destruct (messages !! j) as [m|] eqn:Em, (messages' !! j) as [m'|] eqn:Em'; try done.
  injection Hroles as Hrole. cbn. f_equal.
  by apply (rewrite_all_refused w profiles rt rd mask 0 bindings j m m' k b).
Qed.

(** Two windows of the same roles that differ only in messages to which some binding
    points whose leaf says it was not injected. *)
Definition differ_in_refused (w : ClientWrapper) (profiles : nat -> array 16 -> option MemoryProfile)
    (rt rd : IDHash) (mask : EvaluationMask) (messages messages' : list LLMMessage)
    (bindings : list MemoryContextBinding) : Prop :=
  Role <$> messages = Role <$> messages' /\
  forall j, messages !! j <> messages' !! j ->
     exists k b, bindings !! k = Some b /\ MessageIdx b = Z.of_nat j /\
       Injected (ruling_leaf w profiles rt rd mask (length messages) k b) = false.

Lemma differing_windows_agree w profiles ctx_err rt rd mask messages messages' bindings :
  ready w profiles -> differ_in_refused w profiles rt rd mask messages messages' bindings ->
  SanitizeContextWindow (Some w) ctx_err rt rd mask messages bindings
  = SanitizeContextWindow (Some w) ctx_err rt rd mask messages' bindings.
Proof.
  intros Hw [Hroles Hdiff]. destruct ctx_err; [done|]. apply (refused_windows_agree w profiles); [done..|].
  intros j Hne. destruct (Hdiff j Hne) as (k & b & Hb & Hj & Hi). exists k, b. do 2 (split; [done|]).
  rewrite ruling_leaf_injected in Hi. apply andb_false_iff in Hi as [Hi|Hi]; [|done].
  apply negb_false_iff in Hi.
  assert (j < length messages)%nat as Hlt.
  { apply not_ge. intros Hge. apply Hne. rewrite !lookup_ge_None_2; [done| |done].
    by rewrite <-(length_fmap Role messages'), <-Hroles, length_fmap. }
  assert (out_of_range (length messages) b = false) as Hf by (apply out_of_range_false; lia).
  congruence.
Qed.

(** Refused content does not leak: take two windows of the same roles that
    differ only in messages to which some binding points whose leaf says it was
    not injected.  The sanitized windows and the leaves are the same, so
    nothing downstream can depend on the content of a refused memory. *)
Theorem refused_content_does_not_leak w profiles rt rd mask messages messages' bindings :
  ready w profiles ->
  Role <$> messages = Role <$> messages' ->
  (forall j, messages !! j <> messages' !! j ->
     exists k b, bindings !! k = Some b /\ MessageIdx b = Z.of_nat j /\
       Injected (ruling_leaf w profiles rt rd mask (length messages) k b) = false) ->
  SanitizeContextWindow (Some w) None rt rd mask messages bindings
  = SanitizeContextWindow (Some w) None rt rd mask messages' bindings.
Proof. intros Hw Hroles Hdiff. by apply (differing_windows_agree w profiles). Qed.

(** ** When a memory is injected *)

Definition runtime_clear (w : ClientWrapper) (k : nat) (id : array 16) : Prop :=
  match WRuntimeMonitor w with
  | Some monitor => RdDecision (Lookup (monitor k) id) = DecisionUse
  | None => True
  end.

Lemma hot_path_codes rt mt rd md flags mask :
  (EvaluateMemoryHotPath rt mt rd md flags mask).1 ∈
    [DecisionUse; DecisionRefresh; DecisionRefuse; DecisionIgnore; DecisionQuarantine;
     DecisionDeleteRequested; DecisionHardRefuse].
Proof. unfold EvaluateMemoryHotPath. split_ifs; cbn; in_list. Qed.

Lemma Lookup_codes m id :
  RdDecision (Lookup m id) ∈
    [DecisionUse; DecisionRefuse; DecisionQuarantine; DecisionDeleteRequested].
Proof.
  unfold Lookup. destruct (active m) as [s|]; [|cbn; in_list].
  destruct (Tombstoned s !! id), (Quarantined s !! id), (Revoked s !! id); cbn; in_list.
Qed.

(** The decisions that strip a memory (escalation is never decided). *)
Definition refusing_decisions : list Z :=
  [DecisionRefresh; DecisionRefuse; DecisionIgnore; DecisionQuarantine;
   DecisionDeleteRequested; DecisionHardRefuse].

Lemma refusing_u8 d : d ∈ refusing_decisions -> u8 d = d.
Proof.
  unfold refusing_decisions. rewrite !elem_of_cons.
  by intros [->|[->|[->|[->|[->|[->|?%elem_of_nil]]]]]].
Qed.

Lemma hard_refuse_refusing : DecisionHardRefuse ∈ refusing_decisions.
Proof. unfold refusing_decisions. in_list. Qed.

(** Usage constraints turn USE into QUALIFY. *)
Definition qualify (p : MemoryProfile) (d : Z) : Z :=
  if d =? DecisionUse
  then (if bool_decide (UsageConstraints p = "") then DecisionUse else DecisionQualify) else d.

Lemma qualify_spec p d r :
  (if (d =? DecisionUse) && negb (bool_decide (UsageConstraints p = ""))
   then (DecisionQualify, "QUALIFIED_USE_ONLY") else (d, r)).1 = qualify p d.
Proof. unfold qualify. destruct (Z.eqb_spec d DecisionUse) as [->|]; [|done]. by case_bool_decide. Qed.

Lemma qualify_other p d : d <> DecisionUse -> qualify p d = d.
Proof. intros Hd. unfold qualify. by rewrite (proj2 (Z.eqb_neq _ _)). Qed.

(** The static and dynamic verdict, before the usage constraints. *)
Lemma binding_decision_cases w i rt rd mask id p :
  let hot := (EvaluateMemoryHotPath rt (TenantHash p) rd (DomainHash p) (Flags p) mask).1 in
  let d := (binding_decision w i rt rd mask id p).1 in
  (runtime_clear w i id /\ hot = DecisionUse /\ d = qualify p DecisionUse) \/
  (~ (runtime_clear w i id /\ hot = DecisionUse) /\ d ∈ refusing_decisions).
Proof.
  intros hot d. unfold d, hot, binding_decision, runtime_clear.
  pose proof (hot_path_codes rt (TenantHash p) rd (DomainHash p) (Flags p) mask) as Hh.
  destruct (ValidateTenant (TenantHash p) rt) eqn:Et; cbn [negb].
  2:{ right. split; [|apply hard_refuse_refusing]. intros [_ E].
      unfold EvaluateMemoryHotPath in E. by rewrite Et in E. }
  destruct (ValidateDomain (DomainHash p) rd) eqn:Ed; cbn [negb].
  2:{ right. split; [|unfold refusing_decisions; in_list]. intros [_ E].
      unfold EvaluateMemoryHotPath in E. by rewrite Et, Ed in E. }
  destruct (EvaluateMemoryHotPath rt _ rd _ _ mask) as [x r]. cbn [fst] in *.
  assert ((x = DecisionUse /\ qualify p x = qualify p DecisionUse) \/
          (x <> DecisionUse /\ qualify p x ∈ refusing_decisions)) as Hx.
  { destruct (decide (x = DecisionUse)) as [->|Hne]; [by left|]. right. split; [done|].
    rewrite qualify_other by done. by apply elem_of_cons in Hh as [?|Hh]. }
  destruct (WRuntimeMonitor w) as [monitor|].
  - pose proof (Lookup_codes (monitor i) id) as Hl.
    destruct (Lookup (monitor i) id) as [dl rl sl]. cbn [RdDecision RdReason] in *.
    destruct (Z.eqb_spec dl DecisionUse) as [->|Hne]; cbn [negb]; rewrite qualify_spec.
    + destruct Hx as [[-> E]|[Hne E]]; [by left|right]. split; [by intros []|exact E].
    + rewrite qualify_other by done. right. split; [by intros []|].
      apply elem_of_cons in Hl as [?|Hl]; [done|]. revert Hl. unfold refusing_decisions. in_list.
  - rewrite qualify_spec. destruct Hx as [[-> E]|[Hne E]]; [by left|right].
    split; [by intros []|exact E].
Qed.

Lemma enforce_use r cs c : (enforce DecisionUse r cs c).2 = (DecisionUse, true, r).
Proof. done. Qed.

Lemma enforce_refusal d r cs c :
  d ∈ refusing_decisions ->
  (enforce d r cs c).2 = (d, false, r).
Proof.
  unfold refusing_decisions. rewrite !elem_of_cons.
  by intros [->|[->|[->|[->|[->|[->|?%elem_of_nil]]]]]].
Qed.

(** A memory the monitor does not clear is refused. *)
Lemma blocked_ruling w profiles rt rd mask k b :
  ~ runtime_clear w k (BMemoryID b) -> (ruling w profiles rt rd mask k b).1.2 = false.
Proof.
  intros Hb. unfold ruling. destruct (profiles k (BMemoryID b)) as [p|]; [|done].
  destruct (binding_decision_cases w k rt rd mask (BMemoryID b) p) as [[Hc _]|[_ Hd]]; [done|].
  destruct (binding_decision w k rt rd mask (BMemoryID b) p) as [d r]. by rewrite enforce_refusal.
Qed.

Definition admissible (w : ClientWrapper) (k : nat) (rt rd : IDHash) (mask : EvaluationMask)
    (id : array 16) (p : MemoryProfile) : Prop :=
  runtime_clear w k id /\
  (EvaluateMemoryHotPath rt (TenantHash p) rd (DomainHash p) (Flags p) mask).1 = DecisionUse.

(** C2. The gateway injects exactly the admissible memories.  The leaf of a
    binding says injected if and only if the binding points into the window, the
    profile is known, the runtime monitor decides USE and the static evaluation
    decides USE; the recorded decision is then USE, or QUALIFY when the profile
    has usage constraints, and otherwise one of the refusing decisions: the
    fail-closed default of the switch is never needed. *)
Theorem leaf_injected_iff w profiles rt rd mask messages bindings sanitized leaves k b l :
  ready w profiles ->
  SanitizeContextWindow (Some w) None rt rd mask messages bindings = Ok (sanitized, leaves) ->
  bindings !! k = Some b -> leaves !! k = Some l ->
  (Injected l = true <->
     0 <= MessageIdx b < Z.of_nat (length messages) /\
     exists p, profiles k (BMemoryID b) = Some p /\ admissible w k rt rd mask (BMemoryID b) p) /\
  (Injected l = true -> exists p, profiles k (BMemoryID b) = Some p /\
     DecisionCode l = qualify p DecisionUse) /\
  (Injected l = false -> DecisionCode l ∈ refusing_decisions).
Proof.
  intros Hw. rewrite (sanitize_ok w profiles) by done. intros [= _ <-] Hb Hl.
  apply lookup_ruling_leaf in Hl as (b' & Hb' & ->). rewrite Hb in Hb'. injection Hb' as <-.
  rewrite <-out_of_range_false. unfold ruling_leaf.
  destruct (out_of_range (length messages) b).
  { cbn. split; [by split; [|intros []]|]. split; [done|]. intros _. apply hard_refuse_refusing. }
  unfold ruling. destruct (profiles k (BMemoryID b)) as [p|] eqn:Ep.
  2:{ cbn. split; [split; [done|]; by intros (_ & p & ? & _)|]. split; [done|].
      intros _. apply hard_refuse_refusing. }
  pose proof (binding_decision_cases w k rt rd mask (BMemoryID b) p) as Hcases.
  destruct (binding_decision w k rt rd mask (BMemoryID b) p) as [d r]. cbn [fst] in Hcases.
  destruct Hcases as [(Hc & Hh & ->)|[Hno Hd]].
  - assert ((enforce (qualify p DecisionUse) r (UsageConstraints p) "").2
      = (qualify p DecisionUse, true, r)) as -> by (unfold qualify; cbn; by case_bool_decide).
    cbn. split; [split; [|done]; intros _; split; [done|]; by exists p|].
    split; [|done]. intros _. exists p. split; [done|]. unfold qualify. cbn. by case_bool_decide.
  - rewrite enforce_refusal by done. cbn. split; [|split; [done|]].
    + split; [done|]. intros (_ & p' & E & Ha). injection E as <-. by destruct Hno.
    + intros _. by rewrite refusing_u8.
Qed.

(** Known weakness: a leaf can claim an injection that did not happen.  When
    two bindings point to the same message and the first is refused, the second
    admitted, the message stays stripped, but the second leaf, which the session
    MAP attests, says its memory was injected. *)
Theorem injected_leaf_over_stripped_message w profiles rt rd mask m b1 b2 p2 :
  ready w profiles -> MessageIdx b1 = 0 -> MessageIdx b2 = 0 ->
  profiles 0%nat (BMemoryID b1) = None ->
  profiles 1%nat (BMemoryID b2) = Some p2 -> UsageConstraints p2 = "" ->
  admissible w 1 rt rd mask (BMemoryID b2) p2 ->
  exists l1 l2,
    SanitizeContextWindow (Some w) None rt rd mask [m] [b1; b2]
      = Ok ([mkMessage (Role m) TombstoneHardRefuse], [l1; l2]) /\
    Injected l1 = false /\ Injected l2 = true /\ DecisionCode l2 = DecisionUse.
Proof.
  intros Hw H1 H2 Hp1 Hp2 Hcs [Hc Hh]. rewrite (sanitize_ok w profiles) by done.
  assert (binding_decision w 1 rt rd mask (BMemoryID b2) p2 =
    (DecisionUse, (binding_decision w 1 rt rd mask (BMemoryID b2) p2).2)) as Ed.
  { destruct (binding_decision_cases w 1 rt rd mask (BMemoryID b2) p2) as [(_ & _ & E)|[[] _]];
      [|done]. unfold qualify in E. rewrite Hcs in E. cbn in E. by destruct (binding_decision _ _ _ _ _ _ _); cbn in *; subst. }
  assert (forall b, MessageIdx b = 0 -> out_of_range 1 b = false) as Hin
    by (intros b Hb; apply out_of_range_false; lia).
  do 2 eexists. split.
  { cbn [imap rewrite_all]. unfold rewrite_message. rewrite !H1, H2. cbn.
    unfold rewrite_content. by rewrite Hp1, Hp2, Ed. }
  rewrite !ruling_leaf_injected. unfold ruling_leaf, ruling. cbn [Nat.add length].
  rewrite !Hin, Hp1, Hp2, Ed, Hcs by done. done.
Qed.

(** ** The Anthropic adapter *)

Definition system_texts (messages : list LLMMessage) : list string :=
  Content <$> filter (fun m => Role m = "system") messages.

Definition conversation (messages : list LLMMessage) : list (string * string) :=
  (fun m => (Role m, Content m)) <$> filter (fun m => Role m <> "system") messages.

Definition join_system (acc : string) (texts : list string) : string :=
  foldl (fun acc t => if bool_decide (acc <> "") then acc +:+ newline +:+ t else t) acc texts.

Definition supported_role (r : string) : Prop := r = "system" \/ r = "user" \/ r = "assistant".

Lemma anthropic_loop_ok messages system acc :
  Forall (fun m => supported_role (Role m)) messages ->
  anthropic_loop messages system acc
  = Ok (join_system system (system_texts messages), acc ++ conversation messages).
Proof.
  intros Hf. revert system acc. induction Hf as [|m ms Hm Hf IH]; intros system acc.
  { by rewrite app_nil_r. }
  cbn [anthropic_loop]. unfold system_texts, conversation. rewrite !filter_cons.
  destruct (decide (Role m = "system")) as [Hs|Hs].
  - rewrite bool_decide_eq_true_2, IH, decide_False by (done || tauto). done.
  - rewrite bool_decide_eq_false_2, decide_True by done.
    assert (bool_decide (Role m <> "user") && bool_decide (Role m <> "assistant") = false) as ->.
    { destruct Hm as [?|[->| ->]]; done. }
    rewrite IH. cbn. by rewrite <-app_assoc.
Qed.

Lemma anthropic_loop_err messages system acc :
  ~ Forall (fun m => supported_role (Role m)) messages ->
  anthropic_loop messages system acc
  = Err (errors_New "ANTHROPIC_PROVIDER_ERR: role must be user or assistant").
Proof.
  revert system acc. induction messages as [|m ms IH]; intros system acc Hf; [by destruct Hf|].
  cbn [anthropic_loop]. case_bool_decide as Hs.
  { apply IH. intros Hms. apply Hf. constructor; [by left|done]. }
  destruct (bool_decide (Role m <> "user")) eqn:Hu; cbn [andb];
    [destruct (bool_decide (Role m <> "assistant")) eqn:Ha|]; [done| |];
    apply IH; intros Hms; apply Hf; (constructor; [|done]); bool_facts; unfold supported_role.
  - right; right. by apply dec_stable.
  - right; left. by apply dec_stable.
Qed.

Lemma supported_roles_dec messages :
  Forall (fun m => supported_role (Role m)) messages \/
  ~ Forall (fun m => supported_role (Role m)) messages.
Proof.
  assert (forall m, base.Decision (supported_role (Role m))) by (unfold supported_role; apply _).
  destruct (decide (Forall (fun m => supported_role (Role m)) messages)); auto.
Qed.

(** The Anthropic conversion loses and invents nothing: it succeeds exactly
    when every role is system, user or assistant; the payload then holds every
    other message verbatim and in order, and as system prompt the system texts
    joined by newlines (leading empty ones leave no separator). *)
Theorem Anthropic_Convert_spec modelName messages :
  (Forall (fun m => supported_role (Role m)) messages ->
   Anthropic_Convert modelName messages
   = Ok (mkAnthropic modelName (join_system "" (system_texts messages)) (conversation messages))) /\
  (is_ok (Anthropic_Convert modelName messages) = true <->
   Forall (fun m => supported_role (Role m)) messages).
Proof.
  unfold Anthropic_Convert. split; [intros Hf; by rewrite anthropic_loop_ok|].
  destruct (supported_roles_dec messages) as [Hf|Hf].
  - by rewrite anthropic_loop_ok.
  - by rewrite anthropic_loop_err.
Qed.

(** ** Examples *)

Section examples.
#[local] Existing Instance SmallGo.small_slice_sort.
#[local] Existing Instance SmallGo.trie_map_range.

Definition ex_profile (constraints : string) : MemoryProfile :=
  mkProfile (mem x11) (zero_array 32) (zero_array 32) 513 constraints.

(** Memory 0x11 is admissible, 0x22 is quarantined, 0x33 is unknown. *)
Definition ex_profiles (_ : nat) (id : array 16) : option MemoryProfile :=
  if bool_decide (id = mem x33) then None else Some (ex_profile "").

Definition ex_monitor : RuntimeMonitor :=
  (publish (NewRuntimeMonitor 0) (ex_event x01 x22 EventQuarantineMemory 0) 5).1.

Definition ex_wrapper : ClientWrapper :=
  mkWrapper (Some ex_profiles) (zero_array 32) (Some (fun _ => ex_monitor)).

Definition ex_window (secret : string) : list LLMMessage :=
  [mkMessage "system" "be brief"; mkMessage "user" secret; mkMessage "user" "tea"].
Definition ex_bind (id : byte) (idx : Z) : MemoryContextBinding :=
  mkBinding (mem id) (zero_array 32) idx.
Definition ex_bindings : list MemoryContextBinding := [ex_bind x22 1; ex_bind x11 2].

Definition ex_sanitized : list LLMMessage * list LeafRecord :=
  sanitize_bindings ex_wrapper ex_profiles (zero_array 32) (zero_array 32) ex_mask 0 ex_bindings
    (ex_window "the code is 42", []).

Example ex_sanitized_messages :
  ex_sanitized.1 = [mkMessage "system" "be brief"; mkMessage "user" TombstoneQuarantine;
                    mkMessage "user" "tea"].
Proof. vm_compute. reflexivity. Qed.

Lemma sanitize_accounts_witness :
  exists sanitized leaves,
    SanitizeContextWindow (Some ex_wrapper) None (zero_array 32) (zero_array 32) ex_mask
      (ex_window "x") ex_bindings = Ok (sanitized, leaves) /\
    Role <$> sanitized = Role <$> ex_window "x" /\
    Forall2 (fun b l => MemoryID l = BMemoryID b /\ MemoryHash l = BMemoryHash b /\
                        PolicyHash l = WPolicyHash ex_wrapper) ex_bindings leaves /\
    forall j, Forall (fun b => MessageIdx b <> Z.of_nat j) ex_bindings ->
      sanitized !! j = ex_window "x" !! j.
Proof.
  exact (proj2 (proj2 (sanitize_accounts (Some ex_wrapper) None (zero_array 32) (zero_array 32) ex_mask
    (ex_window "x") ex_bindings)) ex_wrapper ex_profiles eq_refl eq_refl eq_refl).
Defined.

Lemma refused_content_does_not_leak_witness :
  SanitizeContextWindow (Some ex_wrapper) None (zero_array 32) (zero_array 32) ex_mask
    (ex_window "the code is 42") ex_bindings
  = SanitizeContextWindow (Some ex_wrapper) None (zero_array 32) (zero_array 32) ex_mask
    (ex_window "the code is 43") ex_bindings.
Proof.
  refine (refused_content_does_not_leak ex_wrapper ex_profiles _ _ _ _ _ _ eq_refl eq_refl _).
  intros j Hj. exists 0%nat, (ex_bind x22 1).
  split; [reflexivity|]. destruct j as [|[|[|j]]]; try (destruct Hj; reflexivity).
  all: vm_compute; reflexivity.
Defined.

Lemma leaf_injected_iff_witness :
  exists l, ex_sanitized.2 !! 1%nat = Some l /\
    (Injected l = false -> DecisionCode l ∈ refusing_decisions).
Proof.
  exists (leaf ex_wrapper (ex_bind x11 2) DecisionUse true ReasonUse).
  assert (ex_sanitized.2 !! 1%nat
    = Some (leaf ex_wrapper (ex_bind x11 2) DecisionUse true ReasonUse)) as E
    by (vm_compute; reflexivity).
  split; [exact E|].
  refine (proj2 (proj2 (leaf_injected_iff ex_wrapper ex_profiles (zero_array 32) (zero_array 32)
    ex_mask (ex_window "the code is 42") ex_bindings ex_sanitized.1 ex_sanitized.2 1
    (ex_bind x11 2) _ eq_refl _ eq_refl E))).
  vm_compute. reflexivity.
Defined.

Lemma injected_leaf_over_stripped_message_witness :
  exists l1 l2,
    SanitizeContextWindow (Some ex_wrapper) None (zero_array 32) (zero_array 32) ex_mask
      [mkMessage "user" "tea"] [ex_bind x33 0; ex_bind x11 0]
      = Ok ([mkMessage "user" TombstoneHardRefuse], [l1; l2]) /\
    Injected l1 = false /\ Injected l2 = true /\ DecisionCode l2 = DecisionUse.
Proof.
  refine (injected_leaf_over_stripped_message ex_wrapper ex_profiles (zero_array 32) (zero_array 32)
    ex_mask (mkMessage "user" "tea") (ex_bind x33 0) (ex_bind x11 0) (ex_profile "")
    eq_refl eq_refl eq_refl _ _ eq_refl _).
  - vm_compute. reflexivity.
  - vm_compute. reflexivity.
  - split; vm_compute; reflexivity.
Defined.
End examples.
