(* ===== verification/Inference.v ===== *)
(** * An admissible turn ([pkg/gateway/inference.go])

    [ExecuteAdmissibleTurn] sanitizes the window, calls the provider and
    generates the Session MAP of the turn.  The runtime monitor is read once per
    binding and once more for the snapshot that the Session MAP attests; the
    model keeps these reads apart, since other goroutines publish in between. *)
From S2P Require Import Prelude Sha256 Bitmask Tenant Evaluate Merkle SessionMap AuditReplay.
From S2P Require Import Quarantine Monitor Gateway.

Record TokenMetrics := mkTokens {
  PromptTokens : Z; CompletionTokens : Z; TotalTokens : Z
}.

Record ProviderResponse := mkResponse { Text : string; Tokens : TokenMetrics }.

(** [LLMProviderAdapter]: what [Invoke] answers to the messages it is given. *)
Definition LLMProviderAdapter : Type := list LLMMessage -> result ProviderResponse.

Record AdmissibleInferenceBlock := mkInferenceBlock {
  InferenceID : string;
  ModelName : string;
  ResponseText : string;
  UsageTokens : TokenMetrics;
  BlockSessionMAP : SessionMAP;
  CompletedAt : Z
}.

(** [Ctx] is nil, or a context with what its [Err] returns when the gateway
    asks. *)
Record MockRuntimeContext := mkRuntimeContext {
  Ctx : option (option error);
  RTenant : IDHash;
  RDomain : IDHash;
  RMask : EvaluationMask;
  RMapID : array 16;
  RSessionID : string;
  RAgentID : string;
  RActorID : string;
  RTaskID : string;
  RContextHash : array 32;
  PrivateKey : bytes;
  KeyID : string;
  RPolicySnapshotHash : array 32;
  Now : Z;
  TTL : Z
}.

(** The three pointers of a runner; an adapter is its model name. *)
Record LifecycleRunner := mkRunner {
  Wrapper : option ClientWrapper;
  Adapter : option string;
  Provider : option LLMProviderAdapter
}.

(** [MockInferenceProvider{Response}.Invoke(ctx, messages)]. *)
Definition Mock_Invoke (response : ProviderResponse) (ctx_err : option error)
    : LLMProviderAdapter := fun _ =>
  match ctx_err with
  | Some e => Err e
  | None =>
      if bool_decide (Text response = "") then
        Err (errors_New "MOCK_PROVIDER_ERR: response text required")
      else Ok response
  end.

(** The three results, and the messages the provider was invoked with, if it
    was. *)
Record turn_outcome := mkTurn {
  turn_block : result AdmissibleInferenceBlock;
  turn_payload : OpenAIRequestPayload;
  turn_invoked : option (list LLMMessage)
}.

Definition no_payload : OpenAIRequestPayload := mkOpenAI "" [].

(** [w.RuntimeMonitor.ActiveSnapshotInfo()] at its own moment: the read after
    those of the [n] bindings. *)
Definition snapshot_info (w : ClientWrapper) (n : nat) : array 32 * Z :=
  match WRuntimeMonitor w with
  | Some monitor => ActiveSnapshotInfo (monitor n)
  | None => (zero_array 32, 0)
  end.

(** A call of the provider: its answer, and a record that it was made. *)
Definition invoke (provider : LLMProviderAdapter) (messages : list LLMMessage)
    : result ProviderResponse * option (list LLMMessage) :=
  (provider messages, Some messages).

Section turn.
Context `{SliceSort, Ed25519}.

(** [wall] is what [time.Now()] returns. *)
Definition ExecuteAdmissibleTurn (r : option LifecycleRunner) (wall : Z)
    (messages : list LLMMessage) (bindings : list MemoryContextBinding)
    (params : MockRuntimeContext) : turn_outcome :=
  match r with
  | Some (mkRunner (Some wrapper) (Some modelName) (Some provider)) =>
      let ctx_err := default None (Ctx params) in
      let now := if is_zero_time (Now params) then wall else Now params in
      let ttl := if TTL params <=? 0 then hour else TTL params in
      if negb (length (PrivateKey params) =? PrivateKeySize)%nat then
        mkTurn (Err (errors_New "INVALID_RUNTIME_CONTEXT: Ed25519 private key required"))
          no_payload None
      else
      match SanitizeContextWindow (Some wrapper) ctx_err (RTenant params) (RDomain params)
              (RMask params) messages bindings with
      | Err err => mkTurn (Err err) no_payload None
      | Ok (sanitized, leaves) =>
          let providerPayload := OpenAI_Convert modelName sanitized in
          let '(answer, invoked) := invoke provider sanitized in
          match answer with
          | Err err => mkTurn (Err err) providerPayload invoked
          | Ok providerResponse =>
              let policyHash := if bool_decide (RPolicySnapshotHash params <> zero_array 32)
                then RPolicySnapshotHash params else WPolicyHash wrapper in
              let '(runtimeSnapshotHash, runtimeSnapshotVersion) :=
                snapshot_info wrapper (length bindings) in
              match GenerateSessionMAPWithRuntimeSnapshot (RMapID params) (RSessionID params)
                      (RAgentID params) (RActorID params) (RTaskID params) (RTenant params)
                      (RContextHash params) policyHash runtimeSnapshotHash runtimeSnapshotVersion
                      leaves (PrivateKey params) (KeyID params) ttl now with
              | Err err => mkTurn (Err err) providerPayload invoked
              | Ok smap =>
                  let completedAt := if is_zero_time now then wall else now in
                  mkTurn (Ok (mkInferenceBlock "inf_local_0001" modelName (Text providerResponse)
                               (Tokens providerResponse) smap completedAt))
                    providerPayload invoked
              end
          end
      end
  | _ =>
      mkTurn (Err (errors_New
        "INVALID_LIFECYCLE_RUNNER: wrapper, adapter, and provider required")) no_payload None
  end.

(** The policy a turn attests. *)
Definition turn_policy (wrapper : ClientWrapper) (params : MockRuntimeContext) : array 32 :=
  if bool_decide (RPolicySnapshotHash params <> zero_array 32)
  then RPolicySnapshotHash params else WPolicyHash wrapper.

Lemma turn_ok r wall messages bindings params block :
  let out := ExecuteAdmissibleTurn r wall messages bindings params in
  turn_block out = Ok block ->
  exists wrapper modelName provider sanitized leaves response ttl now,
    r = Some (mkRunner (Some wrapper) (Some modelName) (Some provider)) /\
    SanitizeContextWindow (Some wrapper) None (RTenant params) (RDomain params)
      (RMask params) messages bindings = Ok (sanitized, leaves) /\
    turn_invoked out = Some sanitized /\ turn_payload out = OpenAI_Convert modelName sanitized /\
    provider sanitized = Ok response /\ ResponseText block = Text response /\
    GenerateSessionMAPWithRuntimeSnapshot (RMapID params) (RSessionID params)
      (RAgentID params) (RActorID params) (RTaskID params) (RTenant params)
      (RContextHash params) (turn_policy wrapper params)
      (snapshot_info wrapper (length bindings)).1 (snapshot_info wrapper (length bindings)).2
      leaves (PrivateKey params) (KeyID params) ttl now = Ok (BlockSessionMAP block).
Proof.
  intros out. unfold out, ExecuteAdmissibleTurn, invoke.
  destruct r as [[[wrapper|] [modelName|] [provider|]]|]; try done.
  destruct (negb _); [done|].
  destruct (SanitizeContextWindow _ _ _ _ _ _ _) as [[sanitized leaves]|e] eqn:Es; [|done].
  destruct (provider sanitized) as [response|e] eqn:Ep; [|done].
  destruct (snapshot_info wrapper (length bindings)) as [h v] eqn:Ei.
  destruct (GenerateSessionMAPWithRuntimeSnapshot _ _ _ _ _ _ _ _ _ _ _ _ _ _ _) as [smap|e] eqn:Eg;
    [|done].
  intros [= <-]. exists wrapper, modelName, provider, sanitized, leaves, response.
  do 2 eexists. split; [done|]. split; [|cbn; rewrite Ei; repeat split; try done; exact Eg].
  destruct (default None (Ctx params)); [done|exact Es].
Qed.

(** When the gateway produces a window with a leaf and the provider answers, the
    turn completes. *)
Lemma turn_completes wrapper modelName (provider : LLMProviderAdapter) wall messages bindings
    params seed sanitized leaves response :
  default None (Ctx params) = None -> PrivateKey params = NewKeyFromSeed seed ->
  SanitizeContextWindow (Some wrapper) None (RTenant params) (RDomain params)
    (RMask params) messages bindings = Ok (sanitized, leaves) ->
  leaves <> [] -> provider sanitized = Ok response ->
  let out := ExecuteAdmissibleTurn (Some (mkRunner (Some wrapper) (Some modelName) (Some provider)))
               wall messages bindings params in
  turn_payload out = OpenAI_Convert modelName sanitized /\
  exists block ttl now, turn_block out = Ok block /\
    GenerateSessionMAPWithRuntimeSnapshot (RMapID params) (RSessionID params)
      (RAgentID params) (RActorID params) (RTaskID params) (RTenant params)
      (RContextHash params) (turn_policy wrapper params)
      (snapshot_info wrapper (length bindings)).1 (snapshot_info wrapper (length bindings)).2
      leaves (NewKeyFromSeed seed) (KeyID params) ttl now = Ok (BlockSessionMAP block).
Proof.
  intros Hctx Hk Hs Hne Hp out. unfold out, ExecuteAdmissibleTurn, invoke.
  rewrite Hctx, Hk, NewKeyFromSeed_size. cbn [PrivateKeySize Nat.eqb negb]. rewrite Hs, Hp.
  destruct (snapshot_info wrapper (length bindings)) as [h v]. fold (turn_policy wrapper params).
  edestruct generate_succeeds as (smap & Eg & _); [exact Hne| |rewrite Eg].
  { destruct (Z.leb_spec (TTL params) 0); [reflexivity|done]. }
  split; [done|]. do 3 eexists. split; [reflexivity|exact Eg].
Qed.

(** C27. A completed turn is evidenced: when [ExecuteAdmissibleTurn] returns a
    block, the provider was invoked with the sanitized window and nothing else,
    the payload is its conversion, and the Session MAP of the block carries
    exactly the gateway's leaves, names the turn's tenant, session and policy,
    and replays under the signer's public key. *)
Theorem admissible_turn_is_evidenced r wall messages bindings params block seed :
  let out := ExecuteAdmissibleTurn r wall messages bindings params in
  PrivateKey params = NewKeyFromSeed seed ->
  turn_block out = Ok block ->
  exists wrapper modelName provider sanitized leaves,
    r = Some (mkRunner (Some wrapper) (Some modelName) (Some provider)) /\
    SanitizeContextWindow (Some wrapper) None (RTenant params) (RDomain params)
      (RMask params) messages bindings = Ok (sanitized, leaves) /\
    turn_invoked out = Some sanitized /\ turn_payload out = OpenAI_Convert modelName sanitized /\
    let smap := BlockSessionMAP block in
    LeafRecords smap = leaves /\ SessionMap.TenantHash smap = RTenant params /\
    SessionID smap = RSessionID params /\ PolicySnapshotHash smap = turn_policy wrapper params /\
    VerifySessionMAP (drop 32 (NewKeyFromSeed seed)) smap = Ok (mkVerification true true true).
Proof.
  intros out Hk Hb. destruct (turn_ok _ _ _ _ _ _ Hb) as
    (wrapper & modelName & provider & sanitized & leaves & response & ttl & now &
     Hr & Hs & Hi & Hp & _ & _ & Hg).
  exists wrapper, modelName, provider, sanitized, leaves. do 4 (split; [done|]).
  rewrite Hk in Hg. cbv zeta. rewrite (generated_replays _ _ _ _ _ _ _ _ _ _ _ _ _ _ _ _ Hg).
  pose proof (GenerateSessionMAP_cases (RMapID params) (RSessionID params) (RAgentID params)
    (RActorID params) (RTaskID params) (RTenant params) (RContextHash params)
    (turn_policy wrapper params) (snapshot_info wrapper (length bindings)).1
    (snapshot_info wrapper (length bindings)).2 leaves (NewKeyFromSeed seed) (KeyID params) ttl now) as Hc.
  rewrite Hg in Hc. destruct Hc as (_ & _ & _ & Ha & Hl & _).
  split; [done|]. split; [exact (f_equal at_tenant Ha)|].
  split; [exact (f_equal at_session Ha)|]. split; [exact (f_equal at_policy Ha)|done].
Qed.

(** C36. Known weakness: the snapshot a turn attests need not be the one it
    consulted.  If another goroutine publishes a quarantine of the memory after
    the gateway looked it up and before the turn reads the snapshot to attest,
    the turn succeeds and its Session MAP names, by hash and version, a snapshot
    that refuses the very memory its leaf records as injected. *)
Theorem attested_snapshot_not_consulted `{MapRange} profiles policy m0 event t modelName provider wall
    messages b params seed sanitized l response :
  is_quarantine_type (EventType event) = true -> EvMemoryID event = BMemoryID b ->
  let m1 := (publish m0 event t).1 in
  let w := mkWrapper (Some profiles) policy (Some (fun k => if (k =? 0)%nat then m0 else m1)) in
  SanitizeContextWindow (Some w) None (RTenant params) (RDomain params) (RMask params)
    messages [b] = Ok (sanitized, [l]) ->
  Injected l = true -> Ctx params = None -> PrivateKey params = NewKeyFromSeed seed ->
  provider sanitized = Ok response ->
  exists block,
    turn_block (ExecuteAdmissibleTurn (Some (mkRunner (Some w) (Some modelName) (Some provider)))
                  wall messages [b] params) = Ok block /\
    let smap := BlockSessionMAP block in
    LeafRecords smap = [l] /\
    (RuntimeSnapshotHash smap, RuntimeSnapshotVersion smap) = ActiveSnapshotInfo m1 /\
    RdDecision (Lookup m1 (BMemoryID b)) <> DecisionUse.
Proof.
  intros Hq Hid m1 w Hs Hinj Hctx Hk Hp. unfold ExecuteAdmissibleTurn, invoke. rewrite Hctx. cbn [default].
  rewrite Hk, NewKeyFromSeed_size. cbn [PrivateKeySize Nat.eqb negb]. unfold w at 1.
  cbn zeta. fold w. rewrite Hs, Hp. cbn [length].
  change (snapshot_info w 1) with (ActiveSnapshotInfo m1).
  destruct (ActiveSnapshotInfo m1) as [h v] eqn:Ei.
  edestruct generate_succeeds as (smap & -> & Hl & Hh & Hv); [done| |].
  { destruct (Z.leb_spec (TTL params) 0); [reflexivity|done]. }
  eexists. split; [reflexivity|]. cbn [BlockSessionMAP turn_block]. cbv zeta.
  split; [done|]. split; [by rewrite Hh, Hv|].
  rewrite <-Hid. unfold m1. rewrite publish_lookup. apply blocking_step.
  unfold blocking_type. by rewrite Hq, orb_true_r.
Qed.

(** Known weakness: a turn without memory is invoked but never evidenced.
    With no binding there is no leaf, and no Session MAP can be generated: the
    provider has already answered when the turn fails. *)
Theorem turn_without_memory_unevidenced w profiles modelName provider wall messages params seed
    response :
  ready w profiles -> Ctx params = None -> PrivateKey params = NewKeyFromSeed seed ->
  provider messages = Ok response ->
  let out := ExecuteAdmissibleTurn (Some (mkRunner (Some w) (Some modelName) (Some provider)))
               wall messages [] params in
  turn_invoked out = Some messages /\
  turn_block out = Err (errors_New "INVALID_SESSION_MAP: zero leaf records").
Proof.
  intros Hw Hctx Hk Hp out. unfold out, ExecuteAdmissibleTurn, invoke. rewrite Hctx. cbn [default].
  rewrite Hk, NewKeyFromSeed_size. cbn [PrivateKeySize Nat.eqb negb].
  unfold SanitizeContextWindow. rewrite Hw. cbn [sanitize_bindings]. rewrite Hp.
  by destruct (snapshot_info w _).
Qed.
End turn.

(** ** Examples *)

Section examples.
#[local] Existing Instance SmallGo.small_slice_sort.
#[local] Existing Instance SmallGo.trie_map_range.
#[local] Existing Instance AuditReplay.keyed_hash_scheme.

Definition ex_params : MockRuntimeContext :=
  mkRuntimeContext None (zero_array 32) (zero_array 32) ex_mask (copy_into 16 [x0a]) "session"
    "agent" "actor" "task" (zero_array 32) ex_key "key-1" (zero_array 32) 1700000000000000000 0.

Definition ex_response : ProviderResponse := mkResponse "ok" (mkTokens 1 2 3).
Definition ex_provider : LLMProviderAdapter := Mock_Invoke ex_response None.
Definition ex_runner : LifecycleRunner :=
  mkRunner (Some ex_wrapper) (Some "gpt-4o") (Some ex_provider).

Definition ex_turn : turn_outcome :=
  ExecuteAdmissibleTurn (Some ex_runner) 0 (ex_window "the code is 42") ex_bindings ex_params.

Lemma admissible_turn_is_evidenced_witness :
  exists block, turn_block ex_turn = Ok block /\
  exists wrapper modelName provider sanitized leaves,
    Some ex_runner = Some (mkRunner (Some wrapper) (Some modelName) (Some provider)) /\
    SanitizeContextWindow (Some wrapper) None (RTenant ex_params) (RDomain ex_params)
      (RMask ex_params) (ex_window "the code is 42") ex_bindings = Ok (sanitized, leaves) /\
    turn_invoked ex_turn = Some sanitized /\
    turn_payload ex_turn = OpenAI_Convert modelName sanitized /\
    let smap := BlockSessionMAP block in
    LeafRecords smap = leaves /\ SessionMap.TenantHash smap = RTenant ex_params /\
    SessionID smap = RSessionID ex_params /\
    PolicySnapshotHash smap = turn_policy wrapper ex_params /\
    VerifySessionMAP (drop 32 (NewKeyFromSeed (zero_array 32))) smap
    = Ok (mkVerification true true true).
Proof.
  assert (is_ok (turn_block ex_turn) = true) as Hok by (vm_compute; reflexivity).
  destruct (turn_block ex_turn) as [block|e] eqn:E; [|discriminate Hok].
  exists block. split; [reflexivity|].
  exact (admissible_turn_is_evidenced (Some ex_runner) 0 (ex_window "the code is 42") ex_bindings
           ex_params block (zero_array 32) eq_refl E).
Defined.

Definition ex_race_event : RevocationEvent := ex_event x05 x11 EventCrossAgentLeak 0.
Definition ex_race_wrapper : ClientWrapper :=
  mkWrapper (Some ex_profiles) (zero_array 32)
    (Some (fun k => if (k =? 0)%nat then ex_monitor else (publish ex_monitor ex_race_event 9).1)).

Lemma attested_snapshot_not_consulted_witness :
  let m1 := (publish ex_monitor ex_race_event 9).1 in
  let l := leaf ex_race_wrapper (ex_bind x11 0) DecisionUse true ReasonUse in
  exists block,
    turn_block (ExecuteAdmissibleTurn
      (Some (mkRunner (Some ex_race_wrapper) (Some "gpt-4o") (Some ex_provider)))
      0 [mkMessage "user" "tea"] [ex_bind x11 0] ex_params) = Ok block /\
    let smap := BlockSessionMAP block in
    LeafRecords smap = [l] /\
    (RuntimeSnapshotHash smap, RuntimeSnapshotVersion smap) = ActiveSnapshotInfo m1 /\
    RdDecision (Lookup m1 (BMemoryID (ex_bind x11 0))) <> DecisionUse.
Proof.
  refine (attested_snapshot_not_consulted ex_profiles (zero_array 32) ex_monitor ex_race_event 9
    "gpt-4o" ex_provider 0 [mkMessage "user" "tea"] (ex_bind x11 0) ex_params (zero_array 32)
    [mkMessage "user" "tea"] (leaf ex_race_wrapper (ex_bind x11 0) DecisionUse true ReasonUse)
    ex_response eq_refl eq_refl _ eq_refl eq_refl eq_refl eq_refl).
  vm_compute. reflexivity.
Defined.

Lemma turn_without_memory_unevidenced_witness :
  let out := ExecuteAdmissibleTurn (Some ex_runner) 0 (ex_window "x") [] ex_params in
  turn_invoked out = Some (ex_window "x") /\
  turn_block out = Err (errors_New "INVALID_SESSION_MAP: zero leaf records").
Proof.
  exact (turn_without_memory_unevidenced ex_wrapper ex_profiles "gpt-4o" ex_provider 0 (ex_window "x")
    ex_params (zero_array 32) ex_response eq_refl eq_refl eq_refl eq_refl).
Defined.
End examples.
