(* ===== verification/Orchestrator.v ===== *)
(** * Agent handoff ([pkg/orchestrator])

    [ExecuteAgentHandoff] admits a handoff if a slot is free, sanitizes the
    scratchpad for the target agent, invokes it, and seals the evidence: a
    Session MAP and a Machine Consequence Record.  The slots are a buffered
    channel; calls from several goroutines are a step relation. *)
From S2P Require Import Prelude Sha256 Bitmask Tenant Evaluate Merkle SessionMap AuditReplay.
From S2P Require Import Quarantine Monitor Gateway Inference.

Definition BackpressureError : string :=
  "ORCHESTRATOR_BACKPRESSURE: handoff queue saturated; sub-agent initialization refused".

Record AgentIdentity := mkAgent {
  TargetAgentID : string; TargetTenant : IDHash; TargetDomain : IDHash
}.

(** [slots] is a channel of capacity [slots_cap]; the number of tokens in it is
    passed apart, since all calls share it. *)
Record HandoffCoordinator := mkHandoff {
  GatewayWrapper : option ClientWrapper;
  HProvider : option LLMProviderAdapter;
  AuditKeyID : string;
  SigningKey : bytes;
  HModelName : string;
  slots_cap : Z
}.

Record HandoffResult := mkHandoffResult {
  SanitizedPayload : list LLMMessage;
  InferenceBlock : AdmissibleInferenceBlock;
  ConsequenceToken : MachineConsequenceRecord
}.

Definition NewHandoffCoordinator (wrapper : option ClientWrapper)
    (provider : option LLMProviderAdapter) (keyID : string) (signingKey : bytes)
    (maxConcurrentHandoffs : Z) : HandoffCoordinator :=
  mkHandoff wrapper provider keyID signingKey "gpt-4o-sub-agent-v1"
    (if maxConcurrentHandoffs <=? 0 then 1 else maxConcurrentHandoffs).

(** The arguments of a call; [h_ctx] is nil, or what the context's [Err]
    returns each time it is asked. *)
Record handoff_call := mkCall {
  h_ctx : option (nat -> option error);
  h_mcrID : array 16;
  h_mapID : array 16;
  h_sessionID : string;
  h_taskID : string;
  h_actorID : string;
  h_target : AgentIdentity;
  h_mask : EvaluationMask;
  h_scratchpad : list LLMMessage;
  h_bindings : list MemoryContextBinding;
  h_eepID : string;
  h_aepID : string
}.

(** [ctx.Err()], the [k]-th time; a nil context was replaced by Background. *)
Definition ctx_Err (call : handoff_call) (k : nat) : option error :=
  match h_ctx call with
  | Some err => err k
  | None => None
  end.

Definition modelName (c : HandoffCoordinator) : string :=
  if bool_decide (HModelName c <> "") then HModelName c else "gpt-4o-sub-agent-v1".

(** [hex[n]] of the digit table. *)
Definition hex_table (n : Z) : Ascii.ascii :=
  default Ascii.zero (String.get (Z.to_nat n) "0123456789abcdef").

Definition shortID (id : array 16) : string :=
  foldr (fun b s => String (hex_table (Z.shiftr (byte_to_Z b) 4))
                     (String (hex_table (Z.land (byte_to_Z b) 15)) s))
    "" (take 4 (vec_to_list id)).

Section handoff.
Context `{SliceSort, Ed25519}.

Definition generateHandoffSessionMAP (mapID : array 16)
    (sessionID agentID actorID taskID : string) (tenantHash : IDHash)
    (policyHash runtimeSnapshotHash : array 32) (runtimeSnapshotVersion : Z)
    (leaves : list LeafRecord) (signingKey : bytes) (keyID : string) (ttl now : Z)
    : result SessionMAP :=
  GenerateSessionMAPWithRuntimeSnapshot mapID sessionID agentID actorID taskID tenantHash
    (zero_array 32) policyHash runtimeSnapshotHash runtimeSnapshotVersion leaves signingKey
    keyID ttl now.

(** Up to the [select]: the error returned, or nil when a slot was taken. *)
Definition handoff_admission (c : option HandoffCoordinator) (call : handoff_call) (in_use : Z)
    : option error :=
  match ctx_Err call 0 with
  | Some err =>
      Some (errors_New ("ORCHESTRATOR_BACKPRESSURE: context done before slot admission -> "
                        +:+ error_text err))
  | None =>
      match c with
      | Some (mkHandoff (Some _) (Some _) _ key _ cap) =>
          if negb (length key =? PrivateKeySize)%nat then
            Some (errors_New "ORCHESTRATOR_HOOK_ERR: Ed25519 private signing key required")
          else if in_use <? cap then None
          else Some (errors_New BackpressureError)
      | _ =>
          Some (errors_New "ORCHESTRATOR_HOOK_ERR: coordinator requires gateway wrapper and provider")
      end
  end.

(** With a slot taken, until the return that releases it: the results, and what
    the provider was invoked with. *)
Definition handoff_body (c : HandoffCoordinator) (wrapper : ClientWrapper)
    (provider : LLMProviderAdapter) (call : handoff_call) (now : Z)
    : result HandoffResult * option (list LLMMessage) :=
  match ctx_Err call 1 with
  | Some err =>
      (Err (errors_New
        ("ORCHESTRATOR_BACKPRESSURE: context deadline exceeded before handoff execution -> "
         +:+ error_text err)), None)
  | None =>
  let target := h_target call in
  match SanitizeContextWindow (Some wrapper) (ctx_Err call 2) (TargetTenant target)
          (TargetDomain target) (h_mask call) (h_scratchpad call) (h_bindings call) with
  | Err err =>
      (Err (errors_New ("ORCHESTRATOR_HOOK_ERR: gateway scrubbing fault -> " +:+ error_text err)),
       None)
  | Ok (sanitizedMessages, leaves) =>
  let '(answer, invoked) := invoke provider sanitizedMessages in
  match answer with
  | Err err =>
      (Err (errors_New ("ORCHESTRATOR_HOOK_ERR: sub-agent invocation execution failure -> "
                        +:+ error_text err)), invoked)
  | Ok providerResponse =>
  let '(runtimeSnapshotHash, runtimeSnapshotVersion) :=
    snapshot_info wrapper (length (h_bindings call)) in
  match generateHandoffSessionMAP (h_mapID call) (h_sessionID call) (TargetAgentID target)
          (h_actorID call) (h_taskID call) (TargetTenant target) (WPolicyHash wrapper)
          runtimeSnapshotHash runtimeSnapshotVersion leaves (SigningKey c) (AuditKeyID c)
          hour now with
  | Err err =>
      (Err (errors_New ("ORCHESTRATOR_HOOK_ERR: evidence block compilation error -> "
                        +:+ error_text err)), invoked)
  | Ok smap =>
  let inferenceBlock :=
    mkInferenceBlock ("inf_sub_" +:+ shortID (h_mapID call)) (modelName c) (Text providerResponse)
      (Tokens providerResponse) smap now in
  match CompileLineageRecord (h_mcrID call) smap (h_eepID call) (h_aepID call) (time_unix now) with
  | Err err =>
      (Err (errors_New ("ORCHESTRATOR_HOOK_ERR: lineage seal failure -> " +:+ error_text err)),
       invoked)
  | Ok mcr => (Ok (mkHandoffResult sanitizedMessages inferenceBlock mcr), invoked)
  end end end end end.

(** A call without interference: the results, what the provider was invoked
    with, and the tokens left in [slots]. *)
Definition ExecuteAgentHandoff (c : option HandoffCoordinator) (in_use : Z)
    (call : handoff_call) (now : Z) : result HandoffResult * option (list LLMMessage) * Z :=
  match handoff_admission c call in_use with
  | Some err => (Err err, None, in_use)
  | None =>
      match c with
      | Some (mkHandoff (Some wrapper) (Some provider) _ _ _ _ as co) =>
          let in_use := in_use + 1 in                       (* c.slots <- struct{}{} *)
          let out := handoff_body co wrapper provider call now in
          (out, in_use - 1)                                 (* defer <-c.slots *)
      | _ => (Err (errors_New "unreachable"), None, in_use)
      end
  end.

(** ** Outcomes *)

Lemma admission_wrapped c call in_use :
  handoff_admission c call in_use = None ->
  exists co wrapper provider, c = Some co /\ GatewayWrapper co = Some wrapper /\
    HProvider co = Some provider /\ length (SigningKey co) = PrivateKeySize /\
    in_use < slots_cap co.
Proof.
  unfold handoff_admission. destruct (ctx_Err call 0); [done|].
  destruct c as [[[w|] [p|] id key name cap]|]; try done.
  destruct (Nat.eqb_spec (length key) PrivateKeySize) as [Hk|]; [|done]. cbn [negb].
  destruct (Z.ltb_spec in_use cap) as [Hlt|]; [|done]. intros _.
  by exists (mkHandoff (Some w) (Some p) id key name cap), w, p.
Qed.

(** Backpressure never starts work, and slots are always returned: a call
    that is not admitted (context done, coordinator incomplete, bad key, or all
    slots taken) returns its error without invoking the provider; an admitted
    call behaves as the body; after either, the tokens in the channel are as
    before. *)
Theorem handoff_admission_guards c in_use call now :
  let '(res, invoked, in_use') := ExecuteAgentHandoff c in_use call now in
  in_use' = in_use /\
  match handoff_admission c call in_use with
  | Some err => res = Err err /\ invoked = None
  | None => exists co wrapper provider,
      c = Some co /\ GatewayWrapper co = Some wrapper /\ HProvider co = Some provider /\
      in_use < slots_cap co /\ (res, invoked) = handoff_body co wrapper provider call now
  end.
Proof.
  unfold ExecuteAgentHandoff. destruct (handoff_admission c call in_use) as [err|] eqn:Ha; [done|].
  destruct (admission_wrapped _ _ _ Ha) as (co & w & p & -> & Hw & Hp & _ & Hlt).
  destruct co as [w' p' id key name cap]. cbn in Hw, Hp. subst w' p'. cbn [GatewayWrapper HProvider].
  destruct (handoff_body _ w p call now) as [res invoked] eqn:Eb.
  split; [lia|]. eexists _, w, p. split; [reflexivity|]. split; [done|]. split; [done|].
  split; [exact Hlt|]. by rewrite Eb.
Qed.

(** C11. A successful handoff is sealed end to end: the target agent saw the
    sanitized scratchpad and nothing else, the Session MAP of the block carries
    the gateway's leaves, names the target agent and its tenant and replays
    under the coordinator's public key, and the consequence token verifies
    against this Session MAP and names the EEP and AEP it was called with. *)
Theorem successful_handoff_is_sealed c wrapper provider call now res invoked seed :
  SigningKey c = NewKeyFromSeed seed ->
  handoff_body c wrapper provider call now = (Ok res, invoked) ->
  let smap := BlockSessionMAP (InferenceBlock res) in
  let mcr := ConsequenceToken res in
  exists leaves,
    SanitizeContextWindow (Some wrapper) None (TargetTenant (h_target call))
      (TargetDomain (h_target call)) (h_mask call) (h_scratchpad call) (h_bindings call)
      = Ok (SanitizedPayload res, leaves) /\
    invoked = Some (SanitizedPayload res) /\
    LeafRecords smap = leaves /\ AgentID smap = TargetAgentID (h_target call) /\
    SessionMap.TenantHash smap = TargetTenant (h_target call) /\
    VerifySessionMAP (drop 32 (NewKeyFromSeed seed)) smap = Ok (mkVerification true true true) /\
    VerifyLineageRecord mcr smap = true /\
    MCRID mcr = h_mcrID call /\ EEPID mcr = h_eepID call /\ AEPID mcr = h_aepID call.
Proof.
  intros Hk. unfold handoff_body, invoke. destruct (ctx_Err call 1); [done|].
  destruct (SanitizeContextWindow _ _ _ _ _ _ _) as [[sanitized leaves]|e] eqn:Es; [|done].
  destruct (provider sanitized) as [response|e]; [|done].
  destruct (snapshot_info wrapper _) as [h v].
  destruct (generateHandoffSessionMAP _ _ _ _ _ _ _ _ _ _ _ _ _ _) as [smap|e] eqn:Eg; [|done].
  destruct (CompileLineageRecord _ _ _ _ _) as [mcr|e] eqn:Ec; [|done].
  intros [= <- <-]. cbn [InferenceBlock BlockSessionMAP ConsequenceToken SanitizedPayload]. cbv zeta.
  exists leaves. split.
  { destruct (ctx_Err call 2); [done|exact Es]. }
  unfold generateHandoffSessionMAP in Eg. rewrite Hk in Eg.
  rewrite (generated_replays _ _ _ _ _ _ _ _ _ _ _ _ _ _ _ _ Eg).
  rewrite (proj1 (compiled_lineage_verifies _ _ _ _ _ _ Ec)).
  pose proof (GenerateSessionMAP_cases (h_mapID call) (h_sessionID call)
    (TargetAgentID (h_target call)) (h_actorID call) (h_taskID call) (TargetTenant (h_target call))
    (zero_array 32) (WPolicyHash wrapper) h v leaves (NewKeyFromSeed seed) (AuditKeyID c) hour now)
    as Hc.
  rewrite Eg in Hc. destruct Hc as (_ & _ & _ & Ha & Hl & _).
  split; [done|]. split; [done|]. split; [exact (f_equal at_agent Ha)|].
  split; [exact (f_equal at_tenant Ha)|]. split; [done|]. split; [done|].
  unfold CompileLineageRecord in Ec. repeat case_bool_decide; try done; by injection Ec as <-.
Qed.

(** With a free slot, a live context, a window that gets a leaf, a provider that
    answers and both trackers named, the handoff completes; its record verifies. *)
Lemma handoff_completes wrapper (provider : LLMProviderAdapter) keyID seed slots call now sanitized
    leaves response :
  (forall k, ctx_Err call k = None) ->
  SanitizeContextWindow (Some wrapper) None (TargetTenant (h_target call))
    (TargetDomain (h_target call)) (h_mask call) (h_scratchpad call) (h_bindings call)
    = Ok (sanitized, leaves) ->
  leaves <> [] -> provider sanitized = Ok response -> h_eepID call <> "" -> h_aepID call <> "" ->
  let c := NewHandoffCoordinator (Some wrapper) (Some provider) keyID (NewKeyFromSeed seed) slots in
  exists res, ExecuteAgentHandoff (Some c) 0 call now = (Ok res, Some sanitized, 0) /\
    SanitizedPayload res = sanitized /\
    VerifyLineageRecord (ConsequenceToken res) (BlockSessionMAP (InferenceBlock res)) = true.
Proof.
  intros Hctx Hs Hne Hp He Ha c. unfold ExecuteAgentHandoff, c, NewHandoffCoordinator, handoff_admission.
  rewrite Hctx, NewKeyFromSeed_size. cbn [PrivateKeySize Nat.eqb negb].
  replace (0 <? (if slots <=? 0 then 1 else slots)) with true
    by (destruct (Z.leb_spec slots 0); symmetry; apply Z.ltb_lt; lia).
  unfold handoff_body, invoke. rewrite !Hctx, Hs, Hp.
  destruct (snapshot_info wrapper _) as [h v]. unfold generateHandoffSessionMAP. cbn [SigningKey].
  edestruct generate_succeeds as (smap & Eg & _); [exact Hne|exact (eq_refl : 0 < hour)|rewrite Eg].
  destruct (CompileLineageRecord _ _ _ _ _) as [mcr|e] eqn:Ec;
    [|by rewrite CompileLineageRecord_ok in Ec].
  eexists. split; [reflexivity|]. split; [done|]. exact (proj1 (compiled_lineage_verifies _ _ _ _ _ _ Ec)).
Qed.

(** Known weakness: a handoff that can never be sealed is still executed.
    With an empty EEP or AEP identifier, every handoff whose sanitizing and
    provider call succeed fails, but only after the target agent has acted on
    the scratchpad: no consequence record is left of an action that took place. *)
Theorem unsealable_handoff_is_executed c wrapper provider call now seed sanitized leaves response :
  h_eepID call = "" \/ h_aepID call = "" ->
  SigningKey c = NewKeyFromSeed seed -> ctx_Err call 1 = None ->
  SanitizeContextWindow (Some wrapper) (ctx_Err call 2) (TargetTenant (h_target call))
    (TargetDomain (h_target call)) (h_mask call) (h_scratchpad call) (h_bindings call)
    = Ok (sanitized, leaves) ->
  leaves <> [] -> provider sanitized = Ok response ->
  handoff_body c wrapper provider call now
  = (Err (errors_New
       "ORCHESTRATOR_HOOK_ERR: lineage seal failure -> LINEAGE_MALFORMED: EEP and AEP trackers are required to close the consequence loop"),
     Some sanitized).
Proof.
  intros Hids Hk Hctx Hs Hne Hp. unfold handoff_body, invoke. rewrite Hctx, Hs, Hp.
  destruct (snapshot_info wrapper _) as [h v]. unfold generateHandoffSessionMAP. rewrite Hk.
  destruct (generate_succeeds (h_mapID call) (h_sessionID call) (TargetAgentID (h_target call))
    (h_actorID call) (h_taskID call) (TargetTenant (h_target call)) (zero_array 32)
    (WPolicyHash wrapper) h v leaves seed (AuditKeyID c) hour now Hne eq_refl) as (smap & -> & _).
  unfold CompileLineageRecord. by destruct Hids as [-> | ->]; rewrite ?orb_true_r.
Qed.

(** ** Refused content has no influence *)

Definition with_scratchpad (call : handoff_call) (messages : list LLMMessage) : handoff_call :=
  mkCall (h_ctx call) (h_mcrID call) (h_mapID call) (h_sessionID call) (h_taskID call) (h_actorID call)
    (h_target call) (h_mask call) messages (h_bindings call) (h_eepID call) (h_aepID call).

(** C1. What the gateway refuses has no influence on what an agent does.  Two turns, or
    two handoffs, on windows that differ only in the content of refused memories come
    out the same: the messages the provider is invoked with, its answer, the payload,
    the signed Session MAP, the consequence record, and every error; whatever the
    monitor and the profiles say at each binding, and whatever the provider
    computes from its messages. *)
Theorem refused_content_has_no_influence w profiles :
  ready w profiles ->
  (forall adapter provider wall params messages messages' bindings,
     differ_in_refused w profiles (RTenant params) (RDomain params) (RMask params) messages messages' bindings ->
     let r := Some (mkRunner (Some w) adapter provider) in
     ExecuteAdmissibleTurn r wall messages bindings params = ExecuteAdmissibleTurn r wall messages' bindings params) /\
  (forall provider keyID key model slots in_use call messages' now,
     differ_in_refused w profiles (TargetTenant (h_target call)) (TargetDomain (h_target call)) (h_mask call)
       (h_scratchpad call) messages' (h_bindings call) ->
     let c := Some (mkHandoff (Some w) provider keyID key model slots) in
     ExecuteAgentHandoff c in_use call now = ExecuteAgentHandoff c in_use (with_scratchpad call messages') now).
Proof.
  intros Hw. split.
  - intros [adapter|] [provider|] wall params messages messages' bindings Hd r; try done.
    unfold r, ExecuteAdmissibleTurn. by rewrite (differing_windows_agree w profiles _ _ _ _ _ _ _ Hw Hd).
  - intros provider keyID key model slots in_use call messages' now Hd c. unfold c, ExecuteAgentHandoff.
    assert (handoff_admission c (with_scratchpad call messages') in_use = handoff_admission c call in_use) as Ha by done.
    unfold c in Ha. rewrite Ha. destruct (handoff_admission _ call in_use); [done|]. destruct provider as [provider|]; [|done].
    pose proof (differing_windows_agree w profiles (ctx_Err call 2) _ _ _ _ _ _ Hw Hd) as Hs.
    assert (forall co, handoff_body co w provider call now = handoff_body co w provider (with_scratchpad call messages') now) as Hb
      by (intros co; unfold handoff_body; by rewrite Hs).
    by rewrite Hb.
Qed.

(** ** Concurrent handoffs *)

(** Where a call is: before its admission, holding a slot, or returned. *)
Inductive handoff_phase :=
| HArriving (call : handoff_call)
| HHolding (call : handoff_call)
| HReturned (res : result HandoffResult) (invoked : option (list LLMMessage)).

Record handoff_system := mkHandoffs { in_use : Z; calls : list handoff_phase }.

(** What one call does next. *)
Definition handoff_advance (c : HandoffCoordinator) (tokens : Z) (p : handoff_phase) (now : Z)
    : Z * handoff_phase :=
  match p with
  | HArriving call =>
      match handoff_admission (Some c) call tokens with
      | Some err => (tokens, HReturned (Err err) None)
      | None => (tokens + 1, HHolding call)
      end
  | HHolding call =>
      match GatewayWrapper c, HProvider c with
      | Some wrapper, Some provider =>
          let '(res, invoked) := handoff_body c wrapper provider call now in
          (tokens - 1, HReturned res invoked)
      | _, _ => (tokens, p)
      end
  | HReturned _ _ => (tokens, p)
  end.

Inductive handoff_step (c : HandoffCoordinator) : handoff_system -> handoff_system -> Prop :=
| handoff_moves s i p now :
    calls s !! i = Some p ->
    handoff_step c s
      (mkHandoffs (handoff_advance c (in_use s) p now).1
                  (<[i := (handoff_advance c (in_use s) p now).2]> (calls s)))
| handoff_arrives s call :
    handoff_step c s (mkHandoffs (in_use s) (calls s ++ [HArriving call])).

Definition holds (p : handoff_phase) : Z :=
  match p with HHolding _ => 1 | _ => 0 end.

Definition holding (ps : list handoff_phase) : Z := foldr Z.add 0 (holds <$> ps).

Lemma holding_cons p ps : holding (p :: ps) = holds p + holding ps.
Proof. done. Qed.

Lemma holding_app ps qs : holding (ps ++ qs) = holding ps + holding qs.
Proof. induction ps as [|p ps IH]; [done|]. cbn [app]. rewrite !holding_cons. lia. Qed.

Lemma holding_insert ps i p q :
  ps !! i = Some p -> holding (<[i := q]> ps) = holding ps - holds p + holds q.
Proof.
  revert i. induction ps as [|x ps IH]; intros [|i] Hi; try done.
  - injection Hi as ->. change (<[0%nat := q]> (p :: ps)) with (q :: ps).
    rewrite !holding_cons. lia.
  - change (<[S i := q]> (x :: ps)) with (x :: <[i := q]> ps).
    rewrite !holding_cons, (IH i Hi). lia.
Qed.

Lemma holding_nonneg ps : 0 <= holding ps.
Proof. induction ps as [|[] ps IH]; [done|..]; rewrite holding_cons; cbn [holds]; lia. Qed.

Lemma holds_le ps i p : ps !! i = Some p -> holds p <= holding ps.
Proof.
  revert i. induction ps as [|x ps IH]; intros [|i] Hi; try done; rewrite holding_cons.
  - injection Hi as ->. pose proof (holding_nonneg ps). lia.
  - specialize (IH i Hi). destruct x; cbn [holds]; lia.
Qed.

Lemma reachable_slots wrapper provider keyID key maxConcurrent s :
  let c := NewHandoffCoordinator (Some wrapper) (Some provider) keyID key maxConcurrent in
  rtc (handoff_step c) (mkHandoffs 0 []) s ->
  in_use s = holding (calls s) /\ 0 <= in_use s <= slots_cap c.
Proof.
  intros c. remember (mkHandoffs 0 []) as s0 eqn:E0. intros Hs.
  assert (in_use s0 = holding (calls s0) /\ 0 <= in_use s0 <= slots_cap c) as Hinit.
  { subst. unfold c. cbn. destruct (Z.leb_spec maxConcurrent 0); (split; [done|lia]). }
  clear E0. induction Hs as [|s0 s1 s Hstep Hs IH]; [done|]. apply IH. clear IH Hs.
  destruct Hinit as [He Hb]. destruct Hstep as [s0 i p now Hi|s0 call].
  - cbn [in_use calls]. rewrite (holding_insert _ i p) by done.
    pose proof (holds_le _ _ _ Hi) as Hle.
    destruct p as [call|call|res inv]; cbn [handoff_advance holds] in *.
    + destruct (handoff_admission _ _ _) as [err|] eqn:Ha; cbn [fst snd holds]; [lia|].
      destruct (admission_wrapped _ _ _ Ha) as (co & ? & ? & Eco & _ & _ & _ & Hlt).
      injection Eco as Eco. rewrite <-Eco in Hlt. fold c in Hlt. lia.
    + cbn [c NewHandoffCoordinator GatewayWrapper HProvider].
      destruct (handoff_body _ _ _ _ _); cbn [fst snd holds]. lia.
    + cbn [fst snd holds]. lia.
  - cbn [in_use calls]. rewrite holding_app, holding_cons. change (holding []) with 0.
    cbn [holds]. lia.
Qed.

(** C21. The slots bound the concurrency: under any interleaving of any number
    of calls, the tokens in the channel are exactly the calls between admission
    and return, and there are never more than the capacity; when none is
    executing the channel is empty, so slots never leak. *)
Theorem handoff_slots_bounded wrapper provider keyID key maxConcurrent s :
  let c := NewHandoffCoordinator (Some wrapper) (Some provider) keyID key maxConcurrent in
  rtc (handoff_step c) (mkHandoffs 0 []) s ->
  in_use s = holding (calls s) /\ 0 <= in_use s <= slots_cap c.
Proof.
  apply reachable_slots.
Qed.

(** *** Every call returns *)

(** The moves a call still has to make, at most. *)
Definition phase_rank (p : handoff_phase) : nat :=
  match p with HArriving _ => 2 | HHolding _ => 1 | HReturned _ _ => 0 end.

Definition call_rank (s : handoff_system) (i : nat) : nat := default 0%nat (phase_rank <$> calls s !! i).

(** A schedule of the calls there are: which one moves, and when. *)
Definition run_handoffs (c : HandoffCoordinator) (s : handoff_system) (sched : list (nat * Z))
    : handoff_system :=
  foldl (fun s it =>
    match calls s !! it.1 with
    | Some p => mkHandoffs (handoff_advance c (in_use s) p it.2).1
                  (<[it.1 := (handoff_advance c (in_use s) p it.2).2]> (calls s))
    | None => s
    end) s sched.

Definition moves_of (i : nat) (sched : list (nat * Z)) : nat := length (filter (fun it => it.1 = i) sched).

Lemma run_handoffs_steps c s sched : rtc (handoff_step c) s (run_handoffs c s sched).
Proof.
  revert s. induction sched as [|[i now] sched IH]; intros s; [apply rtc_refl|].
  cbn [run_handoffs foldl fst snd]. etrans; [|apply IH].
  destruct (calls s !! i) as [p|] eqn:Hi; [|apply rtc_refl]. apply rtc_once. by apply handoff_moves.
Qed.

Lemma run_handoffs_length c s sched : length (calls (run_handoffs c s sched)) = length (calls s).
Proof.
  revert s. induction sched as [|[i now] sched IH]; intros s; [done|].
  cbn [run_handoffs foldl fst snd]. etrans; [apply IH|].
  destruct (calls s !! i); [apply length_insert|done].
Qed.

(** Of two calls for one slot the one that moves second is refused. *)
Lemma second_call_refused wrapper provider keyID seed call1 call2 t1 t2 t3 :
  ctx_Err call1 0 = None -> ctx_Err call2 0 = None ->
  run_handoffs (NewHandoffCoordinator (Some wrapper) (Some provider) keyID (NewKeyFromSeed seed) 1)
    (mkHandoffs 0 [HArriving call1; HArriving call2]) [(0%nat, t1); (1%nat, t2); (1%nat, t3)]
  = mkHandoffs 1 [HHolding call1; HReturned (Err (errors_New BackpressureError)) None].
Proof.
  intros H1 H2. set (c := NewHandoffCoordinator _ _ _ _ _).
  assert (handoff_admission (Some c) call1 0 = None) as Ha1.
  { unfold handoff_admission, c, NewHandoffCoordinator. by rewrite H1, NewKeyFromSeed_size. }
  assert (handoff_admission (Some c) call2 1 = Some (errors_New BackpressureError)) as Ha2.
  { unfold handoff_admission, c, NewHandoffCoordinator. by rewrite H2, NewKeyFromSeed_size. }
  assert (handoff_advance c 0 (HArriving call1) t1 = (1, HHolding call1)) as E1
    by (cbn [handoff_advance]; by rewrite Ha1).
  assert (handoff_advance c 1 (HArriving call2) t2
    = (1, HReturned (Err (errors_New BackpressureError)) None)) as E2 by (cbn [handoff_advance]; by rewrite Ha2).
  unfold run_handoffs. cbn [foldl fst snd calls in_use lookup list_lookup]. rewrite E1.
  cbn [fst snd calls in_use insert list_insert lookup list_lookup]. by rewrite E2.
Qed.

Section complete.
Context (wrapper : ClientWrapper) (provider : LLMProviderAdapter) (keyID : string) (key : bytes) (slots : Z).
Let c := NewHandoffCoordinator (Some wrapper) (Some provider) keyID key slots.

Lemma handoff_advance_rank tokens p now :
  (phase_rank (handoff_advance c tokens p now).2 <= phase_rank p - 1)%nat.
Proof.
  destruct p as [call|call|res inv]; cbn [handoff_advance phase_rank]; [|
    unfold c; cbn [NewHandoffCoordinator GatewayWrapper HProvider]|done].
  - destruct (handoff_admission _ _ _); cbn; lia.
  - destruct (handoff_body _ _ _ _ _). cbn. lia.
Qed.

Lemma run_handoffs_rank s sched i :
  (call_rank (run_handoffs c s sched) i <= call_rank s i - moves_of i sched)%nat.
Proof.
  revert s. induction sched as [|[j now] sched IH]; intros s; [cbn; lia|].
  cbn [run_handoffs foldl fst snd]. etrans; [apply IH|].
  unfold moves_of. rewrite filter_cons. cbn [fst].
  destruct (calls s !! j) as [p|] eqn:Hj.
  - pose proof (handoff_advance_rank (in_use s) p now) as Hr. unfold call_rank. cbn [calls].
    case_decide as E; [subst j; cbn [length]|].
    + rewrite list_lookup_insert_eq, Hj by (by eapply lookup_lt_Some). cbn. lia.
    + rewrite list_lookup_insert_ne by done. done.
  - case_decide as E; [subst j; cbn [length]|done]. unfold call_rank. rewrite Hj. cbn. lia.
Qed.

(** A call that a schedule lets move twice has returned. *)
Lemma run_handoffs_returned s sched i :
  (i < length (calls s))%nat -> (2 <= moves_of i sched)%nat ->
  exists res invoked, calls (run_handoffs c s sched) !! i = Some (HReturned res invoked).
Proof.
  intros Hlt Hm. rewrite <-(run_handoffs_length c s sched) in Hlt.
  destruct (lookup_lt_is_Some_2 _ _ Hlt) as [p Hp]. rewrite Hp.
  pose proof (run_handoffs_rank s sched i) as Hr. unfold call_rank in Hr at 1. rewrite Hp in Hr.
  assert (call_rank s i <= 2)%nat by (unfold call_rank; destruct (calls s !! i) as [[]|]; cbn; lia).
  destruct p as [call|call|res inv]; cbn in Hr; [lia|lia|by eexists _, _].
Qed.

(** C15. Every call returns: from any reachable state, any schedule that lets each
    call move twice ends with all calls returned and the slots channel empty,
    whatever the calls, the clock and the provider's answers. *)
Theorem handoffs_complete s sched :
  rtc (handoff_step c) (mkHandoffs 0 []) s ->
  (forall i, (i < length (calls s))%nat -> (2 <= moves_of i sched)%nat) ->
  let s' := run_handoffs c s sched in
  length (calls s') = length (calls s) /\
  Forall (fun p => exists res invoked, p = HReturned res invoked) (calls s') /\ in_use s' = 0.
Proof.
  intros Hs Hsched s'.
  assert (length (calls s') = length (calls s)) as Hlen by apply run_handoffs_length.
  assert (Forall (fun p => exists res invoked, p = HReturned res invoked) (calls s')) as Hret.
  { apply Forall_lookup. intros i p Hi. pose proof (lookup_lt_Some _ _ _ Hi) as Hlt. rewrite Hlen in Hlt.
    destruct (run_handoffs_returned s sched i Hlt (Hsched i Hlt)) as (res & inv & E). exists res, inv.
    unfold s' in Hi. congruence. }
  split; [exact Hlen|]. split; [exact Hret|].
  destruct (reachable_slots wrapper provider keyID key slots s') as [-> _].
  { etrans; [exact Hs|apply run_handoffs_steps]. }
  clear Hlen. induction Hret as [|p ps (res & inv & ->) _ IH]; [done|]. by rewrite holding_cons, IH.
Qed.
End complete.
End handoff.

(** ** Examples *)

Lemma shortID_hex id : shortID id = hex_EncodeToString (take 4 (vec_to_list id)).
Proof.
  unfold shortID. induction (take 4 (vec_to_list id)) as [|b l IH]; [done|].
  cbn [foldr hex_EncodeToString]. rewrite IH. by destruct b.
Qed.

Section examples.
#[local] Existing Instance SmallGo.small_slice_sort.
#[local] Existing Instance SmallGo.trie_map_range.
#[local] Existing Instance AuditReplay.keyed_hash_scheme.

Definition ex_coordinator : HandoffCoordinator :=
  NewHandoffCoordinator (Some ex_wrapper) (Some ex_provider) "key-1" ex_key 2.
Definition ex_call (eep : string) : handoff_call :=
  mkCall None (copy_into 16 [x01]) (copy_into 16 [x0a]) "session" "task" "actor"
    (mkAgent "sub-agent" (zero_array 32) (zero_array 32)) ex_mask (ex_window "the code is 42")
    ex_bindings eep "aep".

Lemma successful_handoff_is_sealed_witness :
  exists res invoked,
    handoff_body ex_coordinator ex_wrapper ex_provider (ex_call "eep") 1700000000000000000
      = (Ok res, invoked) /\
  let smap := BlockSessionMAP (InferenceBlock res) in
  let mcr := ConsequenceToken res in
  exists leaves,
    SanitizeContextWindow (Some ex_wrapper) None (zero_array 32) (zero_array 32) ex_mask
      (ex_window "the code is 42") ex_bindings = Ok (SanitizedPayload res, leaves) /\
    invoked = Some (SanitizedPayload res) /\
    LeafRecords smap = leaves /\ AgentID smap = "sub-agent" /\
    SessionMap.TenantHash smap = zero_array 32 /\
    VerifySessionMAP (drop 32 (NewKeyFromSeed (zero_array 32))) smap
      = Ok (mkVerification true true true) /\
    VerifyLineageRecord mcr smap = true /\
    MCRID mcr = copy_into 16 [x01] /\ EEPID mcr = "eep" /\ AEPID mcr = "aep".
Proof.
  assert (is_ok (handoff_body ex_coordinator ex_wrapper ex_provider (ex_call "eep")
    1700000000000000000).1 = true) as Hok by (vm_compute; reflexivity).
  destruct (handoff_body ex_coordinator ex_wrapper ex_provider (ex_call "eep") 1700000000000000000)
    as [[res|e] invoked] eqn:E; [|discriminate Hok].
  exists res, invoked. split; [reflexivity|].
  exact (successful_handoff_is_sealed ex_coordinator ex_wrapper ex_provider (ex_call "eep")
    1700000000000000000 res invoked (zero_array 32) eq_refl E).
Defined.

(** A handoff on a window with a quarantined memory. *)
Lemma refused_content_has_no_influence_witness :
  ExecuteAgentHandoff (Some ex_coordinator) 0 (ex_call "eep") 1700000000000000000 =
  ExecuteAgentHandoff (Some ex_coordinator) 0 (with_scratchpad (ex_call "eep") (ex_window "the code is 43"))
    1700000000000000000.
Proof.
  apply (proj2 (refused_content_has_no_influence ex_wrapper ex_profiles eq_refl)).
  split; [reflexivity|]. intros j Hj. exists 0%nat, (ex_bind x22 1).
  split; [reflexivity|]. destruct j as [|[|[|j]]]; try (destruct Hj; reflexivity).
  split; vm_compute; reflexivity.
Defined.

Lemma unsealable_handoff_is_executed_witness :
  exists sanitized,
    handoff_body ex_coordinator ex_wrapper ex_provider (ex_call "") 1700000000000000000
    = (Err (errors_New
       "ORCHESTRATOR_HOOK_ERR: lineage seal failure -> LINEAGE_MALFORMED: EEP and AEP trackers are required to close the consequence loop"),
       Some sanitized).
Proof.
  exists ex_sanitized.1.
  refine (unsealable_handoff_is_executed ex_coordinator ex_wrapper ex_provider (ex_call "")
    1700000000000000000 (zero_array 32) ex_sanitized.1 ex_sanitized.2 ex_response
    _ eq_refl eq_refl _ _ eq_refl).
  - left. reflexivity.
  - vm_compute. reflexivity.
  - vm_compute. discriminate.
Defined.

Lemma handoff_slots_bounded_witness :
  let s := mkHandoffs 1 [HHolding (ex_call "eep")] in
  in_use s = holding (calls s) /\ 0 <= in_use s <= slots_cap ex_coordinator.
Proof.
  intros s.
  refine (handoff_slots_bounded ex_wrapper ex_provider "key-1" ex_key 2 s _).
  eapply rtc_l; [apply (handoff_arrives _ _ (ex_call "eep"))|].
  eapply rtc_l; [apply (handoff_moves _ _ 0 (HArriving (ex_call "eep")) 0); reflexivity|].
  apply rtc_refl.
Defined.

(** One call holds its slot and another arrives. *)
Lemma handoffs_complete_witness :
  let s := mkHandoffs 1 [HHolding (ex_call "eep"); HArriving (ex_call "eep")] in
  in_use (run_handoffs ex_coordinator s [(1%nat, 1); (0%nat, 2); (0%nat, 3); (1%nat, 4)]) = 0.
Proof.
  intros s.
  refine (proj2 (proj2 (handoffs_complete ex_wrapper ex_provider "key-1" ex_key 2 s
    [(1%nat, 1); (0%nat, 2); (0%nat, 3); (1%nat, 4)] _ _))).
  - eapply rtc_l; [apply (handoff_arrives _ _ (ex_call "eep"))|].
    eapply rtc_l; [apply (handoff_moves _ _ 0 (HArriving (ex_call "eep")) 0); reflexivity|].
    eapply rtc_l; [apply (handoff_arrives _ _ (ex_call "eep"))|]. apply rtc_refl.
  - intros [|[|i]] Hi; [vm_compute; lia..|]. cbn in Hi. lia.
Defined.
End examples.
