(* ===== verification/Rpc.v ===== *)
(** * The RPC surface ([pkg/rpc])

    [AdmissibilityServer] evaluates batches of memory candidates against one
    runtime snapshot, and registers revocation events: first in the durable
    ledger, then in the monitor. *)
From S2P Require Import Prelude Sha256 Bitmask Tenant Evaluate Merkle Quarantine Monitor EventJson Persistence.

(** ** Errors *)

Definition CodeOK : Z := 0.
Definition CodeInvalidArgument : Z := 1.
Definition CodeInternal : Z := 2.

Definition Code_String (c : Z) : string :=
  if c =? CodeInvalidArgument then "InvalidArgument"
  else if c =? CodeInternal then "Internal"
  else "OK".

(** [&Error{code, message}], with the text its [Error()] method builds. *)
Definition rpc_Error (code : Z) (message : string) : error :=
  mkError (Code_String code +:+ ": " +:+ message) (RPCError code).

Definition InvalidArgument (message : string) : error := rpc_Error CodeInvalidArgument message.
Definition Internal (message : string) : error := rpc_Error CodeInternal message.

Definition ErrorCode (err : option error) : Z :=
  match err with
  | None => CodeOK
  | Some e => match error_dyn e with RPCError code => code | _ => CodeInternal end
  end.

(** ** Messages; a pointer may be nil *)

Record RuntimeContext := mkContext {
  CtxTenantHash : bytes;
  CtxDomainHash : bytes;
  CtxRequiredLifecycle : Z;
  CtxProhibitedSafety : Z;
  CtxAllowedUseClasses : Z;
  CtxProhibitedUseBlocks : Z
}.

Record MemoryCandidate := mkCandidate {
  MemoryId : bytes; CMemoryHash : bytes; MemoryFlags : Z
}.

Record EvaluateRequest := mkEvaluateRequest {
  SessionId : string;
  AgentId : string;
  Context : option RuntimeContext;
  Candidates : list (option MemoryCandidate)
}.

Record MemoryDecisionLeaf := mkDecisionLeaf {
  DMemoryId : bytes; DDecisionCode : Z; ReasonCode : string; DInjected : bool
}.

Record EvaluateResponse := mkEvaluateResponse {
  RspSessionId : string;
  RspMerkleRoot : bytes;
  Decisions : list MemoryDecisionLeaf;
  RspRuntimeSnapshotVersion : Z
}.

Record RevocationRequest := mkRevocationRequest {
  RvMemoryId : bytes; RvEventType : Z; RvReasonCode : Z; RvOperatorId : string; RvSource : string
}.

Record RevocationResponse := mkRevocationResponse {
  RspEventId : bytes; UpdatedSnapshotVersion : Z; UpdatedSnapshotHash : bytes
}.

Record AdmissibilityServer := mkServer {
  SMonitor : option RuntimeMonitor; SLedger : option FileLedger
}.

(** ** Evaluation *)

Definition request_mask (c : RuntimeContext) : EvaluationMask :=
  mkMask (RuntimeFlags (CtxRequiredLifecycle c)) (RuntimeFlags (CtxProhibitedSafety c))
    (RuntimeFlags (CtxAllowedUseClasses c)) (RuntimeFlags (CtxProhibitedUseBlocks c)) 0.

(** The body of the loop over the candidates. *)
Definition evaluate_candidate (snap : RuntimeSnapshot) (rTenant rDomain : IDHash)
    (mask : EvaluationMask) (candidate : option MemoryCandidate)
    : result (MemoryDecisionLeaf * LeafRecord) :=
  match candidate with
  | None => Err (InvalidArgument "MALFORMED_CANDIDATE: nil candidate")
  | Some candidate =>
      if negb (length (MemoryId candidate) =? 16)%nat
         || negb (length (CMemoryHash candidate) =? 32)%nat then
        Err (InvalidArgument
          "MALFORMED_CANDIDATE: memory_id must be 16 bytes and memory_hash must be 32 bytes")
      else
      let mID := copy_into 16 (MemoryId candidate) in
      let mHash := copy_into 32 (CMemoryHash candidate) in
      let dynamicDecision := LookupWithSnapshot (Some snap) mID in
      let '(finalDecision, reasonCode) :=
        if negb (RdDecision dynamicDecision =? DecisionUse)
        then (RdDecision dynamicDecision, RdReason dynamicDecision)
        else EvaluateMemoryHotPath rTenant rTenant rDomain rDomain (MemoryFlags candidate) mask in
      let injected := (finalDecision =? DecisionUse) || (finalDecision =? DecisionQualify) in
      Ok (mkDecisionLeaf (vec_to_list (copy_into 16 (MemoryId candidate))) (u32 finalDecision)
            reasonCode injected,
          mkLeaf mID mHash (u8 finalDecision) injected (zero_array 32) (zero_array 32))
  end.

(** The loop, which stops at the first malformed candidate. *)
Fixpoint evaluate_candidates (snap : RuntimeSnapshot) (rTenant rDomain : IDHash)
    (mask : EvaluationMask) (cs : list (option MemoryCandidate))
    : result (list (MemoryDecisionLeaf * LeafRecord)) :=
  match cs with
  | [] => Ok []
  | c :: cs =>
      let! d := evaluate_candidate snap rTenant rDomain mask c in
      let! ds := evaluate_candidates snap rTenant rDomain mask cs in
      Ok (d :: ds)
  end.

Section server.
Context `{SliceSort, MapRange}.

Definition EvaluateMemoryUse (s : option AdmissibilityServer) (ctx_err : option error) (now : Z)
    (req : option EvaluateRequest) : result EvaluateResponse :=
  match ctx_err with
  | Some err => Err err
  | None =>
  match s with
  | Some (mkServer (Some monitor) _) =>
  match req with
  | Some (mkEvaluateRequest sessionId _ (Some context) candidates) =>
      if (length candidates =? 0)%nat then
        Err (InvalidArgument "MISSING_ARGUMENT: context and candidates are required")
      else if negb (length (CtxTenantHash context) =? 32)%nat
              || negb (length (CtxDomainHash context) =? 32)%nat then
        Err (InvalidArgument
          "MALFORMED_CONTEXT: tenant and domain hashes must be exactly 32 bytes")
      else
      let rTenant := copy_into 32 (CtxTenantHash context) in
      let rDomain := copy_into 32 (CtxDomainHash context) in
      let mask := request_mask context in
      let activeSnapshot := GetActiveSnapshot monitor now in
      let! evaluated := evaluate_candidates activeSnapshot rTenant rDomain mask candidates in
      let root := BuildTurnTree (evaluated.*2) in
      Ok (mkEvaluateResponse sessionId (vec_to_list root) (evaluated.*1)
            (SnapVersion activeSnapshot))
  | _ => Err (InvalidArgument "MISSING_ARGUMENT: context and candidates are required")
  end
  | _ => Err (Internal "SERVER_NOT_READY: runtime monitor is required")
  end end.

(** ** Registration *)

(** Randomness, clocks and ledger writes of one call. *)
Record rpc_env := mkRpcEnv {
  rpc_rand : result (array 16); rpc_event_time : Z; rpc_swap_time : Z;
  rpc_io : nat -> io_outcome
}.

Definition RegisterRevocationEvent `{EventCodec} (s : option AdmissibilityServer)
    (ctx_err : option error) (env : rpc_env) (req : option RevocationRequest)
    : option AdmissibilityServer * result RevocationResponse :=
  match ctx_err with
  | Some err => (s, Err err)
  | None =>
  match s with
  | Some (mkServer (Some monitor) ledger) =>
  match req with
  | Some req =>
      if negb (length (RvMemoryId req) =? 16)%nat then
        (s, Err (InvalidArgument "MALFORMED_REVOCATION: memory_id must be exactly 16 bytes"))
      else
      match rpc_rand env with
      | Err err => (s, Err err)
      | Ok eventID =>
          let event := mkEvent eventID (copy_into 16 (RvMemoryId req)) (u8 (RvEventType req))
            (u8 (RvReasonCode req)) (RvOperatorId req) (RvSource req) (rpc_event_time env)
            (zero_array 32) "" "active" (zero_array 64) "" in
          let '(ledger, err) :=
            match ledger with
            | None => (None, None)
            | Some l => let (l', err) := Persistence.AppendEvent l (rpc_io env) event in (Some l', err)
            end in
          match err with
          | Some err => (Some (mkServer (Some monitor) ledger), Err err)
          | None =>
              let '(monitor, snap) :=
                CompileAndSwap (Monitor.AppendEvent monitor event) (rpc_swap_time env) in
              (Some (mkServer (Some monitor) ledger),
               Ok (mkRevocationResponse (vec_to_list eventID) (SnapVersion snap)
                     (vec_to_list (SnapshotHash snap))))
          end
      end
  | None =>
      (s, Err (InvalidArgument "MALFORMED_REVOCATION: memory_id must be exactly 16 bytes"))
  end
  | _ => (s, Err (Internal "SERVER_NOT_READY: runtime monitor is required"))
  end end.

(** ** Facts about evaluation *)

Definition candidate_wf (c : option MemoryCandidate) : bool :=
  match c with
  | None => false
  | Some c => (length (MemoryId c) =? 16)%nat && (length (CMemoryHash c) =? 32)%nat
  end.

Lemma evaluate_candidate_wf snap rt rd mask c :
  is_ok (evaluate_candidate snap rt rd mask c) = candidate_wf c.
Proof.
  destruct c as [c|]; [|done]. unfold evaluate_candidate, candidate_wf.
  destruct (length (MemoryId c) =? 16)%nat, (length (CMemoryHash c) =? 32)%nat; try done. cbn.
  by destruct (if negb _ then _ else _) as [d r].
Qed.

Lemma evaluate_candidates_Forall2 snap rt rd mask cs ds :
  evaluate_candidates snap rt rd mask cs = Ok ds <->
  Forall2 (fun c d => evaluate_candidate snap rt rd mask c = Ok d) cs ds.
Proof.
  revert ds. induction cs as [|c cs IH]; intros ds; cbn [evaluate_candidates].
  - split; [by intros [= <-]|]. intros Hf. by inversion Hf.
  - destruct (evaluate_candidate snap rt rd mask c) as [d|e] eqn:E; cbn [result_bind].
    + destruct (evaluate_candidates snap rt rd mask cs) as [ds'|e] eqn:Es; cbn [result_bind].
      * split.
        -- intros [= <-]. constructor; [done|]. by apply IH.
        -- intros Hf. inversion Hf as [|? d' ? ds'' Hd Hds]; subst. rewrite E in Hd.
           injection Hd as <-. apply IH in Hds. by injection Hds as <-.
      * split; [done|]. intros Hf. inversion Hf as [|? d' ? ds'' Hd Hds]; subst.
        apply IH in Hds. done.
    + split; [done|]. intros Hf. inversion Hf; subst. congruence.
Qed.

Lemma evaluate_candidates_wf snap rt rd mask cs :
  is_ok (evaluate_candidates snap rt rd mask cs) = forallb candidate_wf cs /\
  forall e, evaluate_candidates snap rt rd mask cs = Err e -> error_dyn e = RPCError CodeInvalidArgument.
Proof.
  induction cs as [|c cs [IH IHe]]; [done|]. cbn [evaluate_candidates forallb].
  pose proof (evaluate_candidate_wf snap rt rd mask c) as Hc.
  destruct (evaluate_candidate snap rt rd mask c) as [d|e] eqn:E; cbn [result_bind is_ok] in *.
  - rewrite <-Hc. destruct (evaluate_candidates snap rt rd mask cs) as [ds|e]; cbn in *; [done|].
    split; [done|]. by intros e' [= <-]; apply IHe.
  - rewrite <-Hc. split; [done|]. intros e' [= <-]. revert E. unfold evaluate_candidate.
    destruct c as [c|]; [|by intros [= <-]]. destruct (negb _ || negb _); [by intros [= <-]|].
    by destruct (if negb _ then _ else _).
Qed.

(** A request the server can evaluate. *)
Definition request_wf (req : option EvaluateRequest) : bool :=
  match req with
  | Some (mkEvaluateRequest _ _ (Some c) cs) =>
      negb (length cs =? 0)%nat && (length (CtxTenantHash c) =? 32)%nat &&
      (length (CtxDomainHash c) =? 32)%nat && forallb candidate_wf cs
  | _ => false
  end.

(** C31. A running server answers exactly the well-formed requests: with a live
    context and a monitor, [EvaluateMemoryUse] succeeds if and only if a context
    with two 32-byte hashes and at least one candidate are present and every
    candidate has a 16-byte id and a 32-byte hash; it rejects everything else,
    nil pointers included, with code InvalidArgument. *)
Theorem EvaluateMemoryUse_accepts_iff monitor ledger now req :
  let r := EvaluateMemoryUse (Some (mkServer (Some monitor) ledger)) None now req in
  is_ok r = request_wf req /\
  forall e, r = Err e -> ErrorCode (Some e) = CodeInvalidArgument.
Proof.
  cbv zeta. unfold EvaluateMemoryUse, request_wf.
  destruct req as [[sid aid [c|] cs]|]; [|by split; [|intros e [= <-]]..].
  destruct (length cs =? 0)%nat; [by split; [|intros e [= <-]]|].
  destruct (length (CtxTenantHash c) =? 32)%nat; [|by split; [|intros e [= <-]]].
  destruct (length (CtxDomainHash c) =? 32)%nat; [|by split; [|intros e [= <-]]]. cbn [negb orb andb].
  destruct (evaluate_candidates_wf (GetActiveSnapshot monitor now) (copy_into 32 (CtxTenantHash c))
    (copy_into 32 (CtxDomainHash c)) (request_mask c) cs) as [Hok He].
  destruct (evaluate_candidates _ _ _ _ cs) as [ds|e]; cbn [result_bind is_ok] in *; [done|].
  split; [done|]. intros e' [= <-]. unfold ErrorCode. by rewrite He.
Qed.

(** The ruling on a candidate: the snapshot first, then the static evaluation. *)
Definition candidate_ruling (snap : RuntimeSnapshot) (mask : EvaluationMask) (c : MemoryCandidate)
    : Z * string :=
  let d := LookupWithSnapshot (Some snap) (copy_into 16 (MemoryId c)) in
  if RdDecision d =? DecisionUse
  then EvaluateMemoryHotPath (zero_array 32) (zero_array 32) (zero_array 32) (zero_array 32)
         (MemoryFlags c) mask
  else (RdDecision d, RdReason d).

Lemma hot_path_self rt rd flags mask :
  EvaluateMemoryHotPath rt rt rd rd flags mask
  = EvaluateMemoryHotPath (zero_array 32) (zero_array 32) (zero_array 32) (zero_array 32) flags mask.
Proof.
  unfold EvaluateMemoryHotPath. rewrite !ValidateTenant_spec, ?ValidateDomain_spec.
  by rewrite !bool_decide_eq_true_2.
Qed.

Lemma evaluate_candidate_self snap rt rd rt' rd' mask c :
  evaluate_candidate snap rt rt' mask c = evaluate_candidate snap rd rd' mask c.
Proof.
  destruct c as [c|]; [|done]. unfold evaluate_candidate.
  by rewrite (hot_path_self rt rt'), (hot_path_self rd rd').
Qed.

Lemma evaluate_candidates_self snap rt rd rt' rd' mask cs :
  evaluate_candidates snap rt rt' mask cs = evaluate_candidates snap rd rd' mask cs.
Proof.
  induction cs as [|c cs IH]; [done|]. cbn [evaluate_candidates].
  by rewrite (evaluate_candidate_self snap rt rd rt' rd'), IH.
Qed.

(** A batch is judged against one snapshot: in a successful response every
    candidate has one decision, in order, which is the ruling of the snapshot
    that was active when the batch began, the version in the response is that
    snapshot's, and the root is the tree of exactly these decisions. *)
Theorem EvaluateMemoryUse_consistent monitor ledger now sid aid context cs rsp :
  EvaluateMemoryUse (Some (mkServer (Some monitor) ledger)) None now
    (Some (mkEvaluateRequest sid aid (Some context) cs)) = Ok rsp ->
  let snap := GetActiveSnapshot monitor now in
  RspSessionId rsp = sid /\ RspRuntimeSnapshotVersion rsp = SnapVersion snap /\
  exists leaves,
    RspMerkleRoot rsp = vec_to_list (BuildTurnTree leaves) /\
    Forall3 (fun c d l =>
      exists m, c = Some m /\
        let '(code, reason) := candidate_ruling snap (request_mask context) m in
        let injected := (code =? DecisionUse) || (code =? DecisionQualify) in
        d = mkDecisionLeaf (MemoryId m) (u32 code) reason injected /\
        l = mkLeaf (copy_into 16 (MemoryId m)) (copy_into 32 (CMemoryHash m)) (u8 code) injected
              (zero_array 32) (zero_array 32)) cs (Decisions rsp) leaves.
Proof.
  intros E snap. unfold EvaluateMemoryUse in E. fold snap in E.
  destruct (length cs =? 0)%nat; [done|]. destruct (negb _ || negb _); [done|].
  rewrite (evaluate_candidates_self _ _ (zero_array 32) _ (zero_array 32)) in E.
  destruct (evaluate_candidates _ _ _ _ _) as [ds|e] eqn:Ed; [|done]. cbn [result_bind] in E.
  injection E as <-. cbn [RspSessionId RspRuntimeSnapshotVersion RspMerkleRoot Decisions].
  split; [done|]. split; [done|]. exists (ds.*2). split; [done|].
  apply evaluate_candidates_Forall2 in Ed. clear -Ed.
  induction Ed as [|c d cs ds Hc Hcs IH]; [constructor|]. cbn [fmap list_fmap].
  constructor; [|exact IH]. clear IH Hcs. destruct c as [m|]; [|done]. exists m. split; [done|].
  revert Hc. unfold evaluate_candidate, candidate_ruling.
  destruct (Nat.eqb_spec (length (MemoryId m)) 16) as [Hl|]; [|done].
  destruct (negb _ || negb _); [done|].
  destruct (Z.eqb_spec (RdDecision (LookupWithSnapshot (Some snap) (copy_into 16 (MemoryId m))))
    DecisionUse) as [Hu|Hu]; cbn [negb].
  - destruct (EvaluateMemoryHotPath _ _ _ _ _ _) as [code reason]. intros [= <-].
    by rewrite vec_to_list_copy_into.
  - intros [= <-]. by rewrite vec_to_list_copy_into.
Qed.

(** Known weakness: the tenant and domain of a request are not checked
    against anything.  The server compares the runtime's hashes with themselves,
    so two requests that differ only in their (32-byte) tenant and domain get
    the same answer, for any memories. *)
Theorem EvaluateMemoryUse_ignores_tenant s ctx_err now sid aid c cs t' d' :
  length (CtxTenantHash c) = 32%nat -> length (CtxDomainHash c) = 32%nat ->
  length t' = 32%nat -> length d' = 32%nat ->
  EvaluateMemoryUse s ctx_err now (Some (mkEvaluateRequest sid aid (Some c) cs))
  = EvaluateMemoryUse s ctx_err now (Some (mkEvaluateRequest sid aid
      (Some (mkContext t' d' (CtxRequiredLifecycle c) (CtxProhibitedSafety c)
               (CtxAllowedUseClasses c) (CtxProhibitedUseBlocks c))) cs)).
Proof.
  intros Ht Hd Ht' Hd'. unfold EvaluateMemoryUse. cbn [CtxTenantHash CtxDomainHash].
  rewrite Ht, Hd, Ht', Hd'. destruct ctx_err; [done|]. destruct s as [[[m|] l]|]; try done.
  by rewrite (evaluate_candidates_self _ _ (copy_into 32 t') _ (copy_into 32 d')).
Qed.

(** ** Facts about registration *)

Section registration.
Context `{EventCodec}.

(** The event a request stands for. *)
Definition request_event (env : rpc_env) (req : RevocationRequest) (eventID : array 16)
    : RevocationEvent :=
  mkEvent eventID (copy_into 16 (RvMemoryId req)) (u8 (RvEventType req)) (u8 (RvReasonCode req))
    (RvOperatorId req) (RvSource req) (rpc_event_time env) (zero_array 32) "" "active"
    (zero_array 64) "".

(** The two ways a registration ends on a running server with a ledger. *)
Lemma register_cases m l env req s' rsp :
  RegisterRevocationEvent (Some (mkServer (Some m) (Some l))) None env (Some req) = (s', rsp) ->
  (exists e, rsp = Err e /\ exists l', s' = Some (mkServer (Some m) (Some l'))) \/
  (exists eventID l', rpc_rand env = Ok eventID /\
     let event := request_event env req eventID in
     Persistence.AppendEvent l (rpc_io env) event = (l', None) /\
     let p := publish m event (rpc_swap_time env) in
     s' = Some (mkServer (Some p.1) (Some l')) /\
     rsp = Ok (mkRevocationResponse (vec_to_list eventID) (SnapVersion p.2)
                 (vec_to_list (SnapshotHash p.2)))).
Proof.
  unfold RegisterRevocationEvent. destruct (negb _); [intros [= <- <-]; left; by eauto|].
  destruct (rpc_rand env) as [eventID|e]; [|intros [= <- <-]; left; by eauto].
  fold (request_event env req eventID).
  destruct (Persistence.AppendEvent l (rpc_io env) (request_event env req eventID)) as [l' [e|]] eqn:E;
    [intros [= <- <-]; left; by eauto|].
  intros Heq. right. exists eventID, l'. split; [done|]. split; [done|].
  fold (publish m (request_event env req eventID) (rpc_swap_time env)) in Heq.
  by destruct (publish m (request_event env req eventID) (rpc_swap_time env)); injection Heq as <- <-.
Qed.

(** C10. Registration is write-ahead and atomic for its caller.  On a server with a
    monitor and a ledger whose log replays, with a live context, and for a request
    whose event the codec decodes back ([json_ok]): an error leaves the monitor as it
    was; a success means that the event is in the durable
    ledger, so that a log that replayed to [evs] now replays to [evs] and the
    event, that the monitor's ledger ends with it and its active snapshot is the
    one whose version and hash are returned, and that lookups of the memory
    already answer with the event applied. *)
Theorem RegisterRevocationEvent_durable m l contents evs env req s' rsp :
  file l = Some contents -> replayFrom contents = Ok evs ->
  (forall id, rpc_rand env = Ok id -> json_ok (request_event env req id)) ->
  RegisterRevocationEvent (Some (mkServer (Some m) (Some l))) None env (Some req) = (s', rsp) ->
  exists m' l', s' = Some (mkServer (Some m') (Some l')) /\
  match rsp with
  | Err _ => m' = m
  | Ok r => exists event,
      EvMemoryID event = copy_into 16 (RvMemoryId req) /\ RspEventId r = vec_to_list (EventID event) /\
      ReplayGenesis l' = Ok (evs ++ [event]) /\ Ledger m' = Ledger m ++ [event] /\
      (UpdatedSnapshotHash r, UpdatedSnapshotVersion r)
        = (vec_to_list (ActiveSnapshotInfo m').1, (ActiveSnapshotInfo m').2) /\
      Lookup m' (EvMemoryID event)
        = decision_of (dyn_step (dyn_run (about (EvMemoryID event) (Ledger m))) event)
  end.
Proof.
  intros Hf Hr Hj E. apply register_cases in E as [(e & -> & l' & ->)|(id & l' & Hid & Ha & -> & ->)].
  { by exists m, l'. }
  eexists _, l'. split; [reflexivity|]. exists (request_event env req id).
  split; [done|]. split; [done|]. split; [by apply (append_ok_replays l (rpc_io env) _ contents); [..|apply Hj|]|].
  split; [done|]. split; [done|]. apply publish_lookup.
Qed.

(** Known weakness: an event type the monitor does not know is acknowledged
    and does nothing.  The 32-bit type of the request is cut to eight bits; when
    what remains is not one of the eight event types, a successful registration
    returns a new snapshot version, and every memory is decided as before. *)
Theorem unknown_event_type_is_acknowledged m l env req s' r :
  7 < u8 (RvEventType req) ->
  (forall id, Lookup m id = decision_of (dyn_run (about id (Ledger m)))) ->
  RegisterRevocationEvent (Some (mkServer (Some m) (Some l))) None env (Some req) = (s', Ok r) ->
  exists m' l', s' = Some (mkServer (Some m') (Some l')) /\
    UpdatedSnapshotVersion r = u64 (active_version m + 1) /\
    forall id, Lookup m' id = Lookup m id.
Proof.
  intros Ht Hm E.
  apply register_cases in E as [(e & [=] & _)|(eid & l' & Hid & Ha & -> & [= ->])].
  eexists _, l'. split; [reflexivity|]. split.
  { apply publish_version. }
  intros id. rewrite Hm. set (event := request_event env req eid).
  assert (forall s, dyn_step s event = s) as Hstep.
  { intros s. unfold dyn_step, is_quarantine_type. change (EventType event) with (u8 (RvEventType req)).
    unfold EventDeleteRequested, EventQuarantineMemory, EventPoisoningSuspected,
      EventPromptInjectionDetected, EventCrossSessionLeak, EventCrossAgentLeak, EventRevokeMemory,
      EventClearQuarantine.
    repeat rewrite (proj2 (Z.eqb_neq (u8 (RvEventType req)) _)) by lia. by destruct s. }
  rewrite Lookup_active. unfold publish, CompileAndSwap. cbv zeta. cbn [fst SwapActiveSnapshot active].
  rewrite lookup_compiled. unfold Ledger. cbn [Monitor.AppendEvent ledger].
  rewrite about_app. unfold dyn_run. rewrite foldl_app.
  assert (foldl dyn_step (foldl dyn_step DClear (about id (ledger m))) (about id [event])
    = foldl dyn_step DClear (about id (ledger m))) as ->; [|done].
  unfold about at 2. rewrite filter_cons. case_decide; [|done]. cbn [foldl filter list_filter].
  apply Hstep.
Qed.
End registration.
End server.

(** ** Examples *)

Section examples.
#[local] Existing Instance SmallGo.small_slice_sort.
#[local] Existing Instance SmallGo.trie_map_range.
#[local] Existing Instance Persistence.compact_codec.

Definition ex_context (tenant : byte) : RuntimeContext :=
  mkContext (vec_to_list (copy_into 32 [tenant])) (vec_to_list (zero_array 32)) 0 16 768 65536.
Definition ex_candidate (id : byte) : option MemoryCandidate :=
  Some (mkCandidate (vec_to_list (mem id)) (vec_to_list (zero_array 32)) 513).
Definition ex_live : RuntimeMonitor :=
  (publish (NewRuntimeMonitor 0) (ex_event x01 x22 EventQuarantineMemory 0) 5).1.
Definition ex_server : AdmissibilityServer :=
  mkServer (Some ex_live) (Some (mkFileLedger (Some ex_log) "wal")).
Definition ex_request : EvaluateRequest :=
  mkEvaluateRequest "session" "agent" (Some (ex_context x07)) [ex_candidate x11; ex_candidate x22].

Lemma EvaluateMemoryUse_consistent_witness :
  exists rsp,
    EvaluateMemoryUse (Some ex_server) None 0 (Some ex_request) = Ok rsp /\
    RspSessionId rsp = "session" /\
    RspRuntimeSnapshotVersion rsp = SnapVersion (GetActiveSnapshot ex_live 0).
Proof.
  assert (is_ok (EvaluateMemoryUse (Some ex_server) None 0 (Some ex_request)) = true) as Hok
    by (vm_compute; reflexivity).
  destruct (EvaluateMemoryUse (Some ex_server) None 0 (Some ex_request)) as [rsp|e] eqn:E;
    [|discriminate Hok].
  exists rsp. split; [reflexivity|].
  destruct (EvaluateMemoryUse_consistent ex_live (Some (mkFileLedger (Some ex_log) "wal")) 0
    "session" "agent" (ex_context x07) [ex_candidate x11; ex_candidate x22] rsp E) as (H1 & H2 & _).
  split; [exact H1|exact H2].
Defined.

Lemma EvaluateMemoryUse_ignores_tenant_witness :
  EvaluateMemoryUse (Some ex_server) None 0 (Some ex_request)
  = EvaluateMemoryUse (Some ex_server) None 0
      (Some (mkEvaluateRequest "session" "agent" (Some (ex_context x08))
               [ex_candidate x11; ex_candidate x22])).
Proof.
  exact (EvaluateMemoryUse_ignores_tenant (Some ex_server) None 0 "session" "agent" (ex_context x07)
    [ex_candidate x11; ex_candidate x22] (CtxTenantHash (ex_context x08))
    (CtxDomainHash (ex_context x08)) eq_refl eq_refl eq_refl eq_refl).
Defined.

Definition ex_rpc_env : rpc_env :=
  mkRpcEnv (Ok (copy_into 16 [x09])) 1700000000000000000 8 (fun _ => IoOk).
Definition ex_revocation (type : Z) : RevocationRequest :=
  mkRevocationRequest (vec_to_list (mem x11)) type 0 "operator" "source".

Lemma unknown_event_type_is_acknowledged_witness :
  exists s' r m' l',
    RegisterRevocationEvent (Some ex_server) None ex_rpc_env (Some (ex_revocation 9)) = (s', Ok r) /\
    s' = Some (mkServer (Some m') (Some l')) /\
    UpdatedSnapshotVersion r = u64 (active_version ex_live + 1) /\
    forall id, Lookup m' id = Lookup ex_live id.
Proof.
  assert (is_ok (RegisterRevocationEvent (Some ex_server) None ex_rpc_env
    (Some (ex_revocation 9))).2 = true) as Hok by (vm_compute; reflexivity).
  destruct (RegisterRevocationEvent (Some ex_server) None ex_rpc_env (Some (ex_revocation 9)))
    as [s' [r|e]] eqn:E; [|discriminate Hok].
  destruct (unknown_event_type_is_acknowledged ex_live (mkFileLedger (Some ex_log) "wal") ex_rpc_env
    (ex_revocation 9) s' r) as (m' & l' & Hs & Hv & Hl).
  - vm_compute. reflexivity.
  - intros id. apply publish_lookup_all.
  - exact E.
  - exists s', r, m', l'. split; [reflexivity|]. split; [exact Hs|]. split; [exact Hv|exact Hl].
Defined.

#[local] Instance active_codec : EventCodec := Persistence.compact_codec_for "active".

Lemma RegisterRevocationEvent_durable_witness :
  let l := mkFileLedger (Some []) "wal" in
  exists s' rsp m' l',
    RegisterRevocationEvent (Some (mkServer (Some ex_live) (Some l))) None ex_rpc_env
      (Some (ex_revocation 2)) = (s', Ok rsp) /\
    s' = Some (mkServer (Some m') (Some l')) /\
    exists event,
      EvMemoryID event = mem x11 /\ RspEventId rsp = vec_to_list (EventID event) /\
      ReplayGenesis l' = Ok ([] ++ [event]) /\ Ledger m' = Ledger ex_live ++ [event] /\
      (UpdatedSnapshotHash rsp, UpdatedSnapshotVersion rsp)
        = (vec_to_list (ActiveSnapshotInfo m').1, (ActiveSnapshotInfo m').2) /\
      Lookup m' (EvMemoryID event)
        = decision_of (dyn_step (dyn_run (about (EvMemoryID event) (Ledger ex_live))) event).
Proof.
  intros l.
  assert (is_ok (RegisterRevocationEvent (Some (mkServer (Some ex_live) (Some l))) None ex_rpc_env
    (Some (ex_revocation 2))).2 = true) as Hok by (vm_compute; reflexivity).
  destruct (RegisterRevocationEvent (Some (mkServer (Some ex_live) (Some l))) None ex_rpc_env
    (Some (ex_revocation 2))) as [s' [rsp|e]] eqn:E; [|discriminate Hok].
  destruct (RegisterRevocationEvent_durable ex_live l [] [] ex_rpc_env (ex_revocation 2) s' (Ok rsp))
    as (m' & l' & Hs & Hrest).
  - reflexivity.
  - reflexivity.
  - intros id Hid. injection Hid as <-. vm_compute. reflexivity.
  - exact E.
  - exists s', rsp, m', l'. split; [reflexivity|]. split; [exact Hs|exact Hrest].
Defined.
End examples.
