(* ===== verification/Publication.v ===== *)
(** * Concurrent write-ahead publication ([pkg/rpc/server.go], [pkg/axis/worker.go])

    The RPC handler and the drift workers publish an event in the same way: first
    [FileLedger.AppendEvent], under the ledger's mutex, then
    [RuntimeMonitor.AppendEvent] and the actions of [CompileAndSwap].  This file
    composes the two components: any number of writers over one log and one
    monitor, each move an atomic action of one of them.  [handlers_run_as_writers]
    shows that a handler without interference is one such writer; the invariant
    [pub_inv] that the log is never behind the monitor. *)
From S2P Require Import Prelude Sha256 Evaluate Quarantine Monitor EventJson Persistence Axis AxisWorker Rpc.

(** ** Writers *)

(** Where a writer is: before its durable append, at an action of the monitor, or
    returned with the error of the ledger. *)
Inductive writer :=
| WDurable (event : RevocationEvent) (io : nat -> io_outcome)
| WMonitor (event : RevocationEvent) (p : pc)
| WFailed (err : error).

Definition writer_returned (w : writer) : bool :=
  match w with WMonitor _ AtDone | WFailed _ => true | _ => false end.

Definition writer_error (w : writer) : option error :=
  match w with WFailed e => Some e | _ => None end.

(** The actions a writer still has to take, at most. *)
Definition remaining (w : writer) : nat :=
  match w with
  | WDurable _ _ => 5
  | WMonitor _ (AtAppend _) => 4
  | WMonitor _ AtReadLedger => 3
  | WMonitor _ (AtLoadVersion _) => 2
  | WMonitor _ (AtStore _ _) => 1
  | WMonitor _ AtDone | WFailed _ => 0
  end.

Record publication := mkPublication {
  plog : FileLedger; pmon : RuntimeMonitor; writers : list writer
}.

(** No append stops in the middle of a record: one that fails has written nothing,
    or everything. *)
Definition untorn (io : nat -> io_outcome) : Prop :=
  forall contents chunks contents' e,
    os_writes io 0 contents chunks = (contents', Some e) ->
    contents' = contents \/ contents' = contents ++ concat chunks.

Section publication.
Context `{EventCodec, SliceSort, MapRange}.

(** One atomic action of one writer, at wall-clock time [t]. *)
Definition writer_advance (l : FileLedger) (m : RuntimeMonitor) (w : writer) (t : Z)
    : FileLedger * RuntimeMonitor * writer :=
  match w with
  | WDurable event io =>
      let (l', err) := Persistence.AppendEvent l io event in
      (l', m, match err with Some e => WFailed e | None => WMonitor event (AtAppend event) end)
  | WMonitor event p => (l, (advance m p t).1, WMonitor event (advance m p t).2)
  | WFailed _ => (l, m, w)
  end.

Inductive pub_move (s : publication) : publication -> Prop :=
| pub_moves i w t :
    writers s !! i = Some w -> writer_returned w = false ->
    pub_move s
      (mkPublication (writer_advance (plog s) (pmon s) w t).1.1
         (writer_advance (plog s) (pmon s) w t).1.2
         (<[i := (writer_advance (plog s) (pmon s) w t).2]> (writers s))).

(** A move, or the arrival of a writer whose event can be encoded and whose append
    is not torn. *)
Inductive pub_step (s : publication) : publication -> Prop :=
| pub_moved s' : pub_move s s' -> pub_step s s'
| pub_arrives event io :
    json_ok event -> untorn io ->
    pub_step s (mkPublication (plog s) (pmon s) (writers s ++ [WDurable event io])).

(** A monitor recovered from a log, and no writer. *)
Definition recovered_start (l : FileLedger) (evs : list RevocationEvent) (version t : Z) : publication :=
  mkPublication l (mkMonitor (Some (CompileSnapshot evs version t)) evs) [].

Lemma moves_are_steps s s' : rtc pub_move s s' -> rtc pub_step s s'.
Proof. induction 1 as [|s s1 s2 Hm _ IH]; [apply rtc_refl|]. eapply rtc_l; [by apply pub_moved|done]. Qed.

(** ** A writer alone is a handler *)

Fixpoint solo (n : nat) (t : Z) (s : FileLedger * RuntimeMonitor * writer)
    : FileLedger * RuntimeMonitor * writer :=
  match n with
  | O => s
  | S n' => solo n' t (writer_advance s.1.1 s.1.2 s.2 t)
  end.

Lemma solo_publishes l m event io t :
  solo 5 t (l, m, WDurable event io) =
    match Persistence.AppendEvent l io event with
    | (l', Some e) => (l', m, WFailed e)
    | (l', None) => (l', (publish m event t).1, WMonitor event AtDone)
    end.
Proof.
  cbn [solo fst snd writer_advance]. by destruct (Persistence.AppendEvent l io event) as [l' [e|]].
Qed.

Definition result_error {A} (r : result A) : option error :=
  match r with Ok _ => None | Err e => Some e end.

(** C14. The handlers are writers: [RegisterRevocationEvent] past its guards, and
    [processJob] of a drifted job, leave the log and the monitor that the five
    actions of a writer of their event leave when nothing interferes, and return
    its error. *)
Theorem handlers_run_as_writers l m :
  (forall env req id,
    length (RvMemoryId req) = 16%nat -> rpc_rand env = Ok id ->
    let out := solo 5 (rpc_swap_time env)
                 (l, m, WDurable (request_event env req id) (rpc_io env)) in
    let handled := RegisterRevocationEvent (Some (mkServer (Some m) (Some l))) None env (Some req) in
    handled.1 = Some (mkServer (Some out.1.2) (Some out.1.1)) /\
    result_error handled.2 = writer_error out.2) /\
  (forall c job env event,
    CoLedger c = Some l -> CoMonitor c = Some m ->
    let res := EvaluateDrift (AnchorVector job) (MutatedVector job) (Dimensions c) (Threshold c) in
    AxisPreserved res = false -> eventForDrift job res env = Ok event ->
    let out := solo 5 (swap_time env) (l, m, WDurable event (ledger_io env)) in
    let handled := processJob c job env in
    CoLedger handled.1 = Some out.1.1 /\ CoMonitor handled.1 = Some out.1.2 /\
    handled.2 = writer_error out.2).
Proof.
  split.
  - intros env req id Hlen Hrand. rewrite solo_publishes. unfold RegisterRevocationEvent.
    rewrite Hlen, Hrand. cbn [Nat.eqb negb]. fold (request_event env req id).
    destruct (Persistence.AppendEvent l _ _) as [l' [e|]]; [done|].
    change (CompileAndSwap (Monitor.AppendEvent m (request_event env req id)) (rpc_swap_time env))
      with (publish m (request_event env req id) (rpc_swap_time env)).
    by destruct (publish m _ _).
  - intros c job env event Hl Hm res Hp He. rewrite solo_publishes. unfold processJob.
    cbn [count CoLedger CoMonitor Dimensions Threshold]. fold res. rewrite Hp, He, Hl, Hm.
    cbn [append_if]. by destruct (Persistence.AppendEvent l _ _) as [l' [e|]].
Qed.

(** ** Every writer returns *)

Definition work (s : publication) : nat := sum_list (remaining <$> writers s).

Lemma writer_advance_remaining l m w t :
  writer_returned w = false -> (remaining (writer_advance l m w t).2 < remaining w)%nat.
Proof.
  destruct w as [e io|e p|e]; [|destruct p|]; try done; intros _; cbn; try lia.
  destruct (Persistence.AppendEvent l io e) as [l' [err|]]; cbn; lia.
Qed.

Lemma pub_move_work s s' : pub_move s s' -> (work s' < work s)%nat.
Proof.
  intros [i w t Hi Hr]. unfold work. cbn [writers]. rewrite list_fmap_insert.
  pose proof (writer_advance_remaining (plog s) (pmon s) w t Hr) as Hlt.
  pose proof (sum_list_insert (remaining <$> writers s) i (remaining w)
    (remaining (writer_advance (plog s) (pmon s) w t).2)) as Hs.
  rewrite list_lookup_fmap, Hi in Hs. specialize (Hs eq_refl). lia.
Qed.

Lemma pub_moves_work k s s' : nsteps pub_move k s s' -> (k + work s' <= work s)%nat.
Proof. induction 1 as [|k s s1 s2 Hm%pub_move_work _ IH]; lia. Qed.

(** A state is final exactly when its writers have returned. *)
Lemma pub_final_iff s :
  (forall s', ~ pub_move s s') <-> Forall (fun w => writer_returned w = true) (writers s).
Proof.
  split.
  - intros Hno. apply Forall_lookup. intros i w Hi. apply not_false_is_true. intros Hr.
    by apply (Hno _ (pub_moves s i w 0 Hi Hr)).
  - intros Hall s' [i w t Hi Hr]. pose proof (proj1 (Forall_lookup _ _) Hall i w Hi) as Hr'. congruence.
Qed.

Lemma pub_progress s :
  Forall (fun w => writer_returned w = true) (writers s) \/ exists s', pub_move s s'.
Proof.
  destruct (decide (Forall (fun w => writer_returned w = true) (writers s))) as [|Hn]; [by left|].
  right. apply not_Forall_Exists, Exists_exists in Hn as (w & Hin & Hr); [|intros w; apply _].
  apply list_elem_of_lookup in Hin as [i Hi]. eexists. apply (pub_moves s i w 0 Hi).
  by apply not_true_is_false.
Qed.

(** Publication terminates: the writers of a state take five actions each at
    most, whatever the interleaving; a state where none can move is one where all
    have returned; and from every state some run reaches one. *)
Theorem publications_terminate s :
  (forall k s', nsteps pub_move k s s' -> (k <= 5 * length (writers s))%nat) /\
  (forall s', rtc pub_move s s' ->
     (forall s'', ~ pub_move s' s'') <-> Forall (fun w => writer_returned w = true) (writers s')) /\
  exists s', rtc pub_move s s' /\ Forall (fun w => writer_returned w = true) (writers s').
Proof.
  split; [|split].
  - intros k s' Hk%pub_moves_work.
    assert (forall ws, (sum_list (remaining <$> ws) <= 5 * length ws)%nat) as Hb.
    { induction ws as [|w ws IH]; [done|]. cbn. destruct w as [|? []|]; cbn; lia. }
    specialize (Hb (writers s)). unfold work in Hk. lia.
  - intros s' _. apply pub_final_iff.
  - induction s as [s IH] using (well_founded_induction (well_founded_ltof _ work)).
    destruct (pub_progress s) as [Hall|[s1 Hm]]; [by exists s|].
    destruct (IH s1 (pub_move_work _ _ Hm)) as (s' & Hs & Hall).
    exists s'. split; [by eapply rtc_l|done].
Qed.

(** ** The log is never behind the monitor *)

Lemma untorn_ok : untorn (fun _ => IoOk).
Proof.
  assert (forall chunks i contents, (os_writes (fun _ => IoOk) i contents chunks).2 = None) as Hok.
  { induction chunks as [|c chunks IH]; intros i contents; [done|]. apply IH. }
  intros contents chunks contents' e E. pose proof (Hok chunks 0%nat contents) as Hn.
  by rewrite E in Hn.
Qed.

(** An append that is not torn leaves a log that replays, with its event if it was
    acknowledged. *)
Lemma untorn_append_replays l io event contents evs l' err :
  file l = Some contents -> replayFrom contents = Ok evs -> json_ok event -> untorn io ->
  Persistence.AppendEvent l io event = (l', err) ->
  exists contents' evs', file l' = Some contents' /\ replayFrom contents' = Ok evs' /\
    (evs' = evs ++ [event] \/ is_Some err /\ evs' = evs).
Proof.
  intros Hf Hr Hj Hu E. destruct err as [e|].
  2:{ pose proof (append_ok_replays l io event contents evs l' Hf Hr Hj E) as Hg.
      unfold ReplayGenesis in Hg. destruct (file l') as [c'|]; [|done]. exists c', (evs ++ [event]). auto. }
  destruct (json_ok_payload event Hj) as (p & Hm & Hp & Hum).
  destruct (AppendEvent_outcome l io event contents p l' _ Hf Hm Hp E) as (n & Hf' & _).
  unfold Persistence.AppendEvent in E. rewrite Hf, Hm in E.
  destruct (length p =? 0)%nat; [injection E as <- _; exists contents, evs; split_and!; [done|done|by right]|].
  destruct (4294967295 <? Z.of_nat (length p)); [injection E as <- _; exists contents, evs; split_and!; [done|done|by right]|].
  destruct (os_writes io 0 contents (record_chunks p)) as [c' err'] eqn:Ew. injection E as <- ->.
  destruct (Hu _ _ _ _ Ew) as [->| ->].
  - exists contents, evs. split_and!; [done|done|by right].
  - apply replayFrom_sound in Hr as (ps & Hd & ->). exists (log_of ps ++ frame p), (evs ++ [event]).
    split; [done|]. split; [by apply replayFrom_snoc|by left].
Qed.

(** The events in the log that their writers have not yet given to the monitor. *)
Definition in_flight (w : writer) : list RevocationEvent :=
  match w with WMonitor _ (AtAppend event) => [event] | _ => [] end.

Definition writer_ok (ledger : list RevocationEvent) (w : writer) : Prop :=
  match w with
  | WDurable event io => json_ok event /\ untorn io
  | WMonitor event (AtAppend event') => event' = event
  | WMonitor event p => event ∈ ledger /\ local_ok ledger p
  | WFailed _ => True
  end.

Definition pub_inv (s : publication) : Prop :=
  exists contents evs, file (plog s) = Some contents /\ replayFrom contents = Ok evs /\
    ledger (pmon s) ++ concat (in_flight <$> writers s) ⊆+ evs /\
    Forall (writer_ok (ledger (pmon s))) (writers s) /\
    exists prefix v t, active (pmon s) = Some (CompileSnapshot prefix v t) /\
                       prefix `prefix_of` ledger (pmon s).

Lemma writer_ok_mono l l' w : l `prefix_of` l' -> writer_ok l w -> writer_ok l' w.
Proof.
  intros Hp. destruct w as [event io|event [event'| |events|events v|]|e]; try done; cbn [writer_ok];
    intros [Hin Hl]; (split; [destruct Hp as [k ->]; apply elem_of_app; by left|by eapply local_ok_mono]).
Qed.

Lemma durable_move_inv s i event io t :
  pub_inv s -> writers s !! i = Some (WDurable event io) ->
  pub_inv (mkPublication (writer_advance (plog s) (pmon s) (WDurable event io) t).1.1
             (writer_advance (plog s) (pmon s) (WDurable event io) t).1.2
             (<[i := (writer_advance (plog s) (pmon s) (WDurable event io) t).2]> (writers s))).
Proof.
  intros (contents & evs & Hf & Hr & Hsub & Hok & Hact) Hi.
  destruct (proj1 (Forall_lookup _ _) Hok i _ Hi) as [Hj Hu].
  destruct (concat_fmap_insert in_flight _ _ _ Hi) as (rest & Hp & Hins). cbn [in_flight app] in Hp.
  rewrite Hp in Hsub. cbn [writer_advance].
  destruct (Persistence.AppendEvent (plog s) io event) as [l' err] eqn:E.
  destruct (untorn_append_replays _ _ _ _ _ _ _ Hf Hr Hj Hu E) as (c' & evs' & Hf' & Hr' & Hevs).
  exists c', evs'. cbn [plog pmon writers fst snd]. split_and!; [exact Hf'|exact Hr'| | |exact Hact].
  - rewrite Hins. destruct err as [e|].
    + cbn [in_flight app]. destruct Hevs as [->|[_ ->]]; [|done]. rewrite Hsub. apply submseteq_inserts_r. done.
    + destruct Hevs as [->|[[? [=]] _]]. cbn [in_flight]. rewrite Permutation_app_swap_app, (Permutation_app_comm evs).
      by apply submseteq_skips_l.
  - apply Forall_insert; [done|]. by destruct err.
Qed.

Lemma monitor_move_inv s i event p t :
  pub_inv s -> writers s !! i = Some (WMonitor event p) -> p <> AtDone ->
  pub_inv (mkPublication (plog s) (advance (pmon s) p t).1
             (<[i := WMonitor event (advance (pmon s) p t).2]> (writers s))).
Proof.
  intros (contents & evs & Hf & Hr & Hsub & Hok & (pre & v & t0 & Ha & Hpre)) Hi Hnd.
  pose proof (proj1 (Forall_lookup _ _) Hok i _ Hi) as Hw.
  destruct (concat_fmap_insert in_flight _ _ _ Hi) as (rest & Hp & Hins).
  pose proof (advance_ledger (pmon s) p t) as Hmono.
  exists contents, evs. cbn [plog pmon writers]. split_and!; [done|done| | |].
  - rewrite Hins, <-Hsub, Hp. destruct p as [e| |l|l w|]; cbn [in_flight advance fst snd app]; try done.
    cbn [Monitor.AppendEvent ledger]. by rewrite <-app_assoc.
  - apply Forall_insert; [eapply Forall_impl; [exact Hok|]; intros w; by apply writer_ok_mono|].
    destruct p as [e| |l|l w|]; cbn [writer_ok advance fst snd local_ok] in *; try done.
    + subst e. split; [|done]. cbn [Monitor.AppendEvent ledger]. apply elem_of_app. right. by apply list_elem_of_singleton.
    + by destruct Hw.
    + split; [by destruct Hw|done].
  - destruct p as [e| |l|l w|]; cbn [writer_ok advance fst snd local_ok] in *; try done;
      try (exists pre, v, t0; split; [exact Ha|]; by etrans).
    destruct Hw as [_ Hl]. by exists l, w, t.
Qed.

Lemma pub_step_inv s s' : pub_step s s' -> pub_inv s -> pub_inv s'.
Proof.
  intros [s1 [i w t Hi Hr]|event io Hj Hu] Hinv.
  - destruct w as [event io|event p|e]; [by apply durable_move_inv| |done].
    cbn [writer_advance fst snd]. apply monitor_move_inv; [done|done|]. by intros ->.
  - destruct Hinv as (contents & evs & Hf & Hrep & Hsub & Hok & Hact). exists contents, evs.
    cbn [plog pmon writers]. split_and!; [done|done| |by apply Forall_app_2; [|constructor]|done].
    rewrite fmap_app, concat_app. cbn [fmap list_fmap in_flight concat]. by rewrite !app_nil_r.
Qed.

Lemma pub_reachable_inv l contents evs version t s :
  file l = Some contents -> replayFrom contents = Ok evs ->
  rtc pub_step (recovered_start l evs version t) s -> pub_inv s.
Proof.
  intros Hf Hr Hs.
  assert (pub_inv (recovered_start l evs version t)) as Hinv.
  { exists contents, evs. cbn. split_and!; [done|done|by rewrite app_nil_r|done|by exists evs, version, t]. }
  clear Hf Hr. induction Hs; eauto using pub_step_inv.
Qed.

(** *** Crashes *)

(** What the log may hold when the process dies: what it holds between two actions, or
    what the append of some writer leaves that the crash stops anywhere. *)
Inductive crash_contents (s : publication) : bytes -> Prop :=
| crash_between contents : file (plog s) = Some contents -> crash_contents s contents
| crash_in_append i event io stopped contents :
    writers s !! i = Some (WDurable event io) ->
    file (Persistence.AppendEvent (plog s) stopped event).1 = Some contents ->
    crash_contents s contents.

(** A recovered monitor that holds every event of the live one, and decides deleted what
    it does. *)
Definition covers (live m : RuntimeMonitor) : Prop :=
  Ledger live ⊆+ Ledger m /\
  forall id, RdDecision (Lookup live id) = DecisionDeleteRequested ->
             RdDecision (Lookup m id) = DecisionDeleteRequested.

Lemma recovers_covering live pre v t contents evs version now :
  active live = Some (CompileSnapshot pre v t) -> pre `prefix_of` ledger live ->
  ledger live ⊆+ evs -> replayFrom contents = Ok evs ->
  exists m snap, RecoverMonitorFromFile (Ok contents) version now = Ok (m, snap) /\ covers live m.
Proof.
  intros Ha [k Hk] Hled Hr. destruct (recovered contents evs version now Hr) as (m & snap & E & _ & _ & El & Hl).
  exists m, snap. split; [exact E|]. split; [by rewrite El|]. intros id. rewrite Hl, Lookup_active, Ha, lookup_compiled.
  rewrite !deletion_decided_iff, !Exists_exists. intros (del & Hin & Hdel). exists del. split; [|exact Hdel].
  apply (elem_of_submseteq (ledger live)); [|exact Hled]. rewrite Hk. apply elem_of_app. by left.
Qed.

(** C6. A crash forgets nothing that was in force: on a log that replays and a monitor
    recovered from it, whatever the interleaving of any number of writers whose
    events the codec decodes back and whose appends are not torn, at every moment the log on disk replays, to at least
    the events of the monitor's ledger and those of every writer that has
    returned nil; so recovery succeeds, with a monitor that holds every event the live
    one holds and decides deleted what it does.  If the process dies inside the
    append of a writer, however far that got, recovery gives such a monitor
    too, or refuses the log as corrupt. *)
Theorem monitor_never_ahead_of_log l contents0 evs0 version t s :
  file l = Some contents0 -> replayFrom contents0 = Ok evs0 ->
  rtc pub_step (recovered_start l evs0 version t) s ->
  exists contents evs,
    file (plog s) = Some contents /\ replayFrom contents = Ok evs /\ Ledger (pmon s) ⊆+ evs /\
    (forall i event, writers s !! i = Some (WMonitor event AtDone) -> event ∈ Ledger (pmon s)) /\
    (forall version' now, exists m snap,
       RecoverMonitorFromFile (Ok contents) version' now = Ok (m, snap) /\ covers (pmon s) m) /\
    forall crashed version' now, crash_contents s crashed ->
      (exists m snap, RecoverMonitorFromFile (Ok crashed) version' now = Ok (m, snap) /\ covers (pmon s) m) \/
      (exists e, RecoverMonitorFromFile (Ok crashed) version' now = Err e /\ is_corruption e).
Proof.
  intros Hf0 Hr0 Hs. pose proof (pub_reachable_inv _ _ _ _ _ _ Hf0 Hr0 Hs) as
    (contents & evs & Hf & Hr & Hsub & Hok & (pre & v & t0 & Ha & Hpre)).
  assert (ledger (pmon s) ⊆+ evs) as Hled by (rewrite <-Hsub; by apply submseteq_inserts_r).
  exists contents, evs. split_and!; [done|done|done| |intros version' now; by eapply recovers_covering|].
  - intros i event Hi. by destruct (proj1 (Forall_lookup _ _) Hok i _ Hi).
  - intros crashed version' now [contents' Hc|i event io stopped contents' Hi Hc].
    + left. rewrite Hf in Hc. injection Hc as <-. by eapply recovers_covering.
    + destruct (proj1 (Forall_lookup _ _) Hok i _ Hi) as [Hj _].
      destruct (append_replays_or_rejected (plog s) stopped event contents evs Hf Hr Hj) as (c & Hc' & Hcases).
      rewrite Hc in Hc'. injection Hc' as <-. destruct Hcases as [Hr'|[Hr'|(e & Hr' & Hcorr)]].
      * left. by eapply recovers_covering.
      * left. eapply recovers_covering; [exact Ha|exact Hpre| |exact Hr']. rewrite Hled. by apply submseteq_inserts_r.
      * right. exists e. split; [|exact Hcorr]. unfold RecoverMonitorFromFile, ReplayFile. cbn [result_bind]. by rewrite Hr'.
Qed.

(** ** The order of the log and the order of the monitor *)

(** A writer whose append is acknowledged; a writer that publishes undisturbed. *)
Lemma durable_run l contents m ws i event payload :
  file l = Some contents -> json_Marshal event = Ok payload -> payload_ok payload ->
  ws !! i = Some (WDurable event (fun _ => IoOk)) ->
  rtc pub_move (mkPublication l m ws)
    (mkPublication (mkFileLedger (Some (contents ++ frame payload)) (path l)) m
       (<[i := WMonitor event (AtAppend event)]> ws)).
Proof.
  intros Hf Hm Hp Hi. apply rtc_once.
  pose proof (pub_moves (mkPublication l m ws) i _ 0 Hi eq_refl) as Hmove.
  cbn [writer_advance plog pmon writers] in Hmove.
  by rewrite (AppendEvent_ok l contents event payload Hf Hm Hp) in Hmove.
Qed.

Lemma monitor_move l m ws i event p t :
  ws !! i = Some (WMonitor event p) -> p <> AtDone ->
  pub_move (mkPublication l m ws)
    (mkPublication l (advance m p t).1 (<[i := WMonitor event (advance m p t).2]> ws)).
Proof.
  intros Hi Hnd. apply (pub_moves (mkPublication l m ws) i (WMonitor event p) t Hi). by destruct p.
Qed.

Lemma publish_run l m ws i event t :
  ws !! i = Some (WMonitor event (AtAppend event)) ->
  rtc pub_move (mkPublication l m ws)
    (mkPublication l (publish m event t).1 (<[i := WMonitor event AtDone]> ws)).
Proof.
  intros Hi. pose proof (lookup_lt_Some _ _ _ Hi) as Hlt.
  eapply rtc_l; [by apply (monitor_move l m ws i event _ t Hi)|].
  do 2 (eapply rtc_l; [eapply (monitor_move _ _ _ i event _ t); [apply list_lookup_insert_eq; by rewrite ?length_insert|done]|]).
  eapply rtc_l; [eapply (monitor_move _ _ _ i event _ t); [apply list_lookup_insert_eq; by rewrite ?length_insert|done]|].
  rewrite !list_insert_insert_eq. apply rtc_refl.
Qed.

(** Both writers append to the log, then the second publishes, then the first. *)
Lemma crossing_run l contents m e1 e2 p1 p2 t :
  file l = Some contents ->
  json_Marshal e1 = Ok p1 -> payload_ok p1 -> json_Marshal e2 = Ok p2 -> payload_ok p2 ->
  rtc pub_move (mkPublication l m [WDurable e1 (fun _ => IoOk); WDurable e2 (fun _ => IoOk)])
    (mkPublication (mkFileLedger (Some ((contents ++ frame p1) ++ frame p2)) (path l))
       (publish (publish m e2 t).1 e1 t).1 [WMonitor e1 AtDone; WMonitor e2 AtDone]).
Proof.
  intros Hf Hm1 Hp1 Hm2 Hp2.
  etrans; [by apply (durable_run l contents m _ 0 e1 p1)|].
  etrans; [by apply (durable_run _ (contents ++ frame p1) m _ 1 e2 p2)|].
  etrans; [by apply (publish_run _ m _ 1 e2 t)|].
  exact (publish_run (mkFileLedger (Some ((contents ++ frame p1) ++ frame p2)) (path l))
    (publish m e2 t).1 [WMonitor e1 (AtAppend e1); WMonitor e2 AtDone] 0 e1 t eq_refl).
Qed.

(** C17. Known weakness: the order of two concurrent events in the log can be the
    reverse of their order in the monitor.  For a quarantine and a clearing of one
    memory that no earlier event is about, there is an interleaving after which both
    writers have returned nil and the live monitor quarantines the memory, while
    every monitor recovered from the log lets it be used. *)
Theorem recovery_can_undo_quarantine l contents evs version t e1 e2 :
  file l = Some contents -> replayFrom contents = Ok evs -> json_ok e1 -> json_ok e2 ->
  is_quarantine_type (EventType e1) = true -> EventType e2 = EventClearQuarantine ->
  EvMemoryID e2 = EvMemoryID e1 -> about (EvMemoryID e1) evs = [] ->
  exists s contents',
    rtc pub_step (recovered_start l evs version t) s /\
    writers s = [WMonitor e1 AtDone; WMonitor e2 AtDone] /\
    file (plog s) = Some contents' /\ replayFrom contents' = Ok (evs ++ [e1; e2]) /\
    Ledger (pmon s) = evs ++ [e2; e1] /\
    RdDecision (Lookup (pmon s) (EvMemoryID e1)) = DecisionQuarantine /\
    forall version' now, exists m snap,
      RecoverMonitorFromFile (Ok contents') version' now = Ok (m, snap) /\
      RdDecision (Lookup m (EvMemoryID e1)) = DecisionUse.
Proof.
  intros Hf Hr Hj1 Hj2 Hq Hc Hid Habout.
  destruct (json_ok_payload e1 Hj1) as (p1 & Hm1 & Hp1 & Hu1), (json_ok_payload e2 Hj2) as (p2 & Hm2 & Hp2 & Hu2).
  assert (replayFrom ((contents ++ frame p1) ++ frame p2) = Ok (evs ++ [e1; e2])) as Hr'.
  { apply replayFrom_sound in Hr as (ps & Hd & ->). change [e1; e2] with ([e1] ++ [e2]). rewrite app_assoc.
    pose proof (replayFrom_snoc ps evs p1 e1 Hd Hp1 Hu1) as (ps' & Hd' & ->)%replayFrom_sound.
    by apply replayFrom_snoc. }
  set (m := mkMonitor (Some (CompileSnapshot evs version t)) evs).
  exists (mkPublication (mkFileLedger (Some ((contents ++ frame p1) ++ frame p2)) (path l))
    (publish (publish m e2 0).1 e1 0).1 [WMonitor e1 AtDone; WMonitor e2 AtDone]).
  exists ((contents ++ frame p1) ++ frame p2). split; [|split; [reflexivity|]].
  - eapply rtc_l; [by apply (pub_arrives _ e1 (fun _ => IoOk)), untorn_ok|].
    eapply rtc_l; [by apply (pub_arrives _ e2 (fun _ => IoOk)), untorn_ok|].
    apply moves_are_steps. by apply (crossing_run l contents m e1 e2 p1 p2 0).
  - cbn [plog pmon file]. split_and!; [done|exact Hr'| | |].
    + cbn. by rewrite <-app_assoc.
    + rewrite publish_lookup. change (ledger (publish m e2 0).1) with (evs ++ [e2]).
      rewrite about_app, Habout. unfold about. rewrite filter_cons, decide_True by done.
      change (dyn_run ([] ++ e2 :: filter _ [])) with (dyn_step DClear e2).
      by rewrite (proj1 (dyn_clear e2 (EventID e1) "" Hc)), dyn_quarantine.
    + intros version' now. destruct (recovered _ _ version' now Hr') as (mr & snap & E & _ & _ & _ & Hl).
      exists mr, snap. split; [exact E|]. rewrite Hl, about_app, Habout. unfold about.
      rewrite !filter_cons, !decide_True by done.
      change (dyn_run ([] ++ e1 :: e2 :: filter _ [])) with (dyn_step (dyn_step DClear e1) e2).
      by rewrite (dyn_quarantine DClear e1 Hq), (proj2 (dyn_clear e2 _ _ Hc)).
Qed.
End publication.

(** ** Examples *)

Section examples.
#[local] Existing Instance SmallGo.small_slice_sort.
#[local] Existing Instance SmallGo.trie_map_range.
#[local] Existing Instance Persistence.compact_codec.

Definition ex_ledger : FileLedger := mkFileLedger (Some ex_log) "wal".
Definition ex_quarantine : RevocationEvent := ex_event x02 x22 EventQuarantineMemory 0.
Definition ex_clear : RevocationEvent := ex_event x03 x22 EventClearQuarantine 0.
Definition ex_delete : RevocationEvent := ex_event x04 x22 EventDeleteRequested 0.

(** A deletion is in the log and not yet in the monitor. *)
Lemma monitor_never_ahead_of_log_witness :
  exists s contents evs,
    writers s = [WMonitor ex_delete (AtAppend ex_delete)] /\
    file (plog s) = Some contents /\ replayFrom contents = Ok evs /\ Ledger (pmon s) ⊆+ evs.
Proof.
  set (s := mkPublication (mkFileLedger (Some (ex_log ++ frame (compact_encode ex_delete))) "wal")
    (mkMonitor (Some (CompileSnapshot [ex_q] 1 5)) [ex_q]) [WMonitor ex_delete (AtAppend ex_delete)]).
  destruct (monitor_never_ahead_of_log ex_ledger ex_log [ex_q] 1 5 s) as (contents & evs & Hf & Hr & Hsub & _).
  - reflexivity.
  - vm_compute. reflexivity.
  - eapply rtc_l; [apply (pub_arrives _ ex_delete (fun _ => IoOk)), untorn_ok; vm_compute; reflexivity|].
    apply moves_are_steps. apply (durable_run ex_ledger ex_log _ [WDurable ex_delete (fun _ => IoOk)] 0
      ex_delete (compact_encode ex_delete)); [reflexivity|reflexivity| |reflexivity].
    split; [discriminate|vm_compute; reflexivity].
  - exists s, contents, evs. split; [reflexivity|]. split; [exact Hf|]. split; [exact Hr|exact Hsub].
Defined.

Lemma recovery_can_undo_quarantine_witness :
  exists s contents',
    file (plog s) = Some contents' /\ replayFrom contents' = Ok [ex_q; ex_quarantine; ex_clear] /\
    RdDecision (Lookup (pmon s) (mem x22)) = DecisionQuarantine.
Proof.
  destruct (recovery_can_undo_quarantine ex_ledger ex_log [ex_q] 1 5 ex_quarantine ex_clear)
    as (s & contents' & _ & _ & Hf & Hr & _ & Hl & _);
    [reflexivity|vm_compute; reflexivity..|].
  exists s, contents'. split; [exact Hf|]. split; [exact Hr|exact Hl].
Defined.

(** A handler's writer, run to its end. *)
Lemma publications_terminate_witness :
  exists s', rtc pub_move (mkPublication ex_ledger (NewRuntimeMonitor 0)
    [WDurable ex_quarantine (fun _ => IoOk); WDurable ex_clear (fun _ => IoOk)]) s' /\
    Forall (fun w => writer_returned w = true) (writers s').
Proof. exact (proj2 (proj2 (publications_terminate _))). Defined.
End examples.
