(* ===== verification/Ops.v ===== *)
(** * Readiness ([pkg/ops/health.go])

    The readiness decision of a node from its telemetry, and the boot check. *)
From S2P Require Import Prelude.

Record SnapshotTelemetry := mkTelemetry {
  NodeID : string;
  SnapshotVersion : Z;          (* uint64 *)
  TSnapshotHash : array 32;
  LastAppliedAt : Z;            (* time.Time *)
  WALReadable : bool;
  PubSubReachable : bool;
  CoolingSince : Z              (* time.Time *)
}.

Record HealthConfig := mkHealthConfig {
  ClusterBaselineVersion : Z;   (* uint64 *)
  MaxVersionLag : Z;            (* uint64 *)
  MaxSnapshotLag : Z;           (* time.Duration *)
  MaxCoolingLock : Z;           (* time.Duration *)
  CfgNow : Z                    (* time.Time *)
}.

Record ReadinessResult := mkReadiness { Ready : bool; ReadyReason : string }.

(** [wall] is what [time.Now()] returns. *)
Definition EvaluateReadiness (t : SnapshotTelemetry) (cfg : HealthConfig) (wall : Z)
    : ReadinessResult :=
  let now := if is_zero_time (CfgNow cfg) then wall else CfgNow cfg in
  if (SnapshotVersion t =? 0) || bool_decide (TSnapshotHash t = zero_array 32) then
    mkReadiness false "MAM_RUNTIME_SNAPSHOT_ZERO"
  else if negb (WALReadable t) then mkReadiness false "MAM_WAL_UNREADABLE"
  else if (SnapshotVersion t <? ClusterBaselineVersion cfg) &&
          ((0 <? MaxVersionLag cfg) &&
           (MaxVersionLag cfg <? u64 (ClusterBaselineVersion cfg - SnapshotVersion t))) then
    mkReadiness false "MAM_SNAPSHOT_OUT_OF_SYNC"
  else if negb (is_zero_time (LastAppliedAt t)) && (0 <? MaxSnapshotLag cfg)
          && (MaxSnapshotLag cfg <? time_sub now (LastAppliedAt t)) then
    mkReadiness false "MAM_SNAPSHOT_LAG_EXCEEDED"
  else if negb (PubSubReachable t) then
    if is_zero_time (CoolingSince t) then mkReadiness true "MAM_PUBSUB_COOLING_LOCK"
    else if (0 <? MaxCoolingLock cfg) && (MaxCoolingLock cfg <? time_sub now (CoolingSince t)) then
      mkReadiness false "MAM_PUBSUB_UNREACHABLE"
    else mkReadiness true "MAM_PUBSUB_COOLING_LOCK"
  else mkReadiness true "MAM_READY".

Definition ValidateBootReplay (snapshotVersion : Z) (snapshotHash : array 32)
    (replayErr : option error) : option error :=
  match replayErr with
  | Some e => Some e
  | None =>
      if (snapshotVersion =? 0) || bool_decide (snapshotHash = zero_array 32) then
        Some (errors_New "MAM_BOOT_REPLAY_INVALID_SNAPSHOT")
      else None
  end.

(** ** The contract *)

(** The values a node's telemetry and configuration can have. *)
Definition telemetry_wf (t : SnapshotTelemetry) (cfg : HealthConfig) : Prop :=
  0 <= SnapshotVersion t < 2 ^ 64 /\ 0 <= ClusterBaselineVersion cfg < 2 ^ 64.

(** A limit that is enforced, and exceeded since [since]. *)
Definition overdue (limit now since : Z) : Prop :=
  since <> zero_time /\ 0 < limit < time_sub now since.

Definition telemetry_now (cfg : HealthConfig) (wall : Z) : Z :=
  if is_zero_time (CfgNow cfg) then wall else CfgNow cfg.

Lemma overdue_bool limit now since :
  negb (is_zero_time since) && (0 <? limit) && (limit <? time_sub now since) = true <->
  overdue limit now since.
Proof.
  unfold overdue, is_zero_time. rewrite !andb_true_iff, negb_true_iff, Z.eqb_neq, !Z.ltb_lt. tauto.
Qed.

Lemma version_lag_bool t cfg :
  telemetry_wf t cfg ->
  (SnapshotVersion t <? ClusterBaselineVersion cfg) &&
    ((0 <? MaxVersionLag cfg) &&
     (MaxVersionLag cfg <? u64 (ClusterBaselineVersion cfg - SnapshotVersion t))) = true <->
  0 < MaxVersionLag cfg < ClusterBaselineVersion cfg - SnapshotVersion t.
Proof.
  intros [Hv Hb]. rewrite !andb_true_iff, !Z.ltb_lt. unfold u64.
  destruct (Z.lt_ge_cases (SnapshotVersion t) (ClusterBaselineVersion cfg)) as [Hlt|]; [|lia].
  rewrite Z.mod_small by lia. tauto.
Qed.

(** C39. The readiness contract: a node is ready exactly when it serves a real
    snapshot from a readable log, is not further behind the cluster than the
    version limit, has not applied its snapshot too long ago, and, while
    publish-subscribe is unreachable, has not been cooling beyond the limit; a
    zero limit or an unset time disables the check. *)
Theorem EvaluateReadiness_iff t cfg wall :
  telemetry_wf t cfg ->
  let now := telemetry_now cfg wall in
  Ready (EvaluateReadiness t cfg wall) = true <->
  SnapshotVersion t <> 0 /\ TSnapshotHash t <> zero_array 32 /\ WALReadable t = true /\
  ~ (0 < MaxVersionLag cfg < ClusterBaselineVersion cfg - SnapshotVersion t) /\
  ~ overdue (MaxSnapshotLag cfg) now (LastAppliedAt t) /\
  (PubSubReachable t = true \/ ~ overdue (MaxCoolingLock cfg) now (CoolingSince t)).
Proof.
  intros Hwf now. unfold EvaluateReadiness. fold (telemetry_now cfg wall). fold now.
  rewrite <-!overdue_bool, <-version_lag_bool by done.
  destruct (Z.eqb_spec (SnapshotVersion t) 0) as [Hz|Hz]; cbn [orb]; [split; [done|tauto]|].
  case_bool_decide as Hh; [split; [done|tauto]|].
  destruct (WALReadable t); cbn [negb]; [|split; [done|by intros (_ & _ & ? & _)]].
  destruct ((SnapshotVersion t <? _) && _); [split; [done|tauto]|].
  destruct (negb (is_zero_time (LastAppliedAt t)) && _ && _); [split; [done|tauto]|].
  destruct (PubSubReachable t), (is_zero_time (CoolingSince t)), (0 <? MaxCoolingLock cfg),
    (MaxCoolingLock cfg <? time_sub now (CoolingSince t)); cbn;
    (split; [intros; repeat split; auto; right; congruence|]);
    intros Hx; try done; destruct Hx as (_ & _ & _ & _ & _ & [Hx|Hx]); try done; by destruct Hx.
Qed.

(** Known weakness: a node whose publish-subscribe is unreachable and whose
    cooling start was never recorded is ready at every time: the cooling limit,
    however small, does not apply to it. *)
Theorem unstarted_cooling_never_expires t cfg wall :
  SnapshotVersion t <> 0 -> TSnapshotHash t <> zero_array 32 -> WALReadable t = true ->
  PubSubReachable t = false -> CoolingSince t = zero_time ->
  ClusterBaselineVersion cfg <= SnapshotVersion t -> LastAppliedAt t = zero_time ->
  EvaluateReadiness t cfg wall = mkReadiness true "MAM_PUBSUB_COOLING_LOCK".
Proof.
  intros Hv Hh Hw Hp Hc Hb Hl. unfold EvaluateReadiness.
  rewrite (proj2 (Z.eqb_neq _ _)), bool_decide_eq_false_2, Hw, Hp, Hc, Hl by done.
  by rewrite (proj2 (Z.ltb_ge _ _)) by done.
Qed.

(** A node that boots is one whose telemetry can be ready. *)
Lemma ValidateBootReplay_ok version hash err :
  ValidateBootReplay version hash err = None <->
  err = None /\ version <> 0 /\ hash <> zero_array 32.
Proof.
  unfold ValidateBootReplay. destruct err as [e|]; [split; [done|by intros [? _]]|].
  destruct (Z.eqb_spec version 0); cbn [orb]; [split; [done|by intros (_ & ? & _)]|].
  case_bool_decide; split; try done. by intros (_ & _ & ?).
Qed.

(** ** Examples *)

Definition ex_telemetry (reachable : bool) : SnapshotTelemetry :=
  mkTelemetry "node-1" 7 (copy_into 32 [x01]) zero_time true reachable zero_time.
Definition ex_health : HealthConfig := mkHealthConfig 7 2 (60 * second) (30 * second) 0.

Lemma EvaluateReadiness_iff_witness :
  Ready (EvaluateReadiness (ex_telemetry true) ex_health 0) = true /\
  SnapshotVersion (ex_telemetry true) <> 0.
Proof.
  assert (Ready (EvaluateReadiness (ex_telemetry true) ex_health 0) = true) as Hr
    by (vm_compute; reflexivity).
  split; [exact Hr|].
  refine (proj1 (proj1 (EvaluateReadiness_iff (ex_telemetry true) ex_health 0 _) Hr)).
  split; cbn; lia.
Defined.

Lemma unstarted_cooling_never_expires_witness :
  EvaluateReadiness (ex_telemetry false) ex_health (3600 * second)
  = mkReadiness true "MAM_PUBSUB_COOLING_LOCK".
Proof.
  refine (unstarted_cooling_never_expires (ex_telemetry false) ex_health (3600 * second)
    _ _ eq_refl eq_refl eq_refl _ eq_refl).
  - vm_compute. discriminate.
  - by_decide.
  - vm_compute. discriminate.
Defined.
