(* ===== verification/VectorStore.v ===== *)
(** * The retrieval hook ([pkg/integrations/vectorstore/interceptor.go])

    [InterceptQueryResults] submits the records of a query to the drift monitor and
    returns them unchanged.  Here its loop runs alone; [DriftEffect.query_run]
    interleaves it with the workers and with other clients. *)
From S2P Require Import Prelude Axis AxisWorker Monitor Persistence Quarantine.
From Stdlib Require Import Floats.SpecFloat.

Definition ErrNilCoordinator : error :=
  errors_New "INTERCEPTOR_ERROR: DriftMonitorCoordinator required".
Definition ErrLengthMismatch : error := errors_New
  "INTERCEPTOR_ERROR: record length mismatch between baseline anchors and retrieved vectors".

Record VectorRecord := mkRecord {
  VMemoryID : array 16; Embedding : StructuralVector; PayloadText : string
}.

(** The counters of [InterceptorWrapper], and of [Stats]. *)
Record InterceptorStats := mkInterceptorStats { Submitted : Z; Dropped : Z; Skipped : Z }.

Record InterceptorWrapper := mkInterceptor {
  Coordinator : option DriftMonitorCoordinator;
  IOperatorID : string;
  PipelineID : string;
  IPolicyHash : array 32;
  istats : InterceptorStats
}.

Definition NewInterceptorWrapper (coord : option DriftMonitorCoordinator)
    (operatorID pipelineID : string) (policyHash : array 32) : InterceptorWrapper :=
  mkInterceptor coord operatorID pipelineID policyHash (mkInterceptorStats 0 0 0).

Definition IStats (w : option InterceptorWrapper) : InterceptorStats :=
  match w with Some w => istats w | None => mkInterceptorStats 0 0 0 end.

Definition add_submitted (s : InterceptorStats) : InterceptorStats :=
  mkInterceptorStats (u64 (Submitted s + 1)) (Dropped s) (Skipped s).
Definition add_idropped (s : InterceptorStats) : InterceptorStats :=
  mkInterceptorStats (Submitted s) (u64 (Dropped s + 1)) (Skipped s).
Definition add_skipped (s : InterceptorStats) : InterceptorStats :=
  mkInterceptorStats (Submitted s) (Dropped s) (u64 (Skipped s + 1)).

(** [cloneVector]: a fresh slice with the same elements. *)
Definition cloneVector (v : StructuralVector) : StructuralVector := v.

Definition record_job (w : InterceptorWrapper) (anchor retrieved : VectorRecord)
    : MemoryTransformationJob :=
  mkJob (VMemoryID retrieved) (cloneVector (Embedding anchor)) (cloneVector (Embedding retrieved))
    (IOperatorID w) (PipelineID w) (IPolicyHash w).

(** The loop over the records, on the coordinator and the counters; the send
    panics if the queue has been closed. *)
Fixpoint intercept_loop (w : InterceptorWrapper) (c : DriftMonitorCoordinator)
    (st : InterceptorStats) (pairs : list (VectorRecord * VectorRecord))
    : go_outcome (DriftMonitorCoordinator * InterceptorStats) :=
  match pairs with
  | [] => Returns (c, st)
  | (anchor, retrieved) :: rest =>
      if bool_decide (VMemoryID anchor <> VMemoryID retrieved) then
        intercept_loop w c (add_skipped st) rest
      else
      match SubmitNonBlocking c (record_job w anchor retrieved) with
      | Panics msg => Panics msg
      | Returns (c, true) => intercept_loop w c (add_submitted st) rest
      | Returns (c, false) => intercept_loop w c (add_idropped st) rest
      end
  end.

Definition InterceptQueryResults (w : option InterceptorWrapper) (ctx_err : option error)
    (anchorRecords retrievedRecords : list VectorRecord)
    : go_outcome (option InterceptorWrapper * list VectorRecord * option error) :=
  match w with
  | Some (mkInterceptor (Some c) op pipe pol st as w0) =>
      if negb (length anchorRecords =? length retrievedRecords)%nat then
        Returns (w, retrievedRecords, Some ErrLengthMismatch)
      else match ctx_err with
      | Some err => Returns (w, retrievedRecords, Some err)
      | None =>
          match intercept_loop w0 c st (combine anchorRecords retrievedRecords) with
          | Panics msg => Panics msg
          | Returns (c, st) => Returns (Some (mkInterceptor (Some c) op pipe pol st), retrievedRecords, None)
          end
      end
  | _ => Returns (w, retrievedRecords, Some ErrNilCoordinator)
  end.

(** ** The hook is transparent and accounts for every record *)

(** A counter that has advanced by [n], modulo 2^64. *)
Definition advanced (x x' : Z) (n : nat) : Prop := u64 x' = u64 (x + Z.of_nat n).

Lemma advanced_0 x : advanced x x 0.
Proof. unfold advanced. f_equal. lia. Qed.

Lemma advanced_S x x' n : advanced (u64 (x + 1)) x' n -> advanced x x' (S n).
Proof. unfold advanced. intros ->. rewrite u64_add_l. f_equal. lia. Qed.

(** What a query adds to the counters of the hook. *)
Definition counted_by (st st' : InterceptorStats) (submitted dropped skipped : nat) : Prop :=
  advanced (Submitted st) (Submitted st') submitted /\
  advanced (Dropped st) (Dropped st') dropped /\
  advanced (Skipped st) (Skipped st') skipped.

(** The jobs the loop makes of the records that match their anchor. *)
Definition jobs_of (w : InterceptorWrapper) (pairs : list (VectorRecord * VectorRecord))
    : list MemoryTransformationJob :=
  (fun p => record_job w p.1 p.2) <$> filter (fun p => VMemoryID p.1 = VMemoryID p.2) pairs.

(** The free places of the queue. *)
Definition room (c : DriftMonitorCoordinator) : nat :=
  Z.to_nat (queue_cap c - Z.of_nat (length (JobQueue c))).

Lemma submit_open c job :
  queue_closed c = false ->
  exists c', SubmitNonBlocking c job = Returns (c', negb (room c =? 0)%nat) /\
    queue_closed c' = false /\ queue_cap c' = queue_cap c /\
    JobQueue c' = JobQueue c ++ (if (room c =? 0)%nat then [] else [job]).
Proof.
  intros Ho. unfold SubmitNonBlocking, room. rewrite Ho.
  destruct (Z.ltb_spec (Z.of_nat (length (JobQueue c))) (queue_cap c)).
  - rewrite (proj2 (Nat.eqb_neq _ _)) by lia. by eexists.
  - rewrite (proj2 (Nat.eqb_eq _ _)) by lia. eexists. split; [done|]. cbn.
    by rewrite app_nil_r.
Qed.

Lemma jobs_of_cons w a r pairs :
  jobs_of w ((a, r) :: pairs) =
    if decide (VMemoryID a = VMemoryID r) then record_job w a r :: jobs_of w pairs else jobs_of w pairs.
Proof. unfold jobs_of. rewrite filter_cons. cbn [fst snd]. by destruct (decide _). Qed.

Lemma jobs_of_length w pairs : (length (jobs_of w pairs) <= length pairs)%nat.
Proof. unfold jobs_of. rewrite length_fmap. apply length_filter. Qed.

Lemma intercept_loop_spec w c st pairs :
  queue_closed c = false \/ jobs_of w pairs = [] ->
  exists c' st', intercept_loop w c st pairs = Returns (c', st') /\
    JobQueue c' = JobQueue c ++ take (room c) (jobs_of w pairs) /\
    counted_by st st' (length (take (room c) (jobs_of w pairs))) (length (drop (room c) (jobs_of w pairs)))
      (length pairs - length (jobs_of w pairs)).
Proof.
  revert c st. induction pairs as [|[anchor retrieved] pairs IH]; intros c st Ho.
  { exists c, st. cbn. rewrite take_nil, drop_nil, app_nil_r. split; [done|]. split; [done|].
    split_and!; apply advanced_0. }
  cbn [intercept_loop length]. rewrite jobs_of_cons in *. pose proof (jobs_of_length w pairs) as Hle.
  destruct (decide (VMemoryID anchor = VMemoryID retrieved)) as [Hid|Hid].
  2:{ rewrite bool_decide_eq_true_2 by done.
      destruct (IH c (add_skipped st) Ho) as (c' & st' & E & Hq & Hs & Hd & Hk).
      exists c', st'. split; [done|]. split; [done|]. split; [done|]. split; [done|].
      rewrite Nat.sub_succ_l by done. by apply advanced_S. }
  rewrite bool_decide_eq_false_2 by (by intros Hn). destruct Ho as [Ho|[=]]. cbn [length].
  destruct (submit_open c (record_job w anchor retrieved) Ho) as (c1 & -> & Ho1 & Hcap & Hq1).
  assert (room c1 = pred (room c)) as Hroom.
  { unfold room in *. rewrite Hcap, Hq1. destruct (Nat.eqb_spec (Z.to_nat (queue_cap c - Z.of_nat (length (JobQueue c)))) 0);
      rewrite length_app; cbn [length]; lia. }
  destruct (room c) as [|r] eqn:Er; cbn [Nat.eqb negb pred] in *.
  - rewrite app_nil_r in Hq1.
    destruct (IH c1 (add_idropped st) (or_introl Ho1)) as (c' & st' & E & Hq & Hs & Hd & Hk).
    rewrite Hroom in *. exists c', st'. split; [done|]. split; [by rewrite Hq, Hq1|].
    split; [done|]. split; [|done]. by apply advanced_S.
  - destruct (IH c1 (add_submitted st) (or_introl Ho1)) as (c' & st' & E & Hq & Hs & Hd & Hk).
    rewrite Hroom in *. exists c', st'. split; [done|]. split; [by rewrite Hq, Hq1, <-app_assoc|].
    split; [|done]. by apply advanced_S.
Qed.

Lemma closed_loop_panics w c st pairs :
  queue_closed c = true -> jobs_of w pairs <> [] ->
  intercept_loop w c st pairs = Panics "send on closed channel".
Proof.
  intros Hc. revert st. induction pairs as [|[a r] pairs IH]; intros st Hj; [by destruct Hj|].
  rewrite jobs_of_cons in Hj. cbn [intercept_loop]. destruct (decide (VMemoryID a = VMemoryID r)) as [Hid|Hid].
  - rewrite bool_decide_eq_false_2 by (by intros Hn). unfold SubmitNonBlocking. by rewrite Hc.
  - rewrite bool_decide_eq_true_2 by done. by apply IH.
Qed.

(** C38. What the hook does, on every branch.  Whenever it returns, it returns the
    retrieved records unchanged.  Without a wrapper or a coordinator, with unequally
    many anchors, or with a context that is done, it does so with that error and
    nothing else changes.  Else the matching records become jobs, in order: with an
    open queue (or no matching record) there is no error, as many jobs as the queue
    has room for are enqueued, and the counters advance, modulo 2^64, by the jobs
    enqueued, those left over, and the records that match no anchor.  On a closed
    queue a matching record makes the call panic. *)
Theorem intercept_is_transparent w ctx_err anchors retrieved :
  let out := InterceptQueryResults w ctx_err anchors retrieved in
  (forall w' rs err, out = Returns (w', rs, err) -> rs = retrieved) /\
  (w = None \/ (exists w0, w = Some w0 /\ Coordinator w0 = None) ->
     out = Returns (w, retrieved, Some ErrNilCoordinator)) /\
  (forall w0 c, w = Some w0 -> Coordinator w0 = Some c ->
     let jobs := jobs_of w0 (combine anchors retrieved) in
     (length anchors <> length retrieved -> out = Returns (w, retrieved, Some ErrLengthMismatch)) /\
     (length anchors = length retrieved ->
        (forall err, ctx_err = Some err -> out = Returns (w, retrieved, Some err)) /\
        (ctx_err = None -> queue_closed c = true -> jobs <> [] -> out = Panics "send on closed channel") /\
        (ctx_err = None -> queue_closed c = false \/ jobs = [] ->
           exists w' c', out = Returns (Some w', retrieved, None) /\ Coordinator w' = Some c' /\
             JobQueue c' = JobQueue c ++ take (room c) jobs /\
             counted_by (istats w0) (istats w') (length (take (room c) jobs)) (length (drop (room c) jobs))
               (length retrieved - length jobs)))).
Proof.
  cbv zeta. split; [|split].
  - intros w' rs err. unfold InterceptQueryResults.
    destruct w as [[[c|] op pipe pol st]|]; try by intros [= _ <- _].
    destruct (negb _); [by intros [= _ <- _]|]. destruct ctx_err; [by intros [= _ <- _]|].
    destruct (intercept_loop _ _ _ _) as [[c' st']|]; [by intros [= _ <- _]|done].
  - intros [->|([cw op pipe pol st] & -> & Hc)]; [done|]. cbn in Hc. by subst cw.
  - intros [cw op pipe pol st] c -> Hc. cbn in Hc. subst cw. unfold InterceptQueryResults.
    split; [by intros ->%Nat.eqb_neq|]. intros Hl. rewrite Hl, Nat.eqb_refl. cbn [negb].
    split; [by intros err ->|]. split; [intros -> Hcl Hj; by rewrite closed_loop_panics|]. intros -> Ho.
    destruct (intercept_loop_spec (mkInterceptor (Some c) op pipe pol st) c st
      (combine anchors retrieved) Ho) as (c' & st' & -> & Hq & Hst).
    eexists _, c'. split; [reflexivity|]. split; [done|]. split; [done|]. cbn [istats].
    by rewrite length_combine, Hl, Nat.min_id in Hst.
Qed.

(** Known weakness: once the drift monitor has stopped accepting, the hook
    takes the query down with it: the first record that matches its anchor
    sends on the closed queue, and the query panics instead of returning. *)
Theorem closed_queue_panics_query c op pipe pol st anchors retrieved :
  queue_closed c = true -> length anchors = length retrieved ->
  Exists (fun p => VMemoryID p.1 = VMemoryID p.2) (combine anchors retrieved) ->
  InterceptQueryResults (Some (mkInterceptor (Some c) op pipe pol st)) None anchors retrieved
  = Panics "send on closed channel".
Proof.
  intros Hc Hl Hex. unfold InterceptQueryResults. rewrite Hl, Nat.eqb_refl. cbn [negb].
  rewrite closed_loop_panics; [done|done|].
  induction Hex as [[a r] pairs Hm|[a r] pairs Hex IH]; rewrite jobs_of_cons.
  - by rewrite decide_True.
  - by destruct (decide _).
Qed.

(** ** Examples *)

Definition ex_record (id : byte) (text : string) : VectorRecord :=
  mkRecord (mem id) ex_anchor text.

(** Three records for a queue of one place: one is enqueued, one dropped, and one
    has another memory than its anchor. *)
Lemma intercept_is_transparent_witness :
  let c := NewDriftMonitorCoordinator None None DefaultDimensions ex_threshold 1 in
  let w := NewInterceptorWrapper (Some c) "op" "pipe" (zero_array 32) in
  let anchors := [ex_record x11 "a"; ex_record x22 "b"; ex_record x33 "c"] in
  let retrieved := [ex_record x11 "d"; ex_record x44 "e"; ex_record x33 "f"] in
  IStats (Some w) = mkInterceptorStats 0 0 0 /\
  exists w' c', InterceptQueryResults (Some w) None anchors retrieved = Returns (Some w', retrieved, None) /\
    Coordinator w' = Some c' /\ length (JobQueue c') = 1%nat /\ counted_by (istats w) (istats w') 1 1 1.
Proof.
  intros c w anchors retrieved. split; [reflexivity|].
  destruct (intercept_is_transparent (Some w) None anchors retrieved) as (_ & _ & Hw).
  destruct (Hw w c eq_refl eq_refl) as [_ Hl].
  destruct (Hl eq_refl) as (_ & _ & Ho).
  destruct (Ho eq_refl (or_introl eq_refl)) as (w' & c' & Hout & Hc & Hq & Hst).
  exists w', c'. split; [exact Hout|]. split; [exact Hc|]. split; [rewrite Hq; reflexivity|exact Hst].
Defined.

Lemma closed_queue_panics_query_witness :
  let c := with_queue (NewDriftMonitorCoordinator None None DefaultDimensions ex_threshold 4) [] true in
  InterceptQueryResults (Some (mkInterceptor (Some c) "op" "pipe" (zero_array 32)
    (mkInterceptorStats 0 0 0))) None [ex_record x11 "a"] [ex_record x11 "b"]
  = Panics "send on closed channel".
Proof.
  intros c. apply (closed_queue_panics_query c "op" "pipe" (zero_array 32)
    (mkInterceptorStats 0 0 0) [ex_record x11 "a"] [ex_record x11 "b"]); [reflexivity|reflexivity|].
  left. reflexivity.
Defined.
