(* ===== verification/DriftPool.v ===== *)
(** * The drift monitor at work ([pkg/axis/worker.go] over [pkg/quarantine])

    The worker pool of [AxisWorker] action by action: between two actions of one
    worker on the counters, the ledger and the monitor any other worker, and any
    client, may act.  [processJob_actions] shows that the actions of a job that is
    left alone are [processJob]; the theorems about the pool hold for every
    interleaving. *)
From S2P Require Import Prelude Sha256 Bitmask Tenant Evaluate Merkle Quarantine Monitor EventJson Persistence.
From S2P Require Import Axis AxisWorker Gateway Rpc Publication.
From Stdlib Require Import Floats.SpecFloat.

(** ** A job, action by action *)

(** What a goroutine inside [processJob] does next; the evaluation of the drift
    and the making of the event touch nothing shared, and go with the action
    before them. *)
Inductive job_pc :=
| JCount                                      (* c.processed.Add(1) *)
| JLedger (event : RevocationEvent)           (* c.Ledger.AppendEvent(event) *)
| JMonitor (event : RevocationEvent) (p : pc) (* c.Monitor.AppendEvent, CompileAndSwap *)
| JRecord (event : RevocationEvent)           (* c.quarantined.Add(1) *)
| JFail (e : error)                           (* c.errors.Add(1) *)
| JReturn (err : option error).

(** A worker: at its [select], in a job, or returned. *)
Inductive goroutine :=
| GSelect
| GJob (job : MemoryTransformationJob) (p : job_pc)
| GExited.

(** The coordinator, its workers, and whether the context is done; then, as history,
    the jobs that were accepted, those that were dropped, and those that
    [processJob] returned from, with its error. *)
Record pool := mkPool {
  coord : DriftMonitorCoordinator;
  gos : list goroutine;
  ctx_done : bool;
  accepted : list MemoryTransformationJob;
  rejected : list MemoryTransformationJob;
  finished : list (MemoryTransformationJob * option error)
}.

(** [Start(ctx, workerCount)] on a coordinator. *)
Definition Start (c : DriftMonitorCoordinator) (workerCount : Z) : pool :=
  mkPool c (replicate (if workerCount <=? 0 then 1%nat else Z.to_nat workerCount) GSelect) false [] [] [].

(** [Wait] returns. *)
Definition exited (g : goroutine) : bool := match g with GExited => true | _ => false end.
Definition all_exited (s : pool) : bool := forallb exited (gos s).

Definition drifted (c : DriftMonitorCoordinator) (job : MemoryTransformationJob) : bool :=
  negb (AxisPreserved (EvaluateDrift (AnchorVector job) (MutatedVector job) (Dimensions c) (Threshold c))).

Section pool.
Context `{EventCodec, SliceSort, MapRange}.

(** One action of [c.processJob(job)]. *)
Definition job_advance (c : DriftMonitorCoordinator) (job : MemoryTransformationJob) (env : job_env)
    (p : job_pc) : DriftMonitorCoordinator * job_pc :=
  match p with
  | JCount =>
      let res := EvaluateDrift (AnchorVector job) (MutatedVector job) (Dimensions c) (Threshold c) in
      (count c add_processed,
       if AxisPreserved res then JReturn None
       else match eventForDrift job res env with Err e => JFail e | Ok event => JLedger event end)
  | JLedger event =>
      let (ledger, err) := append_if (CoLedger c) (ledger_io env) event in
      (with_stores c ledger (CoMonitor c),
       match err with Some e => JFail e | None => JMonitor event (AtAppend event) end)
  | JMonitor event p =>
      match CoMonitor c with
      | None => (c, JRecord event)
      | Some m =>
          (with_stores c (CoLedger c) (Some (advance m p (swap_time env)).1),
           match (advance m p (swap_time env)).2 with AtDone => JRecord event | p' => JMonitor event p' end)
      end
  | JRecord event => (count c add_quarantined, JReturn None)
  | JFail e => (count c add_errors, JReturn (Some e))
  | JReturn err => (c, JReturn err)
  end.

Fixpoint job_run (n : nat) (job : MemoryTransformationJob) (env : job_env)
    (s : DriftMonitorCoordinator * job_pc) : DriftMonitorCoordinator * job_pc :=
  match n with
  | O => s
  | S n' => job_run n' job env (job_advance s.1 job env s.2)
  end.

(** The actions are [processJob]: seven of them, with nothing in between, leave the
    coordinator that [processJob] leaves and return its error. *)
Theorem processJob_actions c job env :
  job_run 7 job env (c, JCount) = ((processJob c job env).1, JReturn (processJob c job env).2).
Proof.
  destruct c as [cl cm dims th q qc closed st]. unfold processJob, with_stores, count.
  cbn [job_run fst snd job_advance count with_stores CoLedger CoMonitor Dimensions Threshold JobQueue
       queue_cap queue_closed counters].
  destruct (AxisPreserved _); [done|]. destruct (eventForDrift _ _ _) as [event|e]; [|done].
  destruct (append_if cl (ledger_io env) event) as [l err] eqn:E.
  cbn -[append_if advance publish_if]. rewrite !E. by destruct err, cm.
Qed.

Lemma job_run_add n m job env s : job_run (n + m) job env s = job_run m job env (job_run n job env s).
Proof. revert s. induction n as [|n IH]; intros s; [done|]. apply IH. Qed.

(** Nothing is left to do after seven actions. *)
Lemma job_run_done n c job env :
  (7 <= n)%nat -> (job_run n job env (c, JCount)).1 = (processJob c job env).1.
Proof.
  intros Hn. replace n with (7 + (n - 7))%nat by lia. rewrite job_run_add, processJob_actions.
  by induction (n - 7)%nat.
Qed.

(** The actions of a job only add to the log. *)
Lemma job_run_extends n job env s l contents :
  CoLedger s.1 = Some l -> file l = Some contents ->
  exists l' rest, CoLedger (job_run n job env s).1 = Some l' /\ file l' = Some (contents ++ rest).
Proof.
  revert s l contents. induction n as [|n IH]; intros [c p] l contents Hl Hf; cbn [fst] in Hl.
  { exists l, []. by rewrite app_nil_r. }
  cbn [job_run fst snd].
  assert (exists l1 r1, CoLedger (job_advance c job env p).1 = Some l1 /\ file l1 = Some (contents ++ r1))
    as (l1 & r1 & Hl1 & Hf1).
  { destruct p as [|event|event p|event|e|err]; cbn [job_advance];
      try (exists l, []; rewrite app_nil_r; by split).
    - rewrite Hl. cbn [append_if].
      destruct (AppendEvent_extends l (ledger_io env) event contents Hf) as (r & Hr & _).
      destruct (Persistence.AppendEvent l (ledger_io env) event) as [l' err]. by exists l', r.
    - exists l, []. rewrite app_nil_r. destruct (CoMonitor c); by split. }
  destruct (IH _ l1 _ Hl1 Hf1) as (l2 & r2 & Hl2 & Hf2). exists l2, (r1 ++ r2). by rewrite app_assoc.
Qed.

(** ** The pool *)

(** [env_ok] is what a job may find of the outside world. *)
Variable env_ok : MemoryTransformationJob -> job_env -> Prop.

(** What a worker does: a branch of its [select], an action of its job, or the
    return from it. *)
Inductive go_move (s : pool) : pool -> Prop :=
| g_receive i job q :
    gos s !! i = Some GSelect -> JobQueue (coord s) = job :: q ->
    go_move s (mkPool (with_queue (coord s) q (queue_closed (coord s))) (<[i := GJob job JCount]> (gos s))
                 (ctx_done s) (accepted s) (rejected s) (finished s))
| g_closed i :
    gos s !! i = Some GSelect -> JobQueue (coord s) = [] -> queue_closed (coord s) = true ->
    go_move s (mkPool (coord s) (<[i := GExited]> (gos s)) (ctx_done s) (accepted s) (rejected s) (finished s))
| g_done i :
    gos s !! i = Some GSelect -> ctx_done s = true ->
    go_move s (mkPool (coord s) (<[i := GExited]> (gos s)) (ctx_done s) (accepted s) (rejected s) (finished s))
| g_job i job p env :
    gos s !! i = Some (GJob job p) -> (forall err, p <> JReturn err) -> env_ok job env ->
    go_move s (mkPool (job_advance (coord s) job env p).1
                 (<[i := GJob job (job_advance (coord s) job env p).2]> (gos s))
                 (ctx_done s) (accepted s) (rejected s) (finished s))
| g_return i job err :
    gos s !! i = Some (GJob job (JReturn err)) ->
    go_move s (mkPool (coord s) (<[i := GSelect]> (gos s)) (ctx_done s) (accepted s) (rejected s)
                 (finished s ++ [(job, err)])).

(** A move of a worker, or something the clients do. *)
Inductive pool_step (s : pool) : pool -> Prop :=
| p_moved s' : go_move s s' -> pool_step s s'
| p_submit job c' ok :
    SubmitNonBlocking (coord s) job = Returns (c', ok) ->
    pool_step s (mkPool c' (gos s) (ctx_done s) (accepted s ++ (if ok then [job] else []))
                   (rejected s ++ (if ok then [] else [job])) (finished s))
| p_stop c' :
    StopAccepting (coord s) = Returns c' ->
    pool_step s (mkPool c' (gos s) (ctx_done s) (accepted s) (rejected s) (finished s))
| p_cancel :
    pool_step s (mkPool (coord s) (gos s) true (accepted s) (rejected s) (finished s)).

(** ** Accounting *)

(** The coordinator the pool was started on: its dimensions and threshold never
    change, so it says which jobs have drifted. *)
Variable c0 : DriftMonitorCoordinator.

(** What a worker holds: its job, if it has counted it, if it has counted its failure
    or its quarantine. *)
Definition job_of (g : goroutine) : list MemoryTransformationJob :=
  match g with GJob job _ => [job] | _ => [] end.
Definition counted (g : goroutine) : list MemoryTransformationJob :=
  match g with GJob _ JCount => [] | GJob job _ => [job] | _ => [] end.
Definition failing (g : goroutine) : list MemoryTransformationJob :=
  match g with GJob job (JReturn (Some _)) => [job] | _ => [] end.
Definition recorded (g : goroutine) : list MemoryTransformationJob :=
  match g with GJob job (JReturn None) => if drifted c0 job then [job] else [] | _ => [] end.

(** All workers together. *)
Definition held (f : goroutine -> list MemoryTransformationJob) (gs : list goroutine) : list MemoryTransformationJob :=
  concat (f <$> gs).

Definition failed_jobs (done : list (MemoryTransformationJob * option error)) :=
  filter (fun r => is_Some r.2) done.
Definition quarantined_jobs (done : list (MemoryTransformationJob * option error)) :=
  filter (fun r => r.2 = None /\ drifted c0 r.1 = true) done.

(** A worker past the evaluation has a job that drifted. *)
Definition pc_drifted (g : goroutine) : Prop :=
  match g with
  | GJob job (JLedger _ | JMonitor _ _ | JRecord _) => drifted c0 job = true
  | _ => True
  end.

(** An atomic counter that counts [k] jobs and those the workers hold. *)
Definition tally (f : goroutine -> list MemoryTransformationJob) (gs : list goroutine) (k : nat) (x : Z) : Prop :=
  x = u64 (Z.of_nat (k + length (held f gs))).

Definition same_axis (c : DriftMonitorCoordinator) : Prop :=
  Dimensions c = Dimensions c0 /\ Threshold c = Threshold c0.

Record pool_inv (n : nat) (s : pool) : Prop := {
  inv_axis : same_axis (coord s);
  inv_workers : length (gos s) = n;
  inv_jobs : accepted s ≡ₚ (finished s).*1 ++ held job_of (gos s) ++ JobQueue (coord s);
  inv_queue : Z.of_nat (length (JobQueue (coord s))) <= queue_cap (coord s);
  inv_exit : ctx_done s = false ->
             Forall (fun g => g = GExited -> queue_closed (coord s) = true /\ JobQueue (coord s) = []) (gos s);
  inv_drift : Forall pc_drifted (gos s);
  inv_dropped : WsDropped (counters (coord s)) = u64 (Z.of_nat (length (rejected s)));
  inv_processed : tally counted (gos s) (length (finished s)) (WsProcessed (counters (coord s)));
  inv_errors : tally failing (gos s) (length (failed_jobs (finished s))) (WsErrors (counters (coord s)));
  inv_quarantined : tally recorded (gos s) (length (quarantined_jobs (finished s))) (WsQuarantined (counters (coord s)))
}.

(** [atomic.Uint64.Add(1)], once or not at all. *)
Definition bump (x : Z) (a : nat) : Z := if (a =? 0)%nat then x else u64 (x + Z.of_nat a).

(** A counter advances with the place of the worker that advances it. *)
Lemma tally_move f gs i g g' k k' x a :
  gs !! i = Some g -> tally f gs k x ->
  (k' + length (f g') = k + length (f g) + a)%nat -> tally f (<[i := g']> gs) k' (bump x a).
Proof.
  intros Hi Hx Hk. destruct (concat_fmap_insert f gs i g Hi) as (rest & Hr & Hins).
  unfold tally, held, bump in *. rewrite (Permutation_length (Hins g')), length_app.
  rewrite (Permutation_length Hr), length_app in Hx.
  destruct (Nat.eqb_spec a 0) as [->|_]; rewrite Hx, ?u64_add_l; f_equal; lia.
Qed.

(** The jobs of a pool when one worker changes place. *)
Lemma held_jobs_insert gs i g g' (q q' done done' acc : list MemoryTransformationJob) :
  gs !! i = Some g -> acc ≡ₚ done ++ held job_of gs ++ q ->
  done' ++ job_of g' ++ q' ≡ₚ done ++ job_of g ++ q ->
  acc ≡ₚ done' ++ held job_of (<[i := g']> gs) ++ q'.
Proof.
  intros Hi Hacc Hq. destruct (concat_fmap_insert job_of gs i g Hi) as (rest & Hr & Hins).
  assert (forall d h r k : list MemoryTransformationJob, d ++ (h ++ r) ++ k ≡ₚ r ++ (d ++ h ++ k)) as Hmove.
  { intros d h r k. by rewrite <-app_assoc, (Permutation_app_swap_app h r), Permutation_app_swap_app. }
  unfold held in *. by rewrite Hacc, Hins, Hr, !Hmove, Hq.
Qed.

(** What the actions of a job leave alone. *)
Lemma job_advance_fixed c job env p :
  let c' := (job_advance c job env p).1 in
  JobQueue c' = JobQueue c /\ queue_cap c' = queue_cap c /\ queue_closed c' = queue_closed c /\
  Dimensions c' = Dimensions c /\ Threshold c' = Threshold c /\ WsDropped (counters c') = WsDropped (counters c).
Proof.
  destruct p as [|event|event p|event|e|err]; try done; cbn [job_advance].
  - by destruct (append_if _ _ _).
  - by destruct (CoMonitor c).
Qed.

Lemma drifted_same c job :
  same_axis c ->
  AxisPreserved (EvaluateDrift (AnchorVector job) (MutatedVector job) (Dimensions c) (Threshold c)) =
  negb (drifted c0 job).
Proof. intros [-> ->]. unfold drifted. by rewrite negb_involutive. Qed.

(** Each counter advances by what the worker's new place says. *)
Lemma job_advance_counters c job env p :
  same_axis c -> (forall err, p <> JReturn err) -> pc_drifted (GJob job p) ->
  let c' := (job_advance c job env p).1 in
  let g' := GJob job (job_advance c job env p).2 in
  pc_drifted g' /\
  exists a b d,
    (length (counted g') = length (counted (GJob job p)) + a)%nat /\
    (length (failing g') = length (failing (GJob job p)) + b)%nat /\
    (length (recorded g') = length (recorded (GJob job p)) + d)%nat /\
    WsProcessed (counters c') = bump (WsProcessed (counters c)) a /\
    WsErrors (counters c') = bump (WsErrors (counters c)) b /\
    WsQuarantined (counters c') = bump (WsQuarantined (counters c)) d.
Proof.
  intros Hax Hp Hd. destruct p as [|event|event p|event|e|err]; cbn [job_advance].
  - rewrite (drifted_same c job Hax). destruct (drifted c0 job) eqn:E; cbn [negb].
    + destruct (eventForDrift _ _ _); (split; [done|]); by exists 1%nat, 0%nat, 0%nat.
    + split; [done|]. exists 1%nat, 0%nat, 0%nat. cbn. by rewrite E.
  - destruct (append_if _ _ _) as [l [e|]]; (split; [done|]); by exists 0%nat, 0%nat, 0%nat.
  - destruct (CoMonitor c) as [m|]; cbn [fst snd]; [destruct (advance m p (swap_time env)).2|];
      (split; [done|]); by exists 0%nat, 0%nat, 0%nat.
  - split; [done|]. exists 0%nat, 0%nat, 1%nat. cbn in Hd |- *. by rewrite Hd.
  - split; [done|]. by exists 0%nat, 1%nat, 0%nat.
  - by destruct (Hp err).
Qed.

Lemma failed_jobs_snoc done job err :
  length (failed_jobs (done ++ [(job, err)])) =
  (length (failed_jobs done) + length (failing (GJob job (JReturn err))))%nat.
Proof.
  unfold failed_jobs. rewrite filter_app, length_app, filter_cons.
  destruct err; [rewrite decide_True by done|rewrite decide_False by (by intros [? ?])]; done.
Qed.

Lemma quarantined_jobs_snoc done job err :
  length (quarantined_jobs (done ++ [(job, err)])) =
  (length (quarantined_jobs done) + length (recorded (GJob job (JReturn err))))%nat.
Proof.
  unfold quarantined_jobs. rewrite filter_app, length_app, filter_cons. cbn [fst snd recorded].
  destruct err; [rewrite decide_False by (by intros [? _]); done|].
  destruct (drifted c0 job); [rewrite decide_True by done|rewrite decide_False by (by intros [_ ?])]; done.
Qed.

Lemma go_move_inv n s s' : go_move s s' -> pool_inv n s -> pool_inv n s'.
Proof.
  intros Hm [Hax Hn Hj Hq He Hd Hdr Hp Her Hqu].
  destruct Hm as [i job q Hi Hjq|i Hi Hjq Hcl|i Hi Hc|i job p env Hi Hp' Henv|i job err Hi].
  - split; cbn; try done.
    + by rewrite length_insert.
    + by apply (held_jobs_insert _ _ _ _ (JobQueue (coord s)) _ ((finished s).*1) _ _ Hi Hj); rewrite Hjq.
    + rewrite Hjq in Hq. cbn in Hq. lia.
    + intros Hc. apply Forall_insert; [|done]. eapply Forall_impl; [exact (He Hc)|].
      intros g Hg Eg. destruct (Hg Eg) as [_ Hq0]. by rewrite Hq0 in Hjq.
    + by apply Forall_insert.
    + by apply (tally_move _ _ _ _ _ _ _ _ 0 Hi Hp).
    + by apply (tally_move _ _ _ _ _ _ _ _ 0 Hi Her).
    + by apply (tally_move _ _ _ _ _ _ _ _ 0 Hi Hqu).
  - split; cbn; try done.
    + by rewrite length_insert.
    + by apply (held_jobs_insert _ _ _ _ _ _ _ _ _ Hi Hj).
    + intros Hc. by apply Forall_insert; [apply He|].
    + by apply Forall_insert.
    + by apply (tally_move _ _ _ _ _ _ _ _ 0 Hi Hp).
    + by apply (tally_move _ _ _ _ _ _ _ _ 0 Hi Her).
    + by apply (tally_move _ _ _ _ _ _ _ _ 0 Hi Hqu).
  - split; cbn; try done.
    + by rewrite length_insert.
    + by apply (held_jobs_insert _ _ _ _ _ _ _ _ _ Hi Hj).
    + by rewrite Hc.
    + by apply Forall_insert.
    + by apply (tally_move _ _ _ _ _ _ _ _ 0 Hi Hp).
    + by apply (tally_move _ _ _ _ _ _ _ _ 0 Hi Her).
    + by apply (tally_move _ _ _ _ _ _ _ _ 0 Hi Hqu).
  - pose proof (job_advance_fixed (coord s) job env p) as (Eq & Ecap & Ecl & Edim & Eth & Ed).
    pose proof (proj1 (Forall_lookup _ _) Hd i _ Hi) as Hpd.
    destruct (job_advance_counters (coord s) job env p Hax Hp' Hpd) as (Hpd' & a & b & d & Ha & Hb & Hdd & Ca & Cb & Cd).
    split; cbn [coord gos ctx_done accepted rejected finished]; rewrite ?Eq, ?Ecap, ?Ecl, ?Ed, ?Ca, ?Cb, ?Cd; try done.
    + unfold same_axis. by rewrite Edim, Eth.
    + by rewrite length_insert.
    + by apply (held_jobs_insert _ _ _ _ _ _ _ _ _ Hi Hj).
    + intros Hc. apply Forall_insert; [by apply He|done].
    + by apply Forall_insert.
    + apply (tally_move _ _ _ _ _ _ _ _ a Hi Hp). lia.
    + apply (tally_move _ _ _ _ _ _ _ _ b Hi Her). lia.
    + apply (tally_move _ _ _ _ _ _ _ _ d Hi Hqu). lia.
  - split; cbn; try done.
    + by rewrite length_insert.
    + apply (held_jobs_insert _ _ _ _ _ _ _ _ _ Hi Hj). rewrite fmap_app. cbn. by rewrite <-app_assoc.
    + intros Hc. by apply Forall_insert; [apply He|].
    + by apply Forall_insert.
    + apply (tally_move _ _ _ _ _ _ _ _ 0 Hi Hp). rewrite length_app. cbn. lia.
    + apply (tally_move _ _ _ _ _ _ _ _ 0 Hi Her). rewrite failed_jobs_snoc. destruct err; cbn; lia.
    + apply (tally_move _ _ _ _ _ _ _ _ 0 Hi Hqu). rewrite quarantined_jobs_snoc.
      destruct err; cbn; [|destruct (drifted c0 job); cbn]; lia.
Qed.

Lemma pool_step_inv n s s' : pool_step s s' -> pool_inv n s -> pool_inv n s'.
Proof.
  intros [s1 Hm|job c' ok E|c' E|]; [by apply go_move_inv|..]; intros [Hax Hn Hj Hq He Hd Hdr Hp Her Hqu].
  - unfold SubmitNonBlocking in E. destruct (queue_closed (coord s)) eqn:Hcl; [done|].
    destruct (Z.ltb_spec (Z.of_nat (length (JobQueue (coord s)))) (queue_cap (coord s)));
      injection E as <- <-; split; cbn; rewrite ?app_nil_r; try done.
    + by rewrite Hj, <-!app_assoc.
    + rewrite length_app. cbn. lia.
    + intros Hc. eapply Forall_impl; [exact (He Hc)|]. intros g Hg Eg. by destruct (Hg Eg).
    + by rewrite Hcl.
    + by rewrite length_app, Nat2Z.inj_add, Hdr, u64_add_l.
  - unfold StopAccepting in E. destruct (queue_closed (coord s)) eqn:Hcl; [done|]. injection E as <-.
    split; try done. intros Hc. eapply Forall_impl; [exact (He Hc)|]. intros g Hg Eg. by destruct (Hg Eg).
  - by split.
Qed.

Lemma Start_inv workerCount :
  JobQueue c0 = [] -> 0 <= queue_cap c0 -> counters c0 = mkWorkerStats 0 0 0 0 ->
  pool_inv (length (gos (Start c0 workerCount))) (Start c0 workerCount).
Proof.
  intros Hq Hc Hs. unfold Start. cbn [gos]. generalize (if workerCount <=? 0 then 1%nat else Z.to_nat workerCount) as k. intros k.
  assert (forall f : goroutine -> list MemoryTransformationJob, f GSelect = [] ->
    held f (replicate k GSelect) = []) as Hh.
  { intros f Hf. unfold held. induction k as [|k IH]; [done|]. cbn. by rewrite Hf. }
  split; cbn -[held]; rewrite ?Hq, ?Hs; unfold tally; rewrite ?(Hh job_of), ?(Hh counted), ?(Hh failing), ?(Hh recorded) by done;
    try done; intros; by apply Forall_replicate.
Qed.

Lemma pool_reachable_inv workerCount s :
  JobQueue c0 = [] -> 0 <= queue_cap c0 -> counters c0 = mkWorkerStats 0 0 0 0 ->
  rtc pool_step (Start c0 workerCount) s -> exists n, n <> 0%nat /\ pool_inv n s.
Proof.
  intros Hq Hc Hst Hs. pose proof (Start_inv workerCount Hq Hc Hst) as Hinv.
  assert (length (gos (Start c0 workerCount)) <> 0%nat) as Hn.
  { unfold Start. cbn [gos]. rewrite length_replicate. destruct (Z.leb_spec workerCount 0); lia. }
  exists (length (gos (Start c0 workerCount))). split; [exact Hn|].
  revert Hinv. generalize (length (gos (Start c0 workerCount))). clear -Hs. intros n.
  induction Hs; eauto using pool_step_inv.
Qed.

(** ** Shutdown *)

(** The moves a worker still has before it is at its [select] again. *)
Definition job_rank (p : job_pc) : nat :=
  match p with
  | JCount => 9
  | JLedger _ => 8
  | JMonitor _ (AtAppend _) => 7
  | JMonitor _ AtReadLedger => 6
  | JMonitor _ (AtLoadVersion _) => 5
  | JMonitor _ (AtStore _ _ | AtDone) => 4
  | JRecord _ | JFail _ => 3
  | JReturn _ => 2
  end.

Definition go_rank (g : goroutine) : nat :=
  match g with GSelect => 1 | GJob _ p => job_rank p | GExited => 0 end.

Definition pool_rank (s : pool) : nat := 9 * length (JobQueue (coord s)) + sum_list (go_rank <$> gos s).

Lemma job_advance_rank c job env p :
  (forall err, p <> JReturn err) -> (job_rank (job_advance c job env p).2 < job_rank p)%nat.
Proof.
  intros Hp. destruct p as [|event|event p|event|e|err]; cbn [job_advance].
  - destruct (AxisPreserved _); [cbn; lia|]. destruct (eventForDrift _ _ _); cbn; lia.
  - destruct (append_if _ _ _) as [l [e|]]; cbn; lia.
  - destruct (CoMonitor c); destruct p; cbn; lia.
  - cbn. lia.
  - cbn. lia.
  - by destruct (Hp err).
Qed.

Lemma go_rank_insert gs i g g' :
  gs !! i = Some g ->
  (sum_list (go_rank <$> <[i := g']> gs) + go_rank g = sum_list (go_rank <$> gs) + go_rank g')%nat.
Proof.
  intros Hi. rewrite list_fmap_insert. apply sum_list_insert. by rewrite list_lookup_fmap, Hi.
Qed.

Lemma go_move_rank s s' : go_move s s' -> (pool_rank s' < pool_rank s)%nat.
Proof.
  unfold pool_rank. intros [i job q Hi Hjq|i Hi Hjq Hcl|i Hi Hc|i job p env Hi Hp Henv|i job err Hi];
    cbn [coord gos with_queue JobQueue];
    match goal with |- context [<[i := ?g']> _] => pose proof (go_rank_insert _ _ _ g' Hi) as Hr end; cbn [go_rank] in Hr.
  - rewrite Hjq. cbn [length job_rank] in *. lia.
  - lia.
  - lia.
  - pose proof (job_advance_rank (coord s) job env p Hp) as Hlt.
    destruct (job_advance_fixed (coord s) job env p) as (-> & _). lia.
  - cbn [job_rank] in Hr. lia.
Qed.

Lemma go_moves_rank k s s' : nsteps go_move k s s' -> (k + pool_rank s' <= pool_rank s)%nat.
Proof. induction 1 as [|k s s1 s2 Hm%go_move_rank _ IH]; lia. Qed.

Lemma pool_rank_bound s : (pool_rank s <= 9 * (length (JobQueue (coord s)) + length (gos s)))%nat.
Proof.
  unfold pool_rank. assert (sum_list (go_rank <$> gos s) <= 9 * length (gos s))%nat; [|lia].
  induction (gos s) as [|g gs IH]; [done|]. cbn.
  assert (go_rank g <= 9)%nat by (destruct g as [|? [| |? []| | |]|]; cbn; lia). lia.
Qed.

Lemma go_move_keeps s s' :
  go_move s s' ->
  queue_closed (coord s') = queue_closed (coord s) /\ ctx_done s' = ctx_done s /\
  accepted s' = accepted s /\ rejected s' = rejected s.
Proof.
  intros [i job q Hi Hjq|i Hi Hjq Hcl|i Hi Hc|i job p env Hi Hp Henv|i job err Hi]; try done.
  cbn. by destruct (job_advance_fixed (coord s) job env p) as (_ & _ & -> & _).
Qed.

Lemma go_moves_keep s s' :
  rtc go_move s s' ->
  queue_closed (coord s') = queue_closed (coord s) /\ ctx_done s' = ctx_done s /\
  accepted s' = accepted s /\ rejected s' = rejected s.
Proof. induction 1 as [|s s1 s2 (<- & <- & <- & <-)%go_move_keeps _ IH]; done. Qed.

(** What has been accepted stays accepted. *)
Lemma pool_step_accepted s s' : pool_step s s' -> accepted s `prefix_of` accepted s'.
Proof.
  intros [s1 Hm|job c' ok E|c' E|]; cbn; try done; [|by eexists].
  by destruct (go_move_keeps _ _ Hm) as (_ & _ & -> & _).
Qed.

Lemma pool_steps_accepted s s' : rtc pool_step s s' -> accepted s `prefix_of` accepted s'.
Proof. induction 1 as [|s s1 s2 Hm%pool_step_accepted _ IH]; [done|]. by etrans. Qed.

(** With the queue closed some worker can move until all have returned. *)
Lemma go_progress s :
  (forall job, exists env, env_ok job env) -> queue_closed (coord s) = true ->
  all_exited s = true \/ exists s', go_move s s'.
Proof.
  intros Henv Hcl. destruct (decide (Forall (fun g => exited g = true) (gos s))) as [Ha|Ha].
  { left. apply forallb_forall. rewrite Forall_forall in Ha. intros g Hin. by apply Ha, list_elem_of_In. }
  right. apply not_Forall_Exists, Exists_exists in Ha as (g & Hin & Hg); [|intros g; apply _].
  apply list_elem_of_lookup in Hin as [i Hi].
  destruct g as [|job p|]; [| |by destruct Hg].
  - destruct (JobQueue (coord s)) as [|job q] eqn:Hq; eexists; [by eapply g_closed|by eapply g_receive].
  - destruct (Henv job) as [env He].
    destruct p as [|event|event p|event|e|err]; eexists;
      [eapply (g_job s i job _ env Hi); done..|by eapply g_return].
Qed.
End pool.

(** ** The pool as a whole *)

Section shutdown.
Context `{EventCodec, SliceSort, MapRange}.
Context (env_ok : MemoryTransformationJob -> job_env -> Prop).
Context (ledger : option FileLedger) (monitor : option RuntimeMonitor) (dims : InvariantDimensions)
        (threshold : float64) (queueBuffer workerCount : Z).

Let c0 := NewDriftMonitorCoordinator ledger monitor dims threshold queueBuffer.

Lemma reachable_pool_inv s :
  rtc (pool_step env_ok) (Start c0 workerCount) s -> exists n, n <> 0%nat /\ pool_inv c0 n s.
Proof.
  intros Hs. apply (pool_reachable_inv env_ok c0 workerCount); try done.
  cbn. destruct (Z.leb_spec queueBuffer 0); lia.
Qed.

Lemma all_exited_held f gs : forallb exited gs = true -> f GExited = [] -> held f gs = [].
Proof.
  intros Hg Hf. unfold held. induction gs as [|g gs IH]; [done|]. apply andb_true_iff in Hg as [Hg Hgs].
  destruct g; try done. cbn. by rewrite Hf, IH.
Qed.

(** When the workers have returned, uncancelled, nothing is left to do. *)
Lemma drained n s :
  n <> 0%nat -> pool_inv c0 n s -> all_exited s = true -> ctx_done s = false ->
  accepted s ≡ₚ (finished s).*1.
Proof.
  intros Hn [_ Hlen Hj _ He _ _ _ _ _] Hw Hc. rewrite Hj, (all_exited_held _ _ Hw) by done.
  destruct (gos s) as [|g gs] eqn:Eg; [by subst n|]. unfold all_exited in Hw. rewrite Eg in Hw.
  pose proof (Forall_inv (He Hc)) as Hg. destruct g; try done. destruct (Hg eq_refl) as [_ ->]. by rewrite app_nil_r.
Qed.

(** C22. No job is lost and every counter tells the truth, whatever the
    interleaving of the actions of workers and clients: the accepted jobs are, up to
    order, those finished, those in a worker and those queued, the queue is within
    its capacity, and the dropped ones are counted; and once [Wait] returns without
    cancellation every accepted job is finished, and [Stats] counts, modulo 2^64,
    the accepted jobs, those that failed, and those that drifted and did not fail. *)
Theorem pool_accounts s :
  rtc (pool_step env_ok) (Start c0 workerCount) s ->
  let st := Stats (coord s) in
  accepted s ≡ₚ (finished s).*1 ++ held job_of (gos s) ++ JobQueue (coord s) /\
  Z.of_nat (length (JobQueue (coord s))) <= queue_cap (coord s) /\
  WsDropped st = u64 (Z.of_nat (length (rejected s))) /\
  (all_exited s = true -> ctx_done s = false ->
     accepted s ≡ₚ (finished s).*1 /\
     WsProcessed st = u64 (Z.of_nat (length (accepted s))) /\
     WsErrors st = u64 (Z.of_nat (length (failed_jobs (finished s)))) /\
     WsQuarantined st = u64 (Z.of_nat (length (quarantined_jobs c0 (finished s))))).
Proof.
  intros Hs st. destruct (reachable_pool_inv s Hs) as (n & Hn & Hinv).
  pose proof Hinv as [_ _ Hj Hq _ _ Hdr Hp Her Hqu]. do 3 (split; [done|]). intros Hw Hc.
  pose proof (drained n s Hn Hinv Hw Hc) as Hall. unfold tally in *.
  rewrite !(all_exited_held _ _ Hw) in * by done. rewrite Nat.add_0_r in Hp, Her, Hqu.
  split; [done|]. split; [|done]. rewrite Hall, length_fmap. exact Hp.
Qed.

(** C13. Shutdown drains the queue: once the queue is closed the workers make at most
    nine moves for each of them and each queued job, whatever the interleaving of
    their actions; while some have not returned one can move; and some run of
    them ends with [Wait] returning. *)
Theorem pool_shuts_down s :
  (forall job, exists env, env_ok job env) ->
  rtc (pool_step env_ok) (Start c0 workerCount) s -> queue_closed (coord s) = true ->
  (forall k s', nsteps (go_move env_ok) k s s' ->
     (k <= 9 * (length (JobQueue (coord s)) + length (gos s)))%nat) /\
  (forall s', rtc (go_move env_ok) s s' -> (forall s'', ~ go_move env_ok s' s'') -> all_exited s' = true) /\
  exists s', rtc (go_move env_ok) s s' /\ all_exited s' = true /\
    (ctx_done s = false -> accepted s ≡ₚ (finished s').*1).
Proof.
  intros Henv Hs Hcl. split_and!.
  - intros k s' Hk%go_moves_rank. pose proof (pool_rank_bound s). lia.
  - intros s' Hm Hno. destruct (go_progress env_ok s' Henv) as [|[s'' Hm']]; [|done|by destruct (Hno s'')].
    by rewrite (proj1 (go_moves_keep _ _ _ Hm)).
  - assert (exists s', rtc (go_move env_ok) s s' /\ all_exited s' = true) as (s' & Hm & Hw).
    { clear Hs. induction s as [s IH] using (well_founded_induction (well_founded_ltof _ pool_rank)).
      destruct (go_progress env_ok s Henv Hcl) as [Hw|[s1 Hm]]; [by exists s|].
      destruct (IH s1 (go_move_rank _ _ _ Hm)) as (s' & Hs & Hw).
      - by rewrite (proj1 (go_move_keeps _ _ _ Hm)).
      - exists s'. split; [by eapply rtc_l|done]. }
    exists s'. split; [done|]. split; [done|]. intros Hc.
    destruct (go_moves_keep _ _ _ Hm) as (_ & Ec & <- & _).
    assert (rtc (pool_step env_ok) (Start c0 workerCount) s') as Hs'.
    { etrans; [exact Hs|]. eapply rtc_subrel; [|exact Hm]. intros x y. apply p_moved. }
    destruct (reachable_pool_inv s' Hs') as (n & Hn & Hinv). apply (drained n); [done|done|done|congruence].
Qed.
End shutdown.

(** ** Runs *)

(** An executable run: what clients do, and which worker moves in which environment.
    [ok] says of which jobs actions may be taken. *)
Inductive act :=
| ASubmit (job : MemoryTransformationJob)
| AStop
| AMove (i : nat) (env : job_env).

Section runs.
Context `{EventCodec, SliceSort, MapRange}.
Context (ok : MemoryTransformationJob -> bool).

Definition act_run (s : pool) (a : act) : option pool :=
  match a with
  | ASubmit job =>
      match SubmitNonBlocking (coord s) job with
      | Returns (c', b) =>
          Some (mkPool c' (gos s) (ctx_done s) (accepted s ++ (if b then [job] else []))
                  (rejected s ++ (if b then [] else [job])) (finished s))
      | Panics _ => None
      end
  | AStop =>
      match StopAccepting (coord s) with
      | Returns c' => Some (mkPool c' (gos s) (ctx_done s) (accepted s) (rejected s) (finished s))
      | Panics _ => None
      end
  | AMove i env =>
      match gos s !! i with
      | Some GSelect =>
          match JobQueue (coord s) with
          | job :: q =>
              Some (mkPool (with_queue (coord s) q (queue_closed (coord s))) (<[i := GJob job JCount]> (gos s))
                      (ctx_done s) (accepted s) (rejected s) (finished s))
          | [] =>
              if queue_closed (coord s)
              then Some (mkPool (coord s) (<[i := GExited]> (gos s)) (ctx_done s) (accepted s) (rejected s) (finished s))
              else None
          end
      | Some (GJob job (JReturn err)) =>
          Some (mkPool (coord s) (<[i := GSelect]> (gos s)) (ctx_done s) (accepted s) (rejected s)
                  (finished s ++ [(job, err)]))
      | Some (GJob job p) =>
          if ok job then
            Some (mkPool (job_advance (coord s) job env p).1
                    (<[i := GJob job (job_advance (coord s) job env p).2]> (gos s))
                    (ctx_done s) (accepted s) (rejected s) (finished s))
          else None
      | _ => None
      end
  end.

Fixpoint acts_run (s : pool) (acts : list act) : option pool :=
  match acts with
  | [] => Some s
  | a :: acts' => match act_run s a with Some s' => acts_run s' acts' | None => None end
  end.

Lemma act_run_step (env_ok : MemoryTransformationJob -> job_env -> Prop) s a s' :
  (forall i env job, a = AMove i env -> ok job = true -> env_ok job env) ->
  act_run s a = Some s' -> pool_step env_ok s s'.
Proof.
  intros Hok. destruct a as [job| |i env]; cbn [act_run].
  - destruct (SubmitNonBlocking _ _) as [[c' b]|] eqn:E; [|done]. intros [= <-]. by apply p_submit.
  - destruct (StopAccepting _) as [c'|] eqn:E; [|done]. intros [= <-]. by apply p_stop.
  - destruct (gos s !! i) as [[|job p|]|] eqn:Hi; try done.
    + destruct (JobQueue (coord s)) as [|job q] eqn:Hq.
      * destruct (queue_closed (coord s)) eqn:Hc; [|done]. intros [= <-]. by apply p_moved, g_closed.
      * intros [= <-]. by apply p_moved, g_receive.
    + destruct p as [|event|event p|event|e|err]; [..|intros [= <-]; by apply p_moved, g_return];
        (destruct (ok job) eqn:Ho; [|done]); intros <-%(inj Some);
        apply p_moved, (g_job env_ok s i job _ env Hi); try done; by eapply Hok.
Qed.

Lemma acts_run_steps (env_ok : MemoryTransformationJob -> job_env -> Prop) s acts s' :
  Forall (fun a => forall i env job, a = AMove i env -> ok job = true -> env_ok job env) acts ->
  acts_run s acts = Some s' -> rtc (pool_step env_ok) s s'.
Proof.
  intros Hf. revert s. induction Hf as [|a acts Ha _ IH]; intros s; cbn [acts_run]; [intros [= <-]; apply rtc_refl|].
  destruct (act_run s a) as [s1|] eqn:E; [|done]. intros Hr. eapply rtc_l; [by eapply act_run_step|by apply IH].
Qed.
(** What a run ends in, if it runs, and a decidable property of it. *)
Lemma run_to s acts (P : pool -> bool) :
  match acts_run s acts with Some s' => P s' | None => false end = true ->
  exists s', acts_run s acts = Some s' /\ P s' = true.
Proof. destruct (acts_run s acts) as [s'|]; [|done]. by exists s'. Qed.

End runs.

(** ** Examples *)

#[global] Instance job_eq_dec : EqDecision MemoryTransformationJob.
Proof. solve_decision. Defined.

Section examples.
#[local] Existing Instance SmallGo.small_slice_sort.
#[local] Existing Instance SmallGo.trie_map_range.
#[local] Existing Instance Persistence.compact_codec.

Definition ex_ledger : FileLedger := mkFileLedger (Some ex_log) "wal".
Definition ex_live : RuntimeMonitor := mkMonitor (Some (CompileSnapshot [ex_q] 1 5)) [ex_q].
Definition ex_pool : DriftMonitorCoordinator :=
  NewDriftMonitorCoordinator (Some ex_ledger) (Some ex_live) DefaultDimensions ex_threshold 2.
Definition ex_job2 : MemoryTransformationJob :=
  mkJob (mem x33) ex_anchor ex_trust_drift "operator" "source" (zero_array 32).
Definition ex_env2 : job_env :=
  mkJobEnv (Some (copy_into 16 [x08])) 1700000000000000000 4 (fun _ => IoOk).

(** The actions of worker [i] on a job from its [select] to its return. *)
Definition whole_job (i : nat) (env : job_env) : list act := replicate 9 (AMove i env).
Definition one_job : list act := ASubmit ex_job :: whole_job 0 ex_env.

(** The second worker publishes between the first one's reading of the ledger and
    its store. *)
Definition crossing : list act :=
  [ASubmit ex_job; ASubmit ex_job2] ++ replicate 6 (AMove 0 ex_env) ++ whole_job 1 ex_env2 ++
  replicate 3 (AMove 0 ex_env) ++ [AStop; AMove 0 ex_env; AMove 1 ex_env].

Lemma one_job_runs :
  exists s, acts_run (fun job => bool_decide (job = ex_job)) (Start ex_pool 1) one_job = Some s /\
    bool_decide (finished s = [(ex_job, None)]) && drifted ex_pool ex_job = true.
Proof. apply (run_to _ _ _ (fun s => bool_decide (finished s = [(ex_job, None)]) && drifted ex_pool ex_job)). vm_compute. reflexivity. Qed.

Lemma pool_accounts_witness :
  exists s, rtc (pool_step (fun _ _ => True)) (Start ex_pool 1) s /\ finished s = [(ex_job, None)] /\
    accepted s ≡ₚ (finished s).*1 ++ held job_of (gos s) ++ JobQueue (coord s).
Proof.
  destruct one_job_runs as (s & Hr & [Hfin%bool_decide_eq_true Hd]%andb_true_iff). exists s.
  assert (rtc (pool_step (fun _ _ => True)) (Start ex_pool 1) s) as Hs
    by (apply (acts_run_steps _ (fun _ _ => True) _ _ _ ltac:(by apply Forall_forall) Hr)).
  split; [exact Hs|]. split; [exact Hfin|].
  apply (pool_accounts (fun _ _ => True) (Some ex_ledger) (Some ex_live) DefaultDimensions ex_threshold 2 1 s Hs).
Defined.

(** A job is queued when the queue is closed. *)
Lemma pool_shuts_down_witness :
  exists s', all_exited s' = true /\ accepted s' ≡ₚ [ex_job].
Proof.
  set (s := mkPool (with_queue ex_pool [ex_job] true) [GSelect] false [ex_job] [] []).
  destruct (pool_shuts_down (fun _ _ => True) (Some ex_ledger) (Some ex_live) DefaultDimensions ex_threshold 2 1 s)
    as (_ & _ & s' & Hs & Hw & Hj).
  - intros job. exists ex_env. exact I.
  - eapply rtc_l; [by eapply (p_submit _ _ ex_job)|]. eapply rtc_l; [by eapply p_stop|]. apply rtc_refl.
  - reflexivity.
  - exists s'. split; [exact Hw|]. destruct (go_moves_keep _ _ _ Hs) as (_ & _ & -> & _). reflexivity.
Defined.

End examples.
