(* ===== verification/DriftEffect.v ===== *)
(** * What a detected drift leads to ([pkg/axis], [pkg/quarantine], [pkg/gateway])

    The drift pool of [DriftPool] with the log it writes, the monitors recovered from
    it, the live monitor and a gateway: a job that drifted is in the log, and no
    content of its memory gets through after a restart ([drift_survives_restart]),
    nor at once when the pool has a single worker ([single_worker_enforces_at_once]);
    two workers can lose a quarantine ([two_workers_can_lose_quarantine]). *)
From S2P Require Import Prelude Sha256 Bitmask Tenant Evaluate Merkle Quarantine Monitor EventJson Persistence.
From S2P Require Import Axis AxisWorker Gateway Rpc Publication VectorStore DriftPool.
From Stdlib Require Import Floats.SpecFloat.

(** ** What a detected drift leads to *)

Definition made_for (job : MemoryTransformationJob) (event : RevocationEvent) : Prop :=
  EvMemoryID event = JobMemoryID job /\ is_quarantine_type (EventType event) = true /\
  EvPolicyHash event = PolicySnapshot job.

(** Some of the events was made for the job. *)
Definition stored (events : list RevocationEvent) (job : MemoryTransformationJob) : Prop :=
  exists event, event ∈ events /\ made_for job event.

Lemma stored_app_l l1 l2 job : stored l1 job -> stored (l1 ++ l2) job.
Proof. intros (e & Hin & Hm). exists e. split; [apply elem_of_app; by left|done]. Qed.

Definition quarantines (events : list RevocationEvent) : Prop :=
  Forall (fun ev => blocking_type (EventType ev) = true) events.

Lemma quarantines_snoc events job event :
  quarantines events -> made_for job event -> quarantines (events ++ [event]).
Proof.
  intros He (_ & Ht & _). apply Forall_app. split; [done|]. apply Forall_singleton.
  unfold blocking_type. by rewrite Ht, orb_true_r.
Qed.

Lemma stored_blocks l1 l2 job :
  quarantines l2 -> stored l2 job ->
  RdDecision (decision_of (dyn_run (about (JobMemoryID job) (l1 ++ l2)))) <> DecisionUse.
Proof. intros Hq (e & Hin & <- & _). by apply blocked_by_suffix. Qed.

(** A gateway on the monitor [m] gives nothing of a memory: two windows of the same
    roles that differ only in messages bound to the memory become the same. *)
Definition gateway_strips (m : RuntimeMonitor) (id : array 16) : Prop :=
  forall w profiles rt rd mask messages messages' bindings,
    ready w profiles -> WRuntimeMonitor w = Some (fun _ => m) -> Role <$> messages = Role <$> messages' ->
    (forall j, messages !! j <> messages' !! j ->
       exists b, b ∈ bindings /\ MessageIdx b = Z.of_nat j /\ BMemoryID b = id) ->
    SanitizeContextWindow (Some w) None rt rd mask messages bindings
    = SanitizeContextWindow (Some w) None rt rd mask messages' bindings.

Lemma blocked_strips m id : RdDecision (Lookup m id) <> DecisionUse -> gateway_strips m id.
Proof.
  intros Hl w profiles rt rd mask messages messages' bindings Hw Hm Hroles Hdiff.
  apply (refused_windows_agree w profiles); [done..|]. intros j Hj.
  destruct (Hdiff j Hj) as (b & [k Hk]%list_elem_of_lookup & Hidx & Hid). exists k, b. do 2 (split; [done|]).
  apply blocked_ruling. unfold runtime_clear. by rewrite Hm, Hid.
Qed.

Section durable.
Context `{EventCodec, SliceSort, MapRange}.

(** A job whose event can be encoded, and whose append is not torn. *)
Definition storable (job : MemoryTransformationJob) (env : job_env) : Prop :=
  untorn (ledger_io env) /\ forall res event, eventForDrift job res env = Ok event -> json_ok event.

Context (c0 : DriftMonitorCoordinator) (evs0 : list RevocationEvent).

Definition go_stored (new : list RevocationEvent) (g : goroutine) : Prop :=
  match g with
  | GJob job (JLedger ev) => made_for job ev /\ json_ok ev
  | GJob job (JMonitor ev _ | JRecord ev) => made_for job ev /\ ev ∈ new
  | GJob job (JReturn None) => drifted c0 job = true -> stored new job
  | _ => True
  end.

(** The log holds the events it began with and then quarantines only, among them
    one for each drifted job that is finished. *)
Definition wal_inv (s : pool) : Prop :=
  same_axis c0 (coord s) /\
  exists l contents new,
    CoLedger (coord s) = Some l /\ file l = Some contents /\ replayFrom contents = Ok (evs0 ++ new) /\
    quarantines new /\ Forall (go_stored new) (gos s) /\
    forall job, (job, None) ∈ finished s -> drifted c0 job = true -> stored new job.

Lemma go_stored_mono new ev g : go_stored new g -> go_stored (new ++ [ev]) g.
Proof.
  destruct g as [|job [|e|e p|e|e|[e|]]|]; try done; cbn.
  - intros [? ?]. split; [done|]. apply elem_of_app. by left.
  - intros [? ?]. split; [done|]. apply elem_of_app. by left.
  - intros Hs Hd. by apply stored_app_l, Hs.
Qed.

(** One action of a job: the log grows by the event of the job, or not at all. *)
Lemma job_advance_wal c job env p l contents new :
  same_axis c0 c -> (forall err, p <> JReturn err) -> storable job env ->
  CoLedger c = Some l -> file l = Some contents -> replayFrom contents = Ok (evs0 ++ new) ->
  quarantines new -> go_stored new (GJob job p) ->
  exists l' contents' new',
    CoLedger (job_advance c job env p).1 = Some l' /\ file l' = Some contents' /\
    replayFrom contents' = Ok (evs0 ++ new') /\ quarantines new' /\
    (new' = new \/ exists ev, new' = new ++ [ev]) /\
    go_stored new' (GJob job (job_advance c job env p).2).
Proof.
  intros Hax Hp [Hu Hj] Hl Hf Hr Hq Hg.
  assert (forall c' p', CoLedger c' = Some l -> go_stored new (GJob job p') ->
    exists l' contents' new', CoLedger c' = Some l' /\ file l' = Some contents' /\
    replayFrom contents' = Ok (evs0 ++ new') /\ quarantines new' /\
    (new' = new \/ exists ev, new' = new ++ [ev]) /\ go_stored new' (GJob job p')) as Hsame.
  { intros c' p' Hl' Hg'. exists l, contents, new. by split_and!; try (by left). }
  destruct p as [|event|event p|event|e|err]; cbn [job_advance]; [| | | | |by destruct (Hp err)].
  - apply Hsame; [done|]. rewrite (drifted_same c0 c job Hax). cbn [fst snd].
    destruct (drifted c0 job) eqn:Ed; cbn [negb]; [|by cbn; rewrite Ed].
    destruct (eventForDrift _ _ _) as [event|] eqn:Ee; [|done]. split; [by apply (eventForDrift_facts _ _ _ _ Ee)|by eapply Hj].
  - destruct Hg as [Hm Hje]. rewrite Hl. cbn [append_if].
    destruct (Persistence.AppendEvent l (ledger_io env) event) as [l' err] eqn:Ea. cbn [fst snd].
    destruct (untorn_append_replays _ _ _ _ _ _ _ Hf Hr Hje Hu Ea) as (contents' & evs' & Hf' & Hr' & Hevs).
    destruct err as [e|].
    + destruct Hevs as [->|[_ ->]].
      * exists l', contents', (new ++ [event]). rewrite <-app_assoc in Hr'. split_and!; try done; [by eapply quarantines_snoc|by right; exists event].
      * exists l', contents', new. by split_and!; try (by left).
    + destruct Hevs as [->|[[? [=]] _]]. exists l', contents', (new ++ [event]). rewrite <-app_assoc in Hr'.
      split_and!; try done; [by eapply quarantines_snoc|by right; exists event|].
      split; [done|]. apply elem_of_app. right. by apply list_elem_of_singleton.
  - destruct (CoMonitor c) as [m|]; cbn [fst snd]; apply Hsame; try done.
    by destruct (advance m p (swap_time env)).2.
  - apply Hsame; [done|]. destruct Hg as [Hm Hin]. cbn. intros _. by exists event.
  - by apply Hsame.
Qed.

Lemma wal_step s s' : pool_step storable s s' -> wal_inv s -> wal_inv s'.
Proof.
  intros Hs (Hax & l & contents & new & Hl & Hf & Hr & Hq & Hg & Hfin).
  destruct Hs as [s' [i job q Hi Hjq|i Hi Hjq Hcl|i Hi Hc|i job p env Hi Hp Henv|i job err Hi]|job c' ok E|c' E|].
  - split; [done|]. exists l, contents, new. by split_and!; try apply Forall_insert.
  - split; [done|]. exists l, contents, new. by split_and!; try apply Forall_insert.
  - split; [done|]. exists l, contents, new. by split_and!; try apply Forall_insert.
  - split.
    { unfold same_axis. cbn. by destruct (job_advance_fixed (coord s) job env p) as (_ & _ & _ & -> & -> & _). }
    pose proof (proj1 (Forall_lookup _ _) Hg i _ Hi) as Hgi.
    destruct (job_advance_wal (coord s) job env p l contents new Hax Hp Henv Hl Hf Hr Hq Hgi)
      as (l' & contents' & new' & Hl' & Hf' & Hr' & Hq' & Hgrow & Hg').
    exists l', contents', new'. cbn [coord gos finished]. split_and!; try done.
    + apply Forall_insert; [|done]. destruct Hgrow as [->|[ev ->]]; [done|].
      eapply Forall_impl; [exact Hg|]. intros g. apply go_stored_mono.
    + intros job' Hin Hd. destruct Hgrow as [->|[ev ->]]; [by apply Hfin|]. by apply stored_app_l, Hfin.
  - split; [done|]. exists l, contents, new. split_and!; try done; [by apply Forall_insert|]. cbn [finished].
    intros job' [Hin|Hin]%elem_of_app Hd; [by apply Hfin|].
    apply list_elem_of_singleton in Hin. injection Hin as -> <-.
    by apply (proj1 (Forall_lookup _ _) Hg i _ Hi).
  - unfold SubmitNonBlocking in E. destruct (queue_closed (coord s)); [done|].
    destruct (_ <? _); injection E as <- <-; (split; [done|]); by exists l, contents, new.
  - unfold StopAccepting in E. destruct (queue_closed (coord s)); [done|]. injection E as <-.
    split; [done|]. by exists l, contents, new.
  - split; [done|]. by exists l, contents, new.
Qed.
Lemma wal_steps s s' : rtc (pool_step storable) s s' -> wal_inv s -> wal_inv s'.
Proof. induction 1; eauto using wal_step. Qed.

(** What a restarted node does with the memory of a job. *)
Definition blocked_after_restart (contents : bytes) (job : MemoryTransformationJob) : Prop :=
  forall version now, exists m snap,
    RecoverMonitorFromFile (Ok contents) version now = Ok (m, snap) /\
    RdDecision (Lookup m (JobMemoryID job)) <> DecisionUse /\ gateway_strips m (JobMemoryID job).

Lemma stored_blocked_after_restart contents new job :
  replayFrom contents = Ok (evs0 ++ new) -> quarantines new -> stored new job ->
  blocked_after_restart contents job.
Proof.
  intros Hr Hq Hst version now. destruct (recovered contents _ version now Hr) as (m & snap & E & _ & _ & _ & Hlook).
  assert (RdDecision (Lookup m (JobMemoryID job)) <> DecisionUse) as Hb by (rewrite Hlook; by apply stored_blocks).
  exists m, snap. split; [done|]. split; [exact Hb|]. by apply blocked_strips.
Qed.
End durable.

Section restart.
Context `{EventCodec, SliceSort, MapRange}.
Context (l : FileLedger) (contents0 : bytes) (evs0 : list RevocationEvent).
Hypothesis l_contents : file l = Some contents0.
Hypothesis l_replays : replayFrom contents0 = Ok evs0.
Context (monitor : option RuntimeMonitor) (dims : InvariantDimensions) (threshold : float64)
        (queueBuffer workerCount : Z).

Let c0 := NewDriftMonitorCoordinator (Some l) monitor dims threshold queueBuffer.

Lemma wal_reachable s : rtc (pool_step storable) (Start c0 workerCount) s -> wal_inv c0 evs0 s.
Proof.
  intros Hs. apply (wal_steps c0 evs0 _ _ Hs). split; [done|]. exists l, contents0, []. rewrite app_nil_r.
  split_and!; try done; [by constructor|by apply Forall_replicate|by intros job Hin%elem_of_nil].
Qed.

(** C9. Detected drift survives a restart, whatever the interleaving of any number of
    workers: as long as no append is torn and every event is one the codec decodes
    back, the log replays to what it held before
    and to quarantines only, among them one under the job's policy for every drifted
    job that is finished without an error.  Any monitor recovered from the log
    decides against the memories of those jobs, and no content bound to them gets
    through a gateway on that monitor.  If the process dies inside the append of a
    worker, that is still so, or recovery refuses the log as corrupt. *)
Theorem drift_survives_restart s :
  rtc (pool_step storable) (Start c0 workerCount) s ->
  exists l' contents new,
    CoLedger (coord s) = Some l' /\ file l' = Some contents /\ replayFrom contents = Ok (evs0 ++ new) /\
    quarantines new /\
    (forall job, (job, None) ∈ finished s -> drifted c0 job = true ->
       stored new job /\ blocked_after_restart contents job) /\
    forall i job event stopped crashed,
      gos s !! i = Some (GJob job (JLedger event)) ->
      file (Persistence.AppendEvent l' stopped event).1 = Some crashed ->
      (forall job', (job', None) ∈ finished s -> drifted c0 job' = true -> blocked_after_restart crashed job') \/
      (exists e, is_corruption e /\
         forall version now, RecoverMonitorFromFile (Ok crashed) version now = Err e).
Proof.
  intros Hs. destruct (wal_reachable s Hs) as (_ & l' & contents & new & Hl & Hf' & Hr' & Hq & Hg & Hfin).
  exists l', contents, new. do 4 (split; [done|]). split.
  - intros job Hin Hd. pose proof (Hfin job Hin Hd) as Hst. split; [done|]. by eapply stored_blocked_after_restart.
  - intros i job event stopped crashed Hi Hc. destruct (proj1 (Forall_lookup _ _) Hg i _ Hi) as [Hm Hj].
    destruct (append_replays_or_rejected l' stopped event contents _ Hf' Hr' Hj) as (c & Hc' & Hcases).
    rewrite Hc in Hc'. injection Hc' as <-. destruct Hcases as [Hr1|[Hr1|(e & Hr1 & He)]].
    + left. intros job' Hin Hd. by eapply stored_blocked_after_restart; [exact Hr1|exact Hq|apply Hfin].
    + left. intros job' Hin Hd. rewrite <-app_assoc in Hr1.
      eapply stored_blocked_after_restart; [exact Hr1|by eapply quarantines_snoc|by apply stored_app_l, Hfin].
    + right. exists e. split; [exact He|]. intros version now.
      unfold RecoverMonitorFromFile, ReplayFile. cbn [result_bind]. by rewrite Hr1.
Qed.

(** ** From a query to the gateway *)

(** The pool after a submission. *)
Definition submitted (s : pool) (c' : DriftMonitorCoordinator) (job : MemoryTransformationJob) (ok : bool) : pool :=
  mkPool c' (gos s) (ctx_done s) (accepted s ++ (if ok then [job] else []))
    (rejected s ++ (if ok then [] else [job])) (finished s).

(** The loop of the retrieval hook while the pool runs: the pairs it still has to go
    through, the jobs the queue then takes and those it drops.  Before each record
    and after the last one, workers and other clients may do anything. *)
Inductive query_run (w : InterceptorWrapper) :
    pool -> list (VectorRecord * VectorRecord) ->
    list MemoryTransformationJob -> list MemoryTransformationJob -> pool -> Prop :=
| q_end s : query_run w s [] [] [] s
| q_other s s1 pairs acc rej s' :
    pool_step storable s s1 -> query_run w s1 pairs acc rej s' -> query_run w s pairs acc rej s'
| q_skip s a r pairs acc rej s' :
    VMemoryID a <> VMemoryID r -> query_run w s pairs acc rej s' -> query_run w s ((a, r) :: pairs) acc rej s'
| q_submit s a r pairs c' ok acc rej s' :
    VMemoryID a = VMemoryID r -> SubmitNonBlocking (coord s) (record_job w a r) = Returns (c', ok) ->
    query_run w (submitted s c' (record_job w a r) ok) pairs acc rej s' ->
    query_run w s ((a, r) :: pairs) ((if ok then [record_job w a r] else []) ++ acc)
      ((if ok then [] else [record_job w a r]) ++ rej) s'.

(** A query that nothing interferes with is such a run. *)
Lemma intercept_loop_runs w pairs s st c' st' :
  intercept_loop w (coord s) st pairs = Returns (c', st') ->
  exists acc rej s', query_run w s pairs acc rej s' /\ coord s' = c'.
Proof.
  revert s st. induction pairs as [|[a r] pairs IH]; intros s st; cbn [intercept_loop].
  { intros [= <- <-]. exists [], [], s. by split; [constructor|]. }
  case_bool_decide as Hid.
  { intros (acc & rej & s' & Hq & Hc)%IH. exists acc, rej, s'. by split; [constructor|]. }
  destruct (SubmitNonBlocking (coord s) (record_job w a r)) as [[c1 ok]|] eqn:E; [|done]. intros Hl.
  destruct (IH (submitted s c1 (record_job w a r) ok) (if ok then add_submitted st else add_idropped st))
    as (acc & rej & s' & Hq & Hc); [by destruct ok|].
  eexists _, _, s'. split; [exact (q_submit w s a r pairs c1 ok acc rej s' Hid E Hq)|exact Hc].
Qed.

(** To the pool the loop is a client; each matching record is enqueued or dropped. *)
Lemma query_run_steps w s pairs acc rej s' :
  query_run w s pairs acc rej s' ->
  rtc (pool_step storable) s s' /\ acc ++ rej ≡ₚ jobs_of w pairs /\
  forall job, job ∈ acc -> job ∈ accepted s'.
Proof.
  induction 1 as [s|s s1 pairs acc rej s' Hs _ IH|s a r pairs acc rej s' Hid _ IH
                 |s a r pairs c' ok acc rej s' Hid E _ IH].
  - split; [apply rtc_refl|]. split; [done|]. by intros job ?%elem_of_nil.
  - destruct IH as (Hr & IH). split; [by eapply rtc_l|exact IH].
  - rewrite jobs_of_cons, decide_False by done. exact IH.
  - rewrite jobs_of_cons, decide_True by done. destruct IH as (Hr & Hp & Hacc).
    split; [by eapply rtc_l; [apply p_submit|]|]. split.
    + rewrite <-Hp. destruct ok; cbn; [done|by rewrite Permutation_middle].
    + intros job [Hin|Hin]%elem_of_app; [|by apply Hacc]. destruct ok; [|by apply elem_of_nil in Hin].
      destruct (pool_steps_accepted _ _ _ Hr) as [k ->]. cbn. apply elem_of_app. left.
      apply elem_of_app. by right.
Qed.

(** C19. A drifted retrieval is stripped after a restart.  A query passes through the
    retrieval hook of a drift monitor at work, workers and other clients acting
    between any two of its records; then they go on in any way until [Wait] returns
    without cancellation.  As long as no append is torn and every event is one the
    codec decodes back, every record that matches its anchor was dropped, or its job
    ended with an error, or, if its vector has drifted, every monitor recovered from
    the log decides against the record's memory, and no content bound to it gets
    through a gateway on that monitor.  The call of the hook that nothing interferes
    with is one of these runs. *)
Theorem drifted_retrieval_is_stripped s w anchors retrieved :
  rtc (pool_step storable) (Start c0 workerCount) s ->
  (forall w', Coordinator w = Some (coord s) ->
     InterceptQueryResults (Some w) None anchors retrieved = Returns (Some w', retrieved, None) ->
     exists acc rej s1, query_run w s (combine anchors retrieved) acc rej s1 /\ Coordinator w' = Some (coord s1)) /\
  forall acc rej s1, query_run w s (combine anchors retrieved) acc rej s1 ->
    acc ++ rej ≡ₚ jobs_of w (combine anchors retrieved) /\
    forall s', rtc (pool_step storable) s1 s' -> all_exited s' = true -> ctx_done s' = false ->
      exists l' contents, CoLedger (coord s') = Some l' /\ file l' = Some contents /\
        forall job, job ∈ acc -> drifted c0 job = true ->
          (exists e, (job, Some e) ∈ finished s') \/ blocked_after_restart contents job.
Proof.
  intros Hs. split.
  - intros w' Hw. destruct w as [cw op pipe pol st]. cbn in Hw. subst cw. unfold InterceptQueryResults.
    destruct (negb _); [done|].
    destruct (intercept_loop _ (coord s) st (combine anchors retrieved)) as [[c' st']|] eqn:E; [|done].
    intros [= <-]. destruct (intercept_loop_runs _ _ _ _ _ _ E) as (acc & rej & s1 & Hq & Hc).
    exists acc, rej, s1. split; [exact Hq|]. cbn. by rewrite Hc.
  - intros acc rej s1 (Hsub & Hperm & Hacc)%query_run_steps. split; [exact Hperm|]. intros s' Hs' Hex Hc.
    assert (rtc (pool_step storable) (Start c0 workerCount) s') as Hreach by (etrans; [exact Hs|]; by etrans).
    destruct (wal_reachable s' Hreach) as (_ & l' & contents & new & Hl & Hf' & Hr' & Hq & _ & Hfin).
    exists l', contents. do 2 (split; [done|]). intros job Hin Hd.
    destruct (reachable_pool_inv storable (Some l) monitor dims threshold queueBuffer workerCount s' Hreach) as (n & Hn & Hinv).
    assert (job ∈ (finished s').*1) as ((job' & [e|]) & -> & Hjob)%list_elem_of_fmap.
    { rewrite <-(drained _ _ _ _ _ n s' Hn Hinv Hex Hc). destruct (pool_steps_accepted _ _ _ Hs') as [k ->].
      apply elem_of_app. left. by apply Hacc. }
    + left. by exists e.
    + right. apply (stored_blocked_after_restart evs0 contents new); [done|done|]. by apply Hfin.
Qed.
End restart.

(** ** The pool is a system of writers *)

Section refinement.
Context `{EventCodec, SliceSort, MapRange}.
Context (c0 : DriftMonitorCoordinator) (evs0 : list RevocationEvent).

(** The workers that publish are writers of the publication, each its own. *)
Definition writers_match (gs : list goroutine) (ws : list writer) : Prop :=
  exists f : nat -> nat,
    (forall i job ev p, gs !! i = Some (GJob job (JMonitor ev p)) -> ws !! f i = Some (WMonitor ev p)) /\
    (forall i i' job job' ev ev' p p',
       gs !! i = Some (GJob job (JMonitor ev p)) -> gs !! i' = Some (GJob job' (JMonitor ev' p')) ->
       f i = f i' -> i = i').

Definition simulates (s : pool) (p : publication) : Prop :=
  CoLedger (coord s) = Some (plog p) /\ CoMonitor (coord s) = Some (pmon p) /\ writers_match (gos s) (writers p).

(** A worker that does not publish has no writer. *)
Definition publishing (g : goroutine) : bool :=
  match g with GJob _ (JMonitor _ _) => true | _ => false end.

Lemma match_quiet gs ws i g : publishing g = false -> writers_match gs ws -> writers_match (<[i := g]> gs) ws.
Proof.
  intros Hg (f & Hf & Hinj).
  assert (forall j job ev p, <[i := g]> gs !! j = Some (GJob job (JMonitor ev p)) ->
    gs !! j = Some (GJob job (JMonitor ev p))) as Hold.
  { intros j job ev p [(_ & Eg & _)|[_ Hj]]%list_lookup_insert_Some; [by rewrite Eg in Hg|exact Hj]. }
  exists f. split; [intros j job ev p Hj; by eapply Hf, Hold|].
  intros j j' job job' ev ev' p p' Hj Hj'. by eapply Hinj; apply Hold.
Qed.

Lemma match_arrives gs ws i job ev p w :
  (i < length gs)%nat -> writers_match gs ws -> w = WMonitor ev p ->
  writers_match (<[i := GJob job (JMonitor ev p)]> gs) (ws ++ [w]).
Proof.
  intros Hi (f & Hf & Hinj) ->. set (f' := fun j => if decide (j = i) then length ws else f j).
  assert (forall j job0 ev0 p0, j <> i -> <[i := GJob job (JMonitor ev p)]> gs !! j = Some (GJob job0 (JMonitor ev0 p0)) ->
    gs !! j = Some (GJob job0 (JMonitor ev0 p0)) /\ (f j < length ws)%nat) as Hold.
  { intros j job0 ev0 p0 Hne Hj. rewrite list_lookup_insert_ne in Hj by done. split; [done|].
    by eapply lookup_lt_Some, Hf. }
  exists f'. unfold f'. split.
  - intros j job0 ev0 p0 Hj. destruct (decide (j = i)) as [->|Hne].
    + rewrite list_lookup_insert_eq in Hj by done. injection Hj as <- <- <-. by rewrite lookup_app_r, Nat.sub_diag by done.
    + destruct (Hold _ _ _ _ Hne Hj) as [Hj' Hlt]. rewrite lookup_app_l by done. by eapply Hf.
  - intros j j' job1 job2 ev1 ev2 p1 p2 Hj Hj'.
    destruct (decide (j = i)) as [->|Hne], (decide (j' = i)) as [->|Hne']; [done| | |].
    + destruct (Hold _ _ _ _ Hne' Hj'). lia.
    + destruct (Hold _ _ _ _ Hne Hj). lia.
    + destruct (Hold _ _ _ _ Hne Hj) as [Hj1 _], (Hold _ _ _ _ Hne' Hj') as [Hj2 _]. by eapply Hinj.
Qed.

Lemma match_moves gs ws i k job ev p p' (f : nat -> nat) :
  gs !! i = Some (GJob job (JMonitor ev p)) -> k = f i ->
  (forall i job ev p, gs !! i = Some (GJob job (JMonitor ev p)) -> ws !! f i = Some (WMonitor ev p)) ->
  (forall i i' job job' ev ev' p p',
       gs !! i = Some (GJob job (JMonitor ev p)) -> gs !! i' = Some (GJob job' (JMonitor ev' p')) ->
       f i = f i' -> i = i') ->
  writers_match (<[i := GJob job (JMonitor ev p')]> gs) (<[k := WMonitor ev p']> ws).
Proof.
  intros Hi -> Hf Hinj. pose proof (lookup_lt_Some _ _ _ Hi) as Hlt.
  assert (forall j job0 ev0 p0, j <> i -> <[i := GJob job (JMonitor ev p')]> gs !! j = Some (GJob job0 (JMonitor ev0 p0)) ->
    gs !! j = Some (GJob job0 (JMonitor ev0 p0)) /\ f j <> f i) as Hold.
  { intros j job0 ev0 p0 Hne Hj. rewrite list_lookup_insert_ne in Hj by done. split; [done|].
    intros E. apply Hne. by eapply Hinj. }
  exists f. split.
  - intros j job0 ev0 p0 Hj. destruct (decide (j = i)) as [->|Hne].
    + rewrite list_lookup_insert_eq in Hj by done. injection Hj as <- <- <-.
      apply list_lookup_insert_eq. by eapply lookup_lt_Some, Hf.
    + destruct (Hold _ _ _ _ Hne Hj) as [Hj' Hfj]. rewrite list_lookup_insert_ne by done. by eapply Hf.
  - intros j j' job1 job2 ev1 ev2 p1 p2 Hj Hj' E.
    destruct (decide (j = i)) as [->|Hne], (decide (j' = i)) as [->|Hne']; [done| | |].
    + destruct (Hold _ _ _ _ Hne' Hj'). congruence.
    + destruct (Hold _ _ _ _ Hne Hj). congruence.
    + destruct (Hold _ _ _ _ Hne Hj) as [Hj1 _], (Hold _ _ _ _ Hne' Hj') as [Hj2 _]. by eapply Hinj.
Qed.
Lemma match_more gs ws w : writers_match gs ws -> writers_match gs (ws ++ [w]).
Proof.
  intros (f & Hf & Hinj). exists f. split; [|exact Hinj]. intros i job ev p Hi.
  apply lookup_app_l_Some. by eapply Hf.
Qed.

(** An append in the pool is the arrival of a writer and its first move. *)
Lemma durable_arrives p event io :
  json_ok event -> untorn io ->
  rtc pub_step p (mkPublication (Persistence.AppendEvent (plog p) io event).1 (pmon p)
    (writers p ++ [match (Persistence.AppendEvent (plog p) io event).2 with
                   | Some e => WFailed e | None => WMonitor event (AtAppend event) end])).
Proof.
  intros Hj Hu. eapply rtc_l; [by apply (pub_arrives p event io)|]. apply rtc_once, pub_moved.
  pose proof (pub_moves (mkPublication (plog p) (pmon p) (writers p ++ [WDurable event io])) (length (writers p)) _ 0
    (list_lookup_middle _ [] _ _ eq_refl) eq_refl) as Hm.
  cbn [plog pmon writers writer_advance] in Hm. rewrite insert_app_r_alt, Nat.sub_diag in Hm by done.
  by destruct (Persistence.AppendEvent (plog p) io event).
Qed.

Lemma job_advance_simulates s p i job q env :
  gos s !! i = Some (GJob job q) -> (forall err, q <> JReturn err) -> storable job env ->
  wal_inv c0 evs0 s -> simulates s p ->
  exists p', rtc pub_step p p' /\
    CoLedger (job_advance (coord s) job env q).1 = Some (plog p') /\
    CoMonitor (job_advance (coord s) job env q).1 = Some (pmon p') /\
    writers_match (<[i := GJob job (job_advance (coord s) job env q).2]> (gos s)) (writers p').
Proof.
  intros Hi Hq [Hu _] (_ & l & contents & new & _ & _ & _ & _ & Hg & _) (Hl & Hm & Hmatch).
  pose proof (lookup_lt_Some _ _ _ Hi) as Hlt.
  destruct q as [|event|event q|event|e|err]; cbn [job_advance]; [| | | | |by destruct (Hq err)].
  - exists p. split; [apply rtc_refl|]. do 2 (split; [done|]). apply match_quiet; [|done].
    destruct (AxisPreserved _); [done|]. by destruct (eventForDrift _ _ _).
  - destruct (proj1 (Forall_lookup _ _) Hg i _ Hi) as [_ Hj]. rewrite Hl. cbn [append_if].
    eexists. split; [by apply (durable_arrives p event (ledger_io env))|]. cbn [plog pmon writers].
    destruct (Persistence.AppendEvent (plog p) (ledger_io env) event) as [l' [e|]]; cbn [fst snd]; (do 2 (split; [done|])).
    + apply match_quiet; [done|]. by apply match_more.
    + by apply match_arrives.
  - rewrite Hm. assert (q = AtDone \/ q <> AtDone) as [->|Hnd] by (destruct q; auto).
    { exists p. split; [apply rtc_refl|]. do 2 (split; [done|]). by apply match_quiet. }
    destruct Hmatch as (f & Hf & Hinj). pose proof (Hf _ _ _ _ Hi) as Hw.
    exists (mkPublication (plog p) (advance (pmon p) q (swap_time env)).1
      (<[f i := WMonitor event (advance (pmon p) q (swap_time env)).2]> (writers p))). split_and!.
    + destruct p as [pl pm ws]. exact (rtc_once _ _ (pub_moved _ _ (monitor_move pl pm ws (f i) event q (swap_time env) Hw Hnd))).
    + done.
    + done.
    + cbn [snd writers].
      pose proof (match_moves (gos s) (writers p) i (f i) job event q (advance (pmon p) q (swap_time env)).2 f Hi eq_refl Hf Hinj) as Hmv.
      destruct (advance (pmon p) q (swap_time env)).2; try exact Hmv.
      rewrite <-(list_insert_insert_eq (gos s) i (GJob job (JRecord event)) (GJob job (JMonitor event AtDone))).
      by apply match_quiet.
  - exists p. split; [apply rtc_refl|]. do 2 (split; [done|]). by apply match_quiet.
  - exists p. split; [apply rtc_refl|]. do 2 (split; [done|]). by apply match_quiet.
Qed.

Lemma pool_step_simulates s s' p :
  pool_step storable s s' -> wal_inv c0 evs0 s -> simulates s p ->
  exists p', rtc pub_step p p' /\ simulates s' p'.
Proof.
  intros Hs Hinv (Hl & Hm & Hmatch).
  destruct Hs as [s' [i job q Hi Hjq|i Hi Hjq Hcl|i Hi Hc|i job q env Hi Hq Henv|i job err Hi]|job c' ok E|c' E|].
  - exists p. split; [apply rtc_refl|]. do 2 (split; [done|]). by apply match_quiet.
  - exists p. split; [apply rtc_refl|]. do 2 (split; [done|]). by apply match_quiet.
  - exists p. split; [apply rtc_refl|]. do 2 (split; [done|]). by apply match_quiet.
  - destruct (job_advance_simulates s p i job q env Hi Hq Henv Hinv ltac:(by split_and!)) as (p' & Hp & Hsim).
    by exists p'.
  - exists p. split; [apply rtc_refl|]. do 2 (split; [done|]). by apply match_quiet.
  - unfold SubmitNonBlocking in E. destruct (queue_closed (coord s)); [done|]. exists p. split; [apply rtc_refl|].
    by destruct (_ <? _); injection E as <- <-.
  - unfold StopAccepting in E. destruct (queue_closed (coord s)); [done|]. exists p. split; [apply rtc_refl|].
    by injection E as <-.
  - by exists p.
Qed.
End refinement.

(** C35. The pool refines the publication: on a recovered log and monitor, whatever the
    pool does, some concurrent writers over the log and the monitor do too, and
    each worker inside the monitor is one of them.  What holds of every publication
    holds of the log and the monitor of the pool. *)
Theorem pool_refines_publication `{EventCodec, SliceSort, MapRange} l contents0 evs0 version t dims threshold queueBuffer workerCount s :
  let m0 := mkMonitor (Some (CompileSnapshot evs0 version t)) evs0 in
  let c0 := NewDriftMonitorCoordinator (Some l) (Some m0) dims threshold queueBuffer in
  file l = Some contents0 -> replayFrom contents0 = Ok evs0 ->
  rtc (pool_step storable) (Start c0 workerCount) s ->
  exists p, rtc pub_step (recovered_start l evs0 version t) p /\ simulates s p.
Proof.
  intros m0 c0 Hf Hr Hs.
  assert (wal_inv c0 evs0 (Start c0 workerCount)) as Hinv 
    by exact (wal_reachable l contents0 evs0 Hf Hr (Some m0) dims threshold queueBuffer workerCount _ (rtc_refl _ _)).
  assert (simulates (Start c0 workerCount) (recovered_start l evs0 version t)) as Hsim.
  { split; [done|]. split; [done|]. exists id.
    assert (forall i job ev p, gos (Start c0 workerCount) !! i <> Some (GJob job (JMonitor ev p))) as Hno.
    { intros i job ev p Hi. cbn in Hi. by apply lookup_replicate in Hi as [? _]. }
    split; [intros i job ev p Hi|intros i i' job job' ev ev' p p' Hi]; by destruct (Hno _ _ _ _ Hi). }
  revert Hinv Hsim. generalize (recovered_start l evs0 version t) as p.
  induction Hs as [s|s s1 s2 Hstep _ IH]; intros p Hinv Hsim; [by exists p|].
  destruct (pool_step_simulates c0 evs0 s s1 p Hstep Hinv Hsim) as (p1 & Hp1 & Hsim1).
  destruct (IH p1 (wal_step c0 evs0 s s1 Hstep Hinv) Hsim1) as (p2 & Hp2 & Hsim2).
  exists p2. split; [by etrans|done].
Qed.

(** ** One worker *)

Section live.
Context `{EventCodec, SliceSort, MapRange}.
Context (env_ok : MemoryTransformationJob -> job_env -> Prop).
Context (c0 : DriftMonitorCoordinator) (evs0 : list RevocationEvent).

(** Where the only worker is, when the active snapshot is compiled from [evs0 ++ pub]
    and the monitor's ledger is [led]. *)
Definition go_live (pub led : list RevocationEvent) (g : goroutine) : Prop :=
  match g with
  | GJob job (JLedger ev) => made_for job ev /\ led = evs0 ++ pub
  | GJob job (JMonitor ev p) =>
      made_for job ev /\
      match p with
      | AtAppend ev' => ev' = ev /\ led = evs0 ++ pub
      | AtReadLedger => led = evs0 ++ pub ++ [ev]
      | AtLoadVersion events | AtStore events _ => events = led /\ led = evs0 ++ pub ++ [ev]
      | AtDone => False
      end
  | GJob job (JRecord ev) => made_for job ev /\ ev ∈ pub /\ led = evs0 ++ pub
  | GJob job (JReturn None) => (drifted c0 job = true -> stored pub job) /\ led = evs0 ++ pub
  | _ => led = evs0 ++ pub
  end.

(** The active snapshot is compiled from what the monitor began with and then
    quarantines, among them one for each drifted job that is finished. *)
Definition live_inv (s : pool) : Prop :=
  same_axis c0 (coord s) /\
  exists m g pub v t,
    CoMonitor (coord s) = Some m /\ gos s = [g] /\
    active m = Some (CompileSnapshot (evs0 ++ pub) v t) /\ quarantines pub /\
    go_live pub (ledger m) g /\
    forall job, (job, None) ∈ finished s -> drifted c0 job = true -> stored pub job.

Lemma job_advance_live c job env p m pub v t :
  same_axis c0 c -> (forall err, p <> JReturn err) ->
  CoMonitor c = Some m -> active m = Some (CompileSnapshot (evs0 ++ pub) v t) -> quarantines pub ->
  go_live pub (ledger m) (GJob job p) ->
  exists m' pub' v' t',
    CoMonitor (job_advance c job env p).1 = Some m' /\
    active m' = Some (CompileSnapshot (evs0 ++ pub') v' t') /\ quarantines pub' /\
    (pub' = pub \/ exists ev, pub' = pub ++ [ev]) /\
    go_live pub' (ledger m') (GJob job (job_advance c job env p).2).
Proof.
  intros Hax Hp Hm Ha Hq Hg.
  assert (forall c' m' p', CoMonitor c' = Some m' -> active m' = active m -> go_live pub (ledger m') (GJob job p') ->
    exists m' pub' v' t', CoMonitor c' = Some m' /\ active m' = Some (CompileSnapshot (evs0 ++ pub') v' t') /\
      quarantines pub' /\ (pub' = pub \/ exists ev, pub' = pub ++ [ev]) /\ go_live pub' (ledger m') (GJob job p')) as Hsame.
  { intros c' m' p' Hm' Ha' Hg'. exists m', pub, v, t. rewrite Ha'. by split_and!; try (by left). }
  destruct p as [|event|event p|event|e|err]; cbn [job_advance]; [| | | | |by destruct (Hp err)].
  - apply (Hsame _ m); [done|done|]. rewrite (drifted_same c0 c job Hax). cbn [fst snd].
    destruct (drifted c0 job) eqn:Ed; cbn [negb]; [|cbn; by rewrite Ed].
    destruct (eventForDrift _ _ _) as [event|] eqn:Ee; [|done]. split; [by apply (eventForDrift_facts _ _ _ _ Ee)|done].
  - destruct Hg as [Hmd Hled].
    destruct (append_if (CoLedger c) (ledger_io env) event) as [l' [e|]]; by apply (Hsame _ m).
  - rewrite Hm. cbn [fst snd]. destruct Hg as [Hmd Hg].
    destruct p as [ev| |events|events ver|]; cbn [advance fst snd]; [| | | |done].
    + destruct Hg as [-> Hled]. apply (Hsame _ (Monitor.AppendEvent m event)); [done|done|].
      split; [done|]. cbn. by rewrite Hled, <-app_assoc.
    + by apply (Hsame _ m).
    + by apply (Hsame _ m).
    + destruct Hg as [-> Hled]. eexists _, (pub ++ [event]), _, _. split_and!; [reflexivity| | | |].
      * cbn. by rewrite Hled.
      * by eapply quarantines_snoc.
      * right. by exists event.
      * split; [done|]. split; [|done]. apply elem_of_app. right. by apply list_elem_of_singleton.
  - destruct Hg as (Hmd & Hin & Hled). apply (Hsame _ m); [done|done|]. split; [|done]. intros _. by exists event.
  - by apply (Hsame _ m).
Qed.

Lemma live_step s s' : pool_step env_ok s s' -> live_inv s -> live_inv s'.
Proof.
  intros Hs (Hax & m & g & pub & v & t & Hm & Hgo & Ha & Hq & Hg & Hfin).
  assert (forall i (x : goroutine), gos s !! i = Some x -> x = g /\ i = 0%nat) as Honly.
  { intros i x Hi. rewrite Hgo in Hi. destruct i as [|i]; [|by destruct i]. by injection Hi as ->. }
  destruct Hs as [s' [i job q Hi Hjq|i Hi Hjq Hcl|i Hi Hc|i job p env Hi Hp Henv|i job err Hi]|job c' ok E|c' E|].
  - destruct (Honly _ _ Hi) as [<- ->]. split; [done|]. exists m, (GJob job JCount), pub, v, t.
    cbn [coord gos finished]. by rewrite Hgo.
  - destruct (Honly _ _ Hi) as [<- ->]. split; [done|]. exists m, GExited, pub, v, t. cbn. by rewrite Hgo.
  - destruct (Honly _ _ Hi) as [<- ->]. split; [done|]. exists m, GExited, pub, v, t. cbn. by rewrite Hgo.
  - destruct (Honly _ _ Hi) as [<- ->]. split.
    { unfold same_axis. cbn. by destruct (job_advance_fixed (coord s) job env p) as (_ & _ & _ & -> & -> & _). }
    destruct (job_advance_live (coord s) job env p m pub v t Hax Hp Hm Ha Hq Hg)
      as (m' & pub' & v' & t' & Hm' & Ha' & Hq' & Hgrow & Hg').
    exists m', (GJob job (job_advance (coord s) job env p).2), pub', v', t'. cbn [coord gos finished].
    rewrite Hgo. split_and!; try done.
    intros job' Hin Hd. destruct Hgrow as [->|[ev ->]]; [by apply Hfin|]. by apply stored_app_l, Hfin.
  - destruct (Honly _ _ Hi) as [<- ->]. split; [done|]. exists m, GSelect, pub, v, t. cbn [coord gos finished].
    rewrite Hgo. split_and!; try done; [by destruct err; [|destruct Hg]|].
    intros job' [Hin|Hin]%elem_of_app Hd; [by apply Hfin|].
    apply list_elem_of_singleton in Hin. injection Hin as -> <-. by destruct Hg as [Hst _]; apply Hst.
  - unfold SubmitNonBlocking in E. destruct (queue_closed (coord s)); [done|].
    destruct (_ <? _); injection E as <- <-; (split; [done|]); by exists m, g, pub, v, t.
  - unfold StopAccepting in E. destruct (queue_closed (coord s)); [done|]. injection E as <-.
    split; [done|]. by exists m, g, pub, v, t.
  - split; [done|]. by exists m, g, pub, v, t.
Qed.

Lemma single_start_inv m version t :
  CoMonitor c0 = Some m -> active m = Some (CompileSnapshot evs0 version t) -> ledger m = evs0 ->
  live_inv (Start c0 1).
Proof.
  intros Hm Ha Hl. split; [done|]. exists m, GSelect, [], version, t. rewrite app_nil_r.
  split_and!; try done; [by constructor|by rewrite Hl; cbn; rewrite app_nil_r|by intros job Hin%elem_of_nil].
Qed.
End live.

(** C16. A single worker enforces at once: when the drift monitor runs with one
    worker and is the only writer of the runtime monitor, then in every reachable
    state, whatever the outside world does, the monitor decides against the memory
    of each drifted job that is finished without an error, and no content bound to
    it gets through a gateway on the monitor. *)
Theorem single_worker_enforces_at_once `{EventCodec, SliceSort, MapRange} env_ok ledger evs0 version t dims threshold queueBuffer s :
  let m0 := mkMonitor (Some (CompileSnapshot evs0 version t)) evs0 in
  let c0 := NewDriftMonitorCoordinator ledger (Some m0) dims threshold queueBuffer in
  rtc (pool_step env_ok) (Start c0 1) s ->
  exists m, CoMonitor (coord s) = Some m /\
    forall job, (job, None) ∈ finished s -> drifted c0 job = true ->
      RdDecision (Lookup m (JobMemoryID job)) <> DecisionUse /\ gateway_strips m (JobMemoryID job).
Proof.
  intros m0 c0 Hs.
  assert (live_inv c0 evs0 s) as (_ & m & g & pub & v & t' & Hm & _ & Ha & Hq & _ & Hfin).
  { pose proof (single_start_inv c0 evs0 m0 version t eq_refl eq_refl eq_refl) as Hinv.
    induction Hs; eauto using live_step. }
  exists m. split; [done|]. intros job Hin Hd.
  assert (RdDecision (Lookup m (JobMemoryID job)) <> DecisionUse) as Hb.
  { rewrite Lookup_active, Ha, lookup_compiled. by apply stored_blocks, Hfin. }
  split; [exact Hb|]. by apply blocked_strips.
Qed.

(** ** Examples *)

Section examples.
#[local] Existing Instance SmallGo.small_slice_sort.
#[local] Existing Instance SmallGo.trie_map_range.
#[local] Existing Instance Persistence.compact_codec.

Lemma ex_storable env : env = ex_env -> storable ex_job env.
Proof.
  intros ->. split; [apply untorn_ok|]. intros res event. unfold eventForDrift, MapDriftToQuarantine.
  cbn [newEventID rand_id ex_env result_bind]. split_ifs; intros [= <-]; vm_compute; reflexivity.
Qed.

Lemma one_job_envs : Forall (fun a => forall i env job, a = AMove i env ->
  bool_decide (job = ex_job) = true -> storable job env) one_job.
Proof.
  constructor; [done|]. apply Forall_replicate. intros i env job [= <- <-] ->%bool_decide_eq_true.
  by apply ex_storable.
Qed.

Lemma drift_survives_restart_witness :
  exists s contents new,
    rtc (pool_step storable) (Start ex_pool 1) s /\ finished s = [(ex_job, None)] /\
    replayFrom contents = Ok ([ex_q] ++ new) /\ stored new ex_job.
Proof.
  destruct one_job_runs as (s & Hr & [Hfin%bool_decide_eq_true Hd]%andb_true_iff). exists s.
  pose proof (acts_run_steps _ storable _ _ _ one_job_envs Hr) as Hs.
  destruct (drift_survives_restart ex_ledger ex_log [ex_q] eq_refl ex_log_replays
    (Some ex_live) DefaultDimensions ex_threshold 2 1 s Hs) as (l' & contents & new & _ & _ & Hrep & _ & Hjobs & _).
  exists contents, new. split; [exact Hs|]. split; [exact Hfin|]. split; [exact Hrep|].
  apply Hjobs; [|exact Hd]. rewrite Hfin. left.
Defined.

Lemma pool_refines_publication_witness :
  exists s p, finished s = [(ex_job, None)] /\
    rtc pub_step (recovered_start ex_ledger [ex_q] 1 5) p /\ CoLedger (coord s) = Some (plog p).
Proof.
  destruct one_job_runs as (s & Hr & [Hfin%bool_decide_eq_true Hd]%andb_true_iff).
  pose proof (acts_run_steps _ storable _ _ _ one_job_envs Hr) as Hs.
  destruct (pool_refines_publication ex_ledger ex_log [ex_q] 1 5 DefaultDimensions ex_threshold 2 1 s
    eq_refl ex_log_replays Hs) as (p & Hp & Hl & _).
  exists s, p. split; [exact Hfin|]. split; [exact Hp|exact Hl].
Defined.

(** The query of one record that has drifted, after which the worker handles the job,
    the queue is closed, and the worker returns. *)
Definition ex_drained (s : pool) : bool :=
  all_exited s && negb (ctx_done s) && bool_decide (finished s = [(ex_job, None)]) && drifted ex_pool ex_job.

Lemma ex_query_drains :
  exists s', acts_run (fun job => bool_decide (job = ex_job))
      (submitted (Start ex_pool 1) (with_queue ex_pool [ex_job] false) ex_job true)
      (whole_job 0 ex_env ++ [AStop; AMove 0 ex_env]) = Some s' /\ ex_drained s' = true.
Proof. apply (run_to _ _ _ ex_drained). vm_compute. reflexivity. Qed.

Lemma drifted_retrieval_is_stripped_witness :
  let w := mkInterceptor (Some ex_pool) "operator" "source" (zero_array 32) (mkInterceptorStats 0 0 0) in
  let anchors := [mkRecord (mem x11) ex_anchor "text"] in
  let retrieved := [mkRecord (mem x11) ex_trust_drift "text"] in
  (exists w', InterceptQueryResults (Some w) None anchors retrieved = Returns (Some w', retrieved, None)) /\
  exists s' l' contents, all_exited s' = true /\ finished s' = [(ex_job, None)] /\
    CoLedger (coord s') = Some l' /\ file l' = Some contents /\ blocked_after_restart contents ex_job.
Proof.
  intros w anchors retrieved. split; [eexists; reflexivity|].
  destruct ex_query_drains as (s' & Hr & (((Hex & Hc%negb_true_iff)%andb_true_iff
    & Hfin%bool_decide_eq_true)%andb_true_iff & Hd)%andb_true_iff).
  destruct (drifted_retrieval_is_stripped ex_ledger ex_log [ex_q] eq_refl ex_log_replays (Some ex_live)
    DefaultDimensions ex_threshold 2 1 (Start ex_pool 1) w anchors retrieved (rtc_refl _ _)) as [_ Hq].
  assert (query_run w (Start ex_pool 1) (combine anchors retrieved) [ex_job] []
    (submitted (Start ex_pool 1) (with_queue ex_pool [ex_job] false) ex_job true)) as Hrun.
  { exact (q_submit w (Start ex_pool 1) (mkRecord (mem x11) ex_anchor "text") (mkRecord (mem x11) ex_trust_drift "text")
      [] (with_queue ex_pool [ex_job] false) true [] [] _ eq_refl eq_refl (q_end w _)). }
  destruct (Hq [ex_job] [] _ Hrun) as [_ Hall].
  destruct (Hall s') as (l' & contents & Hl & Hf & Hj); [|exact Hex|exact Hc|].
  - refine (acts_run_steps _ storable _ _ _ _ Hr). apply Forall_app. split.
    + exact (Forall_inv_tail one_job_envs).
    + apply Forall_cons. split; [done|]. apply Forall_singleton. intros i env job [= <- <-] ->%bool_decide_eq_true. by apply ex_storable.
  - exists s', l', contents. do 4 (split; [assumption|]).
    destruct (Hj ex_job ltac:(left) Hd) as [(e & He)|Hb]; [|exact Hb].
    rewrite Hfin in He. by apply list_elem_of_singleton in He.
Defined.

Lemma single_worker_enforces_at_once_witness :
  exists s m,
    rtc (pool_step storable) (Start ex_pool 1) s /\ finished s = [(ex_job, None)] /\
    CoMonitor (coord s) = Some m /\ RdDecision (Lookup m (mem x11)) <> DecisionUse.
Proof.
  destruct one_job_runs as (s & Hr & [Hfin%bool_decide_eq_true Hd]%andb_true_iff). exists s.
  pose proof (acts_run_steps _ storable _ _ _ one_job_envs Hr) as Hs.
  destruct (single_worker_enforces_at_once storable (Some ex_ledger) [ex_q] 1 5 DefaultDimensions ex_threshold 2 s Hs)
    as (m & Hm & Hjobs).
  exists m. split; [exact Hs|]. split; [exact Hfin|]. split; [exact Hm|].
  apply (Hjobs ex_job); [|exact Hd]. rewrite Hfin. left.
Defined.

Definition loses_quarantine (s : pool) : bool :=
  all_exited s && negb (ctx_done s) && bool_decide (finished s = [(ex_job2, None); (ex_job, None)]) &&
  match CoMonitor (coord s) with
  | Some m => RdDecision (Lookup m (JobMemoryID ex_job2)) =? DecisionUse
  | None => false
  end.

(** Known weakness: with two workers a quarantine can be lost until the next
    publication or restart.  Two jobs that drifted are processed without an
    error and [Wait] returns, and the runtime monitor decides USE for the memory
    of one of them. *)
Theorem two_workers_can_lose_quarantine :
  drifted ex_pool ex_job2 = true /\
  exists s m,
    rtc (pool_step (fun _ _ => True)) (Start ex_pool 2) s /\ all_exited s = true /\ ctx_done s = false /\
    (ex_job2, None) ∈ finished s /\ CoMonitor (coord s) = Some m /\
    RdDecision (Lookup m (JobMemoryID ex_job2)) = DecisionUse.
Proof.
  split; [vm_compute; reflexivity|].
  destruct (run_to (fun _ => true) (Start ex_pool 2) crossing loses_quarantine) as (s & Hr & Hl);
    [vm_compute; reflexivity|].
  unfold loses_quarantine in Hl. rewrite !andb_true_iff, negb_true_iff, bool_decide_eq_true in Hl.
  destruct Hl as (((Hw & Hc) & Hfin) & Hm). destruct (CoMonitor (coord s)) as [m|] eqn:Em; [|done].
  exists s, m. split.
  { apply (acts_run_steps (fun _ => true) (fun _ _ => True) _ crossing); [|exact Hr]. by apply Forall_forall. }
  split; [exact Hw|]. split; [exact Hc|]. split; [rewrite Hfin; left|]. split; [exact Em|].
  exact (proj1 (Z.eqb_eq _ _) Hm).
Qed.
End examples.
