(* ===== verification/Staging.v ===== *)
(** * Reference scenarios: drift fixtures, staging vectors, control harness, client loop

    The programs that exercise the library end to end: the generator of the
    Axis fixtures ([benchmarks/axis_fixtures/generate.go]), the vectors, the
    provider and the acceptance rule of the staging verification
    ([cmd/staging-verify]), and the control harness ([cmd/mam-harness]) and the
    client loop ([examples/clientloop]), whose runs are shown to succeed for
    every key and clock. *)
From S2P Require Import Prelude Sha256 Bitmask Tenant Evaluate Merkle SessionMap AuditReplay.
From S2P Require Import Quarantine Monitor Gateway Inference Axis.
From Stdlib Require Import Floats.SpecFloat.

(** ** Fixture vectors *)

(** The [float32] nearest to [p / q]: a Go constant. *)
Definition f32_const (p q : Z) : float32 :=
  SFdiv 24 128 (binary_normalize 24 128 p 0 false) (binary_normalize 24 128 q 0 false).

(** [float32(x)] of a [float64]. *)
Definition f32_of_f64 (x : float64) : float32 :=
  match x with
  | S754_finite s m e => binary_normalize 24 128 (cond_Zopp s (Zpos m)) e s
  | _ => x
  end.

(** [mag += float64(v[i] * v[i])] over the vector, and its square root. *)
Definition magnitude (v : StructuralVector) : float64 :=
  math_Sqrt (foldl (fun mag x => f64_add mag (f64_of_f32 (f32_mul x x))) f64_zero v).

Definition normalize (v : StructuralVector) : StructuralVector :=
  let mag := magnitude v in
  if SFeqb mag f64_zero then v
  else (fun x => f32_of_f64 (f64_div (f64_of_f32 x) mag)) <$> v.

(** [float32(i%5 + 1)] *)
Definition ramp (i : nat) : float32 := f32_const (Z.of_nat (i mod 5)%nat + 1) 1.

Definition in_target (start stop : Z) (i : nat) : bool :=
  (start <=? Z.of_nat i) && (Z.of_nat i <=? stop).

Definition GenerateBaseVector (targetStart targetEnd : Z) : StructuralVector :=
  normalize ((fun i => if in_target targetStart targetEnd i
                       then f32_mul (f32_const 3 100) (ramp i)
                       else f32_mul (f32_const 3 10) (ramp i)) <$> seq 0 128).

Definition NormalizeBaseVector : StructuralVector :=
  normalize ((fun i => f32_mul (f32_const 1 10) (ramp i)) <$> seq 0 128).

Definition MutateSubspace (base : StructuralVector) (start stop : Z) (factor : float32)
    : StructuralVector :=
  normalize (imap (fun i x => if in_target start stop i then f32_mul x factor else x) base).

(** The [float64] nearest to [p / q]. *)
Definition f64_const (p q : Z) : float64 :=
  SFdiv 53 1024 (binary_normalize 53 1024 p 0 false) (binary_normalize 53 1024 q 0 false).

Record AxisFixture := mkFixture {
  FixtureID : string;
  Category : string;
  AnchorDescription : string;
  MutatedDescription : string;
  ExpectedDriftType : string;
  ExpectedReasonCode : string;
  GlobalSimilarityExpectedMin : float64;
  AxisDriftExpectedMin : float64;
  FixtureAnchor : StructuralVector;
  FixtureMutated : StructuralVector
}.

Definition fixture (id category anchor mutated driftType reason : string) (start stop : Z)
    : AxisFixture :=
  let base := GenerateBaseVector start stop in
  mkFixture id category anchor mutated driftType reason (f64_const 95 100) (f64_const 150 100) base
    (MutateSubspace base start stop (f32_const (-35) 10)).

Definition fixtures : list AxisFixture :=
  let cleanBase := NormalizeBaseVector in
  [ fixture "temporality_shift_001" "TEMPORALITY_SHIFT"
      "User is currently frustrated with logging in."
      "User is an abusive client with ongoing security risks."
      "TEMPORARY_STATE_PROMOTED_TO_STABLE_TRAIT" "TEMPORARITY_DRIFT_DETECTED" 0 23;
    fixture "epistemic_shift_001" "EPISTEMIC_MODAL_SHIFT"
      "The support note says the user suspects a double billing error."
      "The system confirmed a double billing error occurred."
      "INFERENCE_PROMOTED_TO_FACT" "EPISTEMIC_MODAL_SHIFT" 24 47;
    fixture "scope_expansion_001" "SCOPE_EXPANSION"
      "Apply a 10% discount for this specific delayed order code."
      "Always apply a 10% discount globally to this user profile."
      "CONTEXT_BOUND_MEMORY_REUSED_GLOBALLY" "SCOPE_EXPANSION_VIOLATION" 48 71;
    fixture "source_trust_001" "SOURCE_TRUST_COLLAPSE"
      "Unverified customer statement claims prior approval."
      "Customer has prior approval."
      "LOW_TRUST_SOURCE_PROMOTED" "SOURCE_TRUST_COLLAPSE" 72 95;
    fixture "mandate_confusion_001" "MANDATE_CONFUSION"
      "User prefers faster responses."
      "Agent is authorized to skip review steps for this user."
      "PREFERENCE_PROMOTED_TO_MANDATE" "PREFERENCE_PROMOTED_TO_AUTHORITY" 96 127;
    mkFixture "clean_control_001" "CLEAN_CONTROL" "User prefers concise responses."
      "User prefers concise answers." "" "" (f64_const 99 100) f64_zero cleanBase cleanBase ].

(** The drift threshold of the deployments, [0.35]. *)
Definition deployed_threshold : float64 := f64_const 35 100.

(** What a fixture expects of the evaluation: the vectors as a whole are as
    similar as it says, and exactly the axis it names is reported, with its
    reason alone and at least its drift; no drift if it names none. *)
Definition meets_expectations (f : AxisFixture) (threshold : float64) : Prop :=
  (exists sim, CosineSimilarity (FixtureAnchor f) (FixtureMutated f) 0 127 = Ok sim /\
               SFleb (GlobalSimilarityExpectedMin f) sim = true) /\
  let res := EvaluateDrift (FixtureAnchor f) (FixtureMutated f) DefaultDimensions threshold in
  SFleb (AxisDriftExpectedMin f) (DriftScore res) = true /\
  DriftType res = ExpectedDriftType f /\
  ReasonCodes res = (if bool_decide (ExpectedReasonCode f = "") then [] else [ExpectedReasonCode f]) /\
  AxisPreserved res = bool_decide (ExpectedDriftType f = "").

Definition meets_expectations_b (f : AxisFixture) (threshold : float64) : bool :=
  match CosineSimilarity (FixtureAnchor f) (FixtureMutated f) 0 127 with
  | Err _ => false
  | Ok sim => SFleb (GlobalSimilarityExpectedMin f) sim
  end &&
  let res := EvaluateDrift (FixtureAnchor f) (FixtureMutated f) DefaultDimensions threshold in
  SFleb (AxisDriftExpectedMin f) (DriftScore res) &&
  bool_decide (DriftType res = ExpectedDriftType f) &&
  bool_decide (ReasonCodes res =
    (if bool_decide (ExpectedReasonCode f = "") then [] else [ExpectedReasonCode f])) &&
  bool_decide (AxisPreserved res = bool_decide (ExpectedDriftType f = "")).

Lemma meets_expectations_spec f threshold :
  meets_expectations_b f threshold = true -> meets_expectations f threshold.
Proof.
  unfold meets_expectations_b, meets_expectations. rewrite !andb_true_iff, !bool_decide_eq_true.
  intros [Hs [[[Hd Ht] Hr] Hp]].
  split; [|done]. destruct (CosineSimilarity _ _ _ _) as [sim|]; [|done]. by exists sim.
Qed.

(** The drift evaluation sees what global similarity misses: for each of the
    five attack fixtures the anchor and the mutated vector are at least 0.95
    similar as a whole, yet the evaluation reports exactly the attacked axis,
    alone, with a drift of at least 1.5; the clean control is preserved. *)
Theorem axis_fixtures_detected :
  Forall (fun f => meets_expectations f deployed_threshold) fixtures.
Proof.
  apply (Forall_impl (fun f => meets_expectations_b f deployed_threshold = true));
    [|intros f; apply meets_expectations_spec].
  apply Forall_forall. intros f Hf%list_elem_of_In.
  refine (proj1 (forallb_forall (fun f => meets_expectations_b f deployed_threshold) fixtures) _ f Hf).
  vm_compute. reflexivity.
Qed.

(** ** The staging verification *)

(** [normalize] of the staging program has no guard for a zero magnitude. *)
Definition staging_scale (v : StructuralVector) : StructuralVector :=
  let mag := magnitude v in (fun x => f32_of_f64 (f64_div (f64_of_f32 x) mag)) <$> v.

Definition stagingBaseVectorForTarget (start stop : Z) : StructuralVector :=
  staging_scale ((fun i => if in_target start stop i
                           then f32_mul (f32_const 3 100) (ramp i)
                           else f32_mul (f32_const 3 10) (ramp i)) <$> seq 0 128).

Definition stagingMutateSubspace (base : StructuralVector) (start stop : Z) (factor : float32)
    : StructuralVector :=
  staging_scale (imap (fun i x => if in_target start stop i then f32_mul x factor else x) base).

(** The poison drill of the staging run: the blind spot is there (similarity
    above 0.92), and the drift is of the temporality axis. *)
Example staging_drill_vectors :
  let anchor := stagingBaseVectorForTarget 0 23 in
  let mutated := stagingMutateSubspace anchor 0 23 (f32_const (-35) 10) in
  let res := EvaluateDrift anchor mutated DefaultDimensions deployed_threshold in
  (match CosineSimilarity anchor mutated 0 127 with
   | Ok sim => SFltb (f64_const 92 100) sim
   | Err _ => false
   end, AxisPreserved res, DriftType res) = (true, false, DriftTypeTemporality).
Proof. vm_compute. reflexivity. Qed.

(** [strings.Contains]. *)
Fixpoint contains (s sub : string) : bool :=
  String.prefix sub s || match s with EmptyString => false | String _ s' => contains s' sub end.

(** The provider that records what it is invoked with. *)
Record controlledProvider := mkControlled { provider_calls : Z; provider_messages : list (list LLMMessage) }.

(** [interrupted] is the context's error, if it ended before the block was
    lifted. *)
Definition controlled_Invoke (p : controlledProvider) (interrupted : option error)
    (messages : list LLMMessage) : controlledProvider * result ProviderResponse :=
  match interrupted with
  | Some err => (p, Err err)
  | None =>
      (mkControlled (provider_calls p + 1) (provider_messages p ++ [messages]),
       Ok (mkResponse "staging sub-agent processed sanitized supervisor constraints"
             (mkTokens 32 8 40)))
  end.

Definition rawBypassDetected (p : controlledProvider) (raw : string) : bool :=
  existsb (existsb (fun msg => contains (Content msg) raw)) (provider_messages p).

Record StagingVerificationReport := mkReport {
  ReleaseTag : string;
  ReferenceHash : string;
  WalReplayResult : string;
  ReportSnapshotHash : string;
  ReportSnapshotVersion : Z;
  ReadinessResult : string;
  HandoffResult : string;
  BackpressureResult : string;
  PoisonDrillResult : string;
  ReportSessionMapID : string;
  SessionMapMerkleRoot : string;
  McrID : string;
  McrLineageDigest : string;
  AuditReplayResult : string;
  RawContextBypassDetected : bool;
  FinalStatus : string;
  VerifiedAt : Z
}.

Definition allPass (report : StagingVerificationReport) : bool :=
  bool_decide (WalReplayResult report = "pass") &&
  bool_decide (ReadinessResult report = "pass") &&
  bool_decide (HandoffResult report = "pass") &&
  bool_decide (BackpressureResult report = "pass") &&
  bool_decide (PoisonDrillResult report = "pass") &&
  bool_decide (AuditReplayResult report = "pass") &&
  negb (RawContextBypassDetected report).

(** The provider detects a raw text exactly if a message it saw contains it. *)
Lemma rawBypassDetected_iff p raw :
  rawBypassDetected p raw = true <->
  exists batch msg, batch ∈ provider_messages p /\ msg ∈ batch /\ contains (Content msg) raw = true.
Proof.
  unfold rawBypassDetected. rewrite existsb_exists. split.
  - intros (batch & Hb%list_elem_of_In & (msg & Hm%list_elem_of_In & Hc)%existsb_exists).
    by exists batch, msg.
  - intros (batch & msg & Hb%list_elem_of_In & Hm%list_elem_of_In & Hc).
    exists batch. split; [done|]. apply existsb_exists. by exists msg.
Qed.

(** ** The control harness *)

Definition hashBytes (s : string) : array 32 := Sum256 (bytes_of s).

Definition MockProvider_Invoke (messages : list LLMMessage) : option error :=
  if existsb (fun msg => contains (Content msg) "rogue cross-tenant memory") messages then
    Some (errors_New "SECURITY_BREACH: inadmissible raw memory reached provider payload")
  else None.

Definition idGood : array 16 := copy_into 16 [x01].
Definition idQual : array 16 := copy_into 16 [x02].
Definition idRogue : array 16 := copy_into 16 [x03].

Definition validTenant : IDHash := hashBytes "tenant_enterprise_alpha".
Definition rogueTenant : IDHash := hashBytes "tenant_attacker_omega".
Definition defaultDomain : IDHash := hashBytes "domain_customer_support".
Definition policyHash : array 32 := hashBytes "policy_snapshot_v1_2026".

Definition LocalCache (id : array 16) : option MemoryProfile :=
  let context_only := Z.lor FlagLifecycleActive ClassUseContextOnly in
  let tone := Z.lor FlagLifecycleActive ClassUseToneAdjustment in
  if bool_decide (id = idGood) then Some (mkProfile idGood validTenant defaultDomain context_only "")
  else if bool_decide (id = idQual) then
    Some (mkProfile idQual validTenant defaultDomain tone
            "may be used for tone/context only; prohibited for automated denial")
  else if bool_decide (id = idRogue) then
    Some (mkProfile idRogue rogueTenant defaultDomain context_only "")
  else None.

Definition activeMask : EvaluationMask :=
  mkMask FlagLifecycleActive FlagSafetyQuarantined
    (Z.lor ClassUseContextOnly ClassUseToneAdjustment) BlockUseAutomatedDenial 0.

Definition incomingMessages : list LLMMessage :=
  [ mkMessage "system" "You are a customer service representative agent loop.";
    mkMessage "user" "Prior interaction history payload: verified secure context fragment.";
    mkMessage "user" "Prior interaction history payload: user emotional state context flag.";
    mkMessage "user" "Prior interaction history payload: rogue cross-tenant memory prompt payload." ].

Definition harness_bindings : list MemoryContextBinding :=
  [ mkBinding idGood (hashBytes "good") 1; mkBinding idQual (hashBytes "qual") 2;
    mkBinding idRogue (hashBytes "rogue") 3 ].

Definition harness_wrapper : ClientWrapper :=
  mkWrapper (Some (fun _ => LocalCache)) policyHash None.

(** The seven assertions on the sanitized window. *)
Definition harness_assertions (sanitized : list LLMMessage) (leaves : list LeafRecord) : bool :=
  let injected i := match leaves !! i with Some l => Injected l | None => false end in
  (length leaves =? 3)%nat &&
  bool_decide (content_at 1 sanitized = content_at 1 incomingMessages) &&
  contains (content_at 2 sanitized) "[VERAXIS QUALIFIED MEMORY:" &&
  bool_decide (content_at 3 sanitized = TombstoneHardRefuse) &&
  injected 0%nat && injected 1%nat && negb (injected 2%nat).

Section harness.
Context `{SliceSort, Ed25519}.

(** The run of the harness; an error is an exit with status 1. *)
Definition harness_main (seed : array 32) (now : Z) : result unit :=
  let privKey := NewKeyFromSeed seed in
  let pubKey := drop 32 privKey in
  let! (sanitized, leaves) :=
    SanitizeContextWindow (Some harness_wrapper) None validTenant defaultDomain activeMask
      incomingMessages harness_bindings in
  if negb (harness_assertions sanitized leaves) then Err (errors_New "ASSERTION_FAILED") else
  match MockProvider_Invoke sanitized, MockProvider_Invoke incomingMessages with
  | Some err, _ => Err err
  | None, None => Err (errors_New
      "CRITICAL CONTROL FAILURE: raw unsanitized payload unexpectedly passed MockProvider")
  | None, Some _ =>
      let! smap := GenerateSessionMAP (copy_into 16 [x64]) "session_test_01" "agent_support_alpha"
        "actor_user_99" "task_refund_check" validTenant (hashBytes "runtime_context_fingerprint")
        policyHash leaves privKey "key_id_harness_01" hour now in
      let! res := VerifySessionMAPWithPolicy pubKey smap (Some (fun h => bool_decide (h = policyHash))) in
      if ReplayMatch res then Ok tt
      else Err (errors_New "CRITICAL AUDIT FAILURE: Replay mismatch or verification bug")
  end.

Lemma harness_gateway :
  exists sanitized leaves,
    SanitizeContextWindow (Some harness_wrapper) None validTenant defaultDomain activeMask
      incomingMessages harness_bindings = Ok (sanitized, leaves) /\
    harness_assertions sanitized leaves = true /\ MockProvider_Invoke sanitized = None /\
    leaves <> [].
Proof.
  unfold SanitizeContextWindow. cbn [harness_wrapper Profiles].
  destruct (sanitize_bindings _ _ _ _ _ _ _ _) as [sanitized leaves] eqn:E.
  exists sanitized, leaves. split; [done|].
  apply (f_equal (fun p => (harness_assertions p.1 p.2, MockProvider_Invoke p.1,
    (length p.2 =? 0)%nat))) in E.
  assert (harness_assertions sanitized leaves = true /\ MockProvider_Invoke sanitized = None /\
    (length leaves =? 0)%nat = false) as (Ha & Hm & Hl).
  { vm_compute in E. injection E as E1 E2 E3. done. }
  split; [done|]. split; [done|]. by intros ->.
Qed.

(** The control harness succeeds, for every key pair, clock and signature
    scheme that verifies its own signatures: the authorized memory passes, the
    qualified one is annotated, the rogue tenant's is stripped, the mock
    provider accepts the sanitized window and would have rejected the raw one,
    and the Session MAP of the turn replays under the policy. *)
Theorem harness_succeeds seed now : harness_main seed now = Ok ().
Proof.
  destruct harness_gateway as (sanitized & leaves & Es & Ha & Hm & Hne).
  unfold harness_main. rewrite Es. cbn [result_bind]. rewrite Ha, Hm. cbn [negb].
  replace (MockProvider_Invoke incomingMessages) with
    (Some (errors_New "SECURITY_BREACH: inadmissible raw memory reached provider payload"))
    by (vm_compute; reflexivity).
  unfold GenerateSessionMAP.
  edestruct generate_succeeds as (smap & Eg & _); [exact Hne| |rewrite Eg].
  { exact (eq_refl : 0 < hour). }
  cbn [result_bind].
  rewrite (generated_replays_with_policy _ _ _ _ _ _ _ _ _ _ _ _ _ _ _ _
    (fun h => bool_decide (h = policyHash)) Eg); [done|].
  by apply bool_decide_eq_true_2.
Qed.

(** ** The example client loop ([examples/clientloop/main.go])

    Its tenants, memories, policy and bindings are those of the harness. *)

Definition client_messages : list LLMMessage :=
  [ mkMessage "system" "You are a customer service representative agent loop.";
    mkMessage "user" "verified secure context fragment";
    mkMessage "user" "user emotional state context flag";
    mkMessage "user" "rogue cross-tenant memory prompt payload" ].

Definition client_mask : EvaluationMask :=
  mkMask 0 0 (Z.lor ClassUseContextOnly ClassUseToneAdjustment) 0 0.

Definition client_response : ProviderResponse :=
  mkResponse "Processed application query cleanly based on authorized memory states."
    (mkTokens 256 32 288).

Definition client_runner : LifecycleRunner :=
  mkRunner (Some harness_wrapper) (Some "gpt-4o") (Some (Mock_Invoke client_response None)).

Definition client_params (privKey : bytes) (now : Z) : MockRuntimeContext :=
  mkRuntimeContext (Some None) validTenant defaultDomain client_mask (copy_into 16 [x64])
    "session_example_01" "agent_support_alpha" "actor_user_99" "task_refund_check"
    (hashBytes "runtime_context_fingerprint") privKey "key_id_example_01" policyHash now hour.

(** The run; an error is an exit with status 1. *)
Definition client_main (seed : array 32) (now wall : Z) : result AdmissibleInferenceBlock :=
  let priv := NewKeyFromSeed seed in
  let pub := drop 32 priv in
  let turn := ExecuteAdmissibleTurn (Some client_runner) wall client_messages harness_bindings
                (client_params priv now) in
  let! block := turn_block turn in
  if existsb (fun msg => contains msg.2 "rogue cross-tenant memory") (OaMessages (turn_payload turn))
  then Err (errors_New "rogue memory leaked into provider payload")
  else
  let! res := VerifySessionMAPWithPolicy pub (BlockSessionMAP block)
                (Some (fun h => bool_decide (h = policyHash))) in
  if ReplayMatch res then Ok block else Err (errors_New "audit replay failed").

Lemma client_gateway :
  exists sanitized leaves,
    SanitizeContextWindow (Some harness_wrapper) None validTenant defaultDomain client_mask
      client_messages harness_bindings = Ok (sanitized, leaves) /\
    existsb (fun msg => contains msg.2 "rogue cross-tenant memory")
      (OaMessages (OpenAI_Convert "gpt-4o" sanitized)) = false /\ leaves <> [].
Proof.
  unfold SanitizeContextWindow. cbn [harness_wrapper Profiles].
  destruct (sanitize_bindings _ _ _ _ _ _ _ _) as [sanitized leaves] eqn:E.
  exists sanitized, leaves. split; [done|].
  apply (f_equal (fun p => (existsb (fun msg => contains msg.2 "rogue cross-tenant memory")
      (OaMessages (OpenAI_Convert "gpt-4o" p.1)), (length p.2 =? 0)%nat))) in E.
  assert (existsb (fun msg => contains msg.2 "rogue cross-tenant memory")
      (OaMessages (OpenAI_Convert "gpt-4o" sanitized)) = false /\ (length leaves =? 0)%nat = false)
    as (Ha & Hl).
  { vm_compute in E. injection E as E1 E2. done. }
  split; [done|]. by intros ->.
Qed.

Lemma policyHash_nonzero : bool_decide (policyHash <> zero_array 32) = true.
Proof. vm_compute. reflexivity. Qed.

(** The client loop succeeds for every key, clock and signature scheme: nothing
    of the rogue memory reaches the payload, and the evidence replays. *)
Theorem client_loop_succeeds seed now wall : is_ok (client_main seed now wall) = true.
Proof.
  destruct client_gateway as (sanitized & leaves & Es & Hrogue & Hne).
  unfold client_main.
  destruct (turn_completes harness_wrapper "gpt-4o" (Mock_Invoke client_response None) wall
    client_messages harness_bindings (client_params (NewKeyFromSeed seed) now) seed sanitized leaves
    client_response eq_refl eq_refl Es Hne eq_refl) as (Hp & block & ttl & t & Hb & Hg).
  unfold client_runner. cbv zeta. rewrite Hb, Hp. cbn [result_bind]. rewrite Hrogue.
  rewrite (generated_replays_with_policy _ _ _ _ _ _ _ _ _ _ _ _ _ _ _ _
    (fun h => bool_decide (h = policyHash)) Hg); [done|].
  apply bool_decide_eq_true_2. unfold turn_policy. cbn [client_params RPolicySnapshotHash].
  by rewrite policyHash_nonzero.
Qed.
End harness.
