(* ===== verification/ReportJson.v ===== *)
(** * The report file of the staging verification ([cmd/staging-verify/main.go])

    [writeReport] as the bytes of the file: the members in the order and under the
    names of the struct's tags, strings escaped, indented by two blanks.  Whoever
    parses the file reads back the report ([report_roundtrip]). *)
From S2P Require Import Prelude Sha256 Bitmask Tenant Evaluate Merkle SessionMap AuditReplay.
From S2P Require Import Quarantine Json GoTime EventJson Monitor Persistence Axis AxisWorker.
From S2P Require Import Gateway Inference Orchestrator Ops Staging.

(** ** Numbers of 64 bits *)

(** [strconv.AppendUint(_, z, 10)]. *)
Fixpoint strip_zeros (ds : bytes) : bytes :=
  match ds with
  | [] => []
  | d :: ds' => if Byte.eqb d x30 && negb (length ds' =? 0)%nat then strip_zeros ds' else ds
  end.
Definition dec_uint64 (z : Z) : bytes := strip_zeros (dec_pad 20 z).

Lemma strip_zeros_spec ds :
  Forall (fun d => is_digit d = true) ds -> ds <> [] ->
  decimal_literal (strip_zeros ds) /\ Forall (fun d => is_digit d = true) (strip_zeros ds) /\
  digits_value (strip_zeros ds) = digits_value ds.
Proof.
  induction 1 as [|d ds Hd Hds IH]; [done|]. intros _. cbn [strip_zeros].
  destruct (Byte.eqb d x30) eqn:Ed; cbn [andb].
  - apply Byte.byte_dec_bl in Ed as ->. destruct (Nat.eqb_spec (length ds) 0) as [E|E]; cbn [negb].
    + destruct ds; [|done]. split; [by left|]. by split; [constructor|].
    + destruct IH as (Hl & Hf & Hv); [by intros ->|]. split_and!; [done|done|]. rewrite Hv.
      change (x30 :: ds) with ([x30] ++ ds). by rewrite digits_value_app.
  - split; [right; by exists d, ds|]. by split; [constructor|].
Qed.

Lemma dec_uint64_literal z : decimal_literal (dec_uint64 z).
Proof. apply strip_zeros_spec; [apply dec_pad_digits|done]. Qed.

Lemma parseUint_dec_uint64 z : 0 <= z < 2 ^ 64 -> parseUint (dec_uint64 z) 0 (2 ^ 64 - 1) = Some z.
Proof.
  intros Hz. destruct (strip_zeros_spec (dec_pad 20 z)) as (_ & Hf & Hv); [apply dec_pad_digits|done|].
  unfold parseUint, dec_uint64. rewrite Hv, digits_value_dec_pad, forallb_digits by done.
  rewrite Z.mod_small by (change (10 ^ Z.of_nat 20) with 100000000000000000000; lia).
  by rewrite (proj2 (Z.leb_le _ _)), (proj2 (Z.leb_le _ _)) by lia.
Qed.

(** ** Writing *)

(** The value of the report, given the text of its time. *)
Definition report_json (r : StagingVerificationReport) (verified : bytes) : JValue :=
  JObject
    [ (bytes_of "release_tag", json_string (ReleaseTag r));
      (bytes_of "reference_hash", json_string (ReferenceHash r));
      (bytes_of "wal_replay_result", json_string (WalReplayResult r));
      (bytes_of "runtime_snapshot_hash", json_string (ReportSnapshotHash r));
      (bytes_of "runtime_snapshot_version", JNumber (dec_uint64 (ReportSnapshotVersion r)));
      (bytes_of "readiness_result", json_string (ReadinessResult r));
      (bytes_of "handoff_result", json_string (HandoffResult r));
      (bytes_of "backpressure_result", json_string (BackpressureResult r));
      (bytes_of "poison_drill_result", json_string (PoisonDrillResult r));
      (bytes_of "session_map_id", json_string (ReportSessionMapID r));
      (bytes_of "session_map_merkle_root", json_string (SessionMapMerkleRoot r));
      (bytes_of "mcr_id", json_string (McrID r));
      (bytes_of "mcr_lineage_digest", json_string (McrLineageDigest r));
      (bytes_of "audit_replay_result", json_string (AuditReplayResult r));
      (bytes_of "raw_context_bypass_detected", JBool (RawContextBypassDetected r));
      (bytes_of "final_status", json_string (FinalStatus r));
      (bytes_of "verified_at", JString verified) ].

(** [encoder.Encode(report)] after [SetIndent("", "  ")]: a line feed follows. *)
Definition two_blanks : Layout := indented [x20; x20].

Definition Encode_report (r : StagingVerificationReport) : result bytes :=
  let! verified := time_MarshalJSON (VerifiedAt r) in
  Ok (print_with two_blanks 0 (report_json r verified) ++ [x0a]).

(** What [os.Create] and the encoder's one write do. *)
Record report_io := mkReportIo { created : option error; written : io_outcome }.

(** Creating a file and encoding a value into it: what the file holds, if it could
    be created, and the error. *)
Definition write_file (io : report_io) (encoded : result bytes) : option bytes * option error :=
  match created io with
  | Some e => (None, Some e)
  | None =>
      match encoded with
      | Err e => (Some [], Some e)
      | Ok text => let (contents, err) := os_write (written io) [] text in (Some contents, err)
      end
  end.

Lemma write_file_ok io encoded file :
  write_file io encoded = (file, None) -> exists text, encoded = Ok text /\ file = Some text.
Proof.
  unfold write_file. destruct (created io); [done|]. destruct encoded as [text|e]; [|done].
  destruct (written io); [|done]. intros [= <-]. by exists text.
Qed.

(** [writeReport]. *)
Definition writeReport (io : report_io) (r : StagingVerificationReport)
    : option bytes * option error := write_file io (Encode_report r).

(** [writeReportAndExit]: the report it writes. *)
Definition exit_report (r : StagingVerificationReport) : StagingVerificationReport :=
  if bool_decide (FinalStatus r = "") then
    mkReport (ReleaseTag r) (ReferenceHash r) (WalReplayResult r) (ReportSnapshotHash r)
      (ReportSnapshotVersion r) (ReadinessResult r) (HandoffResult r) (BackpressureResult r)
      (PoisonDrillResult r) (ReportSessionMapID r) (SessionMapMerkleRoot r) (McrID r)
      (McrLineageDigest r) (AuditReplayResult r) (RawContextBypassDetected r) "STAGING_REJECTED"
      (VerifiedAt r)
  else r.

(** ** Reading *)

(** A reader of the file looks its members up by their names. *)
Definition member (name : string) (v : JValue) : option JValue :=
  match v with
  | JObject ms => snd <$> List.find (fun m => bool_decide (m.1 = bytes_of name)) ms
  | _ => None
  end.

Definition read_string (v : JValue) : option string :=
  match v with JString raw => string_of <$> unquote raw | _ => None end.
Definition read_uint64 (v : JValue) : option Z :=
  match v with JNumber digits => parseUint digits 0 (2 ^ 64 - 1) | _ => None end.
Definition read_bool (v : JValue) : option bool :=
  match v with JBool b => Some b | _ => None end.
Definition read_time (v : JValue) : option Z :=
  match v with JString raw => parseRFC3339 raw | _ => None end.

Definition string_member (name : string) (v : JValue) : option string := member name v ≫= read_string.

Definition read_report (v : JValue) : option StagingVerificationReport :=
  releaseTag ← string_member "release_tag" v;
  referenceHash ← string_member "reference_hash" v;
  wal ← string_member "wal_replay_result" v;
  snapshotHash ← string_member "runtime_snapshot_hash" v;
  version ← member "runtime_snapshot_version" v ≫= read_uint64;
  readiness ← string_member "readiness_result" v;
  handoff ← string_member "handoff_result" v;
  backpressure ← string_member "backpressure_result" v;
  poison ← string_member "poison_drill_result" v;
  sessionMapID ← string_member "session_map_id" v;
  merkleRoot ← string_member "session_map_merkle_root" v;
  mcrID ← string_member "mcr_id" v;
  mcrDigest ← string_member "mcr_lineage_digest" v;
  audit ← string_member "audit_replay_result" v;
  bypass ← member "raw_context_bypass_detected" v ≫= read_bool;
  status ← string_member "final_status" v;
  verified ← member "verified_at" v ≫= read_time;
  Some (mkReport releaseTag referenceHash wal snapshotHash version readiness handoff backpressure poison
          sessionMapID merkleRoot mcrID mcrDigest audit bypass status verified).

(** Finds a member of an object that is written out. *)
Ltac find_member :=
  match goal with |- context [member ?name ?v] =>
    let x := fresh in evar (x : JValue);
    let E := fresh in assert (member name v = Some x) as E by (unfold x; reflexivity);
    rewrite E; unfold x; clear E; clear x
  end.

(** The report with the stray bytes of its strings replaced. *)
Definition valid_report (r : StagingVerificationReport) : StagingVerificationReport :=
  mkReport (valid_string (ReleaseTag r)) (valid_string (ReferenceHash r))
    (valid_string (WalReplayResult r)) (valid_string (ReportSnapshotHash r)) (ReportSnapshotVersion r)
    (valid_string (ReadinessResult r)) (valid_string (HandoffResult r))
    (valid_string (BackpressureResult r)) (valid_string (PoisonDrillResult r))
    (valid_string (ReportSessionMapID r)) (valid_string (SessionMapMerkleRoot r))
    (valid_string (McrID r)) (valid_string (McrLineageDigest r)) (valid_string (AuditReplayResult r))
    (RawContextBypassDetected r) (valid_string (FinalStatus r)) (VerifiedAt r).

Lemma printable_report r t : printable 0 (report_json r (format_time t)).
Proof.
  constructor; [done|].
  repeat (apply List.Forall_cons; [split; [apply plain_literal; by repeat constructor|]|]);
    try apply List.Forall_nil; cbn [snd].
  all: first
    [ apply printable_json_string | constructor; apply decimal_number, dec_uint64_literal
    | constructor; apply plain_literal, format_time_plain | constructor ].
Qed.

Lemma read_json_string s : read_string (json_string s) = Some (valid_string s).
Proof. cbn [read_string json_string]. by rewrite unquote_escape. Qed.

Lemma two_blanks_spaces k : spaces (before two_blanks k).
Proof. constructor; [done|]. induction k; [constructor|]. by repeat constructor. Qed.

(** The report file holds the report: when [writeReport] returns nil, the file
    is a JSON text whose members give back the report, its strings with their
    stray bytes replaced. *)
Theorem report_roundtrip io r file :
  0 <= ReportSnapshotVersion r < 2 ^ 64 -> writeReport io r = (file, None) ->
  exists text v, file = Some text /\ parse text = Some v /\ read_report v = Some (valid_report r).
Proof.
  intros Hv (text & Et & ->)%write_file_ok. unfold Encode_report, time_MarshalJSON in Et.
  destruct (_ && _) eqn:Hy; [|done]. cbn [result_bind] in Et.
  set (v := report_json r (format_time (VerifiedAt r))) in Et.
  assert (text = print_with two_blanks 0 v ++ [x0a]) as -> by congruence. clear Et.
  exists (print_with two_blanks 0 v ++ [x0a]), v. split; [reflexivity|]. split.
  - apply parse_print_with; [apply two_blanks_spaces|by repeat constructor|apply printable_report|by repeat constructor].
  - unfold read_report, string_member, v, report_json. repeat find_member.
    cbn [mbind option_bind snd]. rewrite !read_json_string. cbn [mbind option_bind read_uint64 read_bool read_time].
    rewrite parseUint_dec_uint64 by lia. rewrite parse_format_time by (done || lia). reflexivity.
Qed.
