(* ===== verification/FixtureJson.v ===== *)
(** * The file of the drift fixtures ([benchmarks/axis_fixtures/generate.go])

    [main] writes the fixtures as indented JSON.  Floats are written as
    [encoding/json] writes them: the shortest decimal that reads back to the same
    float, as a plain decimal or, when very small or very large, with an exponent. *)
From S2P Require Import Prelude Sha256 Bitmask Tenant Evaluate Merkle SessionMap AuditReplay.
From S2P Require Import Quarantine Json GoTime EventJson Monitor Persistence Axis AxisWorker.
From S2P Require Import Gateway Inference Orchestrator Ops Staging ReportJson.
From Stdlib Require Import Floats.SpecFloat.

(** ** Decimals and floats *)

(** The float nearest to [d * 10^k]: [strconv.ParseFloat]. *)
Definition of_decimal (prec emax : Z) (d k : Z) : spec_float :=
  if 0 <=? k then binary_normalize prec emax (d * 10 ^ k) 0 false
  else match d, 10 ^ (- k) with
       | Zpos p, Zpos q => SFdiv prec emax (S754_finite false p 0) (S754_finite false q 0)
       | _, _ => S754_zero false
       end.

(** The shortest decimal of [n] digits or more, within [fuel] more: its digits
    [0.d * 10^dp], with [d] of that length.  Of two of a length, the nearer; of
    two as near, the even one. *)
Fixpoint shortest (prec emax : Z) (x : spec_float) (num den dp : Z) (fuel n : nat) : option (bytes * Z) :=
  match fuel with
  | O => None
  | S fuel' =>
      let scale := Z.of_nat n - dp in
      let num' := if 0 <=? scale then num * 10 ^ scale else num in
      let den' := if 0 <=? scale then den else den * 10 ^ (- scale) in
      let down := num' / den' in
      let decimal d := if d =? 10 ^ Z.of_nat n then (10 ^ (Z.of_nat n - 1), dp + 1) else (d, dp) in
      let reads d :=
        (10 ^ (Z.of_nat n - 1) <=? d) && (d <=? 10 ^ Z.of_nat n) &&
        bool_decide (of_decimal prec emax (decimal d).1 ((decimal d).2 - Z.of_nat n) = x) in
      let pick d := Some (dec_pad n (decimal d).1, (decimal d).2) in
      let nearer := match 2 * (num' mod den') ?= den' with
                    | Lt => down
                    | Gt => down + 1
                    | Eq => if Z.even down then down else down + 1
                    end in
      if reads nearer then pick nearer
      else if reads down then pick down
      else if reads (down + 1) then pick (down + 1)
      else shortest prec emax x num den dp fuel' (S n)
  end.

(** The least [dp] with [num / den < 10^dp], from a lower bound. *)
Fixpoint magnitude10 (num den dp : Z) (fuel : nat) : Z :=
  match fuel with
  | O => dp
  | S fuel' =>
      if (if 0 <=? dp then num <? den * 10 ^ dp else num * 10 ^ (- dp) <? den) then dp
      else magnitude10 num den (dp + 1) fuel'
  end.

Definition shortest_decimal (prec emax : Z) (m : positive) (e : Z) : option (bytes * Z) :=
  let num := if 0 <=? e then Z.pos m * 2 ^ e else Z.pos m in
  let den := if 0 <=? e then 1 else 2 ^ (- e) in
  let low := (Z.log2 (Z.pos m) + e) * 30103 / 100000 - 1 in
  shortest prec emax (S754_finite false m e) num den (magnitude10 num den low 4) 17 1.

(** ** The text of a float *)

(** [%f] and [%e] of the digits [ds] and the exponent [dp]. *)
Definition f_text (ds : bytes) (dp : Z) : bytes :=
  (if 0 <? dp then take (Z.to_nat dp) ds ++ replicate (Z.to_nat dp - length ds) x30 else [x30]) ++
  (if dp <? Z.of_nat (length ds) then x2e :: replicate (Z.to_nat (- dp)) x30 ++ drop (Z.to_nat dp) ds
   else []).

Definition dec_nat (z : Z) : bytes := strip_zeros (dec_pad (S (Z.to_nat (Z.log2 z))) z).

Definition e_text (ds : bytes) (dp : Z) : bytes :=
  let frac := drop 1 ds in
  take 1 ds ++ (match frac with [] => [] | _ => x2e :: frac end) ++
  x65 :: (if dp - 1 <? 0 then x2d else x2b) :: dec_nat (Z.abs (dp - 1)).

(** [floatEncoder]: [%e] below [1e-6] and from [1e21] on. *)
Definition float_text (prec emax : Z) (x : spec_float) : result bytes :=
  match x with
  | S754_nan => Err (errors_New "json: unsupported value: NaN")
  | S754_infinity s => Err (errors_New (if s then "json: unsupported value: -Inf" else "json: unsupported value: +Inf"))
  | S754_zero s => Ok (if s then [x2d; x30] else [x30])
  | S754_finite s m e =>
      match shortest_decimal prec emax m e with
      | None => Err (errors_New "unreachable")
      | Some (ds, dp) =>
          let abs := S754_finite false m e in
          let small := SFltb abs (of_decimal prec emax 1 (-6)) in
          let large := SFleb (of_decimal prec emax 1 21) abs in
          Ok ((if s then [x2d] else []) ++ (if small || large then e_text ds dp else f_text ds dp))
      end
  end.

(** ** Reading floats *)

(** [strconv.ParseFloat] of a JSON number. *)
Definition ParseFloat (prec emax : Z) (s : bytes) : option spec_float :=
  let (neg, s1) := match s with
    | b :: s1 => if Byte.eqb b x2d then (true, s1) else (false, s)
    | [] => (false, []) end in
  let (int, s2) := digits s1 in
  let (frac, s3) := match s2 with
    | b :: s3 => if Byte.eqb b x2e then digits s3 else ([], s2)
    | [] => ([], []) end in
  let exp := match s3 with
    | [] => Some 0
    | e :: sign :: ds =>
        if Byte.eqb e x65 then
          match parseUint ds 0 (digits_value ds) with
          | Some z => Some (if Byte.eqb sign x2d then - z else z)
          | None => None
          end
        else None
    | _ => None end in
  match exp with
  | None => None
  | Some exp =>
      match of_decimal prec emax (digits_value (int ++ frac)) (exp - Z.of_nat (length frac)) with
      | S754_finite _ m e => Some (S754_finite neg m e)
      | S754_zero _ => Some (S754_zero neg)
      | _ => None
      end
  end.

(** ** The file *)

Definition float_json (prec emax : Z) (x : spec_float) : result JValue :=
  let! text := float_text prec emax x in Ok (JNumber text).

(** A slice that is not nil. *)
Fixpoint vector_json (v : StructuralVector) : result (list JValue) :=
  match v with
  | [] => Ok []
  | x :: v' =>
      let! j := float_json 24 128 x in
      let! js := vector_json v' in
      Ok (j :: js)
  end.

Definition fixture_json (f : AxisFixture) : result JValue :=
  let! similarity := float_json 53 1024 (GlobalSimilarityExpectedMin f) in
  let! drift := float_json 53 1024 (AxisDriftExpectedMin f) in
  let! anchor := vector_json (FixtureAnchor f) in
  let! mutated := vector_json (FixtureMutated f) in
  Ok (JObject
    [ (bytes_of "fixture_id", json_string (FixtureID f));
      (bytes_of "category", json_string (Category f));
      (bytes_of "anchor_description", json_string (AnchorDescription f));
      (bytes_of "mutated_description", json_string (MutatedDescription f));
      (bytes_of "expected_drift_type", json_string (ExpectedDriftType f));
      (bytes_of "expected_reason_code", json_string (ExpectedReasonCode f));
      (bytes_of "global_similarity_expected_min", similarity);
      (bytes_of "axis_drift_expected_min", drift);
      (bytes_of "anchor_vector", JArray anchor);
      (bytes_of "mutated_vector", JArray mutated) ]).

Fixpoint fixtures_json (fs : list AxisFixture) : result (list JValue) :=
  match fs with
  | [] => Ok []
  | f :: fs' =>
      let! j := fixture_json f in
      let! js := fixtures_json fs' in
      Ok (j :: js)
  end.

(** [encoder.Encode(fixtures)] after [SetIndent("", "  ")]. *)
Definition Encode_fixtures (fs : list AxisFixture) : result bytes :=
  let! js := fixtures_json fs in Ok (print_with two_blanks 0 (JArray js) ++ [x0a]).

(** [main]: the file it leaves, if it could create one, and the error it prints. *)
Definition fixtures_main (MkdirAll : option error) (io : report_io) : option bytes * option error :=
  match MkdirAll with
  | Some e => (None, Some e)
  | None => write_file io (Encode_fixtures fixtures)
  end.

(** ** The text of a float is a number that reads back to it *)

Lemma shortest_spec prec emax x num den dp fuel n ds dp' :
  (1 <= n)%nat -> shortest prec emax x num den dp fuel n = Some (ds, dp') ->
  exists k d, ds = dec_pad k d /\ (1 <= k)%nat /\ 10 ^ (Z.of_nat k - 1) <= d < 10 ^ Z.of_nat k /\
              of_decimal prec emax d (dp' - Z.of_nat k) = x.
Proof.
  revert n. induction fuel as [|fuel IH]; intros n Hn; [done|]. cbn [shortest].
  set (decimal := fun d => if d =? 10 ^ Z.of_nat n then (10 ^ (Z.of_nat n - 1), dp + 1) else (d, dp)).
  set (reads := fun d => (10 ^ (Z.of_nat n - 1) <=? d) && (d <=? 10 ^ Z.of_nat n) &&
        bool_decide (of_decimal prec emax (decimal d).1 ((decimal d).2 - Z.of_nat n) = x)).
  assert (forall d, reads d = true -> Some (dec_pad n (decimal d).1, (decimal d).2) = Some (ds, dp') ->
    exists k d, ds = dec_pad k d /\ (1 <= k)%nat /\ 10 ^ (Z.of_nat k - 1) <= d < 10 ^ Z.of_nat k /\
              of_decimal prec emax d (dp' - Z.of_nat k) = x) as Hpick.
  { intros d Hr. unfold reads in Hr. rewrite !andb_true_iff, bool_decide_eq_true in Hr.
    destruct Hr as [[Hl%Z.leb_le Hu%Z.leb_le] Hx]. intros [= <- <-]. exists n, (decimal d).1.
    split; [done|]. split; [done|]. split; [|exact Hx]. unfold decimal.
    destruct (Z.eqb_spec d (10 ^ Z.of_nat n)) as [E|E]; cbn [fst]; [|lia].
    split; [lia|]. apply Z.pow_lt_mono_r; lia. }
  cbv zeta. fold decimal.
  repeat match goal with
  | |- (if ?c then _ else _) = _ -> _ => destruct c eqn:?; [by apply Hpick|]
  end.
  apply IH. lia.
Qed.

(** A number in parts: sign, integer, fraction, exponent. *)
Definition number_text (neg : bool) (int frac exp : bytes) : bytes :=
  (if neg then [x2d] else []) ++ int ++ (match frac with [] => [] | _ => x2e :: frac end) ++ exp.

Definition all_digits (ds : bytes) : Prop := Forall (fun d => is_digit d = true) ds.

Definition exponent_ok (exp : bytes) (z : Z) : Prop :=
  exp = [] /\ z = 0 \/
  exists sign ds, exp = x65 :: sign :: ds /\ (sign = x2d \/ sign = x2b) /\ ds <> [] /\ all_digits ds /\
                  z = if Byte.eqb sign x2d then - digits_value ds else digits_value ds.

(** Where the digits end. *)
Definition digits_stop (rest : bytes) : Prop :=
  match rest with [] => True | b :: _ => is_digit b = false end.

Lemma digits_stop_app ds rest : all_digits ds -> digits_stop rest -> digits (ds ++ rest) = (ds, rest).
Proof.
  intros Hd Hs. induction Hd as [|d ds Hd _ IH]; cbn [app digits]; [|by rewrite Hd, IH].
  destruct rest as [|b rest]; [done|]. cbn [digits]. by rewrite Hs.
Qed.

Lemma number_stop_digits rest : number_stop rest -> digits_stop rest.
Proof. destruct rest; [done|]. by intros [? _]. Qed.

Lemma decimal_literal_digits int : decimal_literal int -> int <> [] /\ all_digits int.
Proof. intros [->|(b & ds & -> & Hb & _ & Hd)]; split; try done; by constructor. Qed.

Lemma integer_literal int rest : decimal_literal int -> digits_stop rest -> integer (int ++ rest) = Some (int, rest).
Proof.
  intros [->|(b & ds & -> & Hb & Hz & Hd)] Hs; [done|]. cbn [app integer]. rewrite Hz, Hb.
  rewrite app_comm_cons, digits_stop_app; [done|by constructor|done].
Qed.

Lemma digits_value_bound ds : all_digits ds -> 0 <= digits_value ds < 10 ^ Z.of_nat (length ds).
Proof.
  intros Hd. induction ds as [|d ds IH] using rev_ind; [done|]. apply Forall_app in Hd as [Hds Hd].
  rewrite digits_value_app, length_app, Nat2Z.inj_add, Z.pow_add_r by lia.
  rewrite Forall_singleton in Hd. specialize (IH Hds).
  assert (0 <= digits_value [d] < 10).
  { destruct d; (vm_compute in Hd; discriminate Hd) ||
      (split; [apply Z.leb_le|apply Z.ltb_lt]; vm_compute; reflexivity). }
  cbn [length]. lia.
Qed.

Section number_text.
Context (neg : bool) (int frac exp : bytes) (z : Z).
Hypothesis int_ok : decimal_literal int.
Hypothesis frac_ok : all_digits frac.
Hypothesis exp_ok : exponent_ok exp z.

Lemma exp_stop rest : number_stop rest -> digits_stop (exp ++ rest).
Proof. intros Hs. destruct exp_ok as [[-> _]|(sg & ds & -> & _)]; [by apply number_stop_digits|done]. Qed.

Lemma exp_scan rest : number_stop rest -> exponent (exp ++ rest) = Some (exp, rest).
Proof.
  intros Hs. destruct exp_ok as [[-> _]|(sg & ds & -> & Hsg & Hne & Hd & _)]; [by apply exponent_stop|].
  cbn [app exponent]. eval_bytes.
  assert (Byte.eqb sg x2b || Byte.eqb sg x2d = true) as -> by (by destruct Hsg as [-> | ->]).
  rewrite digits_stop_app by (done || by apply number_stop_digits).
  by rewrite bool_decide_eq_false_2.
Qed.

Lemma frac_scan rest :
  number_stop rest ->
  fraction ((match frac with [] => [] | _ => x2e :: frac end) ++ exp ++ rest)
  = Some (match frac with [] => [] | _ => x2e :: frac end, exp ++ rest).
Proof.
  intros Hs. pose proof frac_ok as Hf. destruct frac as [|d fr]; cbn [app fraction].
  - destruct exp_ok as [[-> _]|(sg & ds & -> & _)]; [by apply fraction_stop|]. reflexivity.
  - eval_bytes. rewrite app_comm_cons, digits_stop_app by (done || by apply exp_stop).
    by rewrite bool_decide_eq_false_2.
Qed.

Lemma number_text_literal : number_literal (number_text neg int frac exp).
Proof.
  destruct (decimal_literal_digits int int_ok) as [Hne Hd].
  destruct int as [|b ds] eqn:Ei; [done|]. pose proof Hd as Hb. apply Forall_cons in Hb as [Hb _].
  split.
  - unfold number_text. destruct neg; cbn [app]; eexists _, _; (split; [reflexivity|]); auto.
  - intros rest Hs. unfold number_text. rewrite <-!app_assoc.
    assert (digits_stop ((match frac with [] => [] | _ => x2e :: frac end) ++ exp ++ rest)) as Hstop
      by (destruct frac; [by apply exp_stop|done]).
    unfold scan_number. destruct neg; cbn [app]; eval_bytes.
    + rewrite app_comm_cons, integer_literal, frac_scan, exp_scan by done. reflexivity.
    + rewrite digit_not_minus by done. rewrite app_comm_cons, integer_literal, frac_scan, exp_scan by done.
      reflexivity.
Qed.

Lemma ParseFloat_number_text prec emax :
  ParseFloat prec emax (number_text neg int frac exp) =
  match of_decimal prec emax (digits_value (int ++ frac)) (z - Z.of_nat (length frac)) with
  | S754_finite _ m e => Some (S754_finite neg m e)
  | S754_zero _ => Some (S754_zero neg)
  | _ => None
  end.
Proof.
  destruct (decimal_literal_digits int int_ok) as [Hne Hd].
  pose proof (exp_stop [] I) as Hes. rewrite app_nil_r in Hes.
  assert (digits_stop ((match frac with [] => [] | _ => x2e :: frac end) ++ exp)) as Hstop by (by destruct frac).
  assert (forall ds, all_digits ds -> parseUint ds 0 (digits_value ds) = Some (digits_value ds)) as Hp.
  { intros ds Hds. unfold parseUint. rewrite forallb_digits by done.
    pose proof (proj1 (digits_value_bound ds Hds)). by rewrite (proj2 (Z.leb_le _ _)), Z.leb_refl by done. }
  assert (ParseFloat prec emax (number_text neg int frac exp) =
    let (f, s3) := match (match frac with [] => [] | _ => x2e :: frac end) ++ exp with
                   | b :: s3 => if Byte.eqb b x2e then digits s3 else ([], b :: s3) | [] => ([], []) end in
    match (match s3 with
           | [] => Some 0
           | e :: sign :: ds =>
               if Byte.eqb e x65 then
                 match parseUint ds 0 (digits_value ds) with
                 | Some z => Some (if Byte.eqb sign x2d then - z else z)
                 | None => None
                 end
               else None
           | _ => None end) with
    | None => None
    | Some exp =>
        match of_decimal prec emax (digits_value (int ++ f)) (exp - Z.of_nat (length f)) with
        | S754_finite _ m e => Some (S754_finite neg m e)
        | S754_zero _ => Some (S754_zero neg)
        | _ => None
        end
    end) as ->.
  { unfold ParseFloat, number_text. destruct int as [|b ds] eqn:Ei; [done|].
    apply Forall_cons in Hd as Hb. destruct Hb as [Hb _].
    destruct neg; cbn [app]; eval_bytes; [|rewrite digit_not_minus by done];
      rewrite app_comm_cons, digits_stop_app by done;
      destruct ((match frac with [] => [] | _ => x2e :: frac end) ++ exp) eqn:?; reflexivity. }
  assert (forall f, match exp with
      | [] => Some 0
      | e :: sign :: ds =>
          if Byte.eqb e x65 then
            match parseUint ds 0 (digits_value ds) with
            | Some z => Some (if Byte.eqb sign x2d then - z else z)
            | None => None
            end
          else None
      | _ => f end = Some z) as Hexp.
  { intros f. destruct exp_ok as [[-> ->]|(sg & ds & -> & _ & _ & Hds & ->)]; [done|].
    eval_bytes. by rewrite Hp. }
  pose proof frac_ok as Hf. destruct frac as [|d fr]; cbn [app].
  - destruct exp as [|b exp']; [by destruct exp_ok as [[_ ->]|(? & ? & [=] & _)]|].
    assert (Byte.eqb b x2e = false) as -> by (by destruct exp_ok as [[[=] _]|(? & ? & [= -> _] & _)]).
    by rewrite Hexp.
  - eval_bytes. rewrite app_comm_cons, digits_stop_app by done. by rewrite Hexp.
Qed.
End number_text.

(** *** The two formats *)

Lemma of_decimal_shift prec emax d j : 0 <= j -> of_decimal prec emax (d * 10 ^ j) 0 = of_decimal prec emax d j.
Proof. intros Hj. unfold of_decimal. rewrite (proj2 (Z.leb_le 0 j)) by done. by rewrite Z.leb_refl, Z.mul_1_r. Qed.

Lemma dec_pad_leading k d :
  (1 <= k)%nat -> 10 ^ (Z.of_nat k - 1) <= d < 10 ^ Z.of_nat k ->
  exists b ds, dec_pad k d = b :: ds /\ Byte.eqb b x30 = false.
Proof.
  intros Hk Hd. destruct (dec_pad k d) as [|b ds] eqn:E.
  { apply (f_equal length) in E. rewrite length_dec_pad in E. cbn in E. lia. }
  exists b, ds. split; [done|]. destruct (Byte.eqb b x30) eqn:Eb; [|done]. apply Byte.byte_dec_bl in Eb as ->.
  pose proof (dec_pad_digits k d) as Hds. pose proof (length_dec_pad k d) as Hl.
  pose proof (digits_value_dec_pad k d) as Hv. rewrite E in Hds, Hl, Hv. cbn [length] in Hl.
  apply Forall_cons in Hds as [_ Hds%digits_value_bound].
  rewrite Z.mod_small in Hv by lia. change (x30 :: ds) with ([x30] ++ ds) in Hv.
  rewrite digits_value_app in Hv. change (digits_value [x30]) with 0 in Hv.
  replace (Z.of_nat (length ds)) with (Z.of_nat k - 1) in Hds by lia. lia.
Qed.

Lemma dec_nat_value a : 0 <= a -> all_digits (dec_nat a) /\ dec_nat a <> [] /\ digits_value (dec_nat a) = a.
Proof.
  intros Ha. destruct (strip_zeros_spec (dec_pad (S (Z.to_nat (Z.log2 a))) a)) as (Hl & Hd & Hv);
    [apply dec_pad_digits|done|].
  split; [done|]. split; [by apply decimal_literal_digits|]. unfold dec_nat.
  rewrite Hv, digits_value_dec_pad. apply Z.mod_small. split; [done|].
  destruct (Z.eq_dec a 0) as [->|]; [done|].
  destruct (Z.log2_spec a) as [_ Hlog]; [lia|]. pose proof (Z.log2_nonneg a).
  rewrite Nat2Z.inj_succ, Z2Nat.id by lia.
  eapply Z.lt_le_trans; [exact Hlog|]. apply Z.pow_le_mono_l. lia.
Qed.

(** Both formats of the digits of [d * 10^(dp - k)] are numbers with that value. *)
Section formats.
Context (prec emax : Z) (neg : bool) (k : nat) (d dp : Z) (m : positive) (e : Z).
Hypothesis k_pos : (1 <= k)%nat.
Hypothesis d_bound : 10 ^ (Z.of_nat k - 1) <= d < 10 ^ Z.of_nat k.
Hypothesis d_value : of_decimal prec emax d (dp - Z.of_nat k) = S754_finite false m e.

(** What [float_text] promises its reader. *)
Definition reads_back (text : bytes) (x : spec_float) : Prop :=
  number_literal text /\ ParseFloat prec emax text = Some x.

Lemma d_digits : digits_value (dec_pad k d) = d.
Proof. rewrite digits_value_dec_pad. apply Z.mod_small. pose proof (Z.pow_nonneg 10 (Z.of_nat k - 1)). lia. Qed.

Lemma parts_read_back int frac exp z :
  decimal_literal int -> all_digits frac -> exponent_ok exp z ->
  of_decimal prec emax (digits_value (int ++ frac)) (z - Z.of_nat (length frac)) = S754_finite false m e ->
  reads_back (number_text neg int frac exp) (S754_finite neg m e).
Proof.
  intros Hi Hf He Hv. split; [by apply (number_text_literal neg int frac exp z)|].
  by rewrite (ParseFloat_number_text neg int frac exp z), Hv.
Qed.

(** The digits in front of the point, at least one. *)
Lemma leading_literal n zeros : (1 <= n)%nat -> decimal_literal (take n (dec_pad k d) ++ replicate zeros x30).
Proof.
  intros Hn. destruct (dec_pad_leading k d k_pos d_bound) as (b & ds & E & Hb).
  pose proof (dec_pad_digits k d) as Hd. rewrite E in *. apply Forall_cons in Hd as [Hb' Hds].
  destruct n as [|n]; [lia|]. right. exists b, (take n ds ++ replicate zeros x30). split; [done|].
  split; [done|]. split; [done|]. apply Forall_app. split; [by apply Forall_take|].
  by apply Forall_replicate.
Qed.

Lemma f_text_reads_back :
  reads_back ((if neg then [x2d] else []) ++ f_text (dec_pad k d) dp) (S754_finite neg m e).
Proof.
  pose proof (dec_pad_digits k d) as Hd. pose proof d_digits as Hv. pose proof (length_dec_pad k d) as Hl.
  assert (exponent_ok [] 0) as He by by left.
  unfold f_text. rewrite Hl.
  destruct (Z.ltb_spec 0 dp) as [Hp|Hp]; destruct (Z.ltb_spec dp (Z.of_nat k)) as [Hq|Hq]; [| | |lia].
  - replace (Z.to_nat dp - k)%nat with 0%nat by lia. replace (Z.to_nat (- dp)) with 0%nat by lia.
    cbn [replicate]. rewrite app_nil_r. cbn [app].
    pose proof (parts_read_back (take (Z.to_nat dp) (dec_pad k d)) (drop (Z.to_nat dp) (dec_pad k d)) [] 0) as Hr.
    unfold number_text in Hr. rewrite app_nil_r in Hr.
    destruct (drop (Z.to_nat dp) (dec_pad k d)) as [|c frac] eqn:Ed.
    { apply (f_equal length) in Ed. rewrite length_drop, Hl in Ed. cbn in Ed. lia. }
    rewrite <-Ed in *. apply Hr; [|by apply Forall_drop|done|].
    + rewrite <-(app_nil_r (take _ _)). apply (leading_literal _ 0). lia.
    + rewrite take_drop, Hv, length_drop, Hl, Nat2Z.inj_sub, Z2Nat.id by lia.
      by replace (0 - (Z.of_nat k - dp)) with (dp - Z.of_nat k) by lia.
  - rewrite app_nil_r.
    pose proof (parts_read_back (take (Z.to_nat dp) (dec_pad k d) ++ replicate (Z.to_nat dp - k) x30) [] [] 0) as Hr.
    unfold number_text in Hr. rewrite !app_nil_r in Hr. apply Hr; [apply leading_literal; lia|constructor|done|].
    rewrite take_ge by lia. rewrite digits_value_app, digits_value_zeros, length_replicate, Hv, Z.add_0_r.
    cbn [length]. change (0 - Z.of_nat 0) with 0.
    replace (Z.of_nat (Z.to_nat dp - k)) with (dp - Z.of_nat k) by lia.
    rewrite of_decimal_shift by lia. exact d_value.
  - replace (Z.to_nat dp) with 0%nat by lia. rewrite drop_0.
    pose proof (parts_read_back [x30] (replicate (Z.to_nat (- dp)) x30 ++ dec_pad k d) [] 0) as Hr.
    unfold number_text in Hr. rewrite app_nil_r in Hr.
    destruct (replicate (Z.to_nat (- dp)) x30 ++ dec_pad k d) as [|c frac] eqn:Ed.
    { apply (f_equal length) in Ed. rewrite length_app, Hl in Ed. cbn in Ed. lia. }
    rewrite <-Ed in *. apply Hr; [by left| |done|].
    + apply Forall_app. split; [by apply Forall_replicate|done].
    + change ([x30] ++ replicate (Z.to_nat (- dp)) x30 ++ dec_pad k d)
        with (replicate (S (Z.to_nat (- dp))) x30 ++ dec_pad k d).
      rewrite digits_value_app, digits_value_zeros, Hv, length_app, length_replicate, Hl.
      replace (0 - Z.of_nat (Z.to_nat (- dp) + k)) with (dp - Z.of_nat k) by lia. exact d_value.
Qed.

Lemma e_text_reads_back :
  reads_back ((if neg then [x2d] else []) ++ e_text (dec_pad k d) dp) (S754_finite neg m e).
Proof.
  pose proof (dec_pad_digits k d) as Hd. pose proof d_digits as Hv. pose proof (length_dec_pad k d) as Hl.
  destruct (dec_nat_value (Z.abs (dp - 1))) as (Hn & Hne & Ha); [lia|].
  apply (parts_read_back (take 1 (dec_pad k d)) (drop 1 (dec_pad k d))
    (x65 :: (if dp - 1 <? 0 then x2d else x2b) :: dec_nat (Z.abs (dp - 1))) (dp - 1)).
  - rewrite <-(app_nil_r (take _ _)). by apply (leading_literal 1 0).
  - by apply Forall_drop.
  - right. eexists _, _. split; [reflexivity|]. rewrite Ha.
    destruct (Z.ltb_spec (dp - 1) 0); (split; [auto|]); do 2 (split; [done|]).
    + change (Byte.eqb x2d x2d) with true. cbv iota. lia.
    + change (Byte.eqb x2b x2d) with false. cbv iota. lia.
  - rewrite take_drop, Hv, length_drop, Hl, Nat2Z.inj_sub by lia.
    by replace (dp - 1 - (Z.of_nat k - Z.of_nat 1)) with (dp - Z.of_nat k) by lia.
Qed.
End formats.

(** A float is written as a number that reads back to the same float. *)
Lemma float_text_reads_back prec emax x text :
  float_text prec emax x = Ok text -> reads_back prec emax text x.
Proof.
  destruct x as [s|s| |s m e]; cbn [float_text]; [| done | done |].
  - assert (forall neg, reads_back prec emax (number_text neg [x30] [] []) (S754_zero neg)) as Hz.
    { intros neg. split; [apply (number_text_literal neg [x30] [] [] 0)|rewrite (ParseFloat_number_text neg [x30] [] [] 0); [done|..]];
        by constructor || by left. }
    destruct s; intros [= <-]; [apply (Hz true)|apply (Hz false)].
  - destruct (shortest_decimal prec emax m e) as [[ds dp]|] eqn:E; [|done].
    apply shortest_spec in E as (k & d & -> & Hk & Hd & Hx); [|lia].
    intros E. apply (f_equal (fun r => match r with Ok t => Some t | Err _ => None end)) in E. injection E as <-.
    destruct (_ || _); [by apply (e_text_reads_back prec emax s k d dp m e)|by apply (f_text_reads_back prec emax s k d dp m e)].
Qed.

(** ** Reading the file back *)

Definition read_float (prec emax : Z) (v : JValue) : option spec_float :=
  match v with JNumber lit => ParseFloat prec emax lit | _ => None end.

Definition read_vector (v : JValue) : option StructuralVector :=
  match v with JArray vs => mapM (read_float 24 128) vs | _ => None end.

Definition read_fixture (v : JValue) : option AxisFixture :=
  id ← string_member "fixture_id" v;
  category ← string_member "category" v;
  anchorDescription ← string_member "anchor_description" v;
  mutatedDescription ← string_member "mutated_description" v;
  driftType ← string_member "expected_drift_type" v;
  reasonCode ← string_member "expected_reason_code" v;
  similarity ← member "global_similarity_expected_min" v ≫= read_float 53 1024;
  drift ← member "axis_drift_expected_min" v ≫= read_float 53 1024;
  anchor ← member "anchor_vector" v ≫= read_vector;
  mutated ← member "mutated_vector" v ≫= read_vector;
  Some (mkFixture id category anchorDescription mutatedDescription driftType reasonCode similarity drift
          anchor mutated).

Definition read_fixtures (v : JValue) : option (list AxisFixture) :=
  match v with JArray vs => mapM read_fixture vs | _ => None end.

(** The fixture with the stray bytes of its strings replaced. *)
Definition valid_fixture (f : AxisFixture) : AxisFixture :=
  mkFixture (valid_string (FixtureID f)) (valid_string (Category f)) (valid_string (AnchorDescription f))
    (valid_string (MutatedDescription f)) (valid_string (ExpectedDriftType f))
    (valid_string (ExpectedReasonCode f)) (GlobalSimilarityExpectedMin f) (AxisDriftExpectedMin f)
    (FixtureAnchor f) (FixtureMutated f).

Lemma float_json_ok prec emax x j d :
  float_json prec emax x = Ok j -> printable d j /\ read_float prec emax j = Some x.
Proof.
  unfold float_json. destruct (float_text prec emax x) as [text|] eqn:E; [|done]. intros [= <-].
  apply float_text_reads_back in E as [Hn Hp]. by split; [constructor|].
Qed.

Lemma vector_json_ok v js d :
  vector_json v = Ok js -> Forall (printable d) js /\ mapM (read_float 24 128) js = Some v.
Proof.
  revert js. induction v as [|x v IH]; cbn [vector_json]; intros js; [by intros [= <-]|].
  destruct (float_json 24 128 x) as [j|] eqn:Ej; [|done]. destruct (vector_json v) as [js'|]; [|done].
  intros [= <-]. destruct (float_json_ok _ _ _ _ d Ej) as [Hp Hr]. destruct (IH js' eq_refl) as [Hps Hrs].
  split; [by constructor|]. cbn. by rewrite Hr, Hrs.
Qed.

Lemma fixture_json_ok f j d :
  d + 1 < maxNestingDepth -> fixture_json f = Ok j -> printable d j /\ read_fixture j = Some (valid_fixture f).
Proof.
  intros Hd. unfold fixture_json.
  destruct (float_json 53 1024 (GlobalSimilarityExpectedMin f)) as [similarity|] eqn:Es; [|done].
  destruct (float_json 53 1024 (AxisDriftExpectedMin f)) as [drift|] eqn:Ed; [|done].
  destruct (vector_json (FixtureAnchor f)) as [anchor|] eqn:Ea; [|done].
  destruct (vector_json (FixtureMutated f)) as [mutated|] eqn:Em; [|done].
  cbn [result_bind]. intros E.
  apply (float_json_ok _ _ _ _ (d + 1)) in Es as [Hs1 Hs2], Ed as [Hd1 Hd2].
  apply (vector_json_ok _ _ (d + 1 + 1)) in Ea as [Ha1 Ha2], Em as [Hm1 Hm2].
  match type of E with Ok ?v = _ => assert (j = v) as -> by congruence end. clear E. split.
  - constructor; [lia|].
    repeat (apply List.Forall_cons; [split; [apply plain_literal; by repeat constructor|]|]);
      try apply List.Forall_nil; cbn [snd]; try done; try apply printable_json_string; by constructor.
  - unfold read_fixture, string_member. repeat find_member. cbn [mbind option_bind snd].
    rewrite !read_json_string. cbn [mbind option_bind read_vector].
    rewrite Hs2, Hd2. cbn [mbind option_bind]. rewrite Ha2, Hm2. reflexivity.
Qed.

Lemma fixtures_json_ok fs js d :
  d + 1 < maxNestingDepth -> fixtures_json fs = Ok js ->
  Forall (printable d) js /\ mapM read_fixture js = Some (valid_fixture <$> fs).
Proof.
  intros Hd. revert js. induction fs as [|f fs IH]; cbn [fixtures_json]; intros js; [by intros [= <-]|].
  destruct (fixture_json f) as [j|] eqn:Ej; [|done]. destruct (fixtures_json fs) as [js'|]; [|done].
  intros [= <-]. destruct (fixture_json_ok _ _ d Hd Ej) as [Hp Hr]. destruct (IH js' eq_refl) as [Hps Hrs].
  split; [by constructor|]. cbn. by rewrite Hr, Hrs.
Qed.

Lemma Encode_fixtures_ok fs text :
  Encode_fixtures fs = Ok text ->
  exists v, parse text = Some v /\ read_fixtures v = Some (valid_fixture <$> fs).
Proof.
  unfold Encode_fixtures. destruct (fixtures_json fs) as [js|] eqn:E; [|done]. cbn [result_bind]. intros Et.
  assert (text = print_with two_blanks 0 (JArray js) ++ [x0a]) as -> by congruence. clear Et.
  apply (fixtures_json_ok _ _ 1) in E as [Hp Hr]; [|done]. exists (JArray js). split; [|exact Hr].
  apply parse_print_with; [apply two_blanks_spaces|by repeat constructor|by constructor|by repeat constructor].
Qed.

(** *** The generator's own fixtures *)

Definition utf8_fixture (f : AxisFixture) : bool :=
  forallb (fun s => utf8_Valid (bytes_of s))
    [FixtureID f; Category f; AnchorDescription f; MutatedDescription f; ExpectedDriftType f; ExpectedReasonCode f].

Lemma valid_fixture_id f : utf8_fixture f = true -> valid_fixture f = f.
Proof.
  unfold utf8_fixture, valid_fixture. cbn [forallb]. rewrite !andb_true_iff.
  intros (H1 & H2 & H3 & H4 & H5 & H6 & _). rewrite !valid_string_id by done. by destruct f.
Qed.

Lemma fixtures_utf8 : valid_fixture <$> fixtures = fixtures.
Proof.
  assert (forallb utf8_fixture fixtures = true) as H by (vm_compute; reflexivity).
  rewrite forallb_forall in H. rewrite <-(list_fmap_id fixtures) at 2.
  apply list_fmap_ext. intros i f Hf. apply valid_fixture_id, H, list_elem_of_In. by eapply list_elem_of_lookup_2.
Qed.

(** A float has a shortest decimal; so a vector is written when its distinct floats are. *)
Definition written_float (x : spec_float) : bool := is_ok (float_json 24 128 x).

Definition fixture_vectors (f : AxisFixture) : list spec_float := FixtureAnchor f ++ FixtureMutated f.

Definition fixture_scalars (f : AxisFixture) : bool :=
  is_ok (float_json 53 1024 (GlobalSimilarityExpectedMin f)) && is_ok (float_json 53 1024 (AxisDriftExpectedMin f)).

Lemma vector_json_total v : Forall (fun x => written_float x = true) v -> is_ok (vector_json v) = true.
Proof.
  induction 1 as [|x v Hx _ IH]; [done|]. unfold written_float in Hx. cbn [vector_json].
  destruct (float_json 24 128 x); [|done]. by destruct (vector_json v).
Qed.

Lemma fixtures_json_total_distinct fs :
  forallb fixture_scalars fs = true ->
  forallb written_float (remove_dups (mjoin (fixture_vectors <$> fs))) = true ->
  is_ok (fixtures_json fs) = true.
Proof.
  rewrite !forallb_forall. intros Hs Hd.
  assert (forall f x, f ∈ fs -> x ∈ fixture_vectors f -> written_float x = true) as Hx.
  { intros f x Hf Hx. apply Hd, list_elem_of_In, elem_of_remove_dups, list_elem_of_join.
    exists (fixture_vectors f). split; [done|]. by apply list_elem_of_fmap_2. }
  clear Hd. induction fs as [|f fs IH]; [done|]. cbn [fixtures_json]. unfold fixture_json.
  assert (forall v, (forall x, x ∈ v -> x ∈ fixture_vectors f) -> is_ok (vector_json v) = true) as Hv.
  { intros v Hin. apply vector_json_total, Forall_forall. intros x Hxv. apply (Hx f); [left|by apply Hin]. }
  pose proof (Hv (FixtureAnchor f) ltac:(intros x ?; apply elem_of_app; by left)) as Ha.
  pose proof (Hv (FixtureMutated f) ltac:(intros x ?; apply elem_of_app; by right)) as Hm.
  pose proof (Hs f (or_introl eq_refl)) as [H1 H2]%andb_true_iff.
  destruct (float_json 53 1024 (GlobalSimilarityExpectedMin f)); [|done].
  destruct (float_json 53 1024 (AxisDriftExpectedMin f)); [|done].
  destruct (vector_json (FixtureAnchor f)); [|done]. destruct (vector_json (FixtureMutated f)); [|done].
  cbn [result_bind]. specialize (IH (fun g Hg => Hs g (or_intror Hg)) (fun g x Hg => Hx g x ltac:(by right))).
  by destruct (fixtures_json fs).
Qed.

(** Every float of the fixtures has a shortest decimal. *)
Lemma fixtures_json_total : is_ok (fixtures_json fixtures) = true.
Proof. apply fixtures_json_total_distinct; vm_compute; reflexivity. Qed.

Lemma fixtures_written io fs :
  created io = None -> written io = IoOk -> is_ok (fixtures_json fs) = true ->
  exists text v, write_file io (Encode_fixtures fs) = (Some text, None) /\
    parse text = Some v /\ read_fixtures v = Some (valid_fixture <$> fs).
Proof.
  intros Hc Hw Hok. destruct (Encode_fixtures fs) as [text|err] eqn:E.
  - destruct (Encode_fixtures_ok _ _ E) as (v & Hp & Hr). exists text, v.
    split; [|done]. unfold write_file. by rewrite Hc, Hw.
  - exfalso. unfold Encode_fixtures in E. by destruct (fixtures_json fs).
Qed.

(** C25. The generator succeeds and loses nothing: when the directory and the file can
    be made and the write succeeds, it reports no error, and the file is a JSON
    text from which all its fixtures read back, the floats of the vectors bit
    for bit. *)
Theorem fixtures_main_reads_back io :
  created io = None -> written io = IoOk ->
  exists text v, fixtures_main None io = (Some text, None) /\
    parse text = Some v /\ read_fixtures v = Some fixtures.
Proof.
  intros Hc Hw.
  destruct (fixtures_written io fixtures Hc Hw fixtures_json_total) as (text & v & Hf & Hp & Hr).
  rewrite fixtures_utf8 in Hr. exists text, v. exact (conj Hf (conj Hp Hr)).
Qed.

Lemma fixtures_main_reads_back_witness :
  exists text v, fixtures_main None (mkReportIo None IoOk) = (Some text, None) /\
    parse text = Some v /\ read_fixtures v = Some fixtures.
Proof. exact (fixtures_main_reads_back (mkReportIo None IoOk) eq_refl eq_refl). Defined.

(** The first floats of the committed [fixtures.json]. *)
Example fixture_floats_golden :
  float_text 53 1024 (f64_const 95 100) = Ok (bytes_of "0.95") /\
  (head fixtures ≫= fun f => mapM (fun x => match float_text 24 128 x with Ok t => Some (string_of t) | Err _ => None end)
     (take 4 (FixtureAnchor f))) = Some ["0.0029597976"; "0.0059195952"; "0.008879393"; "0.0118391905"].
Proof. vm_compute. by split. Qed.
